(* ===== verification/_CoqProject ===== *)
-Q . S2P
Prelude.v
GoStrings.v
GoUrl.v
GoConv.v
Blocklist.v
Loader.v
Dns.v
Cache.v
Timeline.v
Stats.v
GoRegexp.v
GoNet.v
Lan.v
ReverseZones.v
LocalNames.v
Redact.v
Edns.v
Upstream.v
Failures.v
QueryLog.v
QueryReads.v
Handler.v
Config.v
ZeroFile.v
WipeWAL.v
StaleRows.v
LogFiles.v
Dot.v
Lifecycle.v
ErrorLog.v
Logging.v
ClientNames.v
AdminSecurity.v
ApiFormat.v
Metrics.v
Api.v
AdminServe.v
Purge.v
Report.v
Acl.v
Service.v
MainLoop.v
Host.v
Startup.v
LintRules.v
LintDirective.v
Lint.v
LintLoad.v
