(* ===== verification/Prelude.v ===== *)
(** * s-hole: a verification library of the DNS sinkhole

    s-hole answers the DNS queries of a local network: it blocks the names of
    downloaded lists, answers local names itself, and forwards the rest to
    upstream resolvers over plain DNS or DNS over HTTPS, with a cache. It has a
    dashboard on an admin HTTP server, an optional log of queries in a file or
    an SQLite database, DNS over TLS with a certificate that is reloaded, and
    commands to check the configuration, to purge what is stored and to run as a
    Windows service. A lint of its own looks for code that could leak what a
    client asked.

    The library translates this program into Rocq functions and step relations
    and proves what makes its parts correct. The names of the definitions are
    the names of the code; where two parts use one name, the file name tells
    them apart. Every file opens with what it holds. This first file is the
    prelude: the rewriting and case tactics, machine integers, time, and the
    lemmas on lists, maps and sums that the components share.

    ** The parts and the files that model them

    Go's standard library, as far as s-hole uses it:
    - GoStrings, GoConv, GoUrl, GoNet: strings as bytes, numbers and durations
      with their width, URLs, addresses and prefixes. Unicode case tables,
      [url.Parse] and quoting outside ASCII are classes.
    - GoRegexp: the regular expressions of the repository and the replacement
      of their matches, in the order of a backtracking search.

    The path of a query (internal/dnsserver, internal/blocklist,
    internal/cache, internal/stats):
    - Blocklist (store.go): the lookup over parent names, the allowlist, the
      explanation; Loader (loader.go): the list parser, the download with its
      cache file and fallback, the refresh, the purge of the cache directory.
    - Dns: messages, and the DNS library as the class [MiekgDNS] with its
      documented laws and a concrete instance; Edns (edns.go): the upstream
      query and the reply, with padding and the size limits.
    - Cache (cache.go), Stats and Timeline (stats.go, timeline.go): the cache
      with its time to live; the counters, whose increments interleave with the
      loads of a snapshot; the minute buckets of the graph.
    - Lan, ReverseZones, LocalNames (lan.go, localnames.go, handler.go): who may
      ask, which reverse zones and names stay local.
    - Upstream, Failures, Redact (upstream.go, failures.go, redact.go): the two
      sweeps over the upstreams with their cooldown, the exchange over UDP, TCP
      and HTTPS, the summaries of failures, the redaction of URLs and errors.
    - Handler (handler.go, cname.go): [ServeDNS] with every branch, as a
      function of the state, the query and what the query meets outside.
    - Dot (dot.go, server.go): the certificate reloader, the connection limit as
      a state machine, the start and stop of the servers.

    The query log (internal/querylog):
    - QueryLog (logger.go, db.go): the two writers with their queues, batches
      and drops, masking, the retention; QueryReads: the filter and its SQL
      text, search, export, history; StaleRows: the migration, the rows that the
      settings of today would not have kept, the fan-out to both loggers.
    - LogFiles (db.go, logger.go, umask_unix.go): how the loggers open and close
      their files, over a map of paths to permission bits.
    - ZeroFile (zero.go) and WipeWAL (db.go): the overwrite of a file on a disk
      that can lose power, the truncation of the log file, the steps of a purge
      and the wipe of the write-ahead log. SQLite is the class [SqliteConn].

    The admin server (internal/api):
    - AdminSecurity (security.go): the four checks before every route;
      ApiFormat: CSV, JSON and label texts; Metrics (metrics.go): the page in
      the Prometheus format; ClientNames (clientnames.go): labels; Api (api.go,
      purge.go): the routes; AdminServe: the race of [Serve] and [Shutdown];
      ErrorLog (errorlog.go): the lines of net/http without their addresses.

    The program (cmd/s-hole, internal/config, internal/logging,
    internal/service):
    - Config (config.go, privacy.go): the table of settings, the document and
      the environment, the checks, the warnings.
    - Lifecycle (main.go): the reload gate with its goroutines, the teardown and
      the exit; Startup (main.go): the command line, the order of a start, the
      wiring, and the whole system that serves queries and logs them.
    - Purge (purge.go): the purge of a running and of a stopped s-hole, the
      health check; Report (report.go): the repeated warnings; Host
      (resolvcheck.go, main.go): the resolver check and the network hint.
    - Logging (logging.go, eventlog.go, setupLogger): the log handlers as values
      with their attributes and groups, and the choice between them.
    - Acl (acl.go): the Windows access check, the access list of the service
      folder, the folders above the binary; Service (svc_windows.go): the
      service loop over the order in which it takes its events, and the commands
      that install, remove, start and stop the service, each as the trace of its
      calls into Windows.
    - MainLoop (main.go, signals): the tickers, the channel of signals and its
      goroutine, and the end of the process. Its [World] is a process of
      Lifecycle with these around it, so that the invariants of Lifecycle carry
      over; a service world takes its events as the loop of Service does.

    The privacy lint (internal/privacylint), a tool of the developers:
    - LintRules: syntax trees with their types, and the rules; LintDirective:
      the comments that allow a finding, and the list of exceptions; Lint: the
      analysis of the packages and the merge over operating systems; LintLoad:
      the loading of the packages. A run is LintLoad over Lint over the other
      two.

    ** How the code is modelled

    A handler or an operation is a function from the state and its arguments to
    the new state and the result, with the guards in the order of the code. What
    a call meets outside (the clock, the network, the disk, the order in which a
    map is ranged over, the error of a system call) is an argument, so that a
    theorem holds for all of it. Goroutines that share state are step relations
    with one step for each atomic part: a critical section, an atomic operation,
    a message on a channel. Integers have their width where they can leave it:
    [wrap] for unsigned 64 bits, [wrap_s] for [int64] and durations, [sat64] for
    the difference of two times. Code outside the repository is a class or an
    argument; its documented behaviour is a class of laws, or a hypothesis with
    a name, and examples give a concrete instance.

    Loops over a structure are structural; a loop over text has as fuel the
    length of the text, of which every round takes at least a byte ([Explain],
    [IsBlocked], the splitters, the folders of a path), and the lemmas that
    unfold it show that the fuel is enough; the loops over chunks of a file and
    the buckets of a series have their count as fuel. The search for the module
    root has more fuel than the path has bytes, and [module_root_nearest] says
    that it ends; the chain of log handlers is at most two long, so that a fuel
    of three is enough unless a handler asks for itself.

    ** What the theorems show

    - A query: it is counted, logged and answered once, with marks that agree; a
      rejected one leaves no trace; what goes to which upstream, and that it
      holds nothing of the client; each upstream is contacted once, all of them
      before an error; the reply is one that matches the query; a blocked name
      or CNAME target is answered here; the reply the client gets.
    - The stores: lookup, explanation and allowlist; lists survive failed
      downloads; the cache returns what was stored, aged, for the same question;
      counters stay consistent under every interleaving; writers keep the order
      and drop only at their limits; search finds exactly the matching rows.
    - Privacy: a configuration keeps the private defaults unless the operator
      says otherwise; the running system stores what its settings say and no
      more, from the configuration file to the disk; warnings name every
      weakening; stale rows are exactly the ones that the settings would not
      have written; the top lists; the audit line; the metrics labels.
    - Deletion: a purge leaves nothing of what it reports as deleted; files are
      overwritten before they are removed, only the right ones, and at every
      power loss the write-ahead log is whole or void.
    - The life of the process: what a start needs and that nothing else stops
      it; no reload request is lost, one pass runs at a time and takes nothing
      away; nothing is
      closed while a query or a reload can use it; shutdown finishes, whatever
      asked for it, and the process ends with everything closed and the right
      exit code; a stop of the admin server is never lost; a failed certificate
      reload keeps the old certificate; at most the limit of connections is
      open; a panic in a ticker costs one tick.
    - What is written elsewhere: the program is never without a log; a line of
      the error log shows no address that stands alone; the files of the query
      log are readable by their owner only; a service is installed only where
      other users cannot replace it.
    - The lint: every comment is read as its grammar says; every finding of the
      rules is reported or allowed by a comment with a reason, and every comment
      that allows nothing is reported.
    - The admin server: what can change state, and from where; the headers on
      every reply; bounded answers; texts that read back.

    Examples at the end of a file evaluate its definitions, also at the inputs
    where the code does something other than its comments say.

    ** Not modelled

    The sockets, the TLS handshake and the serving loops of the libraries; the
    static files of the dashboard and the profiler; the parsing of the flags by
    the flag package; the text that a standard log handler makes of a record
    (the class [SlogFormat]). The go command, the Go parser, its type checker
    and its importer are arguments of the lint. The manager of Windows services
    and the access lists of files are answers in [WinEnv]. SQL statements are
    modelled by the rows that they select, not by the SQLite engine. *)

From stdpp Require Import base numbers list gmap strings.
From Stdlib Require Import ZArith Lia.

(** ** Automation

    [shole] holds the lemmas that close the common side conditions of the
    components; [shole_rw] the rewriting lemmas. *)

Create HintDb shole.
Create Rewrite HintDb shole_rw.

(** Case analysis on every [match], [if] and [decide] of the goal and the
    hypotheses, then the equations between constructors. *)
Ltac split_cases := repeat (case_match; simplify_eq/=; try done).

(** Turn the boolean tests of the code into the propositions they decide. *)
Ltac breflect :=
  repeat match goal with
  | H : _ && _ = true |- _ => apply andb_true_iff in H as [? ?]
  | H : _ && _ = false |- _ => apply andb_false_iff in H
  | H : _ || _ = false |- _ => apply orb_false_iff in H as [? ?]
  | H : _ || _ = true |- _ => apply orb_true_iff in H
  | H : negb _ = true |- _ => apply negb_true_iff in H
  | H : negb _ = false |- _ => apply negb_false_iff in H
  | H : bool_decide _ = true |- _ => apply bool_decide_eq_true in H
  | H : bool_decide _ = false |- _ => apply bool_decide_eq_false in H
  | H : (_ <=? _)%Z = true |- _ => apply Z.leb_le in H
  | H : (_ <=? _)%Z = false |- _ => apply Z.leb_gt in H
  | H : (_ <? _)%Z = true |- _ => apply Z.ltb_lt in H
  | H : (_ <? _)%Z = false |- _ => apply Z.ltb_ge in H
  | H : (_ =? _)%Z = true |- _ => apply Z.eqb_eq in H
  | H : (_ =? _)%Z = false |- _ => apply Z.eqb_neq in H
  | H : (_ <=? _)%nat = true |- _ => apply Nat.leb_le in H
  | H : (_ <=? _)%nat = false |- _ => apply Nat.leb_gt in H
  | H : (_ <? _)%nat = true |- _ => apply Nat.ltb_lt in H
  | H : (_ <? _)%nat = false |- _ => apply Nat.ltb_ge in H
  | H : (_ =? _)%nat = true |- _ => apply Nat.eqb_eq in H
  | H : (_ =? _)%nat = false |- _ => apply Nat.eqb_neq in H
  | H : String.eqb _ _ = true |- _ => apply String.eqb_eq in H
  | H : String.eqb _ _ = false |- _ => apply String.eqb_neq in H
  end.

(** ** Machine integers

    An unsigned w-bit integer is a [Z] in [0 .. 2^w); an operation that can
    leave the range says so with [wrap]. A [time.Duration] is a signed 64-bit
    number of nanoseconds, and [time.Time.Sub] saturates. *)

Definition wrap (w z : Z) : Z := (z mod 2 ^ w)%Z.

Definition in_range (w z : Z) : Prop := (0 <= z < 2 ^ w)%Z.

#[export] Instance in_range_dec w z : Decision (in_range w z).
Proof. unfold in_range. apply _. Defined.

Lemma wrap_range w z : (0 <= w)%Z -> in_range w (wrap w z).
Proof. intros ?. unfold wrap, in_range. apply Z.mod_pos_bound. lia. Qed.

Lemma wrap_id w z : in_range w z -> wrap w z = z.
Proof. unfold wrap, in_range. intros ?. by apply Z.mod_small. Qed.

#[export] Hint Resolve wrap_range : shole.

Definition min_int64 : Z := (-9223372036854775808)%Z.
Definition max_int64 : Z := 9223372036854775807%Z.

Definition sat64 (z : Z) : Z := Z.max min_int64 (Z.min max_int64 z).

Lemma sat64_id z : (min_int64 <= z <= max_int64)%Z -> sat64 z = z.
Proof. unfold sat64, min_int64, max_int64. lia. Qed.

Lemma sat64_ge z k : (min_int64 < k <= max_int64)%Z -> (k <= sat64 z <-> k <= z)%Z.
Proof. unfold sat64, min_int64, max_int64. lia. Qed.

Lemma sat64_lt z k : (min_int64 < k <= max_int64)%Z -> (sat64 z < k <-> z < k)%Z.
Proof. unfold sat64, min_int64, max_int64. lia. Qed.

(** Points in time and durations, in nanoseconds. *)
Definition nanosecond : Z := 1%Z.
Definition second : Z := 1000000000%Z.
Definition minute : Z := (60 * second)%Z.
Definition hour : Z := (60 * minute)%Z.

(** Signed 64-bit arithmetic that wraps around, as on [int64] and
    [time.Duration]. *)
Definition wrap_s (z : Z) : Z := ((z + 9223372036854775808) mod 18446744073709551616 - 9223372036854775808)%Z.

Lemma wrap_s_id z : (min_int64 <= z <= max_int64)%Z -> wrap_s z = z.
Proof. unfold wrap_s, min_int64, max_int64. intros ?. rewrite Z.mod_small; lia. Qed.

(** [t.Sub(u)]. *)
Definition time_sub (t u : Z) : Z := sat64 (t - u).

(** ** Lists and options *)

Lemma existsb_elem {A} (f : A -> bool) (l : list A) :
  existsb f l = true <-> exists x, x ∈ l /\ f x = true.
Proof.
  rewrite existsb_exists. setoid_rewrite list_elem_of_In. done.
Qed.

Lemma existsb_elem_false {A} (f : A -> bool) (l : list A) :
  existsb f l = false <-> forall x, x ∈ l -> f x = false.
Proof.
  rewrite <- not_true_iff_false, existsb_elem. split.
  - intros H x Hx. apply not_true_iff_false. eauto.
  - intros H (x & Hx & Hf). rewrite H in Hf; done.
Qed.

Lemma forallb_elem {A} (f : A -> bool) (l : list A) :
  forallb f l = true <-> forall x, x ∈ l -> f x = true.
Proof. rewrite forallb_forall. setoid_rewrite list_elem_of_In. done. Qed.

(** The membership test of a Go map used as a set. *)
Definition mem `{Countable A} (x : A) (s : gset A) : bool := bool_decide (x ∈ s).

Lemma mem_true `{Countable A} (x : A) (s : gset A) : mem x s = true <-> x ∈ s.
Proof. unfold mem. by rewrite bool_decide_eq_true. Qed.

Lemma mem_false `{Countable A} (x : A) (s : gset A) : mem x s = false <-> x ∉ s.
Proof. unfold mem. by rewrite bool_decide_eq_false. Qed.

(** Adding and removing one element changes the size by at most one. *)
Lemma gset_size_insert `{Countable A} (x : A) (s : gset A) :
  (size s <= size ({[x]} ∪ s) <= S (size s))%nat.
Proof.
  rewrite size_union_alt, size_singleton. split.
  - destruct (decide (x ∈ s)) as [Hx|Hx].
    + assert (size s = size ({[x]} ∪ s ∖ {[x]})) as ->; [|rewrite size_union_alt, size_singleton].
      { f_equal. apply set_eq. intros y. destruct (decide (y = x)); set_solver. }
      assert ((s ∖ {[x]}) ∖ {[x]} = s ∖ {[x]}) as -> by set_solver. lia.
    + assert (s ∖ {[x]} = s) as -> by set_solver. lia.
  - assert (size (s ∖ {[x]}) <= size s)%nat by (apply subseteq_size; set_solver). lia.
Qed.

Lemma gset_size_remove `{Countable A} (x : A) (s : gset A) :
  (size (s ∖ {[x]}) <= size s)%nat.
Proof. apply subseteq_size. set_solver. Qed.

Lemma map_size_insert_le `{Countable K} {A} (m : gmap K A) (k : K) (x : A) :
  (size (<[k := x]> m) <= S (size m))%nat.
Proof. rewrite map_size_insert. destruct (m !! k); simpl; lia. Qed.

(** [length] of a Go slice or map, as the [int] the code compares. *)
Definition lenZ {A} (l : list A) : Z := Z.of_nat (length l).

Lemma lenZ_nonneg {A} (l : list A) : (0 <= lenZ l)%Z.
Proof. unfold lenZ. lia. Qed.

Lemma lenZ_app {A} (l k : list A) : lenZ (l ++ k) = (lenZ l + lenZ k)%Z.
Proof. unfold lenZ. rewrite length_app. lia. Qed.

#[export] Hint Resolve lenZ_nonneg : shole.
#[export] Hint Rewrite @lenZ_app @length_app : shole_rw.

(** ** Sums over a list *)

Section sum_by.
Context {A : Type} (f : A -> Z).

Fixpoint sum_by (l : list A) : Z :=
  match l with
  | [] => 0
  | x :: l' => (f x + sum_by l')%Z
  end.

Lemma sum_by_app l k : sum_by (l ++ k) = (sum_by l + sum_by k)%Z.
Proof. induction l; simpl; lia. Qed.

Lemma sum_by_insert l i x y :
  l !! i = Some x -> sum_by (<[i := y]> l) = (sum_by l - f x + f y)%Z.
Proof.
  revert i. induction l as [| z l IH]; intros [| i]; simpl; try done.
  - intros [= ->]. lia.
  - intros Hi. rewrite (IH i Hi). lia.
Qed.

Lemma sum_by_delete l i x : l !! i = Some x -> sum_by (delete i l) = (sum_by l - f x)%Z.
Proof.
  revert i. induction l as [| z l IH]; intros [| i]; simpl; try done.
  - intros [= ->]. lia.
  - intros Hi. rewrite (IH i Hi). lia.
Qed.

Context (Hf : forall x, (0 <= f x)%Z).

Lemma sum_by_nonneg l : (0 <= sum_by l)%Z.
Proof. induction l as [| x l IH]; simpl; [lia | pose proof (Hf x); lia]. Qed.

Lemma sum_by_lookup l i x : l !! i = Some x -> (f x <= sum_by l)%Z.
Proof.
  intros Hi. pose proof (sum_by_delete l i x Hi). pose proof (sum_by_nonneg (delete i l)). lia.
Qed.
End sum_by.

(** ** Transition systems

    A component with interleaved operations is a step relation; what holds of
    it is proved by induction on its runs. *)

Section reach.
Context {S : Type} (init : S -> Prop) (step : S -> S -> Prop).

Inductive reachable : S -> Prop :=
  | reachable_init s : init s -> reachable s
  | reachable_step s s' : reachable s -> step s s' -> reachable s'.

Lemma reachable_invariant (I : S -> Prop) :
  (forall s, init s -> I s) ->
  (forall s s', I s -> step s s' -> I s') ->
  forall s, reachable s -> I s.
Proof. intros Hi Hs s. induction 1; eauto. Qed.

Lemma reachable_rtc s s' : reachable s -> rtc step s s' -> reachable s'.
Proof. intros Hr. induction 1; eauto using reachable_step. Qed.
End reach.
