(* ===== verification/GoStrings.v ===== *)
(** * Go strings

    The functions of Go's [strings] package that s-hole uses, on byte strings
    ([String.string], one [ascii] for each byte). [ToLower] of a string with a
    byte outside ASCII consults the Unicode tables; they are the parameter
    [UnicodeLower]. The white space of [TrimSpace] and [Fields] is Unicode
    white space, read from its UTF-8 encoding. *)

From stdpp Require Import base numbers list strings.
From Stdlib Require Import Ascii ZArith Lia.
From S2P Require Import Prelude.

Open Scope string_scope.

#[global] Arguments String.append : simpl nomatch.

(** ** Bytes *)

Definition byte_val (c : ascii) : N := N_of_ascii c.

Definition dot : ascii := "."%char.
Definition newline : ascii := "010"%char.

(** [c < utf8.RuneSelf]. *)
Definition is_ascii_byte (c : ascii) : bool := (byte_val c <? 128)%N.

Definition in_byte_range (lo hi c : ascii) : bool :=
  (byte_val lo <=? byte_val c)%N && (byte_val c <=? byte_val hi)%N.

Definition is_upper (c : ascii) : bool := in_byte_range "A" "Z" c.
Definition is_lower (c : ascii) : bool := in_byte_range "a" "z" c.
Definition is_digit (c : ascii) : bool := in_byte_range "0" "9" c.

(** [c += 'a' - 'A'] for an upper-case letter. *)
Definition lower_byte (c : ascii) : ascii :=
  if is_upper c then ascii_of_N (byte_val c + 32) else c.

Fixpoint string_forallb (f : ascii -> bool) (s : string) : bool :=
  match s with
  | "" => true
  | String c s' => f c && string_forallb f s'
  end.

Fixpoint string_map (f : ascii -> ascii) (s : string) : string :=
  match s with
  | "" => ""
  | String c s' => String (f c) (string_map f s')
  end.

Definition is_ascii (s : string) : bool := string_forallb is_ascii_byte s.
Definition ascii_lower (s : string) : string := string_map lower_byte s.

(** [strings.ToLower]. *)
Class UnicodeLower := unicode_lower : string -> string.

Definition to_lower `{UnicodeLower} (s : string) : string :=
  if is_ascii s then ascii_lower s else unicode_lower s.

(** [len(s)]. *)
Definition slen (s : string) : Z := Z.of_nat (String.length s).

(** ** Prefixes and suffixes *)

Fixpoint has_prefix (p s : string) : bool :=
  match p, s with
  | "", _ => true
  | String a p', String b s' => Ascii.eqb a b && has_prefix p' s'
  | _, _ => false
  end.

Fixpoint drop_bytes (n : nat) (s : string) : string :=
  match n, s with
  | O, _ => s
  | S n', String _ s' => drop_bytes n' s'
  | S _, "" => ""
  end.

Fixpoint take_bytes (n : nat) (s : string) : string :=
  match n, s with
  | S n', String c s' => String c (take_bytes n' s')
  | _, _ => ""
  end.

(** [strings.HasSuffix]: a suffix test compares the last [len(suffix)] bytes. *)
Definition has_suffix (s suffix : string) : bool :=
  (String.length suffix <=? String.length s)%nat &&
  (drop_bytes (String.length s - String.length suffix) s =? suffix)%string.

Definition trim_prefix (s p : string) : string :=
  if has_prefix p s then drop_bytes (String.length p) s else s.

Definition trim_suffix (s suffix : string) : string :=
  if has_suffix s suffix
  then take_bytes (String.length s - String.length suffix) s else s.

(** ** Searching and cutting *)

(** The two sides of the first [c], as [IndexByte] and [Cut] find it. *)
Fixpoint cut_byte (c : ascii) (s : string) : option (string * string) :=
  match s with
  | "" => None
  | String a s' =>
      if Ascii.eqb a c then Some ("", s')
      else match cut_byte c s' with
           | Some (u, v) => Some (String a u, v)
           | None => None
           end
  end.

(** [strings.IndexByte(s, c)], [-1] when [c] does not occur. *)
Definition index_byte (s : string) (c : ascii) : Z :=
  match cut_byte c s with
  | Some (u, _) => slen u
  | None => (-1)%Z
  end.

Fixpoint contains (s sub : string) : bool :=
  has_prefix sub s ||
  match s with
  | "" => false
  | String _ s' => contains s' sub
  end.

(** [strings.Split(s, ".")] and the like, for a one-byte separator. *)
Fixpoint split_byte (c : ascii) (s : string) : list string :=
  match s with
  | "" => [""]
  | String a s' =>
      if Ascii.eqb a c then "" :: split_byte c s'
      else match split_byte c s' with
           | l :: ls => String a l :: ls
           | [] => [String a ""]
           end
  end.

(** [strings.Join]. *)
Fixpoint join (sep : string) (l : list string) : string :=
  match l with
  | [] => ""
  | [x] => x
  | x :: xs => x +:+ sep +:+ join sep xs
  end.

(** [strings.Repeat]. *)
Fixpoint repeat_string (s : string) (n : nat) : string :=
  match n with O => "" | S n' => s +:+ repeat_string s n' end.

(** [strings.EqualFold] on ASCII strings; another byte goes through the
    Unicode tables. *)
Definition equal_fold `{UnicodeLower} (a b : string) : bool :=
  (to_lower a =? to_lower b)%string.

(** ** White space *)

Definition byte_is (n : N) (c : ascii) : bool := (byte_val c =? n)%N.

(** The number of bytes of the white-space rune that [s] starts with, [0] when
    it starts with none ([unicode.IsSpace]). *)
Definition space_len (s : string) : nat :=
  match s with
  | "" => 0
  | String c s1 =>
      if (byte_val c =? 32)%N || ((9 <=? byte_val c)%N && (byte_val c <=? 13)%N) then 1
      else match s1 with
      | "" => 0
      | String d s2 =>
          if byte_is 0xC2 c && (byte_is 0x85 d || byte_is 0xA0 d) then 2
          else match s2 with
          | "" => 0
          | String e _ =>
              if (byte_is 0xE1 c && byte_is 0x9A d && byte_is 0x80 e)
                || (byte_is 0xE2 c && byte_is 0x80 d
                    && (((0x80 <=? byte_val e)%N && (byte_val e <=? 0x8A)%N)
                        || byte_is 0xA8 e || byte_is 0xA9 e || byte_is 0xAF e))
                || (byte_is 0xE2 c && byte_is 0x81 d && byte_is 0x9F e)
                || (byte_is 0xE3 c && byte_is 0x80 d && byte_is 0x80 e)
              then 3 else 0
          end
      end
  end.

Fixpoint all_space_fuel (fuel : nat) (s : string) : bool :=
  match fuel, s with
  | _, "" => true
  | O, _ => false
  | S fuel', _ =>
      match space_len s with
      | O => false
      | n => all_space_fuel fuel' (drop_bytes n s)
      end
  end.

(** [s] holds white space only. Each step drops at least one byte, so the
    length is enough fuel. *)
Definition all_space (s : string) : bool := all_space_fuel (String.length s) s.

Fixpoint trim_left_fuel (fuel : nat) (s : string) : string :=
  match fuel with
  | O => s
  | S fuel' =>
      match space_len s with
      | O => s
      | n => trim_left_fuel fuel' (drop_bytes n s)
      end
  end.

Definition trim_left (s : string) : string := trim_left_fuel (String.length s) s.

Fixpoint trim_right (s : string) : string :=
  match s with
  | "" => ""
  | String c s' => if all_space s then "" else String c (trim_right s')
  end.

(** [strings.TrimSpace]. *)
Definition trim_space (s : string) : string := trim_right (trim_left s).

(** [strings.Fields]: [cur] is the field that is being read. *)
Fixpoint fields_fuel (fuel : nat) (cur s : string) : list string :=
  let emit rest := if (cur =? "")%string then rest else cur :: rest in
  match fuel, s with
  | _, "" => emit []
  | O, _ => emit []
  | S fuel', String c s' =>
      match space_len s with
      | O => fields_fuel fuel' (cur +:+ String c "") s'
      | n => emit (fields_fuel fuel' "" (drop_bytes n s))
      end
  end.

Definition fields (s : string) : list string := fields_fuel (String.length s) "" s.

(** ** Decimal numbers *)

Definition digit_char (d : N) : ascii := ascii_of_N (48 + d).

Fixpoint itoa_fuel (fuel : nat) (n : N) (acc : string) : string :=
  let acc' := String (digit_char (n mod 10)) acc in
  match fuel with
  | O => acc'
  | S fuel' => if (n <? 10)%N then acc' else itoa_fuel fuel' (n / 10) acc'
  end.

(** [strconv.Itoa] of a number that is not negative. *)
Definition itoa (n : N) : string := itoa_fuel (N.to_nat (N.size n)) n "".

(** ** Lemmas *)

Lemma string_app_nil_r (s : string) : s +:+ "" = s.
Proof. induction s; simpl; congruence. Qed.

Lemma string_app_assoc (a b c : string) : (a +:+ b) +:+ c = a +:+ (b +:+ c).
Proof. induction a; simpl; congruence. Qed.

Lemma string_length_app (a b : string) :
  String.length (a +:+ b) = (String.length a + String.length b)%nat.
Proof. induction a; simpl; lia. Qed.

Lemma drop_bytes_app (a b : string) : drop_bytes (String.length a) (a +:+ b) = b.
Proof. induction a; simpl; done. Qed.

Lemma take_bytes_app (a b : string) : take_bytes (String.length a) (a +:+ b) = a.
Proof. induction a; simpl; congruence. Qed.

Lemma take_drop_bytes n s : take_bytes n s +:+ drop_bytes n s = s.
Proof. revert s. induction n; intros [|c s]; simpl; try done. by rewrite IHn. Qed.

Lemma string_length_drop n s : String.length (drop_bytes n s) = (String.length s - n)%nat.
Proof. revert s. induction n; intros [|c s]; simpl; try done. Qed.

Lemma string_length_take n s : String.length (take_bytes n s) = Nat.min n (String.length s).
Proof. revert s. induction n; intros [|c s]; simpl; try done. by rewrite IHn. Qed.

Lemma has_prefix_spec p s : has_prefix p s = true <-> exists r, s = p +:+ r.
Proof.
  revert s. induction p as [|a p IH]; intros s; simpl.
  - split; eauto.
  - destruct s as [|b s]; [split; [done | intros (r & Hr); done] |].
    rewrite andb_true_iff, Ascii.eqb_eq, IH. split.
    + intros [-> (r & ->)]. by exists r.
    + intros (r & Hr). simplify_eq. split; [done | by eexists].
Qed.

Lemma has_suffix_spec s p : has_suffix s p = true <-> exists r, s = r +:+ p.
Proof.
  unfold has_suffix. rewrite andb_true_iff, Nat.leb_le, String.eqb_eq. split.
  - intros [_ H]. exists (take_bytes (String.length s - String.length p) s).
    rewrite <- H at 2. by rewrite take_drop_bytes.
  - intros (r & ->). rewrite string_length_app. split; [lia |].
    replace (String.length r + String.length p - String.length p)%nat
      with (String.length r) by lia. apply drop_bytes_app.
Qed.

Lemma trim_suffix_app s p : trim_suffix (s +:+ p) p = s.
Proof.
  unfold trim_suffix. assert (has_suffix (s +:+ p) p = true) as ->.
  { apply has_suffix_spec. eauto. }
  rewrite string_length_app.
  replace (String.length s + String.length p - String.length p)%nat
    with (String.length s) by lia. apply take_bytes_app.
Qed.

Lemma trim_prefix_app p s : trim_prefix (p +:+ s) p = s.
Proof.
  unfold trim_prefix. assert (has_prefix p (p +:+ s) = true) as ->.
  { apply has_prefix_spec. eauto. }
  apply drop_bytes_app.
Qed.

Lemma cut_byte_Some c s u v :
  cut_byte c s = Some (u, v) -> s = u +:+ String c v /\ ~ (exists a b, u = a +:+ String c b).
Proof.
  revert u v. induction s as [|x s IH]; intros u v; simpl; [done |].
  destruct (Ascii.eqb_spec x c) as [->|Hx].
  - intros [= <- <-]. split; [done |]. intros ([|] & b & Hab); done.
  - destruct (cut_byte c s) as [[u' v']|]; [|done]. intros [= <- <-].
    destruct (IH _ _ eq_refl) as [-> Hn]. split; [done |].
    intros ([|y a] & b & Hab); simplify_eq/=. apply Hn. eauto.
Qed.

Lemma cut_byte_None c s : cut_byte c s = None <-> ~ (exists a b, s = a +:+ String c b).
Proof.
  induction s as [|x s IH]; simpl.
  - split; [intros _ ([|] & b & H); done | done].
  - destruct (Ascii.eqb_spec x c) as [->|Hx].
    + split; [done |]. intros H. destruct H. by exists "", s.
    + destruct (cut_byte c s) as [[u' v']|] eqn:E.
      * split; [done |]. intros H. destruct H.
        apply cut_byte_Some in E as [-> _]. by exists (String x u'), v'.
      * split; [|done]. intros _ ([|y a] & b & Hab); simplify_eq/=.
        apply IH; eauto.
Qed.

(** Splitting at the first occurrence determines both sides. *)
Definition no_byte (c : ascii) (s : string) : Prop := ~ (exists a b, s = a +:+ String c b).

Lemma no_byte_cons c x s : no_byte c (String x s) <-> x <> c /\ no_byte c s.
Proof.
  unfold no_byte. split.
  - intros H. split.
    + intros ->. apply H. by exists "", s.
    + intros (a & b & ->). apply H. by exists (String x a), b.
  - intros [Hx Hn] ([|y a] & b & Hab); simplify_eq/=. eauto.
Qed.

Lemma no_byte_nil c : no_byte c "".
Proof. intros ([|] & b & H); done. Qed.

Lemma no_byte_app c s t : no_byte c (s +:+ t) <-> no_byte c s /\ no_byte c t.
Proof.
  induction s as [|x s IH]; simpl.
  - split; [split; [apply no_byte_nil | done] | by intros [_ ?]].
  - rewrite !no_byte_cons, IH. tauto.
Qed.

Lemma cut_byte_app c u v : no_byte c u -> cut_byte c (u +:+ String c v) = Some (u, v).
Proof.
  induction u as [|x u IH]; simpl; intros Hn.
  - by rewrite Ascii.eqb_refl.
  - apply no_byte_cons in Hn as [Hx Hn].
    destruct (Ascii.eqb_spec x c) as [|_]; [done |]. by rewrite IH.
Qed.

Lemma cut_inj c u v u' v' :
  no_byte c u -> no_byte c u' ->
  u +:+ String c v = u' +:+ String c v' -> u = u' /\ v = v'.
Proof.
  intros Hu Hu' H. apply (f_equal (cut_byte c)) in H.
  rewrite !cut_byte_app in H by done. by simplify_eq.
Qed.

Lemma no_byte_bool c s :
  no_byte c s <-> string_forallb (fun a => negb (Ascii.eqb a c)) s = true.
Proof.
  induction s as [|x s IH]; simpl.
  - split; [done | intros _; apply no_byte_nil].
  - rewrite no_byte_cons, IH, andb_true_iff, negb_true_iff, Ascii.eqb_neq. done.
Qed.

#[export] Hint Resolve no_byte_nil : shole.

(** ** Lower case *)

(** A property of all 256 bytes, decided by computation. *)
Definition all_bytes : list ascii := map ascii_of_nat (seq 0 256).

Lemma all_bytes_elem c : c ∈ all_bytes.
Proof.
  unfold all_bytes. apply list_elem_of_fmap. exists (nat_of_ascii c).
  rewrite ascii_nat_embedding. split; [done |].
  apply elem_of_seq. pose proof (nat_ascii_bounded c). lia.
Qed.

Lemma byte_ind_bool (f : ascii -> bool) : forallb f all_bytes = true -> forall c, f c = true.
Proof. intros H c. rewrite forallb_elem in H. apply H, all_bytes_elem. Qed.

Lemma lower_byte_idem c : lower_byte (lower_byte c) = lower_byte c.
Proof.
  apply Ascii.eqb_eq. revert c. apply byte_ind_bool. vm_compute. done.
Qed.

Lemma lower_byte_ascii c : is_ascii_byte (lower_byte c) = is_ascii_byte c.
Proof.
  apply eqb_true_iff. revert c. apply byte_ind_bool. vm_compute. done.
Qed.

Lemma lower_byte_dot c : Ascii.eqb (lower_byte c) dot = Ascii.eqb c dot.
Proof.
  apply eqb_true_iff. revert c. apply byte_ind_bool. vm_compute. done.
Qed.

Lemma ascii_lower_idem s : ascii_lower (ascii_lower s) = ascii_lower s.
Proof.
  unfold ascii_lower. induction s; simpl; [done |]. by rewrite lower_byte_idem, IHs.
Qed.

Lemma ascii_lower_app a b : ascii_lower (a +:+ b) = ascii_lower a +:+ ascii_lower b.
Proof. unfold ascii_lower. induction a; simpl; congruence. Qed.

Lemma ascii_lower_ascii s : is_ascii (ascii_lower s) = is_ascii s.
Proof.
  unfold is_ascii, ascii_lower. induction s; simpl; [done |].
  by rewrite lower_byte_ascii, IHs.
Qed.

Lemma is_ascii_app a b : is_ascii (a +:+ b) = is_ascii a && is_ascii b.
Proof.
  unfold is_ascii. induction a; simpl; [done |]. by rewrite IHa, andb_assoc.
Qed.

Lemma ascii_lower_length s : String.length (ascii_lower s) = String.length s.
Proof. unfold ascii_lower. induction s; simpl; congruence. Qed.

Lemma to_lower_ascii `{UnicodeLower} s : is_ascii s = true -> to_lower s = ascii_lower s.
Proof. unfold to_lower. by intros ->. Qed.

Lemma to_lower_idem_ascii `{UnicodeLower} s :
  is_ascii s = true -> to_lower (to_lower s) = to_lower s.
Proof.
  intros Hs. rewrite (to_lower_ascii s) by done.
  rewrite to_lower_ascii by by rewrite ascii_lower_ascii.
  apply ascii_lower_idem.
Qed.

(** ** Checks against the Go functions *)

Example trim_space_ex : trim_space " 	a b  " = "a b".
Proof. reflexivity. Qed.

Example fields_ex : fields "0.0.0.0  ads.example.com # x" = ["0.0.0.0"; "ads.example.com"; "#"; "x"].
Proof. reflexivity. Qed.

Example itoa_ex : map itoa [0; 7; 10; 255; 1000]%N = ["0"; "7"; "10"; "255"; "1000"].
Proof. reflexivity. Qed.

Example split_ex : split_byte dot "a..b" = ["a"; ""; "b"].
Proof. reflexivity. Qed.

(** ** Reading a decimal number back *)

Definition digit_val (c : ascii) : N := byte_val c - 48.

Fixpoint atoi_acc (v : N) (s : string) : N :=
  match s with
  | "" => v
  | String c s' => atoi_acc (v * 10 + digit_val c) s'
  end.

Lemma digit_char_val d : (d < 10)%N -> digit_val (digit_char d) = d.
Proof.
  intros Hd. unfold digit_val, digit_char, byte_val.
  rewrite N_ascii_embedding by lia. lia.
Qed.

Lemma atoi_itoa_fuel fuel n acc :
  (n < 2 ^ N.of_nat fuel)%N -> atoi_acc 0 (itoa_fuel fuel n acc) = atoi_acc n acc.
Proof.
  revert n acc. induction fuel as [|fuel IH]; intros n acc Hn.
  - simpl in *. replace n with 0%N by lia. done.
  - cbn [itoa_fuel]. destruct (N.ltb_spec n 10).
    + cbn [atoi_acc]. rewrite digit_char_val by (apply N.mod_lt; lia).
      rewrite N.mod_small by lia. done.
    + rewrite IH.
      * cbn [atoi_acc]. rewrite digit_char_val by (apply N.mod_lt; lia).
        f_equal. pose proof (N.div_mod n 10 ltac:(lia)). lia.
      * rewrite Nat2N.inj_succ, N.pow_succ_r' in Hn.
        apply N.Div0.div_lt_upper_bound. lia.
Qed.

Lemma atoi_itoa n : atoi_acc 0 (itoa n) = n.
Proof.
  unfold itoa. rewrite atoi_itoa_fuel; [done |].
  rewrite N2Nat.id. apply N.size_gt.
Qed.

Lemma itoa_inj a b : itoa a = itoa b -> a = b.
Proof. intros H. rewrite <- (atoi_itoa a), <- (atoi_itoa b). by rewrite H. Qed.

Lemma itoa_fuel_digits fuel n acc :
  string_forallb is_digit acc = true -> string_forallb is_digit (itoa_fuel fuel n acc) = true.
Proof.
  assert (forall k, is_digit (digit_char (k mod 10)) = true) as Hd.
  { intros k. unfold is_digit, in_byte_range, digit_char, byte_val.
    assert (k mod 10 < 10)%N as Hk by (apply N.mod_lt; lia).
    revert Hk. generalize (k mod 10)%N. intros d Hd.
    rewrite N_ascii_embedding by lia.
    change (N_of_ascii "0") with 48%N. change (N_of_ascii "9") with 57%N.
    rewrite andb_true_iff, !N.leb_le. lia. }
  revert n acc. induction fuel as [|fuel IH]; intros n acc Ha; cbn [itoa_fuel].
  - cbn [string_forallb]. by rewrite Hd.
  - assert (string_forallb is_digit (String (digit_char (n mod 10)) acc) = true) as Ha'.
    { cbn [string_forallb]. by rewrite Hd. }
    case_match; [done | by apply IH].
Qed.

Lemma itoa_digits n : string_forallb is_digit (itoa n) = true.
Proof. by apply itoa_fuel_digits. Qed.

Lemma string_forallb_impl f g s :
  (forall c, f c = true -> g c = true) -> string_forallb f s = true -> string_forallb g s = true.
Proof.
  intros H. induction s as [|c s IH]; simpl; [done |].
  rewrite !andb_true_iff. intros [? ?]. auto.
Qed.

(** A number holds no byte that is not a digit. *)
Lemma itoa_no_byte c n : is_digit c = false -> no_byte c (itoa n).
Proof.
  intros Hc. apply no_byte_bool. eapply string_forallb_impl; [|apply itoa_digits].
  intros a Ha. simpl. apply negb_true_iff, Ascii.eqb_neq. intros ->. congruence.
Qed.
