(* ===== verification/GoUrl.v ===== *)
(** * URLs of Go's [net/url]

    [url.Parse] belongs to the standard library and is too large to model here:
    it is a parameter, and what s-hole reads of its result is a record. The
    laws are what the package documents and the forwarder relies on. *)

From stdpp Require Import base list strings.
From Stdlib Require Import Ascii ZArith.
From S2P Require Import Prelude GoStrings.

Open Scope string_scope.

(** A parsed URL: its scheme in lowercase, its user info, the host without the
    port, the path, the query string, and [String()] with another user info and
    query. *)
Record ParsedURL := mkParsedURL {
  u_Scheme : string;
  u_User : option string;
  u_Hostname : string;
  u_Path : string;
  u_RawQuery : string;
  u_String : option string -> string -> string;
}.

(** [url.Parse]: [None] is an error. *)
Class UrlParse := url_parse : string -> option ParsedURL.

Section url.
Context `{HURL : UrlParse}.

Definition url_hostname (s : string) : option string := u_Hostname <$> url_parse s.

(** [u.String()] of an unchanged URL. *)
Definition url_String (p : ParsedURL) : string := u_String p (u_User p) (u_RawQuery p).

(** A URL with a scheme and a host prints as [scheme://...]. *)
Class UrlLaws : Prop := {
  url_string_host : forall s p, url_parse s = Some p -> u_Scheme p <> "" -> u_Hostname p <> "" ->
    has_prefix (u_Scheme p +:+ "://") (url_String p) = true;
}.
End url.
