(* ===== verification/GoConv.v ===== *)
(** * Numbers, durations and quoted text (Go's [strconv] and [time])

    What s-hole uses of the two packages to read its settings and to print
    them: decimal numbers, [%q], and durations. The fraction of a duration goes
    through [float64] in Go, so it is computed on [SpecFloat], which rounds as
    the hardware does. *)

From stdpp Require Import base numbers list strings sorting.
From Stdlib Require Import Ascii ZArith Lia SpecFloat.
From S2P Require Import Prelude GoStrings.

Open Scope string_scope.

(** ** Decimal numbers *)

Definition all_digits (s : string) : bool := negb (s =? "")%string && string_forallb is_digit s.

(** A leading sign: [true] for a minus. *)
Definition cut_sign (s : string) : bool * string :=
  match s with
  | String c s' => if Ascii.eqb c "-"%char then (true, s')
                   else if Ascii.eqb c "+"%char then (false, s') else (false, s)
  | "" => (false, s)
  end.

(** [strconv.Atoi] on a 64-bit machine; [None] is an error. *)
Definition Atoi (s : string) : option Z :=
  let '(neg, digits) := cut_sign s in
  if negb (all_digits digits) then None
  else
    let v := Z.of_N (atoi_acc 0 digits) in
    let v := if neg then (- v)%Z else v in
    if (min_int64 <=? v)%Z && (v <=? max_int64)%Z then Some v else None.

(** [strconv.ParseUint(s, 10, bits)]. *)
Definition ParseUint (s : string) (bits : Z) : option Z :=
  if negb (all_digits s) then None
  else
    let v := Z.of_N (atoi_acc 0 s) in
    if (v <? 2 ^ bits)%Z then Some v else None.

(** [strconv.Itoa]. *)
Definition Itoa (n : Z) : string :=
  if (n <? 0)%Z then "-" +:+ itoa (Z.to_N (- n)) else itoa (Z.to_N n).

Lemma Itoa_inj a b : Itoa a = Itoa b -> a = b.
Proof.
  assert (forall x y, itoa x <> "-" +:+ itoa y) as Hmix.
  { intros x y H. pose proof (itoa_digits x) as Hd. by rewrite H in Hd. }
  unfold Itoa. destruct (Z.ltb_spec a 0), (Z.ltb_spec b 0); intros E.
  - injection E as E%itoa_inj. lia.
  - by destruct (Hmix _ _ (eq_sym E)).
  - by destruct (Hmix _ _ E).
  - apply itoa_inj in E. lia.
Qed.

Lemma Itoa_no_colon n : no_byte ":" (Itoa n).
Proof.
  unfold Itoa. destruct (n <? 0)%Z; [|by apply itoa_no_byte]. apply no_byte_cons. split; [done |]. by apply itoa_no_byte.
Qed.

Definition FormatBool (b : bool) : string := if b then "true" else "false".

(** ** Quoted text *)

Definition quote_char : ascii := "034"%char.

Definition hex_digit (n : N) : ascii :=
  ascii_of_N (if (n <? 10)%N then 48 + n else 87 + n).

(** One ASCII byte in [strconv.Quote]. *)
Definition quote_byte (c : ascii) : string :=
  let n := byte_val c in
  let bs (a : ascii) := String "\" (String a "") in
  if Ascii.eqb c quote_char || Ascii.eqb c "\"%char then bs c
  else if ((32 <=? n) && (n <? 127))%N then String c ""
  else if (n =? 7)%N then bs "a"%char
  else if (n =? 8)%N then bs "b"%char
  else if (n =? 12)%N then bs "f"%char
  else if (n =? 10)%N then bs "n"%char
  else if (n =? 13)%N then bs "r"%char
  else if (n =? 9)%N then bs "t"%char
  else if (n =? 11)%N then bs "v"%char
  else "\x" +:+ String (hex_digit (n / 16)) (String (hex_digit (n mod 16)) "").

Fixpoint quote_bytes (s : string) : string :=
  match s with
  | "" => ""
  | String c s' => quote_byte c +:+ quote_bytes s'
  end.

(** What is printable outside ASCII is in Go's Unicode tables, a parameter. *)
Class UnicodeQuote := unicode_quote : string -> string.

Definition Quote `{UnicodeQuote} (s : string) : string :=
  if is_ascii s then String quote_char (quote_bytes s) +:+ String quote_char ""
  else unicode_quote s.

(** ** Sorted text *)

(** [sort.Strings]. *)
Definition sort_strings (l : list string) : list string := merge_sort String.le l.

Lemma sort_strings_permutation l : sort_strings l ≡ₚ l.
Proof. apply merge_sort_Permutation. Qed.

(** ** Durations *)

Definition microsecond : Z := 1000.
Definition millisecond : Z := 1000000.

(** [leadingInt]: [None] is an overflow. *)
Fixpoint leadingInt (x : Z) (s : string) : option (Z * string) :=
  match s with
  | "" => Some (x, s)
  | String c s' =>
      if negb (is_digit c) then Some (x, s)
      else if (2 ^ 63 / 10 <? x)%Z then None
      else
        let x := (x * 10 + Z.of_N (digit_val c))%Z in
        if (2 ^ 63 <? x)%Z then None else leadingInt x s'
  end.

(** [float64]. *)
Notation f64 := spec_float (only parsing).
Definition f64_of_Z (n : Z) : f64 := binary_normalize 53 1024 n 0 false.
Definition f64_mul : f64 -> f64 -> f64 := SFmul 53 1024.
Definition f64_div : f64 -> f64 -> f64 := SFdiv 53 1024.

(** [uint64(x)] of a float in range: the integer part. *)
Definition f64_to_Z (x : f64) : Z :=
  match x with
  | S754_finite s m e =>
      let v := if (0 <=? e)%Z then (Z.pos m * 2 ^ e)%Z else (Z.pos m / 2 ^ (- e))%Z in
      if s then (- v)%Z else v
  | _ => 0
  end.

(** [leadingFraction]: the digits that still fit, as a number, and the power of
    ten of their count. *)
Fixpoint leadingFraction (x : Z) (scale : f64) (overflow : bool) (s : string)
    : Z * f64 * string :=
  match s with
  | "" => (x, scale, s)
  | String c s' =>
      if negb (is_digit c) then (x, scale, s)
      else if overflow then leadingFraction x scale true s'
      else if ((2 ^ 63 - 1) / 10 <? x)%Z then leadingFraction x scale true s'
      else
        let y := (x * 10 + Z.of_N (digit_val c))%Z in
        if (2 ^ 63 <? y)%Z then leadingFraction x scale true s'
        else leadingFraction y (f64_mul scale (f64_of_Z 10)) false s'
  end.

(** The bytes up to the next digit or point. *)
Fixpoint cut_unit (s : string) : string * string :=
  match s with
  | "" => ("", "")
  | String c s' =>
      if is_digit c || Ascii.eqb c dot then ("", s)
      else let '(u, rest) := cut_unit s' in (String c u, rest)
  end.

(** [unitMap]: the two signs for micro are U+00B5 and U+03BC. *)
Definition unitMap (u : string) : option Z :=
  if (u =? "ns")%string then Some 1%Z
  else if (u =? "us")%string || (u =? String "194" (String "181" "s"))%string
          || (u =? String "206" (String "188" "s"))%string then Some microsecond
  else if (u =? "ms")%string then Some millisecond
  else if (u =? "s")%string then Some second
  else if (u =? "m")%string then Some minute
  else if (u =? "h")%string then Some hour
  else None.

(** One number with its unit, in nanoseconds. *)
Definition parse_part (s : string) : option (Z * string) :=
  match s with
  | "" => None
  | String c _ =>
      if negb (is_digit c || Ascii.eqb c dot) then None
      else match leadingInt 0 s with
      | None => None
      | Some (v, rest) =>
          let pre := negb (String.length s =? String.length rest)%nat in
          let '(f, scale, post, rest') :=
            match rest with
            | String c1 r =>
                if Ascii.eqb c1 dot then
                  let '(f, scale, r') := leadingFraction 0 (f64_of_Z 1) false r in
                  (f, scale, negb (String.length r =? String.length r')%nat, r')
                else (0%Z, f64_of_Z 1, false, rest)
            | "" => (0%Z, f64_of_Z 1, false, rest)
            end in
          if negb pre && negb post then None
          else
            let '(u, rest'') := cut_unit rest' in
            match unitMap u with
            | None => None
            | Some unit =>
                if (2 ^ 63 / unit <? v)%Z then None
                else
                  let v := (v * unit)%Z in
                  if (0 <? f)%Z then
                    let v := wrap 64 (v + f64_to_Z (f64_mul (f64_of_Z f) (f64_div (f64_of_Z unit) scale))) in
                    if (2 ^ 63 <? v)%Z then None else Some (v, rest'')
                  else Some (v, rest'')
            end
      end
  end.

(** The loop over the parts. Every part takes at least a byte, so the length of
    the text is enough fuel. *)
Fixpoint parse_parts (fuel : nat) (d : Z) (s : string) : option Z :=
  if (s =? "")%string then Some d
  else match fuel with
  | O => None
  | S fuel' =>
      match parse_part s with
      | None => None
      | Some (v, rest) =>
          let d := wrap 64 (d + v) in
          if (2 ^ 63 <? d)%Z then None else parse_parts fuel' d rest
      end
  end.

(** [time.ParseDuration]: [None] is an error. *)
Definition ParseDuration (s0 : string) : option Z :=
  let '(neg, s) := cut_sign s0 in
  if (s =? "0")%string then Some 0%Z
  else if (s =? "")%string then None
  else match parse_parts (String.length s) 0 s with
  | None => None
  | Some d => if neg then Some (wrap_s (- wrap_s d)%Z)
              else if (2 ^ 63 - 1 <? d)%Z then None else Some d
  end.

(** [fmtFrac]: the text of the fraction of [prec] digits, and what is left. *)
Fixpoint fmtFrac (prec : nat) (v : Z) (print : bool) (acc : string) : string * Z :=
  match prec with
  | O => ((if print then String dot acc else acc), v)
  | S prec' =>
      let digit := (v mod 10)%Z in
      let print := print || negb (digit =? 0)%Z in
      fmtFrac prec' (v / 10) print
        (if print then String (digit_char (Z.to_N digit)) acc else acc)
  end.

(** [d.String()]. *)
Definition Duration_String (d : Z) : string :=
  let u := Z.abs d in
  let part prec unit :=
    let '(frac, v) := fmtFrac prec u false unit in Itoa v +:+ frac in
  let text :=
    if (u <? second)%Z then
      if (u =? 0)%Z then "0s"
      else if (u <? microsecond)%Z then part 0%nat "ns"
      else if (u <? millisecond)%Z then part 3%nat (String "194" (String "181" "s"))
      else part 6%nat "ms"
    else
      let '(frac, secs) := fmtFrac 9 u false "s" in
      let s := Itoa (secs mod 60) +:+ frac in
      let mins := (secs / 60)%Z in
      if (0 <? mins)%Z then
        let s := Itoa (mins mod 60) +:+ "m" +:+ s in
        let hours := (mins / 60)%Z in
        if (0 <? hours)%Z then Itoa hours +:+ "h" +:+ s else s
      else s in
  if (d <? 0)%Z then "-" +:+ text else text.

(** ** Examples *)

Example atoi_forms :
  map Atoi ["12"; "-3"; "+4"; ""; "-"; "1_0"; "9223372036854775807"; "9223372036854775808"]
  = [Some 12; Some (-3); Some 4; None; None; None; Some max_int64; None]%Z.
Proof. vm_compute. reflexivity. Qed.

Example duration_forms :
  map ParseDuration ["30s"; "1h30m"; "1.5h"; ".5s"; "0"; "-2ms"; "5"; "s"; "1.2.3s"; "9223372036854775808ns"]
  = [Some (30 * second); Some (90 * minute); Some (90 * minute); Some (second / 2); Some 0;
     Some (-2 * millisecond); None; None; None; None]%Z.
Proof. vm_compute. reflexivity. Qed.

Example duration_texts :
  map Duration_String [24 * hour; 30 * second; 90 * minute; 1500 * millisecond; 0; 2500]%Z
  = ["24h0m0s"; "30s"; "1h30m0s"; "1.5s"; "0s"; "2.5" +:+ String "194" (String "181" "s")].
Proof. vm_compute. reflexivity. Qed.

(** ** Ranges *)

Lemma Atoi_range s n : Atoi s = Some n -> (min_int64 <= n <= max_int64)%Z.
Proof.
  unfold Atoi. destruct (cut_sign s) as [neg digits]. case_match; [done |].
  case_match eqn:Hr; [|done]. intros [= <-]. apply andb_true_iff in Hr as [?%Z.leb_le ?%Z.leb_le].
  done.
Qed.

Lemma ParseUint_range s bits n : ParseUint s bits = Some n -> (0 <= n < 2 ^ bits)%Z.
Proof.
  unfold ParseUint. case_match; [done |]. case_match eqn:Hr; [|done]. intros [= <-].
  apply Z.ltb_lt in Hr. lia.
Qed.

Lemma ParseDuration_range s d : ParseDuration s = Some d -> (min_int64 <= d <= max_int64)%Z.
Proof.
  unfold ParseDuration. destruct (cut_sign s) as [neg s'].
  case_match; [intros [= <-]; done |]. case_match; [done |].
  assert (forall fuel x t v, (0 <= x)%Z -> parse_parts fuel x t = Some v -> (0 <= v)%Z) as Hpos.
  { induction fuel as [|fuel IH]; intros x t v Hx; cbn [parse_parts];
      (destruct (t =? "")%string; [by intros [= <-] |]); [done |].
    destruct (parse_part t) as [[p rest]|]; [|done].
    case_match; [done |]. apply IH. apply wrap_range. lia. }
  destruct (parse_parts _ 0 s') as [v|] eqn:Hv; [|done]. apply Hpos in Hv; [|lia].
  destruct neg.
  - intros [= <-]. unfold wrap_s, min_int64, max_int64.
    pose proof (Z.mod_pos_bound (- ((v + 9223372036854775808) mod 18446744073709551616
      - 9223372036854775808) + 9223372036854775808) 18446744073709551616). lia.
  - case_match eqn:Hr; [done |]. intros [= <-]. apply Z.ltb_ge in Hr.
    unfold min_int64, max_int64. change (2 ^ 63 - 1)%Z with 9223372036854775807%Z in Hr. lia.
Qed.
