(* ===== verification/Blocklist.v ===== *)
(** * The blocklist store (internal/blocklist/store.go)

    [Store] is the block set and the allowlist that overrides it; a lookup
    walks the label suffixes of a name. The file holds every operation of the
    store, the relation [under] that says what a suffix match means, and the
    interface [BlockPolicy] through which the DNS handler uses the store. *)

From stdpp Require Import base numbers list gmap strings.
From Stdlib Require Import Ascii ZArith Lia.
From S2P Require Import Prelude GoStrings.

Open Scope string_scope.

(** ** State *)

(** Per-source health ([SourceStatus]). A point in time is in nanoseconds;
    [None] is Go's zero [time.Time]. *)
Record SourceStatus := mkSource {
  src_URL : string;
  src_Count : Z;
  src_LastRefresh : option Z;
  src_Stale : bool;
}.

Record Store := mkStore {
  blocked : gset string;
  allowlist : gset string;
  runtime : gset string;
  sources : option (list SourceStatus);
}.

Definition NewStore : Store := mkStore ∅ ∅ ∅ None.

(** ** Names *)

(** The loop of [normalize]: [None] at the first byte outside ASCII, otherwise
    whether the name has an upper-case letter. *)
Fixpoint scan_upper (hasUpper : bool) (d : string) : option bool :=
  match d with
  | "" => Some hasUpper
  | String c d' =>
      if negb (is_ascii_byte c) then None
      else scan_upper (hasUpper || is_upper c) d'
  end.

(** [d[len(d)-1] == '.'], and [d] without that byte. *)
Definition strip_root_dot (d : string) : string := trim_suffix d ".".

Section names.
Context `{UnicodeLower}.

Definition normalize (d : string) : string :=
  let d := strip_root_dot d in
  match scan_upper false d with
  | None => to_lower d
  | Some false => d
  | Some true => ascii_lower d
  end.

(** ** The suffix walk *)

(** The loop of [IsBlocked]. [fuel] bounds the number of labels; [None] is a
    walk that did not end. *)
Fixpoint IsBlocked_loop (fuel : nat) (s : Store) (name : string) (blk : bool)
    : option bool :=
  match fuel with
  | O => None
  | S fuel' =>
      if mem name (allowlist s) then Some false
      else
        let blk := if blk then true else mem name (blocked s) in
        match cut_byte dot name with
        | None => Some blk
        | Some (_, rest) => IsBlocked_loop fuel' s rest blk
        end
  end.

Definition walk_fuel (name : string) : nat := S (String.length name).

Definition IsBlocked (s : Store) (domain : string) : option bool :=
  let name := normalize domain in
  IsBlocked_loop (walk_fuel name) s name false.

Fixpoint IsAllowlisted_loop (fuel : nat) (s : Store) (name : string) : option bool :=
  match fuel with
  | O => None
  | S fuel' =>
      if mem name (allowlist s) then Some true
      else match cut_byte dot name with
           | None => Some false
           | Some (_, rest) => IsAllowlisted_loop fuel' s rest
           end
  end.

Definition IsAllowlisted (s : Store) (domain : string) : option bool :=
  let name := normalize domain in
  IsAllowlisted_loop (walk_fuel name) s name.

(** ** Explain *)

Record LevelResult := mkLevel {
  lv_Suffix : string;
  lv_Blocked : bool;
  lv_Allowlisted : bool;
}.

Record Explanation := mkExplanation {
  ex_Domain : string;
  ex_Decision : string;
  ex_MatchedBlock : string;
  ex_MatchedAllowlist : string;
  ex_Walk : list LevelResult;
}.

Fixpoint Explain_loop (fuel : nat) (s : Store) (cur : string) (exp : Explanation)
    : option Explanation :=
  match fuel with
  | O => None
  | S fuel' =>
      let blk := mem cur (blocked s) in
      let wl := mem cur (allowlist s) in
      let exp := mkExplanation (ex_Domain exp) (ex_Decision exp)
        (if blk && (ex_MatchedBlock exp =? "")%string then cur else ex_MatchedBlock exp)
        (if wl && (ex_MatchedAllowlist exp =? "")%string then cur
         else ex_MatchedAllowlist exp)
        (ex_Walk exp ++ [mkLevel cur blk wl]) in
      match cut_byte dot cur with
      | None => Some exp
      | Some (_, rest) => Explain_loop fuel' s rest exp
      end
  end.

Definition decide_explanation (exp : Explanation) : Explanation :=
  mkExplanation (ex_Domain exp)
    (if negb (ex_MatchedAllowlist exp =? "")%string then "allowlisted"
     else if negb (ex_MatchedBlock exp =? "")%string then "blocked"
     else "allowed")
    (ex_MatchedBlock exp) (ex_MatchedAllowlist exp) (ex_Walk exp).

Definition Explain (s : Store) (domain : string) : option Explanation :=
  let name := normalize domain in
  decide_explanation <$>
    Explain_loop (walk_fuel name) s name (mkExplanation name "" "" "" []).

(** ** Updates *)

Definition SetAllowlist (s : Store) (domains : list string) : Store :=
  mkStore (blocked s) (list_to_set (map normalize domains)) ∅ (sources s).

Definition Replace (s : Store) (domains : list string) : Store :=
  mkStore (list_to_set (map normalize domains)) (allowlist s) (runtime s) (sources s).

Definition setSources (s : Store) (l : list SourceStatus) : Store :=
  mkStore (blocked s) (allowlist s) (runtime s) (Some l).

Definition Sources (s : Store) : list SourceStatus := default [] (sources s).

Definition AddToAllowlist (s : Store) (domain : string) : Store :=
  mkStore (blocked s) ({[normalize domain]} ∪ allowlist s) (runtime s) (sources s).

Definition AddToAllowlistLimited (s : Store) (domain : string) (limit : Z)
    : bool * Store :=
  let d := normalize domain in
  if mem d (allowlist s) then (true, s)
  else if (limit <=? Z.of_nat (size (runtime s)))%Z then (false, s)
  else (true, mkStore (blocked s) ({[d]} ∪ allowlist s) ({[d]} ∪ runtime s) (sources s)).

Definition RemoveFromAllowlist (s : Store) (domain : string) : Store :=
  let d := normalize domain in
  mkStore (blocked s) (allowlist s ∖ {[d]}) (runtime s ∖ {[d]}) (sources s).

Definition GetAllowlist (s : Store) : list string := elements (allowlist s).
Definition Len (s : Store) : Z := Z.of_nat (size (blocked s)).
Definition AllowlistLen (s : Store) : Z := Z.of_nat (size (allowlist s)).
End names.

(** ** What a suffix match means *)

(** [under d x]: [d] is [x] or a name under [x], cut at a dot. *)
Definition under (d x : string) : Prop := d = x \/ exists p, d = p +:+ String dot x.

(** The levels of the walk, most specific first. *)
Fixpoint parents (d : string) : list string :=
  match d with
  | "" => []
  | String c d' => if Ascii.eqb c dot then d' :: parents d' else parents d'
  end.

Definition walk (d : string) : list string := d :: parents d.

Lemma elem_of_parents d x : x ∈ parents d <-> exists p, d = p +:+ String dot x.
Proof.
  induction d as [|c d IH]; simpl.
  - rewrite elem_of_nil. split; [done | intros ([|] & ?); done].
  - destruct (Ascii.eqb_spec c dot) as [->|Hc].
    + rewrite elem_of_cons, IH. split.
      * intros [->|(p & ->)]; [by exists "" | by exists (String dot p)].
      * intros ([|a p] & Ha); simplify_eq/=; eauto.
    + rewrite IH. split.
      * intros (p & ->). by exists (String c p).
      * intros ([|a p] & Ha); simplify_eq/=; eauto.
Qed.

Lemma elem_of_walk d x : x ∈ walk d <-> under d x.
Proof.
  unfold walk, under. rewrite elem_of_cons, elem_of_parents.
  split; (intros [->|?]; [by left | by right]).
Qed.

Lemma parents_cut d :
  parents d = match cut_byte dot d with
              | None => []
              | Some (_, rest) => walk rest
              end.
Proof.
  induction d as [|c d IH]; simpl; [done |].
  destruct (Ascii.eqb_spec c dot); [done |].
  rewrite IH. by destruct (cut_byte dot d) as [[]|].
Qed.

(** One iteration of a walk. *)
Lemma walk_cut d :
  walk d = match cut_byte dot d with
           | None => [d]
           | Some (_, rest) => d :: walk rest
           end.
Proof.
  unfold walk at 1. rewrite parents_cut. by destruct (cut_byte dot d) as [[]|].
Qed.

Lemma cut_byte_length c d u rest :
  cut_byte c d = Some (u, rest) -> (String.length rest < String.length d)%nat.
Proof. intros H. apply cut_byte_Some in H as [-> _]. rewrite string_length_app. simpl. lia. Qed.

(** Induction along a walk: a level is either the last one or it has a shorter
    parent. *)
Lemma walk_ind (P : string -> Prop) :
  (forall d, cut_byte dot d = None -> P d) ->
  (forall d u rest, cut_byte dot d = Some (u, rest) -> P rest -> P d) ->
  forall d, P d.
Proof.
  intros Hn Hs d. remember (String.length d) as n eqn:Hd.
  revert d Hd. induction (lt_wf n) as [n _ IH]. intros d ->.
  destruct (cut_byte dot d) as [[u rest]|] eqn:E; [|by apply Hn].
  eapply Hs; [done |]. eapply IH; [|done]. by eapply cut_byte_length.
Qed.

Lemma under_refl d : under d d.
Proof. by left. Qed.

Lemma under_trans a b c : under a b -> under b c -> under a c.
Proof.
  intros [->|(p & ->)] [->|(q & ->)]; unfold under; eauto.
  right. exists (p +:+ String dot q). rewrite string_app_assoc. done.
Qed.

#[export] Hint Resolve under_refl : shole.

(** ** The walks compute the suffix test *)

Definition hits (set : gset string) (d : string) : bool :=
  existsb (fun x => mem x set) (walk d).

Lemma hits_spec set d : hits set d = true <-> exists x, under d x /\ x ∈ set.
Proof.
  unfold hits. rewrite existsb_elem. setoid_rewrite elem_of_walk.
  by setoid_rewrite mem_true.
Qed.

Lemma hits_cut set d :
  hits set d = match cut_byte dot d with
               | None => mem d set
               | Some (_, rest) => mem d set || hits set rest
               end.
Proof.
  unfold hits. rewrite walk_cut. destruct (cut_byte dot d) as [[]|]; simpl; [done |].
  by rewrite orb_false_r.
Qed.

Lemma hits_mono set d e : under d e -> hits set e = true -> hits set d = true.
Proof.
  rewrite !hits_spec. intros Hde (x & Hx & ?). eauto using under_trans.
Qed.

Section walks.
Context `{UnicodeLower} (s : Store).

Lemma IsAllowlisted_loop_hits name fuel :
  (String.length name < fuel)%nat ->
  IsAllowlisted_loop fuel s name = Some (hits (allowlist s) name).
Proof.
  revert fuel. pattern name. apply walk_ind; clear name.
  - intros d Hd fuel ?. destruct fuel as [|fuel]; [lia |]. simpl.
    rewrite hits_cut, Hd. by destruct (mem d (allowlist s)).
  - intros d u rest Hd IH fuel ?. destruct fuel as [|fuel]; [lia |]. simpl.
    rewrite hits_cut, Hd. destruct (mem d (allowlist s)); [done |]. simpl.
    apply IH. apply cut_byte_length in Hd. lia.
Qed.

Lemma IsBlocked_loop_hits name fuel blk :
  (String.length name < fuel)%nat ->
  IsBlocked_loop fuel s name blk =
    Some (negb (hits (allowlist s) name) && (blk || hits (blocked s) name)).
Proof.
  revert fuel blk. pattern name. apply walk_ind; clear name.
  - intros d Hd fuel blk ?. destruct fuel as [|fuel]; [lia |]. simpl.
    rewrite !hits_cut, Hd. by destruct (mem d (allowlist s)), blk.
  - intros d u rest Hd IH fuel blk ?. destruct fuel as [|fuel]; [lia |]. simpl.
    rewrite !hits_cut, Hd. destruct (mem d (allowlist s)); [done |]. simpl.
    rewrite IH by (apply cut_byte_length in Hd; lia).
    by destruct blk, (mem d (blocked s)).
Qed.

(** The two lookups return for every store and name. *)
Lemma IsAllowlisted_eq d : IsAllowlisted s d = Some (hits (allowlist s) (normalize d)).
Proof. apply IsAllowlisted_loop_hits. unfold walk_fuel. lia. Qed.

Lemma IsBlocked_eq d :
  IsBlocked s d =
    Some (negb (hits (allowlist s) (normalize d)) && hits (blocked s) (normalize d)).
Proof.
  unfold IsBlocked. rewrite IsBlocked_loop_hits by (unfold walk_fuel; lia). done.
Qed.
End walks.

#[export] Hint Rewrite @IsBlocked_eq @IsAllowlisted_eq : shole_rw.

(** ** Normal form of a name *)

Section normal_form.
Context `{UnicodeLower}.

Lemma scan_upper_spec b d :
  scan_upper b d =
    if is_ascii d then Some (b || negb (string_forallb (fun c => negb (is_upper c)) d))
    else None.
Proof.
  unfold is_ascii. revert b. induction d as [|c d IH]; intros b; simpl.
  - by rewrite orb_false_r.
  - destruct (is_ascii_byte c); simpl; [|done]. rewrite IH.
    by destruct (is_upper c), b, (string_forallb is_ascii_byte d).
Qed.

Lemma ascii_lower_no_upper d :
  string_forallb (fun c => negb (is_upper c)) d = true -> ascii_lower d = d.
Proof.
  unfold ascii_lower. induction d as [|c d IH]; simpl; [done |].
  intros [Hc Hd]%andb_true_iff. rewrite (IH Hd). f_equal.
  unfold lower_byte. by destruct (is_upper c).
Qed.

(** The three branches of [normalize] compute the same lower-casing. *)
Lemma normalize_to_lower d : normalize d = to_lower (strip_root_dot d).
Proof.
  unfold normalize, to_lower. rewrite scan_upper_spec.
  destruct (is_ascii (strip_root_dot d)); simpl; [|done].
  destruct (string_forallb _ _) eqn:E; simpl; [|done].
  by rewrite ascii_lower_no_upper.
Qed.

Lemma normalize_ascii d :
  is_ascii d = true -> normalize d = ascii_lower (strip_root_dot d).
Proof.
  intros Hd. rewrite normalize_to_lower, to_lower_ascii; [done |].
  unfold strip_root_dot, trim_suffix. case_match; [|done].
  rewrite <- (take_drop_bytes (String.length d - String.length ".") d) in Hd.
  rewrite is_ascii_app in Hd. by apply andb_true_iff in Hd as [? _].
Qed.

(** A root dot and the letter case of a name do not matter. *)
Lemma normalize_root_dot d :
  has_suffix d "." = false -> normalize (d +:+ ".") = normalize d.
Proof.
  intros Hd. rewrite !normalize_to_lower. unfold strip_root_dot.
  rewrite trim_suffix_app. unfold trim_suffix. by rewrite Hd.
Qed.
End normal_form.

(** ** Explain *)

Section explain.
Context `{UnicodeLower} (s : Store).

(** The level that [Explain] reports for a set: the most specific one. *)
Definition first_hit (set : gset string) (m : string) (l : list string) : string :=
  fold_left (fun m x => if mem x set && (m =? "")%string then x else m) l m.

Definition level (x : string) : LevelResult :=
  mkLevel x (mem x (blocked s)) (mem x (allowlist s)).

Lemma Explain_loop_eq fuel cur exp :
  (String.length cur < fuel)%nat ->
  Explain_loop fuel s cur exp = Some (mkExplanation (ex_Domain exp) (ex_Decision exp)
    (first_hit (blocked s) (ex_MatchedBlock exp) (walk cur))
    (first_hit (allowlist s) (ex_MatchedAllowlist exp) (walk cur))
    (ex_Walk exp ++ map level (walk cur))).
Proof.
  revert fuel exp. pattern cur. apply walk_ind; clear cur.
  - intros d Hd fuel exp ?. destruct fuel as [|fuel]; [lia |].
    simpl Explain_loop. by rewrite walk_cut, Hd.
  - intros d u rest Hd IH fuel exp ?. destruct fuel as [|fuel]; [lia |].
    simpl Explain_loop. rewrite Hd, IH by (apply cut_byte_length in Hd; lia).
    rewrite (walk_cut d), Hd. simpl. by rewrite <- app_assoc.
Qed.

Lemma first_hit_kept set m l : m <> "" -> first_hit set m l = m.
Proof.
  intros Hm. unfold first_hit. induction l as [|x l IH]; simpl; [done |].
  apply String.eqb_neq in Hm. rewrite Hm, andb_false_r. done.
Qed.

Lemma first_hit_find set l :
  "" ∉ set -> first_hit set "" l = default "" (List.find (fun x => mem x set) l).
Proof.
  intros He. unfold first_hit. induction l as [|x l IH]; simpl; [done |].
  destruct (mem x set) eqn:Hx; simpl; [|done].
  apply first_hit_kept. intros ->. by apply mem_true in Hx.
Qed.

Lemma first_hit_hits set d :
  "" ∉ set ->
  negb (first_hit set "" (walk d) =? "")%string = hits set d.
Proof.
  intros He. rewrite first_hit_find by done.
  destruct (List.find _ _) as [x|] eqn:E.
  - apply find_some in E as [Hin Hx]. trans true.
    + apply negb_true_iff, String.eqb_neq. simpl. intros ->. by apply mem_true in Hx.
    + symmetry. apply existsb_exists. eauto.
  - symmetry. apply existsb_elem_false. intros x Hx.
    eapply find_none in E; [done |]. by apply list_elem_of_In.
Qed.
End explain.

(** The sets hold no empty name: [ValidDomain] refuses it on every path. *)
Definition store_wf (s : Store) : Prop := ("" ∉ blocked s) /\ ("" ∉ allowlist s).

(** ** The interface of the store

    The DNS handler asks two questions of the store; its theorems use only
    [allow_overrides]. *)

Class BlockPolicy (S : Type) := {
  policy_blocked : S -> string -> bool;
  policy_allowlisted : S -> string -> bool;
}.

Class BlockPolicyLaws (S : Type) `{!BlockPolicy S} : Prop :=
  allow_overrides : forall (s : S) d,
    policy_allowlisted s d = true -> policy_blocked s d = false.

#[export] Instance store_policy `{UnicodeLower} : BlockPolicy Store := {|
  policy_blocked s d := default false (IsBlocked s d);
  policy_allowlisted s d := default false (IsAllowlisted s d);
|}.

#[export] Instance store_policy_laws `{UnicodeLower} : BlockPolicyLaws Store.
Proof.
  intros s d. simpl. rewrite IsBlocked_eq, IsAllowlisted_eq. simpl.
  by intros ->.
Qed.

(** ** The operations as steps *)

Inductive store_op :=
  | OpSetAllowlist (l : list string)
  | OpReplace (l : list string)
  | OpSetSources (l : list SourceStatus)
  | OpAdd (d : string)
  | OpAddLimited (d : string) (limit : Z)
  | OpRemove (d : string).

Definition store_step `{UnicodeLower} (s : Store) (op : store_op) : Store :=
  match op with
  | OpSetAllowlist l => SetAllowlist s l
  | OpReplace l => Replace s l
  | OpSetSources l => setSources s l
  | OpAdd d => AddToAllowlist s d
  | OpAddLimited d limit => snd (AddToAllowlistLimited s d limit)
  | OpRemove d => RemoveFromAllowlist s d
  end.

Definition store_run `{UnicodeLower} (s : Store) (ops : list store_op) : Store :=
  fold_left store_step ops s.

Definition limit_at_most (limit : Z) (op : store_op) : Prop :=
  match op with OpAddLimited _ l => (l <= limit)%Z | _ => True end.

Definition allow_inv (limit : Z) (s : Store) : Prop :=
  (runtime s ⊆ allowlist s) /\ (Z.of_nat (size (runtime s)) <= limit)%Z.

Lemma allow_inv_step `{UnicodeLower} limit s op :
  (0 <= limit)%Z -> limit_at_most limit op ->
  allow_inv limit s -> allow_inv limit (store_step s op).
Proof.
  intros H0 Hl [Hsub Hsz]. unfold allow_inv. destruct op; cbn -[size] in *.
  - split; [set_solver | exact H0].
  - done.
  - done.
  - split; [set_solver | done].
  - unfold AddToAllowlistLimited. case_match; [done |]. case_match; [done |]. simpl.
    breflect. split; [set_solver |].
    pose proof (gset_size_insert (normalize d) (runtime s)). lia.
  - split; [set_solver |].
    pose proof (gset_size_remove (normalize d) (runtime s)). lia.
Qed.

(** ** Correctness *)

Section correctness.
Context `{UnicodeLower}.

(** C14. [IsBlocked] returns for every store and name, and says [true] exactly
    when the name or a parent of it is in the block set and neither the name
    nor a parent of it is in the allowlist. *)
Theorem is_blocked_spec (s : Store) (d : string) :
  exists b, IsBlocked s d = Some b /\
    (b = true <->
     (exists x, under (normalize d) x /\ x ∈ blocked s) /\
     ~ (exists x, under (normalize d) x /\ x ∈ allowlist s)).
Proof.
  rewrite IsBlocked_eq. eexists. split; [done |].
  rewrite andb_true_iff, negb_true_iff, <- not_true_iff_false, !hits_spec. tauto.
Qed.

(** For a store without the empty name (no path adds it), [Explain]
    returns, its decision is the one the lookups take, the walk it reports
    lists every level from the name to the last label, and a reported match
    is a member of its set and the most specific one. *)
Theorem explain_agrees (s : Store) (d : string) :
  store_wf s ->
  exists e, Explain s d = Some e /\
    (ex_Decision e = "blocked" <-> IsBlocked s d = Some true) /\
    (ex_Decision e = "allowlisted" <-> IsAllowlisted s d = Some true) /\
    (ex_Decision e = "allowed" <->
       IsBlocked s d = Some false /\ IsAllowlisted s d = Some false) /\
    map lv_Suffix (ex_Walk e) = walk (normalize d) /\
    ex_MatchedBlock e =
      default "" (List.find (fun x => mem x (blocked s)) (walk (normalize d))) /\
    ex_MatchedAllowlist e =
      default "" (List.find (fun x => mem x (allowlist s)) (walk (normalize d))).
Proof.
  intros [Hb Ha]. unfold Explain. rewrite Explain_loop_eq by (unfold walk_fuel; lia).
  eexists. split; [done |]. unfold decide_explanation.
  cbn [ex_Domain ex_Decision ex_MatchedBlock ex_MatchedAllowlist ex_Walk].
  rewrite !IsBlocked_eq, !IsAllowlisted_eq, !first_hit_hits by done.
  split_and!.
  - destruct (hits (allowlist s) (normalize d)), (hits (blocked s) (normalize d)); naive_solver.
  - destruct (hits (allowlist s) (normalize d)), (hits (blocked s) (normalize d)); naive_solver.
  - destruct (hits (allowlist s) (normalize d)), (hits (blocked s) (normalize d)); naive_solver.
  - rewrite app_nil_l, map_map. apply map_id.
  - by apply first_hit_find.
  - by apply first_hit_find.
Qed.

(** Over any sequence of the store's operations whose limited additions
    use a limit of at most [limit], the names the API added stay within
    [limit] and every one of them is in the allowlist. *)
Theorem runtime_allowlist_bounded (limit : Z) (ops : list store_op) :
  (0 <= limit)%Z -> Forall (limit_at_most limit) ops ->
  (runtime (store_run NewStore ops) ⊆ allowlist (store_run NewStore ops)) /\
  (Z.of_nat (size (runtime (store_run NewStore ops))) <= limit)%Z.
Proof.
  intros H0 Hops. assert (allow_inv limit NewStore) as Hi.
  { split; [done |]. exact H0. }
  change (allow_inv limit (store_run NewStore ops)).
  revert Hi. generalize NewStore. unfold store_run.
  induction Hops as [|op ops Hop _ IH]; intros s Hi; simpl; [done |].
  by apply IH, allow_inv_step.
Qed.

(** A limited addition that is accepted exempts the name and every name
    under it at once, one that is refused changes nothing, and a removal
    leaves a name blocked again exactly when the rest of the allowlist does
    not cover it. *)
Theorem allowlist_update_effects (s : Store) (d sub : string) (limit : Z) :
  under (normalize sub) (normalize d) ->
  (fst (AddToAllowlistLimited s d limit) = true ->
     IsBlocked (snd (AddToAllowlistLimited s d limit)) sub = Some false) /\
  (fst (AddToAllowlistLimited s d limit) = false ->
     snd (AddToAllowlistLimited s d limit) = s) /\
  (IsBlocked (RemoveFromAllowlist s d) sub = Some true <->
     (exists x, under (normalize sub) x /\ x ∈ blocked s) /\
     forall x, under (normalize sub) x -> x ∈ allowlist s -> x = normalize d).
Proof.
  intros Hu. unfold AddToAllowlistLimited. split_and!.
  - case_match eqn:Hm; simpl.
    + intros _. rewrite IsBlocked_eq. apply mem_true in Hm.
      assert (hits (allowlist s) (normalize sub) = true) as ->; [|done].
      apply hits_spec. eauto.
    + case_match; simpl; [done |]. intros _. rewrite IsBlocked_eq. simpl.
      assert (hits ({[normalize d]} ∪ allowlist s) (normalize sub) = true) as ->; [|done].
      apply hits_spec. exists (normalize d). set_solver.
  - repeat case_match; done.
  - rewrite IsBlocked_eq. simpl.
    assert (forall b : bool, Some b = Some true <-> b = true) as -> by naive_solver.
    rewrite andb_true_iff, negb_true_iff, <- not_true_iff_false, !hits_spec.
    split.
    + intros [Hn Hb]. split; [done |]. intros x Hx Hin.
      destruct (decide (x = normalize d)) as [|Hne]; [done |].
      destruct Hn. exists x. set_solver.
    + intros [Hb Hn]. split; [|done]. intros (x & Hx & Hin).
      set_solver.
Qed.
End correctness.

(** ** Witnesses *)

Module BlocklistExamples.
#[local] Instance ascii_only : UnicodeLower := fun s => s.

Definition demo : Store :=
  Replace (SetAllowlist NewStore ["good.ads.example"]) ["ads.example"; "T.Example."].

Example blocked_sub : IsBlocked demo "x.ADS.example." = Some true.
Proof. vm_compute. reflexivity. Qed.

Example allowed_sub : IsBlocked demo "a.good.ads.example" = Some false.
Proof. vm_compute. reflexivity. Qed.

Lemma explain_agrees_witness :
  store_wf demo /\
  exists e, Explain demo "a.good.ads.example" = Some e /\
    (ex_Decision e = "allowlisted" <->
     IsAllowlisted demo "a.good.ads.example" = Some true).
Proof.
  assert (store_wf demo) as Hwf by (split; apply mem_false; vm_compute; reflexivity).
  split; [exact Hwf |].
  destruct (explain_agrees demo "a.good.ads.example" Hwf) as (e & H1 & _ & H2 & _).
  exists e. split; [exact H1 | exact H2].
Defined.

Lemma runtime_allowlist_bounded_witness :
  (Z.of_nat (size (runtime (store_run NewStore
     [OpAddLimited "a.example" 1; OpAddLimited "b.example" 1]))) <= 1)%Z.
Proof.
  apply (runtime_allowlist_bounded 1); [lia |].
  repeat constructor; simpl; lia.
Defined.

Lemma allowlist_update_effects_witness :
  IsBlocked (snd (AddToAllowlistLimited demo "ads.example" 5)) "x.ads.example" = Some false.
Proof.
  destruct (allowlist_update_effects demo "ads.example" "x.ads.example" 5) as (H1 & _).
  - right. exists "x". reflexivity.
  - apply H1. vm_compute. reflexivity.
Defined.
End BlocklistExamples.
