(* ===== verification/Loader.v ===== *)
(** * The blocklist loader (internal/blocklist/loader.go)

    The grammar of a domain, the list parser, the download of one source with
    its disk cache, and the refresh of the store. The files of the cache
    directory are a map from base names to files; what the outside world does
    in one download (the HTTP exchange, a failing file operation, the clock)
    is a [fetch_env]. Errors are their texts. *)

From stdpp Require Import base numbers list gmap strings.
From Stdlib Require Import Ascii ZArith Lia.
From S2P Require Import Prelude GoStrings Blocklist.

Open Scope string_scope.

Definition err := string.

(** ** Domain names *)

Definition hyphen : ascii := "-"%char.

Definition is_alnum (c : ascii) : bool := is_lower c || is_upper c || is_digit c.

(** The bytes of the [switch] in [ValidDomain]. *)
Definition domain_char (c : ascii) : bool :=
  is_lower c || is_upper c || is_digit c ||
  (Ascii.eqb c dot || Ascii.eqb c hyphen || Ascii.eqb c "_"%char).

(** The last loop of [ValidDomain]: [prev] is the previous byte. *)
Fixpoint label_scan (prev : ascii) (name : string) : bool :=
  match name with
  | "" => negb (Ascii.eqb prev dot) && negb (Ascii.eqb prev hyphen)
  | String c name' =>
      if (Ascii.eqb c dot && (Ascii.eqb prev dot || Ascii.eqb prev hyphen))
         || (Ascii.eqb c hyphen && Ascii.eqb prev dot)
      then false else label_scan c name'
  end.

Definition ValidDomain (s : string) : bool :=
  if (s =? "")%string || (253 <? slen s)%Z then false
  else
    let i := index_byte s dot in
    if (i <=? 0)%Z || (slen s - 1 <=? i)%Z then false
    else if negb (string_forallb domain_char s) then false
    else label_scan dot (trim_suffix s ".").

Definition isLocalhostName `{UnicodeLower} (d : string) : bool :=
  let d := to_lower (trim_suffix d ".") in
  (d =? "localhost")%string || has_suffix d ".localhost"
  || (d =? "localhost.localdomain")%string.

(** ** Reading a list *)

(** What a reader gives: its bytes, then an error or the end of the file. *)
Record stream := mkStream { st_data : string; st_err : option err }.

Definition carriage_return : string := String "013"%char "".

(** [bufio.ErrTooLong]: no line ends within a full buffer of 1 MiB. *)
Definition max_token : Z := 1048576.
Definition ErrTooLong : err := "bufio.Scanner: token too long".

(** [bufio.ScanLines] over the whole input: the lines up to the first one that
    does not fit the buffer, and whether there was one. *)
Fixpoint scan_lines (pieces : list string) : list string * bool :=
  match pieces with
  | [] => ([], false)
  | [last] =>
      if (max_token <=? slen last)%Z then ([], true)
      else if (last =? "")%string then ([], false)
      else ([trim_suffix last carriage_return], false)
  | line :: rest =>
      if (max_token <=? slen line)%Z then ([], true)
      else let '(ls, long) := scan_lines rest in
           (trim_suffix line carriage_return :: ls, long)
  end.

(** What one line of a list gives: nothing to count, a skipped line, or a
    domain. *)
Inductive line_result :=
  | LineIgnored
  | LineSkipped
  | LineDomain (d : string).

Section parse.
Context `{UnicodeLower}.

Definition accept_domain (d : string) : line_result :=
  if ValidDomain d && negb (isLocalhostName d) then LineDomain d else LineSkipped.

Definition parse_line (text : string) : line_result :=
  let line := trim_space text in
  if (line =? "")%string || has_prefix "#" line then LineIgnored
  else match fields line with
  | [f] => accept_domain (trim_prefix f "*.")
  | ip :: domain :: _ =>
      if (ip =? "0.0.0.0")%string || (ip =? "127.0.0.1")%string || (ip =? "::")%string
      then if (domain =? "0.0.0.0")%string then LineSkipped else accept_domain domain
      else LineSkipped
  | [] => LineSkipped
  end.

(** One iteration of the scanner loop, on the domains and the skip count. *)
Definition parse_step (acc : list string * Z) (text : string) : list string * Z :=
  let '(domains, skipped) := acc in
  match parse_line text with
  | LineIgnored => (domains, skipped)
  | LineSkipped => (domains, (skipped + 1)%Z)
  | LineDomain d => ((domains ++ [d])%list, skipped)
  end.

Definition parseHostsFormat (r : stream) : list string * Z * option err :=
  let '(lines, long) := scan_lines (split_byte newline (st_data r)) in
  (fold_left parse_step lines ([], 0%Z), if long then Some ErrTooLong else st_err r).
End parse.

(** ** The cache directory *)

Record file := mkFile {
  f_mtime : Z;
  f_data : string;
  f_open_err : option err;   (* [os.Open] fails *)
  f_read_err : option err;   (* a read fails after the data *)
}.

Abbreviation disk := (gmap string file).

Definition cacheMaxAge : Z := (24 * hour)%Z.
Definition maxBodyBytes : Z := 268435456.
#[global] Opaque maxBodyBytes.

Inductive Mode := CacheFirst | DownloadFirst.

Inductive origin := fromDownload | fromCache | fromStaleCache.

#[export] Instance origin_eq_dec : EqDecision origin.
Proof. solve_decision. Defined.

Record sourceMeta := mkMeta { m_from : origin; m_snapshot : Z; m_skipped : Z }.

(** What happens outside in one download. *)
Record fetch_env := mkEnv {
  e_now : Z;                        (* the clock *)
  e_request_err : option err;       (* [http.NewRequest] *)
  e_response : err + Z * stream;    (* [httpClient.Do]: an error, or the status and the body *)
  e_create_err : option err;        (* [os.Create] of the .tmp file *)
  e_write_err : option (nat * err); (* a write to it fails after so many bytes *)
  e_close_err : option err;
  e_remove_fails : bool;            (* a best-effort [os.Remove] *)
  e_rename_err : option err;
}.

(** [io.LimitReader]: the underlying reader is not read past the limit. *)
Definition limit_reader (max : Z) (r : stream) : stream :=
  if (slen (st_data r) <? max)%Z then r
  else mkStream (take_bytes (Z.to_nat max) (st_data r)) None.

(** [io.TeeReader]: a failed write is a read error. *)
Definition tee_reader (werr : option (nat * err)) (r : stream) : stream :=
  match werr with
  | Some (n, e) =>
      if (n <? String.length (st_data r))%nat
      then mkStream (take_bytes n (st_data r)) (Some e) else r
  | None => r
  end.

(** The hex digest of [crypto/sha256], outside this repository. *)
Class Sha256 := sha256_hex : string -> string.

Section loader.
Context `{UnicodeLower} `{Sha256}.

Definition cacheFilename (url : string) : string :=
  "blocklist_" +:+ sha256_hex url +:+ ".txt".

Definition loadFromFile (f : file) : (list string * Z) + err :=
  match f_open_err f with
  | Some e => inr e
  | None =>
      match parseHostsFormat (mkStream (f_data f) (f_read_err f)) with
      | (r, None) => inl r
      | (_, Some e) => inr e
      end
  end.

Definition both_errors (dl load : err) : err :=
  dl +:+ "; the cached copy could not be read either: " +:+ load.

Definition staleFallback (f : file) (dlErr : err) : (list string * sourceMeta) + err :=
  match loadFromFile f with
  | inr loadErr => inr (both_errors dlErr loadErr)
  | inl (domains, skipped) =>
      inl (domains, mkMeta fromStaleCache (f_mtime f) skipped)
  end.

(** The common tail of the failure paths: the cached copy if there is one. *)
Definition fallback (d : disk) (path : string) (dlErr : err)
    : (list string * sourceMeta) + err :=
  match d !! path with
  | Some f => staleFallback f dlErr
  | None => inr dlErr
  end.

(** The best-effort [os.Remove(tmpPath)]. *)
Definition remove_tmp (env : fetch_env) (tmp : string) (d : disk) : disk :=
  if e_remove_fails env then d else delete tmp d.

(** The first branch of [fetchList]: a cache file young enough to serve. *)
Definition serve_fresh (d : disk) (path : string) (mode : Mode) (env : fetch_env)
    : option (list string * sourceMeta) :=
  match d !! path, mode with
  | Some f, CacheFirst =>
      if (time_sub (e_now env) (f_mtime f) <? cacheMaxAge)%Z then
        match loadFromFile f with
        | inl (domains, skipped) => Some (domains, mkMeta fromCache (f_mtime f) skipped)
        | inr _ => None
        end
      else None
  | _, _ => None
  end.

(** A body with status 200: written to the .tmp file while it is parsed. *)
Definition read_body (d : disk) (path : string) (body : stream) (env : fetch_env)
    : ((list string * sourceMeta) + err) * disk :=
  let tmp := path +:+ ".tmp" in
  let limited := limit_reader maxBodyBytes body in
  let created := match e_create_err env with None => true | Some _ => false end in
  let input := if created then tee_reader (e_write_err env) limited else limited in
  let d := if created
           then <[tmp := mkFile (e_now env) (st_data input) None None]> d else d in
  let '(domains, skipped, parseErr) := parseHostsFormat input in
  let closeErr := if created then e_close_err env else None in
  let readErr := match parseErr with Some e => Some e | None => closeErr end in
  match readErr with
  | Some e => (fallback (remove_tmp env tmp d) path e, remove_tmp env tmp d)
  | None =>
      if (maxBodyBytes <? slen (st_data body))%Z then
        (fallback (remove_tmp env tmp d) path "response exceeded the cap",
         remove_tmp env tmp d)
      else
        let d := if created then
                   match e_rename_err env, d !! tmp with
                   | None, Some f => <[path := f]> (delete tmp d)
                   | _, _ => remove_tmp env tmp d
                   end
                 else d in
        (inl (domains, mkMeta fromDownload (e_now env) skipped), d)
  end.

Definition fetchList (d : disk) (url : string) (mode : Mode) (env : fetch_env)
    : ((list string * sourceMeta) + err) * disk :=
  let path := cacheFilename url in
  match serve_fresh d path mode env with
  | Some r => (inl r, d)
  | None =>
      match e_request_err env with
      | Some e => (inr e, d)
      | None =>
          match e_response env with
          | inl e => (fallback d path e, d)
          | inr (status, body) =>
              if negb (status =? 200)%Z then (fallback d path "HTTP status", d)
              else read_body d path body env
          end
      end
  end.

(** ** Refreshing the store *)

Record update_acc := mkAcc {
  a_all : list string;
  a_ok : Z;
  a_lastErr : option err;
  a_sources : list SourceStatus;
  a_disk : disk;
}.

Definition update_one (mode : Mode) (acc : update_acc) (ue : string * fetch_env)
    : update_acc :=
  let '(u, env) := ue in
  let '(r, d) := fetchList (a_disk acc) u mode env in
  match r with
  | inr e =>
      mkAcc (a_all acc) (a_ok acc) (Some e)
        (a_sources acc ++ [mkSource u 0 None true])%list d
  | inl (domains, meta) =>
      mkAcc (a_all acc ++ domains)%list (a_ok acc + 1) (a_lastErr acc)
        (a_sources acc ++
           [mkSource u (lenZ domains) (Some (m_snapshot meta))
              (bool_decide (m_from meta = fromStaleCache))])%list d
  end.

Definition update_all (mode : Mode) (d : disk) (urls : list (string * fetch_env))
    : update_acc :=
  fold_left (update_one mode) urls (mkAcc [] 0 None [] d).

(** [Update] on the URLs, each with what happens in its download. *)
Definition Update (store : Store) (d : disk) (urls : list (string * fetch_env))
    (mode : Mode) : Store * disk * option err :=
  let acc := update_all mode d urls in
  let store := setSources store (a_sources acc) in
  if (a_ok acc =? 0)%Z && (0 <? lenZ urls)%Z then
    (store, a_disk acc,
     Some ("all blocklists failed: " +:+ default "<nil>" (a_lastErr acc)))
  else (Replace store (a_all acc), a_disk acc, None).

(** The warning that [warnUnreadList] logs, if any. *)
Definition warnUnreadList (read skipped : Z) : option string :=
  if (read =? 0)%Z && (skipped =? 0)%Z then Some "blocklist has no domains"
  else if (read <? skipped)%Z then Some "blocklist lines skipped"
  else None.

(** Whether [warnIfEmpty] logs. *)
Definition warnIfEmpty (store : Store) : bool := (Len store =? 0)%Z.
End loader.

(** ** Redirects *)

Definition maxRedirects : Z := 10.

(** [checkRedirect] on the scheme of the new request and the schemes of the
    requests before it; [via] is never empty. *)
Definition checkRedirect (scheme : string) (via : list string) : option err :=
  if (maxRedirects <=? lenZ via)%Z then Some "stopped after 10 redirects"
  else match via with
  | first :: _ =>
      if (first =? "https")%string && negb (scheme =? "https")%string
      then Some "redirect from HTTPS to a non-HTTPS URL refused" else None
  | [] => None
  end.

(** ** Purging the cache *)

(** A base name that the glob [blocklist_*.txt*] and the suffix test select. *)
Definition purgeable (base : string) : bool :=
  has_prefix "blocklist_" base && contains (trim_prefix base "blocklist_") ".txt"
  && (has_suffix base ".txt" || has_suffix base ".txt.tmp").

(** [PurgeCache]: [listing] is the sorted directory listing that [Glob] reads,
    [fails] says which removals fail. The directory path itself holds no glob
    character. *)
Definition purge_one (fails : string -> option err) (acc : Z * option err * disk)
    (m : string) : Z * option err * disk :=
  let '(removed, firstErr, d) := acc in
  match fails m with
  | Some e => (removed, match firstErr with None => Some e | Some _ => firstErr end, d)
  | None => ((removed + 1)%Z, firstErr, delete m d)
  end.

Definition PurgeCache (d : disk) (listing : list string) (fails : string -> option err)
    : Z * option err * disk :=
  fold_left (purge_one fails) (List.filter purgeable listing) (0%Z, None, d).

(** ** The grammar of a domain *)

(** What a label may be: letters, digits, [-] and [_], no [-] at either end. *)
Definition label_char (c : ascii) : bool :=
  is_alnum c || Ascii.eqb c hyphen || Ascii.eqb c "_"%char.

Fixpoint last_byte (prev : ascii) (l : string) : ascii :=
  match l with "" => prev | String c l' => last_byte c l' end.

Definition label_ok (l : string) : Prop :=
  match l with
  | "" => False
  | String c l' =>
      string_forallb label_char l = true /\ c <> hyphen /\ last_byte c l' <> hyphen
  end.

(** The labels of a name, its root dot left out. *)
Definition labels (s : string) : list string := split_byte dot (trim_suffix s ".").

(** The part of [label_scan] that looks at one label. *)
Fixpoint tail_ok (prev : ascii) (l : string) : bool :=
  match l with
  | "" => negb (Ascii.eqb prev dot) && negb (Ascii.eqb prev hyphen)
  | String c l' => negb (Ascii.eqb c hyphen && Ascii.eqb prev dot) && tail_ok c l'
  end.

Lemma split_byte_cons c s : exists l ls, split_byte c s = l :: ls.
Proof.
  destruct s as [|a s]; simpl; [eauto |].
  destruct (Ascii.eqb a c); [eauto |]. destruct (split_byte c s); eauto.
Qed.

Lemma label_scan_split prev name :
  label_scan prev name =
    match split_byte dot name with
    | l :: ls => tail_ok prev l && forallb (tail_ok dot) ls
    | [] => false
    end.
Proof.
  revert prev. induction name as [|c name IH]; intros prev; simpl.
  - by rewrite andb_true_r.
  - rewrite IH. destruct (split_byte_cons dot name) as (l & ls & ->).
    destruct (Ascii.eqb_spec c dot) as [->|Hc]; simpl.
    + by destruct (Ascii.eqb prev dot), (Ascii.eqb prev hyphen).
    + by destruct (Ascii.eqb c hyphen), (Ascii.eqb prev dot).
Qed.

Lemma tail_ok_last prev l :
  prev <> dot -> no_byte dot l -> tail_ok prev l = negb (Ascii.eqb (last_byte prev l) hyphen).
Proof.
  revert prev. induction l as [|c l IH]; intros prev Hp Hl; simpl.
  - by apply Ascii.eqb_neq in Hp as ->.
  - apply no_byte_cons in Hl as [Hc Hl]. rewrite IH by done.
    apply Ascii.eqb_neq in Hp as ->. by rewrite andb_false_r.
Qed.

Lemma label_char_split c :
  label_char c = domain_char c && negb (Ascii.eqb c dot).
Proof. apply eqb_true_iff. revert c. apply byte_ind_bool. vm_compute. done. Qed.

Lemma string_forallb_and f g s :
  string_forallb (fun c => f c && g c) s = string_forallb f s && string_forallb g s.
Proof.
  induction s as [|c s IH]; simpl; [done |]. rewrite IH.
  by destruct (f c), (g c), (string_forallb f s).
Qed.

Lemma string_forallb_ext f g s :
  (forall c, f c = g c) -> string_forallb f s = string_forallb g s.
Proof. intros H. induction s; simpl; congruence. Qed.

Lemma label_ok_spec l :
  no_byte dot l ->
  (label_ok l <-> tail_ok dot l = true /\ string_forallb domain_char l = true).
Proof.
  intros Hl. destruct l as [|c l]; [by naive_solver |].
  pose proof Hl as Hl'. apply no_byte_cons in Hl as [Hc Hl].
  assert (string_forallb label_char (String c l) = string_forallb domain_char (String c l)) as E.
  { rewrite (string_forallb_ext _ _ _ label_char_split), string_forallb_and.
    apply no_byte_bool in Hl'. by rewrite Hl', andb_true_r. }
  unfold label_ok. rewrite E. cbn [tail_ok].
  rewrite tail_ok_last, andb_true_iff, !negb_true_iff, andb_true_r, !Ascii.eqb_neq by done.
  naive_solver.
Qed.

Lemma split_no_byte c s : Forall (no_byte c) (split_byte c s).
Proof.
  induction s as [|a s IH]; simpl; [by repeat constructor; apply no_byte_nil |].
  destruct (Ascii.eqb_spec a c) as [->|Ha]; [by constructor; [apply no_byte_nil |] |].
  destruct (split_byte_cons c s) as (l & ls & E). rewrite E in *.
  inversion IH; subst. constructor; [by apply no_byte_cons | done].
Qed.

Lemma split_forallb f c s :
  f c = true -> string_forallb f s = forallb (string_forallb f) (split_byte c s).
Proof.
  intros Hf. induction s as [|a s IH]; simpl; [done |].
  destruct (Ascii.eqb_spec a c) as [->|Ha]; simpl; [by rewrite Hf |].
  rewrite IH. destruct (split_byte_cons c s) as (l & ls & ->). simpl.
  by rewrite andb_assoc.
Qed.

Lemma labels_ok_spec name :
  Forall label_ok (split_byte dot name) <->
  label_scan dot name = true /\ string_forallb domain_char name = true.
Proof.
  rewrite label_scan_split, (split_forallb _ dot) by done.
  pose proof (split_no_byte dot name) as Hn.
  destruct (split_byte_cons dot name) as (l & ls & E). rewrite E in *.
  change (tail_ok dot l && forallb (tail_ok dot) ls) with (forallb (tail_ok dot) (l :: ls)).
  rewrite !forallb_elem, Forall_forall.
  split.
  - intros H. split; intros x Hx; rewrite Forall_forall in Hn; apply label_ok_spec; auto.
  - intros [H1 H2] x Hx. rewrite Forall_forall in Hn. apply label_ok_spec; auto.
Qed.

Lemma trim_dot_cases s :
  (trim_suffix s "." = s /\ has_suffix s "." = false) \/ s = trim_suffix s "." +:+ ".".
Proof.
  destruct (has_suffix s ".") eqn:E.
  - right. apply has_suffix_spec in E as (r & ->). by rewrite trim_suffix_app.
  - left. unfold trim_suffix. by rewrite E.
Qed.

Lemma trim_dot_cut u v :
  v <> "" -> trim_suffix (u +:+ String dot v) "." = u +:+ String dot (trim_suffix v ".").
Proof.
  intros Hv. destruct (trim_dot_cases v) as [[-> Hs]|Hr].
  - unfold trim_suffix. assert (has_suffix (u +:+ String dot v) "." = false) as ->; [|done].
    apply not_true_iff_false. intros (r & Hr)%has_suffix_spec.
    apply not_true_iff_false in Hs. apply Hs. apply has_suffix_spec.
    clear Hs. revert r Hr. induction u as [|c u IH]; intros r Hr; simpl in *.
    + destruct r as [|c r]; simplify_eq/=; eauto.
    + destruct r as [|c' r]; simplify_eq/=; [by destruct u | eauto].
  - rewrite Hr at 1.
    replace (u +:+ String dot (trim_suffix v "." +:+ "."))
      with ((u +:+ String dot (trim_suffix v ".")) +:+ ".") by by rewrite string_app_assoc.
    by rewrite trim_suffix_app.
Qed.

Lemma split_byte_app u v :
  no_byte dot u -> split_byte dot (u +:+ String dot v) = u :: split_byte dot v.
Proof.
  induction u as [|c u IH]; simpl; [done |].
  intros [Hc Hu]%no_byte_cons. apply Ascii.eqb_neq in Hc as ->. by rewrite IH.
Qed.

Lemma split_byte_single s : no_byte dot s -> split_byte dot s = [s].
Proof.
  induction s as [|c s IH]; simpl; [done |].
  intros [Hc Hs]%no_byte_cons. apply Ascii.eqb_neq in Hc as ->. by rewrite IH.
Qed.

Lemma cut_byte_Some_no c s u v :
  cut_byte c s = Some (u, v) -> s = u +:+ String c v /\ no_byte c u.
Proof. intros H. apply cut_byte_Some in H as [-> ?]. done. Qed.

Lemma domain_char_trim s :
  string_forallb domain_char (trim_suffix s ".") = string_forallb domain_char s.
Proof.
  destruct (trim_dot_cases s) as [[-> _]|Hr]; [done |]. rewrite Hr at 2.
  generalize (trim_suffix s "."). intros t. induction t; simpl; congruence.
Qed.

(** The test on the first dot is the test for two labels, once the labels are
    well formed. *)
Lemma first_dot_labels s :
  Forall label_ok (labels s) ->
  ((0 < index_byte s dot)%Z /\ (index_byte s dot < slen s - 1)%Z <->
   (2 <= length (labels s))%nat).
Proof.
  unfold labels, index_byte. intros Hl. destruct (cut_byte dot s) as [[u v]|] eqn:E.
  - apply cut_byte_Some_no in E as [-> Hu].
    unfold slen. rewrite string_length_app. simpl String.length.
    destruct (String.eqb_spec v "") as [->|Hv].
    + change (String dot "") with ".". rewrite trim_suffix_app, split_byte_single by done. simpl. lia.
    + rewrite trim_dot_cut in Hl |- * by done. rewrite split_byte_app in Hl |- * by done.
      inversion Hl as [|? ? Hlu]; subst. destruct (split_byte_cons dot (trim_suffix v "."))
        as (l & ls & ->). simpl.
      destruct u; [done |]. destruct v; [done |]. simpl. lia.
  - apply cut_byte_None in E.
    assert (no_byte dot (trim_suffix s ".")).
    { destruct (trim_dot_cases s) as [[-> _]|Hr]; [done |]. rewrite Hr in E.
      by apply no_byte_app in E as [? _]. }
    rewrite split_byte_single by done. simpl. lia.
Qed.

(** [ValidDomain] accepts exactly the names of at most 253 bytes that have
    two labels or more (a root dot is allowed), where a label is not empty, is
    made of letters, digits, [-] and [_], and neither starts nor ends with
    [-]. *)
Theorem valid_domain_labels (s : string) :
  ValidDomain s = true <->
  (slen s <= 253)%Z /\ (2 <= length (labels s))%nat /\ Forall label_ok (labels s).
Proof.
  unfold ValidDomain. destruct (String.eqb_spec s "") as [->|Hs].
  { simpl. split; [done |]. intros (_ & H & _). simpl in H. lia. }
  simpl. destruct (Z.ltb_spec 253 (slen s)) as [H|Hlen].
  { split; [done | lia]. }
  unfold labels at 2. rewrite labels_ok_spec, domain_char_trim.
  destruct (label_scan dot (trim_suffix s ".")) eqn:Hscan,
    (string_forallb domain_char s) eqn:Hc; simpl.
  - assert (Forall label_ok (labels s)) as Hok.
    { apply labels_ok_spec. by rewrite domain_char_trim. }
    apply first_dot_labels in Hok as <-. split_cases; breflect; naive_solver lia.
  - split_cases; naive_solver.
  - split_cases; naive_solver.
  - split_cases; naive_solver.
Qed.

(** ** Reading a list *)

Definition meaningful (r : line_result) : bool :=
  match r with LineIgnored => false | _ => true end.

Definition line_domain (r : line_result) : option string :=
  match r with LineDomain d => Some d | _ => None end.

Section parsing.
Context `{UnicodeLower}.

Lemma parse_line_valid text d :
  parse_line text = LineDomain d -> ValidDomain d = true /\ isLocalhostName d = false.
Proof.
  unfold parse_line, accept_domain. intros Hp. repeat case_match; simplify_eq/=; breflect; done.
Qed.

Lemma parse_steps lines doms n :
  fold_left parse_step lines (doms, n) =
    ((doms ++ omap line_domain (map parse_line lines))%list,
     (n + lenZ (List.filter meaningful (map parse_line lines))
        - lenZ (omap line_domain (map parse_line lines)))%Z).
Proof.
  revert doms n. induction lines as [|t lines IH]; intros doms n; simpl.
  - apply pair_equal_spec. rewrite app_nil_r. unfold lenZ. simpl. split; [done | lia].
  - destruct (parse_line t) as [| |d]; simpl; rewrite IH; apply pair_equal_spec;
      unfold lenZ, omap; simpl.
    + done.
    + split; [done | lia].
    + rewrite <- app_assoc. split; [done | lia].
Qed.

(** Reading a list gives, in order, the domain of every line that has
    one; each is a valid domain and no localhost name; and the skip count is
    the number of lines that are neither blank nor a comment and gave no
    domain. *)
Theorem parse_hosts_format_spec (r : stream) :
  let lines := map parse_line (fst (scan_lines (split_byte newline (st_data r)))) in
  let '(domains, skipped, _) := parseHostsFormat r in
  domains = omap line_domain lines /\
  Forall (fun d => ValidDomain d = true /\ isLocalhostName d = false) domains /\
  (lenZ domains + skipped)%Z = lenZ (List.filter meaningful lines).
Proof.
  simpl. unfold parseHostsFormat.
  destruct (scan_lines _) as [ls long]. simpl. rewrite parse_steps. simpl.
  split_and!; [done | | lia].
  apply Forall_forall. intros d (r' & Hr & Hd)%list_elem_of_omap.
  apply list_elem_of_fmap in Hr as (t & -> & _).
  destruct (parse_line t) eqn:E; simplify_eq/=. by eapply parse_line_valid.
Qed.
End parsing.

(** ** One download *)

Section download.
Context `{UnicodeLower} `{Sha256}.

Lemma tmp_ne path : path +:+ ".tmp" <> path.
Proof.
  intros Hp. apply (f_equal String.length) in Hp. rewrite string_length_app in Hp.
  simpl in Hp. lia.
Qed.

Lemma remove_tmp_other env tmp d p : p <> tmp -> remove_tmp env tmp d !! p = d !! p.
Proof. unfold remove_tmp. intros ?. case_match; [done |]. by rewrite lookup_delete_ne. Qed.

Lemma fallback_readable d path e f doms n :
  d !! path = Some f -> loadFromFile f = inl (doms, n) ->
  fallback d path e = inl (doms, mkMeta fromStaleCache (f_mtime f) n).
Proof. unfold fallback, staleFallback. by intros -> ->. Qed.

(** A disk on which only the .tmp file may differ. *)
Definition same_but (tmp : string) (d d' : disk) : Prop :=
  forall p, p <> tmp -> d' !! p = d !! p.

(** A body that fits the cap and parsed to its end. *)
Definition whole_body (env : fetch_env) (body : stream)
    (r : (list string * sourceMeta) + err) : Prop :=
  (slen (st_data body) <= maxBodyBytes)%Z /\
  exists domains skipped input,
    st_data input = st_data body /\
    parseHostsFormat input = (domains, skipped, None) /\
    r = inl (domains, mkMeta fromDownload (e_now env) skipped).

(** The body in the cache file, and no other file touched but the .tmp. *)
Definition saved (path : string) (env : fetch_env) (body : stream) (d d' : disk) : Prop :=
  d' !! path = Some (mkFile (e_now env) (st_data body) None None) /\
  forall p, p <> path -> p <> path +:+ ".tmp" -> d' !! p = d !! p.

Lemma limit_reader_fits body :
  (slen (st_data body) <= maxBodyBytes)%Z ->
  st_data (limit_reader maxBodyBytes body) = st_data body.
Proof.
  unfold limit_reader. intros Hb. destruct (Z.ltb_spec (slen (st_data body)) maxBodyBytes).
  - done.
  - simpl. replace (Z.to_nat maxBodyBytes) with (String.length (st_data body))
      by (unfold slen in *; lia).
    rewrite <- (string_app_nil_r (st_data body)) at 2. apply take_bytes_app.
Qed.

Lemma parse_read_err r doms n :
  parseHostsFormat r = (doms, n, None) -> st_err r = None.
Proof. unfold parseHostsFormat. destruct (scan_lines _) as [ls []]; naive_solver. Qed.

Lemma tee_reader_whole werr r :
  st_err (tee_reader werr r) = None -> st_data (tee_reader werr r) = st_data r.
Proof. unfold tee_reader. by repeat case_match. Qed.

(** How the download of a body ends: the fallback, a list that is used but
    not saved, or a list that is used and saved. *)
Lemma read_body_outcome d path body env r d' :
  read_body d path body env = (r, d') ->
  (same_but (path +:+ ".tmp") d d' /\ exists e d1, same_but (path +:+ ".tmp") d d1 /\ r = fallback d1 path e) \/
  (whole_body env body r /\ (same_but (path +:+ ".tmp") d d' \/ saved path env body d d')).
Proof.
  unfold read_body. set (tmp := path +:+ ".tmp").
  set (created := match e_create_err env with None => true | Some _ => false end).
  set (lim := limit_reader maxBodyBytes body).
  set (input := if created then tee_reader (e_write_err env) lim else lim).
  set (d1 := if created then <[tmp := mkFile (e_now env) (st_data input) None None]> d else d).
  assert (same_but tmp d d1) as Hd1.
  { intros p Hp. unfold d1. destruct created; [|done]. by rewrite lookup_insert_ne. }
  assert (same_but tmp d (remove_tmp env tmp d1)) as Hrm.
  { intros p Hp. rewrite remove_tmp_other by done. by apply Hd1. }
  destruct (parseHostsFormat input) as [[doms n] parseErr] eqn:Hparse.
  destruct (match parseErr with Some e => Some e | None => _ end) as [e|] eqn:Hread.
  { intros [= <- <-]. left. split; [done | eauto]. }
  destruct (Z.ltb_spec maxBodyBytes (slen (st_data body))) as [Hbig|Hfits].
  { intros [= <- <-]. left. split; [done | eauto]. }
  destruct parseErr as [|]; [done |].
  assert (st_data input = st_data body) as Hin.
  { rewrite <- (limit_reader_fits body Hfits). unfold input, lim in *.
    apply parse_read_err in Hparse. destruct created; [|done]. by apply tee_reader_whole. }
  intros [= <- <-]. right. split; [split; [done |]; by eexists _, _, input |].
  destruct created eqn:Hc; [|by left].
  destruct (e_rename_err env) as [e|]; [by left |].
  destruct (d1 !! tmp) as [f|] eqn:Hf; [|by left].
  right. assert (f = mkFile (e_now env) (st_data body) None None) as ->.
  { unfold d1 in Hf. rewrite lookup_insert in Hf. rewrite decide_True in Hf by done. congruence. }
  split.
  - rewrite lookup_insert. by rewrite decide_True.
  - intros p Hp Ht. rewrite lookup_insert_ne, lookup_delete_ne by done. by apply Hd1.
Qed.

Lemma same_but_path path d d' :
  same_but (path +:+ ".tmp") d d' -> d' !! path = d !! path.
Proof. intros H1. apply H1. intros Hp. by apply (tmp_ne path). Qed.


(** While the cache holds a copy of a list that can be read, a download
    of the list never fails, whatever the server or the disk does: it gives
    the list of that copy, with the time of the copy, or the list of a whole
    downloaded body. *)
Theorem fetch_list_stale_fallback (d : disk) (url : string) (mode : Mode)
    (env : fetch_env) (f : file) (doms : list string) (n : Z) :
  d !! cacheFilename url = Some f ->
  loadFromFile f = inl (doms, n) ->
  e_request_err env = None ->
  exists got meta,
    fst (fetchList d url mode env) = inl (got, meta) /\
    ((got = doms /\ m_snapshot meta = f_mtime f /\ m_from meta <> fromDownload) \/
     exists body, e_response env = inr (200%Z, body) /\
       whole_body env body (inl (got, meta))).
Proof.
  intros Hf Hload Hreq. set (path := cacheFilename url) in *.
  assert (forall e d1, d1 !! path = d !! path -> fallback d1 path e =
            inl (doms, mkMeta fromStaleCache (f_mtime f) n)) as Hfb.
  { intros e d1 Hd1. eapply fallback_readable; [by rewrite Hd1 | done]. }
  unfold fetchList. fold path. unfold serve_fresh. rewrite Hf, Hload.
  destruct mode; [destruct (_ <? _)%Z; [by eexists _, _; split; [|left] |] |].
  all: rewrite Hreq; destruct (e_response env) as [|[status body]] eqn:Hr.
  all: try (eexists _, _; split; [by simpl; rewrite Hfb by done | by left]).
  all: destruct (Z.eqb_spec status 200) as [->|]; simpl;
    try (eexists _, _; split; [by simpl; rewrite Hfb by done | by left]).
  all: destruct (read_body d path body env) as [r d'] eqn:E; simpl;
    apply read_body_outcome in E as [[Hs (e & d1 & Hs1 & ->)]|[Hw _]];
    [eexists _, _; split; [rewrite Hfb by (by apply same_but_path); done | by left] |].
  all: destruct Hw as (Hfit & got & k & input & Hin & Hp & ->);
    eexists _, _; split; [done | right]; eexists; split; [done |];
    split; [done |]; by eexists _, _, _.
Qed.
End download.

(** ** A refresh *)

Section refresh.
Context `{UnicodeLower} `{Sha256}.

(** The result of each source in turn, the disk threaded through. *)
Fixpoint fetch_results (mode : Mode) (d : disk) (urls : list (string * fetch_env))
    : list ((list string * sourceMeta) + err) :=
  match urls with
  | [] => []
  | (u, env) :: urls' =>
      fst (fetchList d u mode env) :: fetch_results mode (snd (fetchList d u mode env)) urls'
  end.

Definition result_domains (r : (list string * sourceMeta) + err) : list string :=
  match r with inl (doms, _) => doms | inr _ => [] end.

Definition result_failed (r : (list string * sourceMeta) + err) : bool :=
  match r with inl _ => false | inr _ => true end.

(** What the dashboard shows of one source. *)
Definition result_status (u : string) (r : (list string * sourceMeta) + err) : SourceStatus :=
  match r with
  | inr _ => mkSource u 0 None true
  | inl (doms, meta) =>
      mkSource u (lenZ doms) (Some (m_snapshot meta)) (bool_decide (m_from meta = fromStaleCache))
  end.

Lemma update_all_acc mode urls acc :
  let rs := fetch_results mode (a_disk acc) urls in
  let acc' := fold_left (update_one mode) urls acc in
  a_all acc' = (a_all acc ++ concat (map result_domains rs))%list /\
  a_ok acc' = (a_ok acc + lenZ (List.filter (fun r => negb (result_failed r)) rs))%Z /\
  a_sources acc' = (a_sources acc ++ zip_with result_status (map fst urls) rs)%list.
Proof.
  revert acc. induction urls as [|[u env] urls IH]; intros acc; simpl.
  - rewrite !app_nil_r. unfold lenZ. simpl. by rewrite Z.add_0_r.
  - destruct (fetchList (a_disk acc) u mode env) as [r d'] eqn:E. simpl.
    destruct r as [[doms meta]|e]; simpl;
      match goal with |- context [fold_left (update_one mode) urls ?a] =>
        destruct (IH a) as (-> & -> & ->) end; simpl; rewrite <- ?app_assoc.
    + split_and!; [done | | done]. unfold lenZ. simpl. lia.
    + done.
Qed.

(** A refresh blocks exactly the names that some source gave, unless
    there are sources and every one of them failed: then the block set stays
    as it was and the refresh reports an error. Either way every source gets
    its own status, in the order of the configuration, and the allowlist is
    not touched. *)
Theorem update_spec (store : Store) (d : disk) (urls : list (string * fetch_env))
    (mode : Mode) :
  let rs := fetch_results mode d urls in
  let '(store', _, e) := Update store d urls mode in
  (e <> None <-> urls <> [] /\ Forall (fun r => result_failed r = true) rs) /\
  (e <> None -> blocked store' = blocked store) /\
  (e = None -> forall x, x ∈ blocked store' <->
     exists r y, r ∈ rs /\ y ∈ result_domains r /\ x = normalize y) /\
  Sources store' = zip_with result_status (map fst urls) rs /\
  allowlist store' = allowlist store /\ runtime store' = runtime store.
Proof.
  simpl. unfold Update, update_all.
  destruct (update_all_acc mode urls (mkAcc [] 0 None [] d)) as (Hall & Hok & Hsrc).
  cbn [a_disk a_all a_ok a_sources] in Hall, Hok, Hsrc. rewrite Hok, Hsrc.
  set (rs := fetch_results mode d urls) in *.
  assert (length rs = length urls) as Hlen.
  { unfold rs. clear. revert d. induction urls as [|[u env] urls IH]; intros d; simpl; [done |].
    by rewrite IH. }
  assert ((0 + lenZ (List.filter (fun r => negb (result_failed r)) rs) =? 0)%Z = true <->
          Forall (fun r => result_failed r = true) rs) as Hf.
  { clear. unfold lenZ. induction rs as [|r rs IH]; simpl; [done |].
    rewrite Forall_cons. destruct (result_failed r); simpl; [|naive_solver lia].
    rewrite IH. naive_solver. }
  assert ((0 <? lenZ urls)%Z = true <-> urls <> []) as Hu.
  { unfold lenZ. destruct urls; simpl; naive_solver lia. }
  destruct (_ =? 0)%Z eqn:E1, (0 <? lenZ urls)%Z eqn:E2; simpl.
  all: split_and!; try done; try (clear -Hf Hu; intuition congruence).
  all: intros _ x; rewrite Hall; simpl; rewrite elem_of_list_to_set, list_elem_of_fmap.
  all: split; [intros (y & -> & Hy); apply list_elem_of_In, in_concat in Hy as (l & Hl & Hy);
               apply in_map_iff in Hl as (r & <- & Hr); exists r, y; by rewrite !list_elem_of_In
              |intros (r & y & Hr & Hy & ->); exists y; split; [done |];
               apply list_elem_of_In, in_concat; exists (result_domains r);
               rewrite in_map_iff, <- list_elem_of_In; split; [exists r; by rewrite <- list_elem_of_In | done]].
Qed.
End refresh.

(** ** The purge *)

Lemma purge_one_disk fails ms removed e d :
  let '(_, _, d') := fold_left (purge_one fails) ms (removed, e, d) in
  forall p, d' !! p = if decide (p ∈ ms /\ fails p = None) then None else d !! p.
Proof.
  revert removed e d. induction ms as [|m ms IH]; intros removed e d; cbn [fold_left].
  - intros p. by rewrite decide_False by (intros [?%elem_of_nil _]; done).
  - unfold purge_one at 2. destruct (fails m) as [e'|] eqn:Hm.
    + specialize (IH removed (match e with None => Some e' | Some _ => e end) d).
      destruct (fold_left _ _ _) as [[? ?] d']. intros p. rewrite IH.
      apply decide_ext. rewrite elem_of_cons. naive_solver.
    + specialize (IH (removed + 1)%Z e (delete m d)).
      destruct (fold_left _ _ _) as [[? ?] d']. intros p. rewrite IH.
      destruct (decide (p = m)) as [->|Hp].
      * rewrite lookup_delete_eq, (decide_True (P := m ∈ m :: ms /\ _)) by (split; [left | done]).
        by case_decide.
      * rewrite lookup_delete_ne by done. apply decide_ext. rewrite elem_of_cons. naive_solver.
Qed.

Lemma purge_one_count fails ms removed e d :
  let '(removed', e', _) := fold_left (purge_one fails) ms (removed, e, d) in
  removed' = (removed + lenZ (List.filter (fun m => bool_decide (fails m = None)) ms))%Z /\
  (e' = None <-> e = None /\ Forall (fun m => fails m = None) ms).
Proof.
  revert removed e d. induction ms as [|m ms IH]; intros removed e d; cbn [fold_left List.filter].
  - split; [unfold lenZ; simpl; lia | by rewrite Forall_nil; naive_solver].
  - cbn [purge_one]. destruct (fails m) as [e'|] eqn:Hm.
    + specialize (IH removed (match e with None => Some e' | Some _ => e end) d).
      destruct (fold_left _ _ _) as [[? ?] d']. rewrite Forall_cons. destruct IH as [-> ->].
      simpl. destruct e; naive_solver.
    + specialize (IH (removed + 1)%Z e (delete m d)).
      destruct (fold_left _ _ _) as [[? ?] d']. rewrite Forall_cons. destruct IH as [-> ->].
      simpl. split; [unfold lenZ; simpl; lia | naive_solver].
Qed.

(** The purge removes, of the files of the cache directory, exactly the
    downloaded lists and their .tmp files whose removal succeeds; the count is
    that of the removals, and the error is that of a removal that failed, if
    any did. *)
Theorem purge_cache_spec (d : disk) (listing : list string) (fails : string -> option err) :
  (forall p f, d !! p = Some f -> p ∈ listing) ->
  let '(removed, e, d') := PurgeCache d listing fails in
  (forall p, d' !! p = if purgeable p && bool_decide (fails p = None) then None else d !! p) /\
  removed = lenZ (List.filter (fun m => bool_decide (fails m = None))
                    (List.filter purgeable listing)) /\
  (e = None <-> forall p, p ∈ listing -> purgeable p = true -> fails p = None).
Proof.
  intros Hl. unfold PurgeCache.
  pose proof (purge_one_disk fails (List.filter purgeable listing) 0 None d) as Hd.
  pose proof (purge_one_count fails (List.filter purgeable listing) 0 None d) as Hc.
  destruct (fold_left _ _ _) as [[removed e] d']. destruct Hc as [-> He].
  assert (forall p, p ∈ List.filter purgeable listing <-> p ∈ listing /\ purgeable p = true) as Hin.
  { intros p. rewrite !list_elem_of_In, filter_In. done. }
  split_and!; [intros p | by rewrite Z.add_0_l | ].
  - rewrite Hd. destruct (d !! p) as [f|] eqn:Hp; [|by repeat case_match].
    apply Hl in Hp. destruct (purgeable p) eqn:Hpu; simpl.
    + case_decide as Hdec; case_bool_decide; rewrite ?Hin in Hdec; try done;
        exfalso; clear -Hdec Hp Hpu H; tauto.
    + case_decide as Hdec; [|done]. rewrite Hin in Hdec. exfalso; clear -Hdec Hpu.
      destruct Hdec as [[_ ?] _]. congruence.
  - rewrite He, Forall_forall. setoid_rewrite Hin. clear. firstorder.
Qed.

(** ** Witnesses *)

Module LoaderExamples.
#[local] Instance ascii_only : UnicodeLower := fun s => s.
#[local] Instance toy_digest : Sha256 := fun s => itoa (N.of_nat (String.length s)).

Definition list_text : string :=
  "# a list" +:+ String newline ("0.0.0.0 ads.example" +:+ String newline
  ("*.t.example" +:+ String newline ("127.0.0.1 localhost" +:+ String newline "-bad-.x"))).

Example parse_list :
  parseHostsFormat (mkStream list_text None) = (["ads.example"; "t.example"], 2%Z, None).
Proof. vm_compute. reflexivity. Qed.

Example valid_root_dot :
  map ValidDomain ["example.com."; "com."; "a..b"; "_srv.example"; "-a.example"]
  = [true; false; false; true; false].
Proof. vm_compute. reflexivity. Qed.

Definition url : string := "https://lists.example/hosts".
Definition cached : file := mkFile 0 "ads.example" None None.
Definition down : fetch_env :=
  mkEnv (25 * hour) None (inl "connection refused") None None None false None.

Lemma fetch_list_stale_fallback_witness :
  exists got meta,
    fst (fetchList {[cacheFilename url := cached]} url CacheFirst down) = inl (got, meta) /\
    ((got = ["ads.example"] /\ m_snapshot meta = 0%Z /\ m_from meta <> fromDownload) \/
     exists body, e_response down = inr (200%Z, body) /\
       whole_body down body (inl (got, meta))).
Proof.
  apply (fetch_list_stale_fallback {[cacheFilename url := cached]} url CacheFirst down
           cached ["ads.example"] 0).
  - vm_compute. reflexivity.
  - vm_compute. reflexivity.
  - reflexivity.
Defined.

Definition cache_dir : disk :=
  {["blocklist_1.txt" := cached; "querylog.db" := cached]}.

Lemma purge_cache_spec_witness :
  let '(removed, e, d') :=
    PurgeCache cache_dir ["blocklist_1.txt"; "querylog.db"] (fun _ => None) in
  removed = 1%Z /\ d' !! "querylog.db" = Some cached.
Proof.
  pose proof (purge_cache_spec cache_dir ["blocklist_1.txt"; "querylog.db"]
                (fun _ => None)) as Hp.
  destruct (PurgeCache _ _ _) as [[removed e] d'].
  destruct Hp as (Hd & Hr & _).
  - intros p f Hp. unfold cache_dir in Hp.
    apply lookup_insert_Some in Hp as [[<- _]|[_ Hp]]; [set_solver |].
    apply lookup_singleton_Some in Hp as [<- _]. set_solver.
  - split; [rewrite Hr; vm_compute; reflexivity |].
    rewrite Hd. vm_compute. reflexivity.
Defined.
End LoaderExamples.
