(* ===== verification/Dns.v ===== *)
(** * DNS messages

    The data of a DNS message that s-hole reads and writes, and the functions
    of the message library (github.com/miekg/dns) that it calls. The library
    is not part of this repository: its functions are the operations of the
    class [MiekgDNS], and [MiekgLaws] states what its documentation says of
    them, as far as the code relies on it. [RefDns] is a small instance of
    both, for the examples.

    A Go message is a pointer and the code changes it in place; here a message
    is a value, and a function that changes one returns the new value. The
    library's [Copy] is then the identity. *)

From stdpp Require Import base numbers list strings.
From Stdlib Require Import Ascii ZArith Lia.
From S2P Require Import Prelude GoStrings.

Open Scope string_scope.

(** ** Constants *)

Definition TypeA : Z := 1.
Definition TypeNS : Z := 2.
Definition TypeCNAME : Z := 5.
Definition TypeSOA : Z := 6.
Definition TypePTR : Z := 12.
Definition TypeAAAA : Z := 28.
Definition TypeOPT : Z := 41.
Definition TypeDS : Z := 43.
Definition TypeRRSIG : Z := 46.
Definition TypeNSEC : Z := 47.
Definition TypeDNSKEY : Z := 48.
Definition TypeNSEC3 : Z := 50.
Definition TypeNSEC3PARAM : Z := 51.
Definition TypeCDS : Z := 59.
Definition TypeCDNSKEY : Z := 60.

Definition ClassINET : Z := 1.

Definition RcodeSuccess : Z := 0.
Definition RcodeServerFailure : Z := 2.
Definition RcodeNameError : Z := 3.
Definition RcodeNotImplemented : Z := 4.
Definition RcodeRefused : Z := 5.

Definition OpcodeQuery : Z := 0.

Definition MinMsgSize : Z := 512.
Definition MaxMsgSize : Z := 65535.

Definition EDNS0PADDING : Z := 12.

(** ** Messages *)

Record EDNS0 := mkEDNS0 { opt_code : Z; opt_data : string }.

(** What a record holds after its header. An address is its number. *)
Inductive RData :=
  | DataA (a : Z)
  | DataAAAA (a : Z)
  | DataCNAME (target : string)
  | DataOPT (options : list EDNS0)
  | DataOther (rest : string).

Record RR := mkRR {
  Name : string;
  Rrtype : Z;
  Class_ : Z;
  Ttl : Z;
  Data : RData;
}.

Record Question := mkQuestion {
  QName : string;
  Qtype : Z;
  Qclass : Z;
}.

Record Msg := mkMsg {
  Id : Z;
  Response : bool;
  Opcode : Z;
  Authoritative : bool;
  Truncated : bool;
  RecursionDesired : bool;
  CheckingDisabled : bool;
  AuthenticatedData : bool;
  Rcode : Z;
  Questions : list Question;
  Answer : list RR;
  Ns : list RR;
  Extra : list RR;
}.

#[export] Instance EDNS0_eq_dec : EqDecision EDNS0.
Proof. solve_decision. Defined.
#[export] Instance RData_eq_dec : EqDecision RData.
Proof. solve_decision. Defined.
#[export] Instance RR_eq_dec : EqDecision RR.
Proof. solve_decision. Defined.
#[export] Instance Question_eq_dec : EqDecision Question.
Proof. solve_decision. Defined.
#[export] Instance Msg_eq_dec : EqDecision Msg.
Proof. solve_decision. Defined.

(** Assignments to one field of a message. *)
Definition set_Id (v : Z) (m : Msg) : Msg :=
  mkMsg v (Response m) (Opcode m) (Authoritative m) (Truncated m) (RecursionDesired m)
    (CheckingDisabled m) (AuthenticatedData m) (Rcode m) (Questions m) (Answer m) (Ns m) (Extra m).

Definition set_Authoritative (v : bool) (m : Msg) : Msg :=
  mkMsg (Id m) (Response m) (Opcode m) v (Truncated m) (RecursionDesired m)
    (CheckingDisabled m) (AuthenticatedData m) (Rcode m) (Questions m) (Answer m) (Ns m) (Extra m).

Definition set_Rcode_field (v : Z) (m : Msg) : Msg :=
  mkMsg (Id m) (Response m) (Opcode m) (Authoritative m) (Truncated m) (RecursionDesired m)
    (CheckingDisabled m) (AuthenticatedData m) v (Questions m) (Answer m) (Ns m) (Extra m).

Definition set_sections (an ns ex : list RR) (m : Msg) : Msg :=
  mkMsg (Id m) (Response m) (Opcode m) (Authoritative m) (Truncated m) (RecursionDesired m)
    (CheckingDisabled m) (AuthenticatedData m) (Rcode m) (Questions m) an ns ex.

Definition set_Answer (v : list RR) (m : Msg) : Msg := set_sections v (Ns m) (Extra m) m.
Definition set_Extra (v : list RR) (m : Msg) : Msg := set_sections (Answer m) (Ns m) v m.

Definition set_Ttl (v : Z) (rr : RR) : RR :=
  mkRR (Name rr) (Rrtype rr) (Class_ rr) v (Data rr).

Definition set_Data (v : RData) (rr : RR) : RR :=
  mkRR (Name rr) (Rrtype rr) (Class_ rr) (Ttl rr) v.

(** The type assertion [rr.( *dns.CNAME )]. *)
Definition as_CNAME (rr : RR) : option string :=
  match Data rr with DataCNAME t => Some t | _ => None end.

Definition is_OPT (rr : RR) : bool := (Rrtype rr =? TypeOPT)%Z.

Definition opt_options (rr : RR) : list EDNS0 :=
  match Data rr with DataOPT l => l | _ => [] end.

(** ** The library *)

Class MiekgDNS := {
  type_string : Z -> string;               (* Type.String *)
  class_string : Z -> string;              (* Class.String *)
  edns0_index : Msg -> option nat;         (* IsEdns0: the index of the OPT record in Extra *)
  opt_do : RR -> bool;                     (* OPT.Do *)
  opt_udp_size : RR -> Z;                  (* OPT.UDPSize *)
  set_edns0 : Msg -> Z -> bool -> Msg;     (* Msg.SetEdns0 *)
  set_reply : Msg -> Msg;                  (* SetReply on a new message *)
  set_rcode : Msg -> Z -> Msg;             (* SetRcode on a new message *)
  truncate_msg : Msg -> Z -> Msg;          (* Msg.Truncate *)
  msg_len : Msg -> Z;                      (* Msg.Len *)
  next_label : string -> nat -> nat * bool; (* NextLabel *)
  count_label : string -> Z;               (* CountLabel *)
  fqdn : string -> string;                 (* Fqdn *)
}.

Section ops.
Context `{MiekgDNS}.

(** [m.IsEdns0()]. *)
Definition is_edns0 (m : Msg) : option RR := edns0_index m ≫= fun i => Extra m !! i.

(** The DO bit of a message, [false] without an OPT record. *)
Definition do_bit (m : Msg) : bool :=
  match is_edns0 m with Some o => opt_do o | None => false end.
End ops.

(** The documented behaviour of the library. The three functions on names are
    described for names without an escape ([\ ]). *)
Definition backslash : ascii := "\"%char.

Definition plain_name (s : string) : Prop := no_byte backslash s.

Class MiekgLaws `{!MiekgDNS} : Prop := {
  edns0_none m : edns0_index m = None <-> Forall (fun rr => is_OPT rr = false) (Extra m);
  edns0_some m i : edns0_index m = Some i ->
    exists o, Extra m !! i = Some o /\ is_OPT o = true;
  opt_do_data d o : opt_do (set_Data d o) = opt_do o;
  opt_udp_data d o : opt_udp_size (set_Data d o) = opt_udp_size o;
  edns0_index_ext m m' : map is_OPT (Extra m) = map is_OPT (Extra m') ->
    edns0_index m = edns0_index m';
  msg_len_option m pre o code data :
    msg_len (set_Extra (pre ++ [set_Data (DataOPT (opt_options o ++ [mkEDNS0 code data])) o])%list m)
    = (msg_len (set_Extra (pre ++ [set_Data (DataOPT (opt_options o ++ [mkEDNS0 code ""])) o])%list m)
       + slen data)%Z;
  set_edns0_spec m size d : exists o,
    set_edns0 m size d = set_Extra (Extra m ++ [o])%list m /\
    is_OPT o = true /\ opt_options o = [] /\ opt_do o = d /\ opt_udp_size o = size;
  set_reply_spec req :
    Id (set_reply req) = Id req /\ Response (set_reply req) = true /\
    Rcode (set_reply req) = RcodeSuccess /\ Truncated (set_reply req) = false /\
    Questions (set_reply req) = take 1 (Questions req) /\
    Answer (set_reply req) = [] /\ Ns (set_reply req) = [] /\ Extra (set_reply req) = [];
  set_rcode_spec req r : set_rcode req r = set_Rcode_field r (set_reply req);
  truncate_spec m size :
    Id (truncate_msg m size) = Id m /\ Rcode (truncate_msg m size) = Rcode m /\
    Questions (truncate_msg m size) = Questions m /\
    is_edns0 (truncate_msg m size) = is_edns0 m /\
    (truncate_msg m size = m \/
     (Truncated (truncate_msg m size) = true /\ (size < msg_len m)%Z));
  next_label_spec u v : plain_name (u +:+ v) -> v <> "" ->
    next_label (u +:+ v) (String.length u) =
      match cut_byte dot v with
      | Some (l, String c r) => ((String.length u + String.length l + 1)%nat, false)
      | _ => (String.length (u +:+ v), true)
      end;
  count_label_spec s : plain_name s -> s <> "" -> no_byte dot s ->
    count_label (s +:+ ".") = 1%Z;
  count_label_dots s t : plain_name (s +:+ t) -> s <> "" -> no_byte dot s ->
    t <> "" -> has_prefix "." t = false -> (1 < count_label (s +:+ "." +:+ t))%Z;
  fqdn_spec s : plain_name s -> fqdn s = if has_suffix s "." then s else s +:+ ".";
}.

Section laws.
Context `{MiekgLaws}.

Lemma is_edns0_none m : is_edns0 m = None <-> Forall (fun rr => is_OPT rr = false) (Extra m).
Proof.
  unfold is_edns0. rewrite <- edns0_none. destruct (edns0_index m) as [i|] eqn:E; simpl; [|done].
  destruct (edns0_some m i E) as (o & -> & _). done.
Qed.

Lemma is_edns0_some m o : is_edns0 m = Some o -> o ∈ Extra m /\ is_OPT o = true.
Proof.
  unfold is_edns0. destruct (edns0_index m) as [i|] eqn:E; simpl; [|done].
  destruct (edns0_some m i E) as (o' & Hi & Ho). rewrite Hi. intros [= <-].
  split; [|done]. by eapply list_elem_of_lookup_2.
Qed.

(** The one OPT record that [SetEdns0] adds is the one that [IsEdns0] finds. *)
Lemma is_edns0_set m size d :
  is_edns0 m = None ->
  exists o, is_edns0 (set_edns0 m size d) = Some o /\
    opt_options o = [] /\ opt_do o = d /\ opt_udp_size o = size.
Proof.
  intros Hn. destruct (set_edns0_spec m size d) as (o & He & Ho & H1 & H2 & H3).
  exists o. split; [|done]. rewrite He. apply is_edns0_none in Hn.
  destruct (is_edns0 _) as [o'|] eqn:E.
  - apply is_edns0_some in E as [Hin Ho']. simpl in Hin.
    apply elem_of_app in Hin as [Hin|Hin%list_elem_of_singleton]; [|by subst].
    rewrite Forall_forall in Hn. rewrite Hn in Ho' by done. done.
  - apply is_edns0_none in E. simpl in E. apply Forall_app in E as [_ E].
    inversion E; subst. congruence.
Qed.
End laws.

(** ** A reference instance *)

Module RefDns.
Definition name_labels (s : string) : list string :=
  List.filter (fun l => negb (l =? "")%string) (split_byte dot s).

Definition ref_index (m : Msg) : option nat :=
  fst <$> list_find (fun rr => is_OPT rr = true) (Extra m).

Definition ref_opt_len (rr : RR) : Z :=
  fold_right (fun o n => (4 + slen (opt_data o) + n)%Z) 0%Z (opt_options rr).

Definition ref_len (m : Msg) : Z :=
  (12 + 20 * (lenZ (Answer m) + lenZ (Ns m) + lenZ (Extra m))
   + fold_right (fun rr n => (ref_opt_len rr + n)%Z) 0%Z (Extra m))%Z.

Definition ref_opt (size : Z) (d : bool) : RR :=
  mkRR "." TypeOPT size (if d then 32768 else 0) (DataOPT []).

Definition ref_reply (req : Msg) : Msg :=
  mkMsg (Id req) true (Opcode req) false false (RecursionDesired req)
    (CheckingDisabled req) false RcodeSuccess (take 1 (Questions req)) [] [] [].

Definition set_Truncated (m : Msg) : Msg :=
  mkMsg (Id m) (Response m) (Opcode m) (Authoritative m) true (RecursionDesired m)
    (CheckingDisabled m) (AuthenticatedData m) (Rcode m) (Questions m) [] [] (Extra m).

Definition ref_next (s : string) (off : nat) : nat * bool :=
  match cut_byte dot (drop_bytes off s) with
  | Some (l, String c r) => ((off + String.length l + 1)%nat, false)
  | _ => (String.length s, true)
  end.

#[export] Instance ref_dns : MiekgDNS := {|
  type_string t := "TYPE" +:+ itoa (Z.to_N t);
  class_string c := "CLASS" +:+ itoa (Z.to_N c);
  edns0_index := ref_index;
  opt_do o := Z.testbit (Ttl o) 15;
  opt_udp_size o := Class_ o;
  set_edns0 m size d := set_Extra (Extra m ++ [ref_opt size d])%list m;
  set_reply := ref_reply;
  set_rcode req r := set_Rcode_field r (ref_reply req);
  truncate_msg m size := if (ref_len m <=? size)%Z then m else set_Truncated m;
  msg_len := ref_len;
  next_label := ref_next;
  count_label s := lenZ (name_labels s);
  fqdn s := if has_suffix s "." then s else s +:+ ".";
|}.

Lemma name_labels_cut s t : no_byte dot s -> s <> "" ->
  name_labels (s +:+ String dot t) = s :: name_labels t.
Proof.
  intros Hs Hne. unfold name_labels.
  assert (split_byte dot (s +:+ String dot t) = s :: split_byte dot t) as ->.
  { clear Hne. induction s as [|c s IH]; simpl; [done |].
    apply no_byte_cons in Hs as [Hc Hs]. apply Ascii.eqb_neq in Hc as ->. by rewrite IH. }
  simpl. apply String.eqb_neq in Hne as ->. done.
Qed.

Lemma ref_index_ext m m' : map is_OPT (Extra m) = map is_OPT (Extra m') -> ref_index m = ref_index m'.
Proof.
  unfold ref_index. generalize (Extra m) (Extra m'). clear.
  induction l as [|a l IH]; intros [|b l'] Hl; try done.
  injection Hl as Hab Hl. simpl. rewrite Hab. destruct (decide (is_OPT b = true)); [done |].
  specialize (IH l' Hl). destruct (list_find _ l) as [[i x]|], (list_find _ l') as [[j y]|];
    simpl in *; congruence.
Qed.

Lemma fold_right_shift {A} (f : A -> Z) (l : list A) (x : Z) :
  fold_right (fun a n => f a + n)%Z x l = (fold_right (fun a n => f a + n)%Z 0 l + x)%Z.
Proof. induction l as [|a l IH]; simpl; [done |]. rewrite IH. lia. Qed.

Lemma ref_len_last m pre o :
  ref_len (set_Extra (pre ++ [o])%list m) =
  (12 + 20 * (lenZ (Answer m) + lenZ (Ns m) + lenZ pre + 1)
   + fold_right (fun rr n => (ref_opt_len rr + n)%Z) 0%Z pre + ref_opt_len o)%Z.
Proof.
  unfold ref_len. cbn [Answer Ns Extra set_Extra set_sections].
  rewrite lenZ_app, fold_right_app. cbn [fold_right].
  rewrite (fold_right_shift ref_opt_len). unfold lenZ. simpl length. lia.
Qed.

Lemma ref_opt_len_last o l e :
  ref_opt_len (set_Data (DataOPT (l ++ [e])%list) o) =
  (fold_right (fun o n => (4 + slen (opt_data o) + n)%Z) 0%Z l + 4 + slen (opt_data e))%Z.
Proof.
  unfold ref_opt_len, opt_options. cbn [Data set_Data]. rewrite fold_right_app. cbn [fold_right].
  rewrite (fold_right_shift (fun o => 4 + slen (opt_data o))%Z). lia.
Qed.

#[export] Instance ref_laws : MiekgLaws.
Proof.
  constructor.
  - intros m. simpl. unfold ref_index. rewrite fmap_None, list_find_None.
    apply Forall_iff. intros rr. apply not_true_iff_false.
  - intros m i. simpl. unfold ref_index. intros ([i' o] & Hf & ->)%fmap_Some.
    apply list_find_Some in Hf as (H1 & H2 & _). simpl. eauto.
  - done.
  - done.
  - intros m m' He. by apply ref_index_ext.
  - intros m pre o code data. cbn [msg_len ref_dns].
    rewrite !ref_len_last, !ref_opt_len_last. unfold slen. simpl. lia.
  - intros m size d. exists (ref_opt size d). split_and!; try done. by destruct d.
  - done.
  - done.
  - intros m size. simpl. destruct (Z.leb_spec (ref_len m) size); split_and!; auto.
  - intros u v _ Hv. simpl. unfold ref_next. by rewrite drop_bytes_app.
  - intros s _ Hs Hd. simpl. change "." with (String dot ""). by rewrite name_labels_cut.
  - intros s t _ Hs Hd Ht Hp. simpl. rewrite name_labels_cut by done.
    assert (name_labels t <> []) as Hne.
    { destruct t as [|c t]; [done |]. unfold name_labels. simpl in *.
      destruct (Ascii.eqb_spec c dot) as [->|Hc]; [done |].
      destruct (split_byte dot t); done. }
    destruct (name_labels t); [done |]. unfold lenZ. simpl. lia.
  - done.
Qed.
End RefDns.
