(* ===== verification/Cache.v ===== *)
(** * The response cache (internal/cache/cache.go)

    The cache is a map from keys to entries. An operation that reads the clock
    takes the time as an argument, once for each reading, and one that ranges
    over the Go map takes the order in which the map was walked. The mutex
    makes each operation one step. *)

From stdpp Require Import base numbers list gmap strings.
From Stdlib Require Import Ascii ZArith Lia.
From S2P Require Import Prelude GoStrings Dns.

Open Scope string_scope.

(** ** State *)

Record entry := mkEntry {
  msg : Msg;
  cached : Z;
  minTTL : Z;
}.

Record Cache := mkCache {
  entries : gmap string entry;
  maxSize : Z;
  hits : Z;
  misses : Z;
  dropped : Z;
}.

Definition maxTTL : Z := 86400.
Definition reclaimScanLimit : Z := 8.

Definition New (maxSize : Z) : Cache := mkCache ∅ maxSize 0 0 0.

(** [atomic.Uint64.Add(1)]. *)
Definition add1 (n : Z) : Z := wrap 64 (n + 1).

(** ** Time to live *)

Definition isExpired (e : entry) (now : Z) : bool :=
  (minTTL e * second <=? time_sub now (cached e))%Z.

Definition decrementTTL (elapsed : Z) (rr : RR) : RR :=
  if is_OPT rr then rr
  else if (elapsed <? Ttl rr)%Z then set_Ttl (Ttl rr - elapsed) rr else set_Ttl 0 rr.

Definition decrementTTLs (m : Msg) (elapsed : Z) : Msg :=
  set_sections (map (decrementTTL elapsed) (Answer m)) (map (decrementTTL elapsed) (Ns m))
    (map (decrementTTL elapsed) (Extra m)) m.

Definition capTTL (limit : Z) (rr : RR) : RR :=
  if negb (is_OPT rr) && (limit <? Ttl rr)%Z then set_Ttl limit rr else rr.

Definition capTTLs (m : Msg) (limit : Z) : Msg :=
  set_sections (map (capTTL limit) (Answer m)) (map (capTTL limit) (Ns m))
    (map (capTTL limit) (Extra m)) m.

Definition max_uint32 : Z := 4294967295.

Definition minAnswerTTL (m : Msg) : Z :=
  let smallest :=
    fold_left (fun smallest rr => if (Ttl rr <? smallest)%Z then Ttl rr else smallest)
      (Answer m) max_uint32 in
  if (smallest =? max_uint32)%Z then 0%Z else smallest.

(** [uint32(time.Since(cached).Seconds())]. *)
Definition elapsed_seconds (now cached : Z) : Z :=
  wrap 32 (Z.quot (time_sub now cached) second).

(** ** Keys *)

Definition NUL : ascii := "000"%char.

Definition keyBits (bits : Z) : string :=
  String NUL (match bits with
              | 0%Z => "--" | 1%Z => "c-" | 2%Z => "-d" | _ => "cd"
              end).

Section cache.
Context `{MiekgDNS}.

Definition key (q : Question) (cd do : bool) : string :=
  let bits := Z.lor (if cd then 1 else 0) (if do then 2 else 0) in
  QName q +:+ String NUL (type_string (Qtype q) +:+
    String NUL (class_string (Qclass q) +:+ keyBits bits)).

Definition keyOf (req : Msg) : option string :=
  match Questions req with
  | [q] => Some (key q (CheckingDisabled req) (do_bit req))
  | _ => None
  end.

(** ** Operations *)

Definition miss (c : Cache) : option Msg * Cache :=
  (None, mkCache (entries c) (maxSize c) (hits c) (add1 (misses c)) (dropped c)).

(** [now1] is the clock at the expiry check, [now2] at the ageing. *)
Definition Get (c : Cache) (req : Msg) (now1 now2 : Z) : option Msg * Cache :=
  match keyOf req with
  | None => miss c
  | Some k =>
      match entries c !! k with
      | None => miss c
      | Some e =>
          if isExpired e now1 then miss c
          else (Some (decrementTTLs (msg e) (elapsed_seconds now2 (cached e))),
                mkCache (entries c) (maxSize c) (add1 (hits c)) (misses c) (dropped c))
      end
  end.

(** The bounded scan, over the keys in the order of the map iteration. *)
Fixpoint reclaim_scan (order : list string) (scanned : Z) (es : gmap string entry)
    (now : Z) : gmap string entry :=
  match order with
  | [] => es
  | k :: order' =>
      match es !! k with
      | None => reclaim_scan order' scanned es now
      | Some e =>
          if isExpired e now then delete k es
          else if (reclaimScanLimit <=? scanned + 1)%Z then es
          else reclaim_scan order' (scanned + 1) es now
      end
  end.

Definition reclaimOneExpired (order : list string) (es : gmap string entry) (now : Z)
    : gmap string entry := reclaim_scan order 0 es now.

(** The replies that [Set] stores at all. *)
Definition cacheable (m : Msg) : bool :=
  negb (negb (Rcode m =? RcodeSuccess)%Z || Truncated m || (lenZ (Answer m) =? 0)%Z)
  && negb (minAnswerTTL m =? 0)%Z.

Definition new_entry (m : Msg) (now : Z) : entry :=
  let stored := capTTLs m maxTTL in mkEntry stored now (minAnswerTTL stored).

Definition Set_ (c : Cache) (req m : Msg) (now : Z) (order : list string) : Cache :=
  if negb (cacheable m) then c
  else match keyOf req with
  | None => c
  | Some k =>
      let e := new_entry m now in
      let es := if (maxSize c <=? Z.of_nat (size (entries c)))%Z
                then reclaimOneExpired order (entries c) now else entries c in
      if (Z.of_nat (size es) <? maxSize c)%Z
      then mkCache (<[k := e]> es) (maxSize c) (hits c) (misses c) (dropped c)
      else mkCache es (maxSize c) (hits c) (misses c) (add1 (dropped c))
  end.

Definition Flush (c : Cache) : Cache :=
  mkCache ∅ (maxSize c) (hits c) (misses c) (dropped c).

Definition Stats (c : Cache) : Z * Z * Z :=
  (hits c, misses c, Z.of_nat (size (entries c))).

Definition cleanupExpired (c : Cache) (now : Z) : Z * Cache :=
  let es := filter (fun p => isExpired (snd p) now = false) (entries c) in
  ((Z.of_nat (size (entries c)) - Z.of_nat (size es))%Z,
   mkCache es (maxSize c) (hits c) (misses c) (dropped c)).

(** ** Runs *)

Inductive cache_op :=
  | OpGet (req : Msg) (now1 now2 : Z)
  | OpSet (req m : Msg) (now : Z) (order : list string)
  | OpFlush
  | OpCleanup (now : Z).

Definition cache_step (c : Cache) (op : cache_op) : Cache :=
  match op with
  | OpGet req now1 now2 => snd (Get c req now1 now2)
  | OpSet req m now order => Set_ c req m now order
  | OpFlush => Flush c
  | OpCleanup now => snd (cleanupExpired c now)
  end.

Definition cache_run (c : Cache) (ops : list cache_op) : Cache := fold_left cache_step ops c.
End cache.

(** ** Lemmas on times to live *)

Section ttl.
Definition min_ttl_step (smallest : Z) (rr : RR) : Z :=
  if (Ttl rr <? smallest)%Z then Ttl rr else smallest.

Lemma min_ttl_step_min s rr : min_ttl_step s rr = Z.min s (Ttl rr).
Proof. unfold min_ttl_step. destruct (Z.ltb_spec (Ttl rr) s); lia. Qed.

Lemma min_ttl_le l s :
  (fold_left min_ttl_step l s <= s)%Z /\
  Forall (fun rr => fold_left min_ttl_step l s <= Ttl rr)%Z l.
Proof.
  revert s. induction l as [|rr l IH]; intros s; simpl; [split; [lia | done] |].
  rewrite min_ttl_step_min. destruct (IH (Z.min s (Ttl rr))) as [H1 H2].
  split; [lia | constructor; [lia | done]].
Qed.

Lemma min_ttl_in l s :
  fold_left min_ttl_step l s = s \/ exists rr, rr ∈ l /\ fold_left min_ttl_step l s = Ttl rr.
Proof.
  revert s. induction l as [|rr l IH]; intros s; simpl; [by left |].
  rewrite min_ttl_step_min. destruct (IH (Z.min s (Ttl rr))) as [->|(x & Hx & ->)].
  - destruct (Z.min_spec s (Ttl rr)) as [[_ ->]|[_ ->]]; [by left |].
    right. exists rr. split; [left | done].
  - right. exists x. split; [by right | done].
Qed.

Lemma capTTL_ttl limit rr :
  is_OPT rr = false -> Ttl (capTTL limit rr) = Z.min limit (Ttl rr).
Proof. intros Hr. unfold capTTL. rewrite Hr. simpl. case_match; breflect; simpl; lia. Qed.

Lemma min_ttl_cap limit l s :
  Forall (fun rr => is_OPT rr = false) l ->
  fold_left min_ttl_step (map (capTTL limit) l) (Z.min limit s)
  = Z.min limit (fold_left min_ttl_step l s).
Proof.
  intros Hl. revert s. induction Hl as [|rr l Hr _ IH]; intros s; simpl; [done |].
  rewrite !min_ttl_step_min, capTTL_ttl, <- IH by done. f_equal. lia.
Qed.

Lemma minAnswerTTL_cap limit m :
  (0 < limit < max_uint32)%Z -> Forall (fun rr => is_OPT rr = false) (Answer m) ->
  minAnswerTTL m <> 0%Z -> minAnswerTTL (capTTLs m limit) = Z.min limit (minAnswerTTL m).
Proof.
  unfold minAnswerTTL. fold min_ttl_step. simpl. intros Hlim Hopt.
  destruct (Z.eqb_spec (fold_left min_ttl_step (Answer m) max_uint32) max_uint32) as [|Hne];
    [done | intros _].
  destruct (Answer m) as [|rr l]; [done |]. simpl in *.
  inversion Hopt as [|? ? Hr Hl]; subst.
  rewrite min_ttl_step_min in *. rewrite min_ttl_step_min, capTTL_ttl by done.
  replace (Z.min max_uint32 (Z.min limit (Ttl rr)))
    with (Z.min limit (Z.min max_uint32 (Ttl rr))) by lia.
  rewrite min_ttl_cap by done.
  destruct (Z.eqb_spec (Z.min limit (fold_left min_ttl_step l (Z.min max_uint32 (Ttl rr))))
    max_uint32); lia.
Qed.

Lemma minAnswerTTL_bounds m :
  Forall (fun rr => in_range 32 (Ttl rr)) (Answer m) ->
  (0 <= minAnswerTTL m < max_uint32)%Z /\
  (minAnswerTTL m <> 0%Z -> Forall (fun rr => minAnswerTTL m <= Ttl rr)%Z (Answer m)).
Proof.
  intros Hr. unfold minAnswerTTL. fold min_ttl_step.
  destruct (min_ttl_le (Answer m) max_uint32) as [H1 H2].
  destruct (Z.eqb_spec (fold_left min_ttl_step (Answer m) max_uint32) max_uint32);
    [by split; [unfold max_uint32; lia | done] |].
  split; [|done]. split; [|lia].
  destruct (min_ttl_in (Answer m) max_uint32) as [->|(x & Hx & ->)]; [unfold max_uint32; lia |].
  rewrite Forall_forall in Hr. apply Hr in Hx. destruct Hx. lia.
Qed.
End ttl.

(** A reply whose records are as the wire gives them: 32-bit TTLs, and no OPT
    record among the answers. *)
Definition wire_answers (m : Msg) : Prop :=
  Forall (fun rr => in_range 32 (Ttl rr)) (Answer m) /\
  Forall (fun rr => is_OPT rr = false) (Answer m).

(** A record as a client gets it, [n] seconds after it was cached. *)
Definition aged (n : Z) (rr : RR) : RR :=
  if is_OPT rr then rr else set_Ttl (Z.max 0 (Z.min maxTTL (Ttl rr) - n)) rr.

Lemma is_OPT_set_Ttl v rr : is_OPT (set_Ttl v rr) = is_OPT rr.
Proof. done. Qed.

Lemma aged_eq n rr : (0 <= n)%Z -> decrementTTL n (capTTL maxTTL rr) = aged n rr.
Proof.
  intros Hn. unfold decrementTTL, aged, capTTL. destruct (is_OPT rr) eqn:Ho; simpl.
  - by rewrite Ho.
  - destruct (Z.ltb_spec maxTTL (Ttl rr)) as [H1|H1]; simpl;
      rewrite ?is_OPT_set_Ttl, Ho; simpl.
    + destruct (Z.ltb_spec n maxTTL); unfold set_Ttl; simpl; f_equal; lia.
    + destruct (Z.ltb_spec n (Ttl rr)); unfold set_Ttl; simpl; f_equal; lia.
Qed.

Definition aged_reply (n : Z) (m : Msg) : Msg :=
  set_sections (map (aged n) (Answer m)) (map (aged n) (Ns m)) (map (aged n) (Extra m)) m.

Lemma decrement_capped n m :
  (0 <= n)%Z -> decrementTTLs (capTTLs m maxTTL) n = aged_reply n m.
Proof.
  intros Hn. unfold decrementTTLs, capTTLs, aged_reply, set_sections. simpl.
  rewrite !map_map. f_equal; apply map_ext; intros rr; by apply aged_eq.
Qed.

Lemma elapsed_seconds_eq t t0 :
  (0 <= t - t0 < 4294967296 * second)%Z -> elapsed_seconds t t0 = ((t - t0) / second)%Z.
Proof.
  intros Ht. unfold elapsed_seconds, time_sub. rewrite sat64_id.
  - rewrite Z.quot_div_nonneg by (unfold second in *; lia). apply wrap_id.
    unfold in_range, second in *. split; [apply Z.div_pos; lia |].
    apply Z.div_lt_upper_bound; lia.
  - unfold min_int64, max_int64, second in *. lia.
Qed.

Section correctness.
Context `{MiekgDNS}.

Lemma get_Some c req now1 now2 r :
  fst (Get c req now1 now2) = Some r ->
  exists k e, keyOf req = Some k /\ entries c !! k = Some e /\
    isExpired e now1 = false /\
    r = decrementTTLs (msg e) (elapsed_seconds now2 (cached e)).
Proof.
  unfold Get. destruct (keyOf req) as [k|]; [|done].
  destruct (entries c !! k) as [e|] eqn:He; [|done].
  destruct (isExpired e now1) eqn:Hx; [done |]. simpl. intros [= <-]. eauto 10.
Qed.

Lemma cacheable_ttl m : cacheable m = true -> minAnswerTTL m <> 0%Z.
Proof. unfold cacheable. intros [_ ?]%andb_true_iff. by breflect. Qed.

(** C26. A reply that is stored while the cache has room is given back to
    every query with the same key until the smallest TTL of its answers, or
    one day if that is less, has passed, and never from then on. What the
    client gets is the stored reply with each TTL cut to a day and lowered by
    the seconds since, but not below zero; an OPT record is not touched. *)
Theorem get_after_set (c : Cache) (req req' m : Msg) (t t1 t2 : Z) (order : list string) :
  cacheable m = true -> wire_answers m -> keyOf req <> None -> keyOf req' = keyOf req ->
  (Z.of_nat (size (entries c)) < maxSize c)%Z ->
  (0 <= t2 - t < 4294967296 * second)%Z -> (0 <= t1 - t < 4294967296 * second)%Z ->
  fst (Get (Set_ c req m t order) req' t1 t2) =
    if (t1 - t <? Z.min maxTTL (minAnswerTTL m) * second)%Z
    then Some (aged_reply ((t2 - t) / second) m) else None.
Proof.
  intros Hc [Hr Ho] Hk Hk' Hroom Ht2 Ht1. unfold Set_. rewrite Hc. simpl.
  destruct (keyOf req) as [k|] eqn:Ek; [|done]. unfold Get. rewrite Hk'.
  destruct (Z.leb_spec (maxSize c) (Z.of_nat (size (entries c)))); [lia |].
  destruct (Z.ltb_spec (Z.of_nat (size (entries c))) (maxSize c)); [|lia].
  cbn [entries]. rewrite lookup_insert_eq. unfold isExpired, new_entry. cbn [minTTL cached msg].
  rewrite minAnswerTTL_cap; [|unfold maxTTL, max_uint32; lia | done | by apply cacheable_ttl].
  unfold time_sub. rewrite sat64_id by (unfold min_int64, max_int64, second in *; lia).
  destruct (Z.leb_spec (Z.min maxTTL (minAnswerTTL m) * second) (t1 - t)),
    (Z.ltb_spec (t1 - t) (Z.min maxTTL (minAnswerTTL m) * second)); try lia; [done |].
  cbn [fst]. rewrite elapsed_seconds_eq, decrement_capped by
    (try apply Z.div_pos; unfold second in *; lia). done.
Qed.

(** ** The bound *)

Definition op_wire (op : cache_op) : Prop :=
  match op with OpSet _ m _ _ => wire_answers m | _ => True end.

Definition entry_wf (e : entry) : Prop :=
  Rcode (msg e) = RcodeSuccess /\ Truncated (msg e) = false /\ Answer (msg e) <> [] /\
  (0 < minTTL e <= maxTTL)%Z.

Definition cache_inv (bound : Z) (c : Cache) : Prop :=
  maxSize c = bound /\ (Z.of_nat (size (entries c)) <= bound)%Z /\
  map_Forall (fun _ e => entry_wf e) (entries c).

Lemma reclaim_scan_subseteq order n es now : reclaim_scan order n es now ⊆ es.
Proof.
  revert n. induction order as [|k order IH]; intros n; simpl; [done |].
  destruct (es !! k); [|done]. case_match; [apply delete_subseteq |].
  case_match; [done | apply IH].
Qed.

Lemma new_entry_wf m now : cacheable m = true -> wire_answers m -> entry_wf (new_entry m now).
Proof.
  intros Hc [Hr Ho]. pose proof (cacheable_ttl m Hc) as Ht.
  apply minAnswerTTL_bounds in Hr as [Hb _].
  unfold cacheable in Hc. breflect. unfold entry_wf, new_entry. cbn [msg minTTL].
  rewrite minAnswerTTL_cap; [|unfold maxTTL, max_uint32; lia | done | done].
  split_and!; simpl; try lia; try done.
  - by destruct (Answer m).
  - unfold maxTTL. lia.
Qed.

Lemma cache_inv_step bound c op :
  (0 <= bound)%Z -> op_wire op -> cache_inv bound c -> cache_inv bound (cache_step c op).
Proof.
  intros H0 Hop (Hmax & Hsz & Hwf). destruct op as [req n1 n2|req m now order| |now]; simpl.
  - unfold Get, miss. repeat case_match; split_and!; simpl; done.
  - unfold Set_. destruct (cacheable m) eqn:Hc; simpl; [|done].
    destruct (keyOf req) as [k|]; [|done].
    set (es := if (_ <=? _)%Z then _ else _).
    assert (es ⊆ entries c) as Hes.
    { unfold es. case_match; [apply reclaim_scan_subseteq | done]. }
    assert (map_Forall (fun _ e => entry_wf e) es) as Hwf'.
    { intros k' e He. eapply Hwf, lookup_weaken; done. }
    apply map_subseteq_size in Hes as Hle.
    destruct (Z.ltb_spec (Z.of_nat (size es)) (maxSize c)); split_and!; simpl; try done.
    + pose proof (map_size_insert_le es k (new_entry m now)). lia.
    + apply map_Forall_insert_2; [by apply new_entry_wf | done].
    + lia.
  - split_and!; simpl; [done | done | apply map_Forall_empty].
  - assert (filter (fun p => isExpired (snd p) now = false) (entries c) ⊆ entries c) as Hf
      by apply map_filter_subseteq.
    split_and!; simpl; [done | |].
    + apply map_subseteq_size in Hf. lia.
    + intros k e He. eapply Hwf, lookup_weaken; done.
Qed.

(** Whatever sequence of lookups, inserts, sweeps and flushes runs, and
    in whatever order a full cache is scanned, the cache never holds more
    than [maxSize] entries, and every entry is a complete NOERROR reply with
    answers that expires within a day. *)
Theorem cache_bounded (bound : Z) (ops : list cache_op) :
  (0 <= bound)%Z -> Forall op_wire ops ->
  (Z.of_nat (size (entries (cache_run (New bound) ops))) <= bound)%Z /\
  map_Forall (fun _ e => entry_wf e) (entries (cache_run (New bound) ops)).
Proof.
  intros H0 Hops. assert (cache_inv bound (New bound)) as Hi.
  { split_and!; simpl; [done | done | apply map_Forall_empty]. }
  enough (cache_inv bound (cache_run (New bound) ops)) as (_ & ? & ?) by done.
  revert Hi. generalize (New bound). unfold cache_run.
  induction Hops as [|op ops Hop _ IH]; intros c Hi; simpl; [done |].
  by apply IH, cache_inv_step.
Qed.
End correctness.

(** ** Isolation *)

(** What the library's mnemonics are: texts without a NUL byte, one for each
    code. *)
Class MnemonicLaws `{!MiekgDNS} : Prop := {
  type_string_inj a b : (0 <= a)%Z -> (0 <= b)%Z -> type_string a = type_string b -> a = b;
  class_string_inj a b : (0 <= a)%Z -> (0 <= b)%Z -> class_string a = class_string b -> a = b;
  type_string_text t : no_byte NUL (type_string t);
  class_string_text c : no_byte NUL (class_string c);
}.

(** A question as the wire gives it: no NUL byte in the presentation form of
    the name, and 16-bit codes. *)
Definition wire_question (q : Question) : Prop :=
  no_byte NUL (QName q) /\ (0 <= Qtype q)%Z /\ (0 <= Qclass q)%Z.

Section isolation.
Context `{MiekgDNS} `{!MnemonicLaws}.

Lemma keyBits_inj (cd do cd' do' : bool) :
  keyBits (Z.lor (if cd then 1 else 0) (if do then 2 else 0)) =
  keyBits (Z.lor (if cd' then 1 else 0) (if do' then 2 else 0)) ->
  cd = cd' /\ do = do'.
Proof. destruct cd, do, cd', do'; vm_compute; naive_solver. Qed.

Lemma key_inj (q q' : Question) (cd do cd' do' : bool) :
  wire_question q -> wire_question q' -> key q cd do = key q' cd' do' ->
  q = q' /\ cd = cd' /\ do = do'.
Proof.
  destruct q as [n t cl], q' as [n' t' cl']. unfold key, wire_question, keyBits. simpl.
  intros (Hn & Ht & Hc) (Hn' & Ht' & Hc') Hk.
  apply cut_inj in Hk as [-> Hk]; [|done | done].
  apply cut_inj in Hk as [Ht2 Hk]; [|apply type_string_text | apply type_string_text].
  apply cut_inj in Hk as [Hc2 Hk]; [|apply class_string_text | apply class_string_text].
  apply type_string_inj in Ht2 as ->; [|done | done].
  apply class_string_inj in Hc2 as ->; [|done | done].
  split; [done |]. apply keyBits_inj. unfold keyBits. by rewrite Hk.
Qed.

Definition op_stores (ops : list cache_op) (k : string) (e : entry) : Prop :=
  exists req m now order, OpSet req m now order ∈ ops /\ keyOf req = Some k /\
    cacheable m = true /\ msg e = capTTLs m maxTTL /\ cached e = now.

Definition stored_by (ops : list cache_op) (c : Cache) : Prop :=
  map_Forall (op_stores ops) (entries c).

Lemma op_stores_mono ops ops' k e : ops ⊆ ops' -> op_stores ops k e -> op_stores ops' k e.
Proof. intros Hs (req & m & now & order & Hin & Hk). exists req, m, now, order. auto. Qed.

Lemma stored_by_mono ops ops' c : ops ⊆ ops' -> stored_by ops c -> stored_by ops' c.
Proof. intros Hs Hc k e He. eapply op_stores_mono; eauto. Qed.

Lemma stored_by_step ops c op :
  op ∈ ops -> stored_by ops c -> stored_by ops (cache_step c op).
Proof.
  intros Hin Hc. destruct op as [req n1 n2|req m now order| |now]; simpl.
  - unfold Get, miss. by repeat case_match.
  - unfold Set_. destruct (cacheable m) eqn:Hm; simpl; [|done].
    destruct (keyOf req) as [k|] eqn:Hk; [|done].
    set (es := if (_ <=? _)%Z then _ else _).
    assert (es ⊆ entries c) as Hes.
    { unfold es. case_match; [apply reclaim_scan_subseteq | done]. }
    assert (map_Forall (op_stores ops) es) as Hc'.
    { intros k' e He. eapply Hc, lookup_weaken; done. }
    case_match; [|done]. apply map_Forall_insert_2; [|done].
    exists req, m, now, order. done.
  - apply map_Forall_empty.
  - intros k e He. eapply Hc, lookup_weaken; [done | apply map_filter_subseteq].
Qed.

Lemma stored_by_run ops c : stored_by ops c ->
  forall ops', ops' ⊆ ops -> stored_by ops (cache_run c ops').
Proof.
  intros Hc ops'. unfold cache_run. revert c Hc.
  induction ops' as [|op ops' IH]; intros c Hc Hsub; simpl; [done |].
  apply IH; [apply stored_by_step; [set_solver | done] | set_solver].
Qed.

(** Whatever ran before, a reply that the cache gives is the reply to an
    earlier query with the same question (the name with its letter case, the
    type, the class), the same CD bit and the same DO bit. *)
Theorem get_isolated (bound : Z) (ops : list cache_op) (req : Msg) (q : Question)
    (now1 now2 : Z) (r : Msg) :
  Forall (fun op => match op with
                    | OpSet req _ _ _ => Forall wire_question (Questions req)
                    | _ => True end) ops ->
  Questions req = [q] -> wire_question q ->
  fst (Get (cache_run (New bound) ops) req now1 now2) = Some r ->
  exists req0 m now order, OpSet req0 m now order ∈ ops /\
    Questions req0 = [q] /\ CheckingDisabled req0 = CheckingDisabled req /\
    do_bit req0 = do_bit req /\
    r = decrementTTLs (capTTLs m maxTTL) (elapsed_seconds now2 now).
Proof.
  intros Hops Hq Hwq Hg. apply get_Some in Hg as (k & e & Hk & He & _ & ->).
  assert (stored_by ops (cache_run (New bound) ops)) as Hs.
  { apply stored_by_run; [apply map_Forall_empty | done]. }
  destruct (Hs k e He) as (req0 & m & now & order & Hin & Hk0 & Hm & -> & <-).
  exists req0, m, (cached e), order. split; [done |].
  rewrite Forall_forall in Hops. apply Hops in Hin. simpl in Hin.
  unfold keyOf in Hk, Hk0. rewrite Hq in Hk.
  destruct (Questions req0) as [|q0 [|]]; [done | | done].
  rewrite <- Hk in Hk0. injection Hk0 as Hk0.
  apply Forall_cons in Hin as [Hwq0 _].
  apply (key_inj q0 q) in Hk0 as (-> & -> & ->); done.
Qed.
End isolation.

(** ** Witnesses *)

Module CacheExamples.
Import RefDns.

#[export] Instance ref_mnemonics : MnemonicLaws.
Proof.
  constructor; simpl.
  - intros a b Ha Hb Hs. apply (f_equal (drop_bytes 4)) in Hs. simpl in Hs.
    apply itoa_inj in Hs. lia.
  - intros a b Ha Hb Hs. apply (f_equal (drop_bytes 5)) in Hs. simpl in Hs.
    apply itoa_inj in Hs. lia.
  - intros t. apply (no_byte_app NUL "TYPE"). split; [by apply no_byte_bool |].
    by apply itoa_no_byte.
  - intros c. apply (no_byte_app NUL "CLASS"). split; [by apply no_byte_bool |].
    by apply itoa_no_byte.
Qed.

Definition q_www : Question := mkQuestion "www.example." TypeA ClassINET.

Definition query (cd : bool) : Msg :=
  mkMsg 7 false OpcodeQuery false false true cd false RcodeSuccess [q_www] [] [] [].

Definition answer_rr (ttl : Z) : RR :=
  mkRR "www.example." TypeA ClassINET ttl (DataA 3221225985).

Definition reply (ttl : Z) : Msg := set_Answer [answer_rr ttl] (ref_reply (query false)).

Definition full : Cache := Set_ (New 1) (query false) (reply 300) 0 [].

Example hit_10s :
  fst (Get full (query false) (10 * second) (10 * second)) = Some (reply 290).
Proof. vm_compute. reflexivity. Qed.

Example other_bits : fst (Get full (query true) 0 0) = None.
Proof. vm_compute. reflexivity. Qed.

(** A reply whose answers all have the largest TTL is not stored. *)
Example largest_ttl_not_cached : Set_ (New 1) (query false) (reply 4294967295) 0 [] = New 1.
Proof. vm_compute. reflexivity. Qed.

Lemma wire_reply ttl : (0 <= ttl < 2 ^ 32)%Z -> wire_answers (reply ttl).
Proof. intros Ht. split; repeat constructor; simpl; apply Ht. Qed.

Lemma get_after_set_witness :
  fst (Get (Set_ (New 1) (query false) (reply 300) 0 []) (query false)
         (10 * second) (10 * second)) = Some (aged_reply 10 (reply 300)).
Proof.
  rewrite (get_after_set (New 1) (query false) (query false) (reply 300) 0
             (10 * second) (10 * second) []).
  - vm_compute. reflexivity.
  - vm_compute. reflexivity.
  - apply wire_reply. lia.
  - vm_compute. discriminate.
  - reflexivity.
  - vm_compute. reflexivity.
  - vm_compute. split; [discriminate | reflexivity].
  - vm_compute. split; [discriminate | reflexivity].
Defined.

Definition demo_ops : list cache_op :=
  [OpSet (query false) (reply 300) 0 []; OpSet (query true) (reply 60) 0 ["x"]].

Lemma demo_ops_wire : Forall op_wire demo_ops.
Proof. repeat apply Forall_cons_2; try apply Forall_nil_2; apply wire_reply; lia. Qed.

Lemma cache_bounded_witness :
  (Z.of_nat (size (entries (cache_run (New 1) demo_ops))) <= 1)%Z.
Proof.
  destruct (cache_bounded 1 demo_ops) as [Hb _]; [lia | exact demo_ops_wire | exact Hb].
Defined.

Lemma q_www_wire : wire_question q_www.
Proof. split; [by apply no_byte_bool | done]. Qed.

Lemma get_isolated_witness :
  exists req0 m now order, OpSet req0 m now order ∈ demo_ops /\
    Questions req0 = [q_www] /\
    CheckingDisabled req0 = CheckingDisabled (query false) /\
    do_bit req0 = do_bit (query false) /\
    reply 290 = decrementTTLs (capTTLs m maxTTL) (elapsed_seconds (10 * second) now).
Proof.
  apply (get_isolated 1 demo_ops (query false) q_www (10 * second) (10 * second) (reply 290)).
  - repeat constructor; apply q_www_wire.
  - reflexivity.
  - exact q_www_wire.
  - vm_compute. reflexivity.
Defined.
End CacheExamples.
