(* ===== verification/Timeline.v ===== *)
(** * The per-minute graph (internal/stats/timeline.go)

    A ring of one bucket for each minute of a day. The buckets are a map from
    indices to buckets that reads as the zero bucket where nothing was
    written. The claim of a bucket is one step here: the race at the start of
    a minute, which the code tolerates, is not modelled. A time is in
    nanoseconds since the Unix epoch, and is not negative. *)

From stdpp Require Import base numbers list gmap.
From Stdlib Require Import ZArith Lia.
From S2P Require Import Prelude.

Open Scope Z_scope.

Definition timelineMinutes : Z := 24 * 60.

(** The counts of a bucket, and which count an event goes to. *)
Inductive field := FTotal | FBlocked | FCached | FUnresolved | FUpstreamError.

#[export] Instance field_eq_dec : EqDecision field.
Proof. solve_decision. Defined.

Record minuteBucket := mkBucket {
  minute : Z;
  b_total : Z;
  b_blocked : Z;
  b_cached : Z;
  b_unresolved : Z;
  b_upstreamError : Z;
}.

Definition zero_bucket : minuteBucket := mkBucket 0 0 0 0 0 0.

Abbreviation timeline := (gmap Z minuteBucket).

Definition bucket_at (t : timeline) (i : Z) : minuteBucket := default zero_bucket (t !! i).

Definition bucket_count (b : minuteBucket) (f : field) : Z :=
  match f with
  | FTotal => b_total b | FBlocked => b_blocked b | FCached => b_cached b
  | FUnresolved => b_unresolved b | FUpstreamError => b_upstreamError b
  end.

(** [b.total.Add(1)] and the like. *)
Definition bump_field (f : field) (b : minuteBucket) : minuteBucket :=
  let '(mkBucket m t bl c u e) := b in
  match f with
  | FTotal => mkBucket m (t + 1) bl c u e
  | FBlocked => mkBucket m t (bl + 1) c u e
  | FCached => mkBucket m t bl (c + 1) u e
  | FUnresolved => mkBucket m t bl c (u + 1) e
  | FUpstreamError => mkBucket m t bl c u (e + 1)
  end.

(** [now.Unix() / 60]. *)
Definition minute_of (now : Z) : Z := now / second / 60.

(** [at]: the bucket of the minute [m], zeroed when it holds another minute. *)
Definition claim (m : Z) (b : minuteBucket) : minuteBucket :=
  if minute b =? m then b else mkBucket m 0 0 0 0 0.

Definition at_ (t : timeline) (now : Z) : timeline :=
  let m := minute_of now in
  let i := m mod timelineMinutes in
  <[i := claim m (bucket_at t i)]> t.

(** One event: the bucket is claimed and one count goes up. *)
Definition record_event (t : timeline) (now : Z) (f : field) : timeline :=
  let i := minute_of now mod timelineMinutes in
  let t := at_ t now in
  <[i := bump_field f (bucket_at t i)]> t.

Definition reset (t : timeline) : timeline := (fun _ => zero_bucket) <$> t.

(** ** Reading the graph *)

Record TimelineBucket := mkTB {
  t_Start : Z;
  t_Total : Z;
  t_Blocked : Z;
  t_Cached : Z;
  t_Unresolved : Z;
  t_UpstreamError : Z;
}.

(** One iteration of the inner loop of [Timeline]. *)
Definition add_minute (t : timeline) (nowMin : Z) (tb : TimelineBucket) (m : Z)
    : TimelineBucket :=
  if (timelineMinutes <=? nowMin - m) then tb
  else
    let b := bucket_at t (m mod timelineMinutes) in
    if negb (minute b =? m) then tb
    else mkTB (t_Start tb) (t_Total tb + b_total b) (t_Blocked tb + b_blocked b)
           (t_Cached tb + b_cached b) (t_Unresolved tb + b_unresolved b)
           (t_UpstreamError tb + b_upstreamError b).

(** The minutes of the inner loop: [start <= m < start+bm] and [m <= nowMin]. *)
Definition loop_minutes (start bm nowMin : Z) : list Z :=
  seqZ start (Z.min bm (nowMin + 1 - start)).

Fixpoint timeline_loop (fuel : nat) (t : timeline) (start bm lastStart nowMin : Z)
    : list TimelineBucket :=
  match fuel with
  | O => []
  | S fuel' =>
      if start <=? lastStart then
        fold_left (add_minute t nowMin) (loop_minutes start bm nowMin)
          (mkTB (start * 60) 0 0 0 0 0)
        :: timeline_loop fuel' t (start + bm) bm lastStart nowMin
      else []
  end.

Definition TimelineWindow : Z := timelineMinutes * Prelude.minute.

Definition bucket_minutes (bucket : Z) : Z := Z.max 1 (Z.quot bucket Prelude.minute).

Definition bucket_number (window bucket : Z) : Z :=
  Z.max 1 (Z.quot (Z.quot (Z.min window TimelineWindow) Prelude.minute) (bucket_minutes bucket)).

(** [fuel] bounds the outer loop, which runs once for each bucket. *)
Definition Timeline (t : timeline) (window bucket now : Z) : list TimelineBucket :=
  let bm := bucket_minutes bucket in
  let n := bucket_number window bucket in
  let nowMin := minute_of now in
  let lastStart := nowMin / bm * bm in
  timeline_loop (Z.to_nat n) t (lastStart - (n - 1) * bm) bm lastStart nowMin.

(** ** What the ring remembers *)

Definition event : Type := Z * field.

Definition replay (evs : list event) : timeline :=
  fold_left (fun t ev => record_event t (fst ev) (snd ev)) evs ∅.

(** The number of events of one kind in one minute. *)
Definition events_in (evs : list event) (m : Z) (f : field) : Z :=
  lenZ (List.filter (fun ev => (minute_of (fst ev) =? m) && bool_decide (snd ev = f)) evs).

(** The events in the order of the clock. *)
Fixpoint in_order (evs : list event) : Prop :=
  match evs with
  | [] => True
  | ev :: evs' => Forall (fun ev' => minute_of (fst ev) <= minute_of (fst ev')) evs' /\ in_order evs'
  end.

Definition residue (m : Z) : Z := m mod timelineMinutes.

(** The bucket [i] after [evs]: untouched, or at the last minute that maps to
    [i], with the counts of that minute. *)
Definition bucket_ok (evs : list event) (i : Z) (b : minuteBucket) : Prop :=
  (b = zero_bucket /\ Forall (fun ev => residue (minute_of (fst ev)) <> i) evs) \/
  (residue (minute b) = i /\ Exists (fun ev => minute_of (fst ev) = minute b) evs /\
   Forall (fun ev => residue (minute_of (fst ev)) = i -> minute_of (fst ev) <= minute b) evs /\
   forall f, bucket_count b f = events_in evs (minute b) f).

Lemma events_in_app evs evs' m f :
  events_in (evs ++ evs') m f = events_in evs m f + events_in evs' m f.
Proof. unfold events_in. rewrite List.filter_app. apply lenZ_app. Qed.

Lemma events_in_one ev m f :
  events_in [ev] m f = if (minute_of (fst ev) =? m) && bool_decide (snd ev = f) then 1 else 0.
Proof. unfold events_in. simpl. by case_match. Qed.

Lemma bump_field_minute f b : minute (bump_field f b) = minute b.
Proof. by destruct b, f. Qed.

Lemma bump_field_count f g b :
  bucket_count (bump_field f b) g = bucket_count b g + if decide (f = g) then 1 else 0.
Proof. destruct b, f, g; simpl; lia. Qed.

Lemma record_event_bucket t now f i :
  bucket_at (record_event t now f) i =
    if decide (residue (minute_of now) = i)
    then bump_field f (claim (minute_of now) (bucket_at t i)) else bucket_at t i.
Proof.
  unfold record_event, at_, bucket_at, residue. case_decide as Hi.
  - subst i. by rewrite !lookup_insert_eq.
  - by rewrite !lookup_insert_ne.
Qed.

Lemma claim_minute m b : minute (claim m b) = m.
Proof. unfold claim. destruct (Z.eqb_spec (minute b) m); done. Qed.

Lemma in_order_app evs ev :
  in_order (evs ++ [ev]) <->
  in_order evs /\ Forall (fun ev' => minute_of (fst ev') <= minute_of (fst ev)) evs.
Proof.
  induction evs as [|e evs IH]; simpl.
  - split; [by repeat constructor | done].
  - rewrite Forall_app, Forall_singleton, Forall_cons, IH. tauto.
Qed.

(** No event yet in a minute later than every event. *)
Lemma events_in_later evs m f :
  Forall (fun ev => minute_of (fst ev) <> m) evs -> events_in evs m f = 0.
Proof.
  induction 1 as [|ev evs Hev _ IH]; [done |].
  change (ev :: evs) with ([ev] ++ evs)%list. rewrite events_in_app, events_in_one, IH.
  apply Z.eqb_neq in Hev as ->. done.
Qed.

Lemma replay_bucket evs i : in_order evs -> bucket_ok evs i (bucket_at (replay evs) i).
Proof.
  induction evs as [|ev evs IH] using rev_ind.
  { intros _. left. split; [done | constructor]. }
  intros [Ho Hlast]%in_order_app. specialize (IH Ho).
  unfold replay. rewrite fold_left_app. cbn [fold_left].
  change (fold_left _ evs ∅) with (replay evs).
  destruct ev as [now f]. simpl in *. rewrite record_event_bucket.
  set (b := bucket_at (replay evs) i) in *. set (m := minute_of now) in *.
  case_decide as Hi.
  - right. rewrite bump_field_minute, claim_minute. split_and!; [done | | |].
    { apply Exists_app. right. by constructor. }
    { rewrite Forall_app, Forall_singleton. split; [|done].
      eapply Forall_impl; [done |]. simpl. auto. }
    intros g. rewrite bump_field_count, events_in_app, events_in_one. cbn [fst snd]. fold m.
    rewrite Z.eqb_refl, andb_true_l, bool_decide_decide.
    assert (bucket_count (claim m b) g = events_in evs m g) as ->;
      [|by destruct (decide (f = g))].
    unfold claim. destruct (Z.eqb_spec (minute b) m) as [Hb|Hb].
    + destruct IH as [[Hz Hno]|(_ & _ & _ & Hc)]; [|by rewrite <- Hb].
      rewrite Hz, events_in_later; [by destruct g |].
      eapply Forall_impl; [exact Hno |]. simpl. intros e He Hm. by rewrite Hm in He.
    + rewrite events_in_later; [by destruct g |].
      rewrite Forall_forall in *. intros e He Hm.
      destruct IH as [[Hz Hno]|(Hr & [e' [He' Hm']]%Exists_exists & Hmax & _)].
      * rewrite Forall_forall in Hno. apply (Hno e He). by rewrite Hm.
      * rewrite Forall_forall in Hmax. apply Hb.
        pose proof (Hmax e He ltac:(by rewrite Hm)). pose proof (Hlast e' He'). lia.
  - destruct IH as [[Hz Hno]|(Hr & Hex & Hmax & Hc)].
    + left. split; [done |]. rewrite Forall_app, Forall_singleton. done.
    + right. split_and!; [done | | |].
      * apply Exists_app. by left.
      * rewrite Forall_app, Forall_singleton. split; [done |]. simpl. done.
      * intros g. rewrite events_in_app, events_in_one. simpl. fold m.
        destruct (Z.eqb_spec m (minute b)) as [Hm|_]; [by rewrite Hm in Hi |]. simpl.
        rewrite Hc. lia.
Qed.

(** ** The graph is the count of the last day's events *)

(** The events of one kind in the minutes [start .. start+bm) that are not
    later than [nowMin] and less than a day before it. *)
Definition series_count (evs : list event) (start bm nowMin : Z) (f : field) : Z :=
  lenZ (List.filter (fun ev =>
    let m := minute_of (fst ev) in
    (start <=? m) && (m <? start + bm) && (m <=? nowMin) && (nowMin - m <? timelineMinutes)
    && bool_decide (snd ev = f)) evs).

Definition tb_count (tb : TimelineBucket) (f : field) : Z :=
  match f with
  | FTotal => t_Total tb | FBlocked => t_Blocked tb | FCached => t_Cached tb
  | FUnresolved => t_Unresolved tb | FUpstreamError => t_UpstreamError tb
  end.

Section series.
Context (evs : list event) (nowMin : Z).
Context (Ho : in_order evs) (Hpast : Forall (fun ev => minute_of (fst ev) <= nowMin) evs)
  (Hday : timelineMinutes <= nowMin).

(** The count that one minute adds. *)
Definition minute_count (m : Z) (f : field) : Z :=
  if timelineMinutes <=? nowMin - m then 0 else events_in evs m f.

Lemma add_minute_count tb m f :
  m <= nowMin ->
  tb_count (add_minute (replay evs) nowMin tb m) f = tb_count tb f + minute_count m f /\
  t_Start (add_minute (replay evs) nowMin tb m) = t_Start tb.
Proof.
  intros Hm. unfold add_minute, minute_count.
  destruct (Z.leb_spec timelineMinutes (nowMin - m)) as [Hold|Hnew]; [split; [lia | done] |].
  pose proof (replay_bucket evs (residue m) Ho) as Hb. fold (residue m).
  set (b := bucket_at (replay evs) (residue m)) in *.
  destruct (Z.eqb_spec (minute b) m) as [Hbm|Hbm]; simpl.
  - split; [|done]. destruct Hb as [[Hz Hno]|(_ & _ & _ & Hc)].
    + rewrite Hz in Hbm. simpl in Hbm. lia.
    + rewrite <- Hbm, <- Hc. destruct tb, f; simpl; lia.
  - split; [|done]. rewrite events_in_later; [lia |].
    rewrite Forall_forall in *. intros e He Hme.
    destruct Hb as [[Hz Hno]|(Hr & [e' [He' Hm']]%Exists_exists & Hmax & _)].
    + rewrite Forall_forall in Hno. apply (Hno e He). by rewrite Hme.
    + rewrite Forall_forall in Hmax. pose proof (Hmax e He ltac:(by rewrite Hme)) as H1.
      pose proof (Hpast e' He') as H2. rewrite Hme in H1. rewrite Hm' in H2.
      unfold residue, timelineMinutes in *.
      pose proof (Z.div_mod (minute b) (24 * 60) ltac:(lia)).
      pose proof (Z.div_mod m (24 * 60) ltac:(lia)). nia.
Qed.

(** The events in [lo .. hi) that are less than a day old. *)
Definition range_count (es : list event) (lo hi : Z) (f : field) : Z :=
  lenZ (List.filter (fun ev =>
    let m := minute_of (fst ev) in
    (lo <=? m) && (m <? hi) && (nowMin - m <? timelineMinutes) && bool_decide (snd ev = f)) es).

Lemma range_count_split es lo mid hi f :
  lo <= mid <= hi -> range_count es lo hi f = range_count es lo mid f + range_count es mid hi f.
Proof.
  intros Hr. unfold range_count, lenZ. induction es as [|[t g] es IH]; [done |]. simpl.
  destruct (Z.leb_spec lo (minute_of t)), (Z.ltb_spec (minute_of t) hi),
    (Z.ltb_spec (minute_of t) mid), (Z.leb_spec mid (minute_of t)); simpl; try lia;
    destruct (_ && _); simpl; lia.
Qed.

Lemma range_count_one es m f :
  range_count es m (m + 1) f = if timelineMinutes <=? nowMin - m then 0 else events_in es m f.
Proof.
  unfold range_count, events_in, lenZ. induction es as [|[t g] es IH]; simpl; [by case_match |].
  destruct (Z.leb_spec m (minute_of t)), (Z.ltb_spec (minute_of t) (m + 1)),
    (Z.eqb_spec (minute_of t) m); simpl; try lia;
    destruct (Z.leb_spec timelineMinutes (nowMin - m)),
      (Z.ltb_spec (nowMin - minute_of t) timelineMinutes); simpl; try lia;
    destruct (bool_decide (g = f)); simpl; lia.
Qed.

Lemma range_count_empty es lo hi f : hi <= lo -> range_count es lo hi f = 0.
Proof.
  intros Hr. unfold range_count, lenZ. induction es as [|[t g] es IH]; [done |]. simpl.
  destruct (Z.leb_spec lo (minute_of t)), (Z.ltb_spec (minute_of t) hi); simpl; try done; lia.
Qed.

Lemma fold_add_minutes n lo tb f :
  (n = 0%nat \/ lo + Z.of_nat n <= nowMin + 1) ->
  let tb' := fold_left (add_minute (replay evs) nowMin) (seqZ lo (Z.of_nat n)) tb in
  tb_count tb' f = tb_count tb f + range_count evs lo (lo + Z.of_nat n) f /\
  t_Start tb' = t_Start tb.
Proof.
  revert lo tb. induction n as [|n IH]; intros lo tb Hn.
  - simpl. rewrite range_count_empty by lia. split; [lia | done].
  - rewrite seqZ_cons by lia. cbn [fold_left].
    replace (Z.pred (Z.of_nat (S n))) with (Z.of_nat n) by lia.
    destruct (IH (Z.succ lo) (add_minute (replay evs) nowMin tb lo) ltac:(lia)) as [H1 H2].
    cbn zeta. rewrite H1, H2.
    destruct (add_minute_count tb lo f ltac:(lia)) as [-> ->].
    rewrite (range_count_split evs lo (lo + 1)) by lia. rewrite range_count_one.
    unfold minute_count.
    replace (Z.succ lo + Z.of_nat n) with (lo + Z.of_nat (S n)) by lia.
    change (Z.succ lo) with (lo + 1). split; [lia | done].
Qed.

Lemma series_range start bm f :
  0 <= bm -> series_count evs start bm nowMin f = range_count evs start
    (start + Z.max 0 (Z.min bm (nowMin + 1 - start))) f.
Proof.
  intros Hbm. unfold series_count, range_count. f_equal. apply List.filter_ext.
  intros [t g]. simpl.
  destruct (Z.leb_spec start (minute_of t)), (Z.ltb_spec (minute_of t) (start + bm)),
    (Z.leb_spec (minute_of t) nowMin),
    (Z.ltb_spec (minute_of t) (start + Z.max 0 (Z.min bm (nowMin + 1 - start))));
    simpl; try done; lia.
Qed.

(** One bucket of the series. *)
Lemma bucket_of_series start bm f :
  0 <= bm ->
  let tb := fold_left (add_minute (replay evs) nowMin) (loop_minutes start bm nowMin)
              (mkTB (start * 60) 0 0 0 0 0) in
  tb_count tb f = series_count evs start bm nowMin f /\ t_Start tb = start * 60.
Proof.
  intros Hbm. rewrite series_range by done. unfold loop_minutes.
  set (n := Z.max 0 (Z.min bm (nowMin + 1 - start))).
  assert (seqZ start (Z.min bm (nowMin + 1 - start)) = seqZ start (Z.of_nat (Z.to_nat n))) as ->.
  { unfold seqZ. do 2 f_equal. lia. }
  destruct (fold_add_minutes (Z.to_nat n) start (mkTB (start * 60) 0 0 0 0 0) f ltac:(lia))
    as [-> ->].
  rewrite Z2Nat.id by lia. by destruct f.
Qed.

Lemma timeline_loop_lookup n start bm lastStart k :
  0 < bm -> lastStart = start + (Z.of_nat n - 1) * bm -> (k < n)%nat ->
  timeline_loop n (replay evs) start bm lastStart nowMin !! k =
    Some (fold_left (add_minute (replay evs) nowMin)
            (loop_minutes (start + Z.of_nat k * bm) bm nowMin)
            (mkTB ((start + Z.of_nat k * bm) * 60) 0 0 0 0 0)).
Proof.
  intros Hbm. revert start k. induction n as [|n IH]; intros start k Hlast Hk; [lia |].
  cbn [timeline_loop]. destruct (Z.leb_spec start lastStart); [|nia].
  destruct k as [|k].
  - simpl. by rewrite Z.add_0_r.
  - simpl. rewrite IH by (try nia; lia).
    replace (start + bm + Z.of_nat k * bm) with (start + Z.of_nat (S k) * bm) by lia. done.
Qed.

Lemma timeline_loop_length n start bm lastStart :
  0 < bm -> lastStart = start + (Z.of_nat n - 1) * bm ->
  length (timeline_loop n (replay evs) start bm lastStart nowMin) = n.
Proof.
  intros Hbm. revert start. induction n as [|n IH]; intros start Hlast; [done |].
  cbn [timeline_loop]. destruct (Z.leb_spec start lastStart); [|nia].
  simpl. rewrite IH by lia. done.
Qed.
End series.

(** The graph of a run whose events came in the order of the clock, read
    at or after the last of them: the series has [bucket_number] buckets, each
    as wide as asked and aligned to its width, the last one holds the current
    minute, and every count is the number of events of its kind in the
    bucket's minutes, as far as they are less than a day old. No event of an
    earlier day is counted, although the ring reuses its buckets. *)
Theorem timeline_counts_events (evs : list event) (window bucket now : Z) (k : nat) :
  let bm := bucket_minutes bucket in
  let n := Z.to_nat (bucket_number window bucket) in
  let nowMin := minute_of now in
  let first := nowMin / bm * bm - (bucket_number window bucket - 1) * bm in
  let series := Timeline (replay evs) window bucket now in
  in_order evs -> Forall (fun ev => minute_of (fst ev) <= nowMin) evs ->
  timelineMinutes <= nowMin -> (k < n)%nat ->
  length series = n /\
  (first + (Z.of_nat n - 1) * bm <= nowMin < first + Z.of_nat n * bm) /\
  exists tb, series !! k = Some tb /\ t_Start tb = (first + Z.of_nat k * bm) * 60 /\
    forall f, tb_count tb f = series_count evs (first + Z.of_nat k * bm) bm nowMin f.
Proof.
  simpl. intros Ho Hpast Hday Hk. unfold Timeline.
  set (bm := bucket_minutes bucket). set (nb := bucket_number window bucket) in *.
  assert (0 < bm) as Hbm by (unfold bm, bucket_minutes; lia).
  assert (0 < nb) as Hnb by (unfold nb, bucket_number; lia).
  set (nowMin := minute_of now) in *.
  pose proof (Z.div_mod nowMin bm ltac:(lia)). pose proof (Z.mod_pos_bound nowMin bm Hbm).
  split_and!.
  - apply timeline_loop_length; [done | lia].
  - nia.
  - nia.
  - eexists. split; [apply timeline_loop_lookup; [done | lia | done] |].
    split; [by apply (bucket_of_series evs nowMin Ho Hpast Hday _ bm FTotal); lia |].
    intros f. apply bucket_of_series; [done | done | done | lia].
Qed.

(** ** Example *)

Module TimelineExamples.
Definition day_ns : Z := 24 * hour.
Definition t0 : Z := 100 * day_ns.

Definition evs : list event :=
  [(t0 - day_ns, FTotal); (t0 - 2 * Prelude.minute, FTotal); (t0, FTotal); (t0, FBlocked)].

Lemma timeline_counts_events_witness :
  exists tb, Timeline (replay evs) (10 * Prelude.minute) (5 * Prelude.minute) t0 !! 0%nat
               = Some tb /\ tb_count tb FTotal = 1.
Proof.
  destruct (timeline_counts_events evs (10 * Prelude.minute) (5 * Prelude.minute) t0 0)
    as (_ & _ & tb & Htb & _ & Hc).
  - simpl. repeat split; repeat constructor; vm_compute; discriminate.
  - repeat constructor; vm_compute; discriminate.
  - vm_compute. discriminate.
  - apply Nat.ltb_lt. vm_compute. reflexivity.
  - exists tb. split; [exact Htb |]. rewrite Hc. vm_compute. reflexivity.
Defined.
End TimelineExamples.
