(* ===== verification/Stats.v ===== *)
(** * The query counters (internal/stats/stats.go)

    Two views of [Counter]. The sequential one gives every operation as a
    function on the counter, used by the handler; the prune of a tally map
    takes the order in which the sort left equal counts. The concurrent one
    gives the atomic steps of the operations and of [Snapshot], for the
    load-order invariant. The counters are Go [int64]s that a process cannot
    bring to their bound; they are plain integers here. The percentages of
    [Summary] are floating-point quotients and are left out; the integers that
    they divide are kept. *)

From stdpp Require Import base numbers list gmap strings sorting.
From Stdlib Require Import Ascii ZArith Lia.
From S2P Require Import Prelude GoStrings Timeline.

Open Scope string_scope.

Definition topNMaxEntries : Z := 4096.

(** The atomic counters, and [blocked], which the mutex guards. *)
Inductive ctr :=
  | CTotal | CCacheHit | CLocalPTR | CLocalName | CForwardFailures
  | CUpstreamErrors | CCNAMEBlocked | CBlocked.

#[export] Instance ctr_eq_dec : EqDecision ctr.
Proof. solve_decision. Defined.

Definition counts : Type := ctr -> Z.

Definition bump (c : ctr) (v : counts) : counts :=
  fun c' => if decide (c' = c) then (v c' + 1)%Z else v c'.

Record Counter := mkCounter {
  vals : counts;
  topDomains : gmap string Z;
  topClients : gmap string Z;
  graph : timeline;
  graphMode : string;
}.

Record Entry := mkTop { e_Name : string; e_Count : Z }.

#[export] Instance Entry_eq_dec : EqDecision Entry.
Proof. solve_decision. Defined.

Definition New : Counter := mkCounter (fun _ => 0%Z) ∅ ∅ ∅ "".

Definition set_vals (v : counts) (c : Counter) : Counter :=
  mkCounter v (topDomains c) (topClients c) (graph c) (graphMode c).

Definition set_graph (t : timeline) (c : Counter) : Counter :=
  mkCounter (vals c) (topDomains c) (topClients c) t (graphMode c).

(** ** The graph mode *)

Definition SetQueryLogMode (c : Counter) (mode : string) : Counter :=
  mkCounter (vals c) (topDomains c) (topClients c) (graph c)
    (if (mode =? "all")%string || (mode =? "blocked")%string then mode else "none").

Definition GraphMode (c : Counter) : string :=
  if (graphMode c =? "")%string then "none" else graphMode c.

Definition graphs (c : Counter) (blocked : bool) : bool :=
  if (graphMode c =? "all")%string then true
  else if (graphMode c =? "blocked")%string then blocked
  else false.

(** [if c.graphs(blocked) { c.timeline.at(now).f.Add(1) }]. *)
Definition graph_event (c : Counter) (blocked : bool) (now : Z) (f : field) : Counter :=
  if graphs c blocked then set_graph (record_event (graph c) now f) c else c.

(** ** The tallies *)

Definition tally_add (m : gmap string Z) (k : string) : gmap string Z :=
  <[k := (default 0 (m !! k) + 1)%Z]> m.

(** [sort.Slice] by count: [order] is the map in iteration order, and the
    merge sort leaves equal counts in that order, so every result that the
    unstable sort can give is the result for some [order]. *)
Definition count_ge (a b : string * Z) : Prop := (snd b <= snd a)%Z.

#[export] Instance count_ge_dec a b : Decision (count_ge a b).
Proof. unfold count_ge. apply _. Defined.

Definition pruneBottomHalf (order : list (string * Z)) : gmap string Z :=
  let entries := merge_sort count_ge order in
  let keep := Nat.div2 (length entries) in
  list_to_map (take keep entries).

Definition prune_if_full (m : gmap string Z) (order : list (string * Z)) : gmap string Z :=
  if (topNMaxEntries <? Z.of_nat (size m))%Z then pruneBottomHalf order else m.

(** ** The operations *)

(** [oc] and [od] give the iteration orders of the two tally maps, when they
    are pruned. *)
Definition RecordQuery (c : Counter) (clientIP domain : string) (blocked : bool) (now : Z)
    (oc od : gmap string Z -> list (string * Z)) : Counter :=
  let c := set_vals (bump CTotal (vals c)) c in
  let c := graph_event c blocked now FTotal in
  let c := if blocked then graph_event c blocked now FBlocked else c in
  let clients := if (clientIP =? "")%string then topClients c
                 else tally_add (topClients c) clientIP in
  let v := if blocked then bump CBlocked (vals c) else vals c in
  let domains := if blocked && negb (domain =? "")%string
                 then tally_add (topDomains c) domain else topDomains c in
  mkCounter v (prune_if_full domains (od domains)) (prune_if_full clients (oc clients))
    (graph c) (graphMode c).

Definition RecordCacheHit (c : Counter) (now : Z) : Counter :=
  graph_event (set_vals (bump CCacheHit (vals c)) c) false now FCached.

Definition RecordCNAMEBlocked (c : Counter) : Counter :=
  set_vals (bump CCNAMEBlocked (vals c)) c.

Definition RecordLocalPTR (c : Counter) : Counter := set_vals (bump CLocalPTR (vals c)) c.

Definition RecordLocalName (c : Counter) : Counter := set_vals (bump CLocalName (vals c)) c.

Definition RecordForwardFailure (c : Counter) (now : Z) : Counter :=
  graph_event (set_vals (bump CForwardFailures (vals c)) c) false now FUnresolved.

Definition RecordUpstreamError (c : Counter) (now : Z) : Counter :=
  graph_event (set_vals (bump CUpstreamErrors (vals c)) c) false now FUpstreamError.

Definition ResetTallies (c : Counter) : Counter :=
  mkCounter (vals c) ∅ ∅ (graph c) (graphMode c).

Definition ResetTimeline (c : Counter) : Counter := set_graph (reset (graph c)) c.

(** ** The top lists *)

Definition entry_le (a b : Entry) : Prop :=
  (e_Count b < e_Count a)%Z \/ (e_Count a = e_Count b /\ String.le (e_Name a) (e_Name b)).

#[export] Instance entry_le_dec a b : Decision (entry_le a b).
Proof. unfold entry_le. apply _. Defined.

Definition to_entry (p : string * Z) : Entry := mkTop (fst p) (snd p).

(** [topN], on the tally map in the order in which the loop ranges over it. *)
Definition topN (order : list (string * Z)) (n : Z) : list Entry :=
  let entries := merge_sort entry_le (map to_entry order) in
  if (0 <? n)%Z && (n <? lenZ entries)%Z then take (Z.to_nat n) entries else entries.

Record Summary := mkSummary {
  TotalQueries : Z;
  BlockedCount : Z;
  LocalPTRCount : Z;
  LocalNameCount : Z;
  CacheHits : Z;
  Forwardable : Z;
  ForwardFailures : Z;
  UpstreamErrors : Z;
  CNAMEBlockedCount : Z;
}.

(** ** The atomic steps *)

(** What a query does to the counters once the handler has decided its
    outcome. *)
Inductive outcome :=
  | OLocalPTR | OLocalName | OBlocked | OBlockedCNAME | OCacheHit
  | OForwarded | OForwardFailure | OUpstreamError.

#[export] Instance outcome_eq_dec : EqDecision outcome.
Proof. solve_decision. Defined.

Definition all_outcomes : list outcome :=
  [OLocalPTR; OLocalName; OBlocked; OBlockedCNAME; OCacheHit; OForwarded; OForwardFailure;
   OUpstreamError].

(** The increments of [RecordQuery], in their order. *)
Definition RecordQuery_steps (blocked : bool) : list ctr :=
  CTotal :: (if blocked then [CBlocked] else []).

(** The increments of one query, in the order of the handler's calls. *)
Definition query_steps (o : outcome) : list ctr :=
  match o with
  | OLocalPTR => RecordQuery_steps false ++ [CLocalPTR]
  | OLocalName => RecordQuery_steps false ++ [CLocalName]
  | OBlocked => RecordQuery_steps true
  | OBlockedCNAME => RecordQuery_steps true ++ [CCNAMEBlocked]
  | OCacheHit => RecordQuery_steps false ++ [CCacheHit]
  | OForwarded => RecordQuery_steps false
  | OForwardFailure => RecordQuery_steps false ++ [CForwardFailures]
  | OUpstreamError => RecordQuery_steps false ++ [CUpstreamErrors]
  end%list.

(** The loads of [Snapshot], in their order. *)
Definition Snapshot_loads : list ctr :=
  [CCNAMEBlocked; CBlocked; CLocalPTR; CLocalName; CCacheHit; CForwardFailures;
   CUpstreamErrors; CTotal].

(** The [Summary] of the values that were loaded. *)
Definition Snapshot_summary (v : counts) : Summary :=
  mkSummary (v CTotal) (v CBlocked) (v CLocalPTR) (v CLocalName) (v CCacheHit)
    (v CTotal - v CBlocked - v CLocalPTR - v CLocalName) (v CForwardFailures)
    (v CUpstreamErrors) (v CCNAMEBlocked).

(** The shared counters, the increments that each running query has left, and
    one running [Snapshot]: the loads it has left and what it has loaded. *)
Record conc := mkConc {
  shared : counts;
  running : list (list ctr);
  loads : list ctr;
  loaded : counts;
}.

Definition conc_init (s : conc) : Prop :=
  (forall c, shared s c = 0%Z) /\ running s = [] /\ loads s = Snapshot_loads /\
  (forall c, loaded s c = 0%Z).

Inductive conc_step : conc -> conc -> Prop :=
  | step_start s o :
      conc_step s (mkConc (shared s) (query_steps o :: running s) (loads s) (loaded s))
  | step_add s before c rest after :
      running s = (before ++ (c :: rest) :: after)%list ->
      conc_step s (mkConc (bump c (shared s)) (before ++ rest :: after)%list
                     (loads s) (loaded s))
  | step_load s c rest :
      loads s = c :: rest ->
      conc_step s (mkConc (shared s) (running s) rest
                     (fun c' => if decide (c' = c) then shared s c else loaded s c')).

Definition conc_reachable : conc -> Prop := reachable conc_init conc_step.

(** ** The load-order invariant *)

Definition all_ctrs : list ctr :=
  [CTotal; CCacheHit; CLocalPTR; CLocalName; CForwardFailures; CUpstreamErrors; CCNAMEBlocked;
   CBlocked].

Definition sumZ (l : list Z) : Z := fold_right Z.add 0%Z l.

Lemma sumZ_app l k : sumZ (l ++ k) = (sumZ l + sumZ k)%Z.
Proof. induction l; simpl; lia. Qed.

(** A weighted sum of the counters. Increments that are still to come can
    lower it; [debt] is by how much at most. *)
Section weights.
Context (w : ctr -> Z).

Definition weigh (v : counts) : Z := sumZ (map (fun c => w c * v c)%Z all_ctrs).
Definition debt (rest : list ctr) : Z := Z.max 0 (- sumZ (map w rest)).
Definition debts (s : conc) : Z := sumZ (map debt (running s)).

Lemma weigh_bump c v : weigh (bump c v) = (weigh v + w c)%Z.
Proof. unfold weigh, bump. destruct c; simpl; lia. Qed.

(** No increment of a query lowers the sum by more than its debt falls. *)
Fixpoint covered (prog : list ctr) : bool :=
  match prog with
  | [] => true
  | c :: rest => (debt rest <=? debt prog + w c)%Z && covered rest
  end.

Definition sound_weights : bool :=
  forallb (fun o => (debt (query_steps o) <=? 0)%Z && covered (query_steps o)) all_outcomes.

Definition weight_inv (s : conc) : Prop :=
  (debts s <= weigh (shared s))%Z /\ Forall (fun r => covered r = true) (running s).

Lemma weight_inv_reachable s :
  sound_weights = true -> conc_reachable s -> weight_inv s.
Proof.
  intros Hw. unfold sound_weights in Hw. rewrite forallb_elem in Hw.
  apply reachable_invariant; clear s.
  - intros s (Hz & Hr & _). unfold weight_inv, debts, weigh. rewrite Hr. simpl.
    rewrite !Hz. split; [lia | constructor].
  - intros s s' [Hd Hc] Hstep. unfold weight_inv, debts in *.
    inversion Hstep as [? o|? b c r a Hrun|? c r Hl]; subst; simpl in *.
    + assert (o ∈ all_outcomes) as Ho by (destruct o; set_solver).
      apply Hw in Ho. breflect. split; [lia | by constructor].
    + rewrite Hrun in Hd, Hc. rewrite map_app, sumZ_app in Hd |- *. simpl in Hd |- *.
      apply Forall_app in Hc as [Hcb [Hcc Hca]%Forall_cons]. simpl in Hcc. breflect.
      rewrite weigh_bump. split; [lia |]. apply Forall_app. auto.
    + done.
Qed.

Lemma debts_nonneg s : (0 <= debts s)%Z.
Proof. unfold debts. induction (running s); simpl; unfold debt in *; lia. Qed.

Lemma weigh_nonneg s : sound_weights = true -> conc_reachable s -> (0 <= weigh (shared s))%Z.
Proof.
  intros Hw Hr. destruct (weight_inv_reachable s Hw Hr) as [Hd _].
  pose proof (debts_nonneg s). lia.
Qed.
End weights.

(** The total against everything that is counted after it. *)
Definition w_total (c : ctr) : Z :=
  match c with CTotal => 1 | CCNAMEBlocked => 0 | _ => -1 end.

Definition w_cname (c : ctr) : Z :=
  match c with CBlocked => 1 | CCNAMEBlocked => -1 | _ => 0 end.

Lemma shared_ordered s :
  conc_reachable s ->
  (shared s CBlocked + shared s CLocalPTR + shared s CLocalName + shared s CCacheHit
     + shared s CForwardFailures + shared s CUpstreamErrors <= shared s CTotal)%Z /\
  (shared s CCNAMEBlocked <= shared s CBlocked)%Z.
Proof.
  intros Hr. pose proof (weigh_nonneg w_total s ltac:(vm_compute; reflexivity) Hr) as H1.
  pose proof (weigh_nonneg w_cname s ltac:(vm_compute; reflexivity) Hr) as H2.
  unfold weigh in *. simpl in *. lia.
Qed.

(** What a [Snapshot] that is under way has loaded so far. *)
Definition load_inv (s : conc) : Prop :=
  (exists done_, Snapshot_loads = done_ ++ loads s)%list /\
  (forall c, 0 <= loaded s c <= shared s c)%Z /\
  (CCNAMEBlocked ∉ loads s -> CBlocked ∉ loads s ->
     (loaded s CCNAMEBlocked <= loaded s CBlocked)%Z) /\
  (CTotal ∉ loads s ->
     (loaded s CBlocked + loaded s CLocalPTR + loaded s CLocalName + loaded s CCacheHit
        + loaded s CForwardFailures + loaded s CUpstreamErrors <= loaded s CTotal)%Z).

Lemma bump_le c v c' : (v c' <= bump c v c')%Z.
Proof. unfold bump. case_decide; lia. Qed.

Lemma load_inv_load s c rest :
  conc_reachable s -> load_inv s -> loads s = c :: rest ->
  load_inv (mkConc (shared s) (running s) rest
              (fun c' => if decide (c' = c) then shared s c else loaded s c')).
Proof.
  intros Hr ((done_ & Hd) & Hle & Hcn & Ht) Hl.
  destruct (shared_ordered s Hr) as [Hst Hsc]. rewrite Hl in *.
  assert (forall c', (0 <= if decide (c' = c) then shared s c else loaded s c')%Z /\
     ((if decide (c' = c) then shared s c else loaded s c') <= shared s c')%Z) as Hle'.
  { intros c'. case_decide; subst; [pose proof (Hle c) | pose proof (Hle c')]; lia. }
  split_and!; simpl.
  - exists (done_ ++ [c])%list. by rewrite <- app_assoc.
  - done.
  - clear Hle'. pose proof (Hle CCNAMEBlocked). pose proof (Hle CBlocked).
    repeat (destruct done_ as [|? done_]; [injection Hd as <- <-; set_solver by lia |
      injection Hd as <- Hd]); by destruct done_.
  - clear Hle'. pose proof (Hle CCNAMEBlocked).
    pose proof (Hle CBlocked). pose proof (Hle CLocalPTR). pose proof (Hle CLocalName).
    pose proof (Hle CCacheHit). pose proof (Hle CForwardFailures).
    pose proof (Hle CUpstreamErrors).
    repeat (destruct done_ as [|? done_]; [injection Hd as <- <-; set_solver by lia |
      injection Hd as <- Hd]); by destruct done_.
Qed.

Lemma load_inv_reachable s : conc_reachable s -> load_inv s.
Proof.
  intros Hs. enough (conc_reachable s /\ load_inv s) as [_ ?] by done.
  induction Hs as [s (Hz & Hr & Hl & Hd)|s s' Hreach [_ Hi] Hstep].
  - split; [by apply reachable_init |]. split_and!.
    + exists []. by rewrite Hl.
    + intros c. rewrite Hz, Hd. lia.
    + intros H. rewrite Hl in H. destruct H. unfold Snapshot_loads. set_solver.
    + intros H. rewrite Hl in H. destruct H. unfold Snapshot_loads. set_solver.
  - split; [by eapply reachable_step |].
    inversion Hstep as [? o|? b c r a Hrun|? c r Hl]; subst.
    + done.
    + destruct Hi as (? & Hle & ? & ?). split_and!; simpl; try done.
      intros c'. pose proof (Hle c'). pose proof (bump_le c (shared s) c'). lia.
    + by apply load_inv_load.
Qed.

(** C6. The load-order invariant. However the increments of any number of
    queries interleave with the loads of a [Snapshot], the summary it returns
    is consistent: no count is negative, the blocked, local-PTR, local-name,
    cache-hit, unresolved and upstream-error counts together do not exceed the
    total, the queries blocked by a CNAME target do not exceed the blocked
    ones, and the cache hits do not exceed the forwardable queries, so no
    percentage passes 100. *)
Theorem snapshot_consistent (s : conc) :
  conc_reachable s -> loads s = [] ->
  let sum := Snapshot_summary (loaded s) in
  (0 <= CNAMEBlockedCount sum <= BlockedCount sum)%Z /\
  (0 <= LocalPTRCount sum)%Z /\ (0 <= LocalNameCount sum)%Z /\
  (0 <= ForwardFailures sum)%Z /\ (0 <= UpstreamErrors sum)%Z /\
  (BlockedCount sum + LocalPTRCount sum + LocalNameCount sum + CacheHits sum
     + ForwardFailures sum + UpstreamErrors sum <= TotalQueries sum)%Z /\
  (0 <= CacheHits sum <= Forwardable sum)%Z.
Proof.
  intros Hr Hl. destruct (load_inv_reachable s Hr) as (_ & Hle & Hcn & Ht).
  rewrite Hl in Hcn, Ht. specialize (Hcn ltac:(set_solver) ltac:(set_solver)).
  specialize (Ht ltac:(set_solver)). simpl.
  pose proof (Hle CCNAMEBlocked). pose proof (Hle CLocalPTR). pose proof (Hle CLocalName).
  pose proof (Hle CCacheHit). pose proof (Hle CForwardFailures).
  pose proof (Hle CUpstreamErrors). lia.
Qed.

(** The two views agree: the operations bump the counters of [query_steps]. *)
Lemma RecordQuery_vals c clientIP domain blocked now oc od :
  vals (RecordQuery c clientIP domain blocked now oc od)
  = fold_left (fun v k => bump k v) (RecordQuery_steps blocked) (vals c).
Proof.
  unfold RecordQuery, graph_event, RecordQuery_steps.
  destruct blocked; repeat case_match; done.
Qed.

Lemma graph_event_vals c blocked now f : vals (graph_event c blocked now f) = vals c.
Proof. unfold graph_event. by case_match. Qed.

Lemma graph_event_mode c blocked now f : graphMode (graph_event c blocked now f) = graphMode c.
Proof. unfold graph_event. by case_match. Qed.

#[export] Hint Rewrite RecordQuery_vals graph_event_vals graph_event_mode : shole_rw.

(** ** The tallies stay bounded *)

#[export] Instance count_ge_total : Total count_ge.
Proof. intros a b. unfold count_ge. lia. Qed.

#[export] Instance count_ge_trans : Transitive count_ge.
Proof. intros a b c. unfold count_ge. lia. Qed.

(** An order in which the loop can range over the map. *)
Definition iterates (order : list (string * Z)) (m : gmap string Z) : Prop :=
  order ≡ₚ map_to_list m.

Lemma iterates_refl m : iterates (map_to_list m) m.
Proof. unfold iterates. reflexivity. Qed.

Lemma iterates_keys order m : iterates order m -> NoDup (map fst order).
Proof. intros Hi. rewrite Hi. apply NoDup_fst_map_to_list. Qed.

Lemma iterates_elem order m k v : iterates order m -> (k, v) ∈ order <-> m !! k = Some v.
Proof. intros Hi. rewrite Hi. apply elem_of_map_to_list. Qed.

Section prune.
Context (m : gmap string Z) (order : list (string * Z)) (Hi : iterates order m).

Let sorted := merge_sort count_ge order.

Lemma sorted_iterates : iterates sorted m.
Proof. unfold iterates, sorted. by rewrite merge_sort_Permutation. Qed.

Lemma sorted_length : length sorted = size m.
Proof.
  unfold sorted. rewrite merge_sort_Permutation, Hi. by rewrite length_map_to_list.
Qed.

Lemma sorted_parts :
  sorted = (take (Nat.div2 (size m)) sorted ++ drop (Nat.div2 (size m)) sorted)%list.
Proof. by rewrite take_drop. Qed.

Lemma take_keys_NoDup n : NoDup (map fst (take n sorted)).
Proof.
  pose proof (iterates_keys _ _ sorted_iterates) as Hn.
  rewrite <- (take_drop n sorted), map_app in Hn. by apply NoDup_app in Hn as [? _].
Qed.

Lemma pruneBottomHalf_lookup k v :
  pruneBottomHalf order !! k = Some v <-> (k, v) ∈ take (Nat.div2 (size m)) sorted.
Proof.
  unfold pruneBottomHalf. fold sorted. rewrite sorted_length.
  rewrite <- elem_of_list_to_map by (apply take_keys_NoDup). done.
Qed.

Lemma pruneBottomHalf_size : size (pruneBottomHalf order) = Nat.div2 (size m).
Proof.
  unfold pruneBottomHalf. fold sorted. rewrite sorted_length.
  rewrite map_size_list_to_map by (apply take_keys_NoDup).
  rewrite length_take, sorted_length. pose proof (Nat.div2_decr (size m) (size m)). lia.
Qed.

Lemma sorted_take_ge n a b :
  a ∈ take n sorted -> b ∈ drop n sorted -> (snd b <= snd a)%Z.
Proof.
  intros Ha Hb. assert (StronglySorted count_ge sorted) as Hs
    by (apply StronglySorted_merge_sort; apply _).
  rewrite <- (take_drop n sorted) in Hs.
  apply StronglySorted_app in Hs as [Hab _]. by apply Hab.
Qed.
End prune.

(** Whatever the iteration order and however equal counts are sorted, a
    prune keeps half of the tally, with its counts, and drops no entry that
    has a higher count than one it keeps. *)
Theorem prune_keeps_top_half (m : gmap string Z) (order : list (string * Z)) :
  iterates order m ->
  size (pruneBottomHalf order) = Nat.div2 (size m) /\
  pruneBottomHalf order ⊆ m /\
  forall k v k' v', pruneBottomHalf order !! k = Some v -> m !! k' = Some v' ->
    pruneBottomHalf order !! k' = None -> (v' <= v)%Z.
Proof.
  intros Hi. pose proof (sorted_iterates m order Hi) as Hsi. split_and!.
  - by apply pruneBottomHalf_size.
  - apply map_subseteq_spec. intros k v Hk.
    apply (pruneBottomHalf_lookup m order Hi) in Hk.
    apply (iterates_elem _ m k v Hsi). eapply elem_of_take in Hk as (i & Hk & _).
    by eapply list_elem_of_lookup_2.
  - intros k v k' v' Hk Hm Hn. apply (pruneBottomHalf_lookup m order Hi) in Hk.
    apply (iterates_elem _ m k' v' Hsi) in Hm.
    rewrite (sorted_parts m order) in Hm. apply elem_of_app in Hm as [Hm|Hm].
    + apply (pruneBottomHalf_lookup m order Hi) in Hm. congruence.
    + by apply (sorted_take_ge order (Nat.div2 (size m)) (k, v) (k', v')).
Qed.

Lemma tally_add_size m k : (size (tally_add m k) <= S (size m))%nat.
Proof. apply map_size_insert_le. Qed.

Lemma prune_if_full_size m order :
  iterates order m -> (Z.of_nat (size m) <= topNMaxEntries + 1)%Z ->
  (Z.of_nat (size (prune_if_full m order)) <= topNMaxEntries)%Z.
Proof.
  intros Hi Hs. unfold prune_if_full. case_match; breflect; [|done].
  rewrite (pruneBottomHalf_size m) by done.
  pose proof (Nat.div2_odd (size m)). unfold topNMaxEntries in *.
  destruct (Nat.odd (size m)); simpl in *; lia.
Qed.

Lemma record_query_tallies (c : Counter) (clientIP domain : string) (blocked : bool) (now : Z)
    (oc od : gmap string Z -> list (string * Z)) :
  (forall m, iterates (oc m) m) -> (forall m, iterates (od m) m) ->
  (Z.of_nat (size (topClients c)) <= topNMaxEntries)%Z ->
  (Z.of_nat (size (topDomains c)) <= topNMaxEntries)%Z ->
  let c' := RecordQuery c clientIP domain blocked now oc od in
  (Z.of_nat (size (topClients c')) <= topNMaxEntries)%Z /\
  (Z.of_nat (size (topDomains c')) <= topNMaxEntries)%Z /\
  (clientIP = "" -> topClients c' = topClients c) /\
  (domain = "" \/ blocked = false -> topDomains c' = topDomains c).
Proof.
  intros Hoc Hod Hc Hd. unfold RecordQuery. simpl.
  assert (forall c0 b n f, topClients (graph_event c0 b n f) = topClients c0 /\
                           topDomains (graph_event c0 b n f) = topDomains c0) as Hg.
  { intros. unfold graph_event. by case_match. }
  set (c1 := if blocked then _ else _).
  assert (topClients c1 = topClients c /\ topDomains c1 = topDomains c) as [-> ->].
  { unfold c1. destruct blocked; repeat (rewrite (proj1 (Hg _ _ _ _)) || rewrite (proj2 (Hg _ _ _ _))); done. }
  assert (forall m o, (Z.of_nat (size m) <= topNMaxEntries)%Z -> prune_if_full m o = m) as Hkeep.
  { intros m o Hm. unfold prune_if_full. case_match; [breflect; lia | done]. }
  split_and!.
  - apply prune_if_full_size; [apply Hoc |]. case_match; [lia |].
    pose proof (tally_add_size (topClients c) clientIP). lia.
  - apply prune_if_full_size; [apply Hod |]. case_match; [|lia].
    pose proof (tally_add_size (topDomains c) domain). lia.
  - intros ->. simpl. by apply Hkeep.
  - intros [->| ->]; simpl; rewrite ?andb_false_r; by apply Hkeep.
Qed.

(** Each of the two tally maps holds at most 4096 names after every query,
    whatever the iteration order of a prune; a query without a client or a
    domain (the handler passes the empty string for a query that the query log
    does not record) adds no name to either map. *)
Theorem tallies_bounded (c : Counter) (clientIP domain : string) (blocked : bool) (now : Z)
    (oc od : gmap string Z -> list (string * Z)) :
  (forall m, iterates (oc m) m) -> (forall m, iterates (od m) m) ->
  (Z.of_nat (size (topClients c)) <= topNMaxEntries)%Z ->
  (Z.of_nat (size (topDomains c)) <= topNMaxEntries)%Z ->
  let c' := RecordQuery c clientIP domain blocked now oc od in
  (Z.of_nat (size (topClients c')) <= topNMaxEntries)%Z /\
  (Z.of_nat (size (topDomains c')) <= topNMaxEntries)%Z /\
  (clientIP = "" -> topClients c' = topClients c) /\
  (domain = "" \/ blocked = false -> topDomains c' = topDomains c).
Proof. apply record_query_tallies. Qed.

(** ** The top lists *)

#[export] Instance entry_le_total : Total entry_le.
Proof.
  intros [n a] [k b]. unfold entry_le. simpl.
  destruct (Z.lt_trichotomy a b) as [?|[->|?]]; [right; left; lia | | left; left; lia].
  destruct (total String.le n k); [left | right]; right; auto.
Qed.

#[export] Instance entry_le_trans : Transitive entry_le.
Proof.
  intros [n a] [k b] [l d]. unfold entry_le. simpl.
  intros [?|[-> ?]] [?|[-> ?]]; [left; lia | left; lia | left; lia |].
  right. split; [done |]. by trans k.
Qed.

#[export] Instance entry_le_antisymm : AntiSymm (=) entry_le.
Proof.
  intros [n a] [k b]. unfold entry_le. simpl.
  intros [?|[-> ?]] [?|[? ?]]; try lia. f_equal. by apply (anti_symm String.le).
Qed.

(** The entries of a map in the order of the top lists. *)
Definition sorted_entries (order : list (string * Z)) : list Entry := merge_sort entry_le (map to_entry order).

Lemma sorted_entries_spec (m : gmap string Z) (order : list (string * Z)) :
  iterates order m ->
  StronglySorted entry_le (sorted_entries order) /\ length (sorted_entries order) = size m /\
  (forall k v, mkTop k v ∈ sorted_entries order <-> m !! k = Some v).
Proof.
  intros Hi. unfold sorted_entries. split_and!.
  - apply StronglySorted_merge_sort; apply _.
  - rewrite merge_sort_Permutation, length_map, Hi. apply length_map_to_list.
  - intros k v. rewrite merge_sort_Permutation, list_elem_of_fmap.
    rewrite <- (iterates_elem _ _ k v Hi). split.
    + intros ([k' v'] & He & ?). unfold to_entry in He. simpl in He. by simplify_eq.
    + intros ?. by exists (k, v).
Qed.

(** What is left out of a sorted prefix does not come before it. *)
Lemma sorted_prefix (l : list Entry) n e x :
  StronglySorted entry_le l -> e ∈ take n l -> x ∈ l -> x ∉ take n l -> entry_le e x.
Proof.
  intros Hs He Hx Hn. rewrite <- (take_drop n l) in Hs, Hx.
  apply StronglySorted_app in Hs as (Hsep & _). apply Hsep; [done |].
  by apply elem_of_app in Hx as [?|?].
Qed.

(** The top list does not depend on the iteration order of the map. It is
    sorted by count, then name; it holds entries of the tally only, all of
    them when [n] is zero or there are no more than [n], otherwise [n] of them;
    and an entry that is left out never comes before one that is listed. *)
Theorem topN_deterministic (m : gmap string Z) (order order' : list (string * Z)) (n : Z) :
  iterates order m -> iterates order' m ->
  let top := topN order n in
  top = topN order' n /\
  StronglySorted entry_le top /\
  lenZ top = (if (0 <? n)%Z then Z.min n (Z.of_nat (size m)) else Z.of_nat (size m)) /\
  (forall e, e ∈ top -> m !! e_Name e = Some (e_Count e)) /\
  (forall e k v, e ∈ top -> m !! k = Some v -> mkTop k v ∉ top -> entry_le e (mkTop k v)).
Proof.
  intros Hi Hi'. unfold topN. fold (sorted_entries order) (sorted_entries order').
  pose proof (sorted_entries_spec m order Hi) as (Hs & Hlen & Hin).
  assert (sorted_entries order = sorted_entries order') as <-.
  { apply (StronglySorted_unique entry_le); [done | by apply (sorted_entries_spec m) |].
    unfold sorted_entries. rewrite !merge_sort_Permutation. by rewrite Hi, Hi'. }
  set (l := sorted_entries order) in *.
  assert (exists k, (if (0 <? n)%Z && (n <? lenZ l)%Z then take (Z.to_nat n) l else l) = take k l /\
    lenZ (take k l) = (if (0 <? n)%Z then Z.min n (Z.of_nat (size m)) else Z.of_nat (size m))) as (k & -> & Htop).
  { unfold lenZ in *. destruct (Z.ltb_spec 0 n), (Z.ltb_spec n (Z.of_nat (length l))); cbn [andb];
      [exists (Z.to_nat n) | exists (length l); rewrite firstn_all ..];
      (split; [done |]; rewrite ?length_take; lia). }
  split_and!; [done | | done | |].
  - rewrite <- (take_drop k l) in Hs. by apply StronglySorted_app in Hs as (_ & Hs & _).
  - intros [x v] He. apply Hin. rewrite <- (take_drop k l). apply elem_of_app. by left.
  - intros e x v He Hx Hn. eapply sorted_prefix; [done | done | by apply Hin | done].
Qed.

(** ** Witnesses *)

Module StatsExamples.
Definition tally : gmap string Z := {["a" := 3%Z; "b" := 3%Z; "c" := 1%Z; "d" := 9%Z]}.

Example top_two : topN (map_to_list tally) 2 = [mkTop "d" 9; mkTop "a" 3].
Proof. vm_compute. reflexivity. Qed.

(** One blocked query runs to its end, then a snapshot. *)
Definition step_to (s : conc) (k : ctr) : conc :=
  mkConc (shared s) (running s) (tail (loads s))
    (fun k' => if decide (k' = k) then shared s k else loaded s k').

Definition c0 : conc := mkConc (fun _ => 0%Z) [] Snapshot_loads (fun _ => 0%Z).
Definition c1 : conc := mkConc (shared c0) [query_steps OBlocked] (loads c0) (loaded c0).
Definition c2 : conc := mkConc (bump CTotal (shared c1)) [[CBlocked]] (loads c1) (loaded c1).
Definition c3 : conc := mkConc (bump CBlocked (shared c2)) [[]] (loads c2) (loaded c2).
Definition c4 : conc := fold_left step_to Snapshot_loads c3.

Lemma c4_reachable : conc_reachable c4.
Proof.
  unfold c4. simpl.
  do 8 (eapply reachable_step; [| by apply step_load]).
  eapply reachable_step; [|apply (step_add _ [] CBlocked [] []); reflexivity].
  eapply reachable_step; [|apply (step_add _ [] CTotal [CBlocked] []); reflexivity].
  eapply reachable_step; [|apply (step_start c0 OBlocked)].
  apply reachable_init. done.
Qed.

Lemma snapshot_consistent_witness :
  BlockedCount (Snapshot_summary (loaded c4)) = 1%Z /\
  (0 <= CacheHits (Snapshot_summary (loaded c4)) <= Forwardable (Snapshot_summary (loaded c4)))%Z.
Proof.
  split; [reflexivity |].
  apply (snapshot_consistent c4); [exact c4_reachable | reflexivity].
Defined.

Lemma prune_keeps_top_half_witness :
  size (pruneBottomHalf (map_to_list tally)) = 2%nat.
Proof.
  destruct (prune_keeps_top_half tally (map_to_list tally)) as [Hs _]; [apply iterates_refl |].
  rewrite Hs. vm_compute. reflexivity.
Defined.

Lemma tallies_bounded_witness :
  topClients (RecordQuery New "" "" false 0 map_to_list map_to_list) = topClients New.
Proof.
  destruct (tallies_bounded New "" "" false 0 map_to_list map_to_list)
    as (_ & _ & Hc & _); [exact iterates_refl | exact iterates_refl | vm_compute; discriminate
    | vm_compute; discriminate | apply Hc; reflexivity].
Defined.

Lemma topN_deterministic_witness :
  lenZ (topN (map_to_list tally) 2) = 2%Z.
Proof.
  destruct (topN_deterministic tally (map_to_list tally) (map_to_list tally) 2)
    as (_ & _ & Hl & _); [apply iterates_refl | apply iterates_refl | rewrite Hl; vm_compute; reflexivity].
Defined.
End StatsExamples.
