(* ===== verification/GoRegexp.v ===== *)
(** * Go regular expressions

    The part of Go's [regexp] that s-hole uses: [MustCompile] of a pattern built
    from classes, repetition of a class, sequence, choice, option and [\b], and
    [ReplaceAllStringFunc]. A match is the leftmost one, and of those at one
    place the first that a backtracking search finds: [ends] lists the places
    where a match can end in that order. The patterns hold classes of ASCII
    bytes and negated classes of ASCII bytes; on them a search by bytes finds
    what Go's search by runes finds, because a byte above 127 is in no class
    that is not negated and never in part in one that is. *)

From stdpp Require Import base numbers list strings.
From Stdlib Require Import Ascii ZArith Lia.
From S2P Require Import Prelude.
From S2P Require Import GoStrings.

Open Scope string_scope.

(** ** Patterns *)

Inductive regexp :=
  | RClass (f : ascii -> bool)    (* one byte *)
  | RMany (f : ascii -> bool)     (* the class, any number of times, greedy *)
  | RSeq (a b : regexp)
  | RAlt (a b : regexp)
  | ROpt (a : regexp)             (* a?, greedy *)
  | RBoundary.                    (* \b *)

Definition RByte (c : ascii) : regexp := RClass (Ascii.eqb c).

(** [f+] and [f{1,3}]. *)
Definition RSome (f : ascii -> bool) : regexp := RSeq (RClass f) (RMany f).
Definition RUpTo3 (f : ascii -> bool) : regexp :=
  RSeq (RClass f) (ROpt (RSeq (RClass f) (ROpt (RClass f)))).

(** A byte that [\b] counts as part of a word. *)
Definition is_word (c : ascii) : bool :=
  is_digit c || is_lower c || is_upper c || Ascii.eqb c "_"%char.

(** A place in the text: whether the byte before it is part of a word, and the
    text from there on. *)
Definition place : Type := bool * string.

Definition at_boundary (p : place) : bool :=
  xorb (fst p) (match snd p with "" => false | String c _ => is_word c end).

Fixpoint many_ends (f : ascii -> bool) (w : bool) (s : string) : list place :=
  match s with
  | "" => [(w, "")]
  | String c s' => if f c then (many_ends f (is_word c) s' ++ [(w, s)])%list else [(w, s)]
  end.

(** Where a match of the pattern that starts at [p] can end, the preferred place
    first. *)
Fixpoint ends (r : regexp) (p : place) : list place :=
  match r with
  | RClass f => match snd p with
                | "" => []
                | String c s' => if f c then [(is_word c, s')] else []
                end
  | RMany f => many_ends f (fst p) (snd p)
  | RSeq a b => flat_map (ends b) (ends a p)
  | RAlt a b => (ends a p ++ ends b p)%list
  | ROpt a => (ends a p ++ [p])%list
  | RBoundary => if at_boundary p then [p] else []
  end.

Definition first_end (r : regexp) (p : place) : option place := head (ends r p).

(** ** Replacing *)

(** The text matched between two places. *)
Definition matched (s rest : string) : string := take_bytes (String.length s - String.length rest) s.

(** [ReplaceAllStringFunc] for a pattern that never matches the empty text:
    [w] says whether the byte before [s] is part of a word, and [skip] is what
    is left of a match that was replaced. [None] when the replacement function
    panics. *)
Fixpoint replace_from (r : regexp) (f : string -> option string) (w : bool) (skip : nat) (s : string)
    : option string :=
  match s with
  | "" => Some ""
  | String c s' =>
      match skip with
      | S k => replace_from r f (is_word c) k s'
      | O =>
          match first_end r (w, s) with
          | Some (_, rest) =>
              if (String.length rest <? String.length s)%nat then
                match f (matched s rest) with
                | None => None
                | Some t => String.append t <$>
                    replace_from r f (is_word c) (String.length s - String.length rest - 1) s'
                end
              else String c <$> replace_from r f (is_word c) 0 s'
          | None => String c <$> replace_from r f (is_word c) 0 s'
          end
      end
  end.

Definition ReplaceAllStringFunc (r : regexp) (f : string -> option string) (s : string) : option string :=
  replace_from r f false 0 s.

(** ** First ends *)

Lemma head_flat_map {A B} (k : A -> list B) l x y :
  head l = Some x -> head (k x) = Some y -> head (flat_map k l) = Some y.
Proof. destruct l as [|x' l]; [done |]. intros [= ->] Hy. simpl. by destruct (k x). Qed.

Lemma head_app_Some {A} (l1 l2 : list A) x : head l1 = Some x -> head (l1 ++ l2) = Some x.
Proof. by destruct l1. Qed.

Lemma first_seq a b p q t :
  first_end a p = Some q -> first_end b q = Some t -> first_end (RSeq a b) p = Some t.
Proof. apply head_flat_map. Qed.

Lemma first_alt_l a b p q : first_end a p = Some q -> first_end (RAlt a b) p = Some q.
Proof. apply head_app_Some. Qed.

Lemma first_alt_r a b p : ends a p = [] -> first_end (RAlt a b) p = first_end b p.
Proof. unfold first_end. simpl. by intros ->. Qed.

Lemma first_opt a p q : first_end a p = Some q -> first_end (ROpt a) p = Some q.
Proof. apply head_app_Some. Qed.

Lemma first_opt_none a p : ends a p = [] -> first_end (ROpt a) p = Some p.
Proof. unfold first_end. simpl. by intros ->. Qed.

Lemma first_class (f : ascii -> bool) w c s : f c = true -> first_end (RClass f) (w, String c s) = Some (is_word c, s).
Proof. unfold first_end. simpl. by intros ->. Qed.

Lemma first_byte c w s : first_end (RByte c) (w, String c s) = Some (is_word c, s).
Proof. apply first_class, Ascii.eqb_refl. Qed.

Lemma first_boundary p : at_boundary p = true -> first_end RBoundary p = Some p.
Proof. unfold first_end. simpl. by intros ->. Qed.

(** Whether the text starts with a byte of the class. *)
Definition starts (f : ascii -> bool) (s : string) : bool :=
  match s with "" => false | String c _ => f c end.

(** Whether the byte before the end of [u] is part of a word, when [w] says so
    of the byte before [u]. *)
Fixpoint last_word (w : bool) (u : string) : bool :=
  match u with "" => w | String c u' => last_word (is_word c) u' end.

Lemma last_word_app w u v : last_word w (u +:+ v) = last_word (last_word w u) v.
Proof. revert w. induction u as [|c u IH]; intros w; [done | apply IH]. Qed.

Lemma last_word_all (f : ascii -> bool) w u :
  (forall c, f c = true -> is_word c = true) -> string_forallb f u = true -> u <> "" -> last_word w u = true.
Proof.
  intros Hf. revert w. induction u as [|c u IH]; intros w; [done |]. simpl. rewrite andb_true_iff.
  intros [Hc Hu] _. destruct u as [|d u]; [simpl; auto | by apply IH].
Qed.

Lemma first_many f w u s :
  string_forallb f u = true -> starts f s = false ->
  first_end (RMany f) (w, u +:+ s) = Some (last_word w u, s).
Proof.
  unfold first_end. simpl. revert w. induction u as [|c u IH]; intros w; simpl.
  - intros _ Hs. destruct s as [|c s]; [done |]. simpl in *. by rewrite Hs.
  - rewrite andb_true_iff. intros [-> Hu] Hs. apply head_app_Some. by apply IH.
Qed.

Lemma ends_class_none f w s : starts f s = false -> ends (RClass f) (w, s) = [].
Proof. destruct s as [|c s]; simpl; [done |]. by intros ->. Qed.

Lemma ends_seq_none a b p : ends a p = [] -> ends (RSeq a b) p = [].
Proof. simpl. by intros ->. Qed.

(** No place where [a] can end lets [b] start. *)
Lemma ends_seq_stuck a b p : (forall q, q ∈ ends a p -> ends b q = []) -> ends (RSeq a b) p = [].
Proof.
  simpl. generalize (ends a p) as l. intros l. induction l as [|q l IH]; intros Hl; [done |]. simpl.
  rewrite Hl by left. apply IH. intros q' Hq. apply Hl. by right.
Qed.

Lemma first_some f w u s :
  string_forallb f u = true -> u <> "" -> starts f s = false ->
  first_end (RSome f) (w, u +:+ s) = Some (last_word w u, s).
Proof.
  destruct u as [|c u]; [done |]. simpl. rewrite andb_true_iff. intros [Hc Hu] _ Hs.
  eapply first_seq; [by apply first_class |]. by apply first_many.
Qed.

(** One to three bytes of a class. *)
Lemma first_upto3 f w u s :
  string_forallb f u = true -> u <> "" -> (String.length u <= 3)%nat -> starts f s = false ->
  first_end (RUpTo3 f) (w, u +:+ s) = Some (last_word w u, s).
Proof.
  intros Hu Hn Hl Hs. destruct u as [|a u]; [done |]. simpl in Hu. apply andb_true_iff in Hu as [Ha Hu].
  eapply first_seq; [by apply first_class |]. change ((String a u) +:+ s) with (String a (u +:+ s)).
  destruct u as [|b u].
  { apply first_opt_none, ends_seq_none. by apply ends_class_none. }
  simpl in Hu. apply andb_true_iff in Hu as [Hb Hu].
  apply first_opt. eapply first_seq; [by apply first_class |]. destruct u as [|d u].
  { apply first_opt_none. by apply ends_class_none. }
  simpl in Hu. apply andb_true_iff in Hu as [Hd Hu]. simpl in Hl. destruct u as [|]; [|simpl in Hl; lia].
  apply first_opt. by apply first_class.
Qed.

(** The last byte [c] of a run: a class that holds [c] runs over [u], [c] and
    [v], and gives back what follows the last [c]. *)
Lemma first_many_last f c w u v s q b :
  string_forallb f u = true -> f c = true -> string_forallb f v = true -> no_byte c v ->
  starts f s = false -> first_end b (is_word c, v +:+ s) = Some q ->
  first_end (RSeq (RMany f) (RSeq (RByte c) b)) (w, u +:+ String c (v +:+ s)) = Some q.
Proof.
  intros Hu Hc Hv Hno Hs Hb. unfold first_end in *. simpl.
  set (k := fun p => flat_map (ends b) _).
  assert (forall w, flat_map k (many_ends f w (v +:+ s)) = []) as Hnone.
  { clear Hb Hu. intros w0. revert w0. induction v as [|d v IH]; intros w0; simpl.
    - destruct s as [|d s]; [done |]. simpl in *. rewrite Hs. subst k. simpl.
      destruct (Ascii.eqb_spec c d) as [->|]; [congruence | done].
    - simpl in Hv. apply andb_true_iff in Hv as [Hd Hv]. apply no_byte_cons in Hno as [Hne Hno].
      rewrite Hd, flat_map_app, IH by done. simpl. subst k. simpl.
      destruct (Ascii.eqb_spec c d); [congruence | done]. }
  revert w. induction u as [|d u IH]; intros w; simpl.
  - rewrite Hc, flat_map_app, Hnone. simpl. subst k. simpl. rewrite Ascii.eqb_refl. simpl.
    by rewrite !app_nil_r.
  - simpl in Hu. apply andb_true_iff in Hu as [Hd Hu]. rewrite Hd, flat_map_app.
    apply head_app_Some. by apply IH.
Qed.

(** ** What a match takes *)

Lemma many_ends_suffix f w s q : q ∈ many_ends f w s -> exists m, s = m +:+ snd q.
Proof.
  revert w. induction s as [|c s IH]; intros w; simpl.
  - intros ->%list_elem_of_singleton. by exists "".
  - destruct (f c).
    + rewrite elem_of_app. intros [Hq | ->%list_elem_of_singleton]; [|by exists ""].
      apply IH in Hq as [m ->]. by exists (String c m).
    + intros ->%list_elem_of_singleton. by exists "".
Qed.

Lemma elem_of_flat_map {A B} (k : A -> list B) l y : y ∈ flat_map k l <-> exists x, x ∈ l /\ y ∈ k x.
Proof.
  rewrite !list_elem_of_In, in_flat_map. split; intros (x & Hx & Hy); exists x;
    rewrite ?list_elem_of_In in *; done.
Qed.

Lemma ends_seq a b p q : q ∈ ends (RSeq a b) p <-> exists x, x ∈ ends a p /\ q ∈ ends b x.
Proof. apply (elem_of_flat_map (ends b)). Qed.

Lemma ends_alt a b p q : q ∈ ends (RAlt a b) p <-> q ∈ ends a p \/ q ∈ ends b p.
Proof. apply elem_of_app. Qed.

Lemma ends_suffix r p q : q ∈ ends r p -> exists m, snd p = m +:+ snd q.
Proof.
  revert p q. induction r as [f|f|a IHa b IHb|a IHa b IHb|a IHa|]; intros [w s] q; simpl.
  - destruct s as [|c s]; [by intros ?%elem_of_nil |]. destruct (f c); [|by intros ?%elem_of_nil].
    intros ->%list_elem_of_singleton. by exists (String c "").
  - apply many_ends_suffix.
  - intros (x & Hx & Hq)%elem_of_flat_map. apply IHa in Hx as [m1 Hm1]. apply IHb in Hq as [m2 Hm2].
    exists (m1 +:+ m2). simpl in Hm1. by rewrite Hm1, Hm2, string_app_assoc.
  - rewrite elem_of_app. intros [Hq|Hq]; [by eapply IHa in Hq | by eapply IHb in Hq].
  - rewrite elem_of_app. intros [Hq | ->%list_elem_of_singleton]; [by eapply IHa in Hq | by exists ""].
  - destruct (at_boundary (w, s)); [|by intros ?%elem_of_nil].
    intros ->%list_elem_of_singleton. by exists "".
Qed.

Lemma first_end_suffix r w s w' rest :
  first_end r (w, s) = Some (w', rest) -> (w', rest) ∈ ends r (w, s) /\ s = matched s rest +:+ rest.
Proof.
  intros Hf. assert ((w', rest) ∈ ends r (w, s)) as Hin.
  { unfold first_end in Hf. destruct (ends r (w, s)); [done |]. injection Hf as ->. left. }
  split; [done |]. apply ends_suffix in Hin as [m Hm]. simpl in Hm. subst s. unfold matched.
  rewrite string_length_app. replace (_ - _)%nat with (String.length m) by lia. by rewrite take_bytes_app.
Qed.

Lemma matched_app m rest : matched (m +:+ rest) rest = m.
Proof.
  unfold matched. rewrite string_length_app. replace (_ - _)%nat with (String.length m) by lia.
  apply take_bytes_app.
Qed.

Lemma replace_skip r f w m s : replace_from r f w (String.length m) (m +:+ s) = replace_from r f (last_word w m) 0 s.
Proof. revert w. induction m as [|c m IH]; intros w; [done | simpl; apply IH]. Qed.

(** A match that is taken. *)
Lemma replace_match r f w m s w' t :
  m <> "" -> first_end r (w, m +:+ s) = Some (w', s) -> f m = Some t ->
  replace_from r f w 0 (m +:+ s) = String.append t <$> replace_from r f (last_word w m) 0 s.
Proof.
  intros Hm Hf Ht. pose proof (matched_app m s) as Hmat. destruct m as [|c m]; [done |].
  change (String c m +:+ s) with (String c (m +:+ s)) in *. cbn [replace_from].
  rewrite Hf, Hmat, Ht. cbn [String.length]. rewrite string_length_app.
  destruct (Nat.ltb_spec (String.length s) (S (String.length m + String.length s))); [|lia].
  replace (S (String.length m + String.length s) - String.length s - 1)%nat with (String.length m) by lia.
  by rewrite replace_skip.
Qed.

(** A byte where no match starts. *)
Lemma replace_pass r f w c s :
  ends r (w, String c s) = [] ->
  replace_from r f w 0 (String c s) = String c <$> replace_from r f (is_word c) 0 s.
Proof. intros He. cbn [replace_from]. unfold first_end. by rewrite He. Qed.

(** ** Bytes that no match takes *)

(** The pattern takes no byte [c]. *)
Fixpoint avoids (c : ascii) (r : regexp) : bool :=
  match r with
  | RClass f | RMany f => negb (f c)
  | RSeq a b | RAlt a b => avoids c a && avoids c b
  | ROpt a => avoids c a
  | RBoundary => true
  end.

Definition extend (t : string) (p : place) : place := (fst p, snd p +:+ t).

Lemma flat_map_extend (k k' : place -> list place) t l :
  (forall p, k' (extend t p) = map (extend t) (k p)) ->
  flat_map k' (map (extend t) l) = map (extend t) (flat_map k l).
Proof. intros Hk. induction l as [|p l IH]; [done |]. simpl. by rewrite Hk, IH, map_app. Qed.

Lemma many_ends_extend f c w u v :
  f c = false -> many_ends f w (u +:+ String c v) = map (extend (String c v)) (many_ends f w u).
Proof.
  intros Hc. revert w. induction u as [|d u IH]; intros w; simpl.
  - by rewrite Hc.
  - destruct (f d); [|done]. by rewrite IH, map_app.
Qed.

(** The matches before a byte that the pattern does not take, and that is not
    part of a word, are those of the text that ends there. *)
Lemma ends_extend r c v p :
  avoids c r = true -> is_word c = false ->
  ends r (extend (String c v) p) = map (extend (String c v)) (ends r p).
Proof.
  intros Hr Hc. revert p Hr. induction r as [f|f|a IHa b IHb|a IHa b IHb|a IHa|]; intros [w u]; simpl.
  - rewrite negb_true_iff. intros Hf. destruct u as [|d u]; simpl; [by rewrite Hf |]. by destruct (f d).
  - rewrite negb_true_iff. apply many_ends_extend.
  - rewrite andb_true_iff. intros [Ha Hb]. rewrite IHa by done. apply flat_map_extend. intros q. by apply IHb.
  - rewrite andb_true_iff. intros [Ha Hb]. by rewrite IHa, IHb, map_app by done.
  - intros Ha. by rewrite IHa, map_app by done.
  - intros _. assert (at_boundary (extend (String c v) (w, u)) = at_boundary (w, u)) as ->.
    { unfold at_boundary. simpl. destruct u as [|d u]; simpl; [by rewrite Hc | done]. }
    by destruct (at_boundary (w, u)).
Qed.

Lemma replace_split_skip r f c w k u v :
  avoids c r = true -> is_word c = false -> (k <= String.length u)%nat ->
  replace_from r f w k (u +:+ String c v) =
    match replace_from r f w k u with
    | None => None
    | Some a => (fun b => a +:+ String c b) <$> replace_from r f false 0 v
    end.
Proof.
  intros Hr Hc. revert w k. induction u as [|d u IH]; intros w k; cbn [String.length].
  - intros Hk. assert (k = 0)%nat as -> by lia. change ("" +:+ String c v) with (String c v).
    cbn [replace_from]. unfold first_end. pose proof (ends_extend r c v (w, "") Hr Hc) as He.
    unfold extend at 1 in He. cbn [fst snd] in He. change ("" +:+ String c v) with (String c v) in He. rewrite He.
    destruct (ends r (w, "")) as [|[w' m] l] eqn:Hl; simpl; rewrite Hc; [done |].
    assert (m = "") as ->.
    { assert ((w', m) ∈ ends r (w, "")) as (x & Hx)%ends_suffix by (rewrite Hl; left).
      simpl in Hx. destruct x; [simpl in Hx; congruence | done]. }
    simpl. by rewrite Nat.ltb_irrefl.
  - intros Hk. change ((String d u) +:+ String c v) with (String d (u +:+ String c v)). cbn [replace_from].
    destruct k as [|k]; [|apply IH; lia]. unfold first_end.
    pose proof (ends_extend r c v (w, String d u) Hr Hc) as He.
    unfold extend at 1 in He. cbn [fst snd] in He.
    change ((String d u) +:+ String c v) with (String d (u +:+ String c v)) in He. rewrite He.
    destruct (ends r (w, String d u)) as [|[w' m] l] eqn:Hl; cbn [head map extend fst snd].
    + rewrite IH by lia. destruct (replace_from r f (is_word d) 0 u); [|done]. cbn [fmap option_fmap option_map].
      by destruct (replace_from r f false 0 v).
    + assert (exists x, String d u = x +:+ m) as [x Hx].
      { assert ((w', m) ∈ ends r (w, String d u)) as (x & Hx)%ends_suffix by (rewrite Hl; left). by exists x. }
      assert (String.length (String d u) = String.length x + String.length m)%nat as Hlen
        by (by rewrite Hx, string_length_app).
      assert (String d (u +:+ String c v) = x +:+ (m +:+ String c v)) as Heq.
      { rewrite <- string_app_assoc, <- Hx. done. }
      assert (matched (String d (u +:+ String c v)) (m +:+ String c v) = x) as -> by (rewrite Heq; apply matched_app).
      assert (matched (String d u) m = x) as -> by (rewrite Hx; apply matched_app).
      rewrite Heq, !string_length_app, Hlen.
      assert (forall n, (String.length m + n <? String.length x + (String.length m + n))%nat
                       = (String.length m <? String.length x + String.length m)%nat) as ->.
      { intros n. apply eq_bool_prop_intro. rewrite !Is_true_true, !Nat.ltb_lt. lia. }
      replace (String.length x + (String.length m + String.length (String c v))
               - (String.length m + String.length (String c v)) - 1)%nat
        with (String.length x + String.length m - String.length m - 1)%nat by lia.
      destruct (_ <? _)%nat.
      * destruct (f x) as [t|]; [|done]. rewrite IH by (cbn [String.length] in Hlen; lia).
        destruct (replace_from r f (is_word d) _ u); [|done]. cbn [fmap option_fmap option_map].
        destruct (replace_from r f false 0 v); cbn; [|done]. by rewrite string_app_assoc.
      * rewrite IH by lia. destruct (replace_from r f (is_word d) 0 u); [|done]. cbn [fmap option_fmap option_map].
        by destruct (replace_from r f false 0 v).
Qed.

(** Replacing is local: a byte that the pattern never takes, outside any word,
    cuts the text into two that are replaced on their own. *)
Lemma replace_split r f c u v :
  avoids c r = true -> is_word c = false ->
  ReplaceAllStringFunc r f (u +:+ String c v) =
    match ReplaceAllStringFunc r f u with
    | None => None
    | Some a => (fun b => a +:+ String c b) <$> ReplaceAllStringFunc r f v
    end.
Proof. intros Hr Hc. apply replace_split_skip; [done | done | lia]. Qed.

(** Replacing succeeds when the function does on every match. *)
Lemma replace_from_total r f w k s :
  (forall w s w' rest, first_end r (w, s) = Some (w', rest) -> exists t, f (matched s rest) = Some t) ->
  exists t, replace_from r f w k s = Some t.
Proof.
  intros Hf. revert w k. induction s as [|c s IH]; intros w k; [by exists "" |]. cbn [replace_from].
  assert (exists t, (String c <$> replace_from r f (is_word c) 0 s) = Some t) as Hpass.
  { destruct (IH (is_word c) 0%nat) as [x ->]. by eexists. }
  destruct k as [|k]; [|apply IH].
  destruct (first_end r (w, String c s)) as [[w' rest]|] eqn:He.
  - destruct (String.length rest <? String.length (String c s))%nat.
    + destruct (Hf _ _ _ _ He) as [t ->]. destruct (IH (is_word c) (String.length (String c s) - String.length rest - 1)%nat) as [x ->].
      by eexists.
    + apply Hpass.
  - apply Hpass.
Qed.

(** Replacing preserves what the function preserves on every match: here [Q] of
    the text before and after, for a [Q] that splits over concatenation. *)
Lemma replace_from_rel r f (Q : string -> string -> Prop) w s :
  Q "" "" -> (forall c s t, Q s t -> Q (String c s) (String c t)) ->
  (forall m t s s', Q m t -> Q s s' -> Q (m +:+ s) (t +:+ s')) ->
  (forall a m b, s = a +:+ m +:+ b -> forall t, f m = Some t -> Q m t) ->
  forall t, replace_from r f w 0 s = Some t -> Q s t.
Proof.
  intros Hnil Hcons Happ. revert w. remember (String.length s) as n eqn:Hn. revert s Hn.
  induction (lt_wf n) as [n _ IH]. intros s -> w Hf t. destruct s as [|c s]; [by intros [= <-] |].
  assert (forall u v, String c s = u +:+ v -> u <> "" -> forall w t, replace_from r f w 0 v = Some t -> Q v t) as Hrest.
  { intros u v Huv Hu w0 t0. apply (IH (String.length v)); [|done|].
    - rewrite Huv, string_length_app. destruct u; [done | simpl; lia].
    - intros a m b ->. apply (Hf (u +:+ a) m b). by rewrite Huv, string_app_assoc. }
  assert (forall t, (String c <$> replace_from r f (is_word c) 0 s) = Some t -> Q (String c s) t) as Hpass.
  { intros t0 (x & Hx & ->)%fmap_Some. apply Hcons. by eapply (Hrest (String c "") s). }
  cbn [replace_from]. destruct (first_end r (w, String c s)) as [[w' rest]|] eqn:He; [|by apply Hpass].
  apply first_end_suffix in He as [_ Hs]. destruct (_ <? _)%nat eqn:Hlt; [|by apply Hpass].
  set (m := matched (String c s) rest) in *. clearbody m. destruct m as [|d m].
  { exfalso. simpl in Hs. subst rest. by rewrite Nat.ltb_irrefl in Hlt. }
  destruct (f (String d m)) as [t'|] eqn:Ht; [|done]. intros (x & Hx & ->)%fmap_Some.
  rewrite Hs. apply Happ.
  - by apply (Hf "" _ rest).
  - eapply Hrest; [exact Hs | done |].
    assert (s = m +:+ rest) as Hm by (simpl in Hs; congruence).
    rewrite Hm in Hx. cbn [String.length] in Hx. rewrite string_length_app in Hx.
    replace (S (String.length m + String.length rest) - String.length rest - 1)%nat
      with (String.length m) in Hx by lia.
    rewrite replace_skip in Hx. exact Hx.
Qed.

(** What holds after each byte of a class holds wherever one to three bytes of
    it can end. *)
Lemma ends_upto3_rest f (P : string -> Prop) p q :
  (forall c s, f c = true -> P (String c s) -> P s) -> q ∈ ends (RUpTo3 f) p -> P (snd p) -> P (snd q).
Proof.
  intros Hf. assert (forall p q, q ∈ ends (RClass f) p -> P (snd p) -> P (snd q)) as Hc.
  { intros [w s] q0. simpl. destruct s as [|c s]; [by intros ?%elem_of_nil |].
    destruct (f c) eqn:E; [|by intros ?%elem_of_nil]. intros ->%list_elem_of_singleton. by apply Hf. }
  assert (forall a p q, (forall p q, q ∈ ends a p -> P (snd p) -> P (snd q)) ->
    q ∈ ends (RSeq (RClass f) (ROpt a)) p -> P (snd p) -> P (snd q)) as Hs.
  { intros a p0 q0 Ha (x & Hx & [Hq | ->%list_elem_of_singleton]%elem_of_app)%ends_seq HP; eauto. }
  apply Hs. intros p' q'. apply Hs. exact Hc.
Qed.
