(* ===== verification/GoNet.v ===== *)
(** * Addresses of Go's [net/netip] and [net]

    What s-hole uses of the two packages: addresses and prefixes, the text
    forms of an address, and the host part of a host:port string. An address
    is its number; an IPv4 address that is mapped into IPv6 is an [Addr6]. *)

From stdpp Require Import base numbers list strings.
From Stdlib Require Import Ascii ZArith Lia.
From S2P Require Import Prelude GoStrings.

Open Scope string_scope.

(** ** Addresses *)

Inductive Addr :=
  | AddrZero                          (* the zero Addr, not valid *)
  | Addr4 (a : Z)
  | Addr6 (a : Z) (zone : string).

#[export] Instance Addr_eq_dec : EqDecision Addr.
Proof. solve_decision. Defined.

(** An address whose number has the width of its family. *)
Definition addr_wf (ip : Addr) : Prop :=
  match ip with
  | AddrZero => True
  | Addr4 a => in_range 32 a
  | Addr6 a _ => in_range 128 a
  end.

Definition IsValid (ip : Addr) : bool := match ip with AddrZero => false | _ => true end.
Definition Is4 (ip : Addr) : bool := match ip with Addr4 _ => true | _ => false end.
Definition Is6 (ip : Addr) : bool := match ip with Addr6 _ _ => true | _ => false end.

Definition BitLen (ip : Addr) : Z :=
  match ip with AddrZero => 0 | Addr4 _ => 32 | Addr6 _ _ => 128 end.

Definition addr_num (ip : Addr) : Z :=
  match ip with AddrZero => 0 | Addr4 a => a | Addr6 a _ => a end.

(** The 96 bits in front of an IPv4 address that is mapped into IPv6. *)
Definition v4_mapped (a : Z) : bool := (Z.shiftr a 32 =? 65535)%Z.

Definition Unmap (ip : Addr) : Addr :=
  match ip with
  | Addr6 a _ => if v4_mapped a then Addr4 (a mod 2 ^ 32) else ip
  | _ => ip
  end.

Definition WithoutZone (ip : Addr) : Addr :=
  match ip with Addr6 a _ => Addr6 a "" | _ => ip end.

Definition hasZone (ip : Addr) : bool :=
  match ip with Addr6 _ z => negb (z =? "")%string | _ => false end.

(** [a >> (len - bits) == b >> (len - bits)]: the first [bits] bits agree. *)
Definition top_bits (len a bits : Z) : Z := Z.shiftr a (len - bits).

Definition same_top (len a b bits : Z) : bool := (top_bits len a bits =? top_bits len b bits)%Z.

(** ** Prefixes *)

Record Prefix := mkPrefix { p_addr : Addr; p_bits : Z }.

#[export] Instance Prefix_eq_dec : EqDecision Prefix.
Proof. solve_decision. Defined.

Definition prefix_valid (p : Prefix) : bool :=
  IsValid (p_addr p) && (0 <=? p_bits p)%Z && (p_bits p <=? BitLen (p_addr p))%Z.

(** [PrefixFrom]: the zone is dropped; bits out of range give an invalid
    prefix. *)
Definition PrefixFrom (ip : Addr) (bits : Z) : Prefix :=
  mkPrefix (WithoutZone ip)
    (if (0 <=? bits)%Z && (bits <=? BitLen ip)%Z && IsValid ip then bits else (-1)%Z).

(** [ip.Prefix(bits)]: the host bits are cleared. [None] is an error. *)
Definition mask_bits (len a bits : Z) : Z := Z.shiftl (top_bits len a bits) (len - bits).

Definition addr_Prefix (ip : Addr) (bits : Z) : option Prefix :=
  if (bits <? 0)%Z then None
  else match ip with
  | AddrZero => Some (mkPrefix AddrZero (-1))
  | Addr4 a => if (32 <? bits)%Z then None
               else Some (mkPrefix (Addr4 (mask_bits 32 a bits)) bits)
  | Addr6 a _ => if (128 <? bits)%Z then None
                 else Some (mkPrefix (Addr6 (mask_bits 128 a bits) "") bits)
  end.

Definition prefix_Contains (p : Prefix) (ip : Addr) : bool :=
  prefix_valid p && negb (hasZone ip) &&
  match p_addr p, ip with
  | Addr4 a, Addr4 b => same_top 32 a b (p_bits p)
  | Addr6 a _, Addr6 b _ => same_top 128 a b (p_bits p)
  | _, _ => false
  end.

(** ** Kinds of addresses, for one that is not mapped *)

Definition IsLoopback (ip : Addr) : bool :=
  match ip with
  | Addr4 a => (Z.shiftr a 24 =? 127)%Z
  | Addr6 a _ => (a =? 1)%Z
  | AddrZero => false
  end.

Definition IsMulticast (ip : Addr) : bool :=
  match ip with
  | Addr4 a => (Z.shiftr a 28 =? 14)%Z
  | Addr6 a _ => (Z.shiftr a 120 =? 255)%Z
  | AddrZero => false
  end.

Definition IsLinkLocalUnicast (ip : Addr) : bool :=
  match ip with
  | Addr4 a => (Z.shiftr a 16 =? 43518)%Z
  | Addr6 a _ => (Z.shiftr a 118 =? 1018)%Z
  | AddrZero => false
  end.

Definition IsPrivate (ip : Addr) : bool :=
  match ip with
  | Addr4 a => (Z.shiftr a 24 =? 10)%Z || (Z.shiftr a 20 =? 2753)%Z || (Z.shiftr a 16 =? 49320)%Z
  | Addr6 a _ => (Z.shiftr a 121 =? 126)%Z
  | AddrZero => false
  end.

Definition IsGlobalUnicast (ip : Addr) : bool :=
  match ip with
  | AddrZero => false
  | Addr4 a =>
      negb ((a =? 0)%Z || (a =? 4294967295)%Z)
      && negb (IsLoopback ip) && negb (IsMulticast ip) && negb (IsLinkLocalUnicast ip)
  | Addr6 a z =>
      negb ((a =? 0)%Z && (z =? "")%string)
      && negb (IsLoopback ip) && negb (IsMulticast ip) && negb (IsLinkLocalUnicast ip)
  end.

(** ** The text of an address *)

Definition hex_char (n : Z) : ascii :=
  ascii_of_N (Z.to_N (if (n <? 10)%Z then 48 + n else 87 + n)).

(** The value of a hex digit, in either case. *)
Definition hex_val (c : ascii) : option Z :=
  let n := Z.of_N (byte_val c) in
  if is_digit c then Some (n - 48)%Z
  else if in_byte_range "a" "f" c then Some (n - 87)%Z
  else if in_byte_range "A" "F" c then Some (n - 55)%Z
  else None.

(** A 16-bit group without leading zeros. *)
Fixpoint hex_fuel (fuel : nat) (n : Z) (acc : string) : string :=
  let acc' := String (hex_char (n mod 16)) acc in
  match fuel with
  | O => acc'
  | S fuel' => if (n <? 16)%Z then acc' else hex_fuel fuel' (n / 16) acc'
  end.

Definition hex16 (n : Z) : string := hex_fuel 3 n "".

Definition octet (a i : Z) : Z := Z.shiftr a (8 * i) mod 256.

Definition itoaZ (n : Z) : string := itoa (Z.to_N n).

Definition string4 (a : Z) : string :=
  itoaZ (octet a 3) +:+ "." +:+ itoaZ (octet a 2) +:+ "." +:+ itoaZ (octet a 1) +:+ "."
    +:+ itoaZ (octet a 0).

Definition group16 (a i : Z) : Z := Z.shiftr a (16 * (7 - i)) mod 65536.

Definition groups (a : Z) : list Z := map (group16 a) [0; 1; 2; 3; 4; 5; 6; 7]%Z.

(** The number of zero groups at the front. *)
Fixpoint zero_run (l : list Z) : nat :=
  match l with 0%Z :: l' => S (zero_run l') | _ => O end.

(** The first longest run of two zero groups or more: its start and length. *)
Fixpoint longest_run (i : nat) (l : list Z) (best : nat * nat) : nat * nat :=
  match l with
  | [] => best
  | _ :: l' =>
      let n := zero_run l in
      longest_run (S i) l' (if (1 <? n)%nat && (snd best <? n)%nat then (i, n) else best)
  end.

Definition string6 (a : Z) : string :=
  let gs := groups a in
  let '(start, n) := longest_run 0 gs (0, 0)%nat in
  if (n =? 0)%nat then join ":" (map hex16 gs)
  else join ":" (map hex16 (take start gs)) +:+ "::" +:+ join ":" (map hex16 (drop (start + n) gs)).

Definition addr_String (ip : Addr) : string :=
  match ip with
  | AddrZero => "invalid IP"
  | Addr4 a => string4 a
  | Addr6 a z =>
      (if v4_mapped a then "::ffff:" +:+ string4 (a mod 2 ^ 32) else string6 a)
        +:+ (if (z =? "")%string then "" else "%" +:+ z)
  end.

(** ** Reading an address *)

(** One decimal field of a dotted address: no leading zero, at most 255. *)
Definition parse_octet (s : string) : option Z :=
  if (s =? "")%string || negb (string_forallb is_digit s) then None
  else if has_prefix "0" s && negb (s =? "0")%string then None
  else if (3 <? slen s)%Z then None
  else let v := Z.of_N (atoi_acc 0 s) in if (255 <? v)%Z then None else Some v.

Definition parse_ipv4 (s : string) : option Z :=
  match map parse_octet (split_byte dot s) with
  | [Some a; Some b; Some c; Some d] => Some (((a * 256 + b) * 256 + c) * 256 + d)%Z
  | _ => None
  end.

(** The leading hex digits of [s], at most four: their value, their number and
    the rest. *)
Fixpoint scan_hex (s : string) (acc : Z) (n : nat) : option (Z * nat * string) :=
  match s with
  | "" => Some (acc, n, "")
  | String c s' =>
      match hex_val c with
      | Some v => if (3 <? n)%nat then None else scan_hex s' (acc * 16 + v)%Z (S n)
      | None => Some (acc, n, s)
      end
  end.

(** The loop of the IPv6 parser: the groups so far, where the [::] was, and
    what is left. [fuel] is the number of groups that still fit. *)
Fixpoint parse6_loop (fuel : nat) (s : string) (gs : list Z) (ellipsis : option nat)
    : option (list Z * option nat * string) :=
  match fuel with
  | O => Some (gs, ellipsis, s)
  | S fuel' =>
      match scan_hex s 0 0 with
      | None => None
      | Some (_, O, _) => None
      | Some (acc, _, rest) =>
          if has_prefix "." rest then
            if match ellipsis with None => negb (length gs =? 6)%nat | Some _ => false end then None
            else if (6 <? length gs)%nat then None
            else match parse_ipv4 s with
                 | None => None
                 | Some v => Some ((gs ++ [v / 65536; v mod 65536]%Z)%list, ellipsis, "")
                 end
          else
            let gs := (gs ++ [acc])%list in
            match rest with
            | "" => Some (gs, ellipsis, "")
            | String c rest' =>
                if negb (Ascii.eqb c ":"%char) || (rest' =? "")%string then None
                else match rest' with
                | String c' rest'' =>
                    if Ascii.eqb c' ":"%char then
                      match ellipsis with
                      | Some _ => None
                      | None =>
                          if (rest'' =? "")%string then Some (gs, Some (length gs), "")
                          else parse6_loop fuel' rest'' gs (Some (length gs))
                      end
                    else parse6_loop fuel' rest' gs ellipsis
                | "" => None
                end
            end
      end
  end.

Definition groups_num (gs : list Z) : Z := fold_left (fun acc g => acc * 65536 + g)%Z gs 0%Z.

Definition expand6 (gs : list Z) (ellipsis : option nat) : option Z :=
  match ellipsis with
  | None => if (length gs =? 8)%nat then Some (groups_num gs) else None
  | Some e =>
      if (length gs <? 8)%nat
      then Some (groups_num (take e gs ++ replicate (8 - length gs) 0%Z ++ drop e gs)%list)
      else None
  end.

Definition parse_ipv6 (s0 : string) : option Addr :=
  let '(s, zone, bad) := match cut_byte "%"%char s0 with
                         | None => (s0, "", false)
                         | Some (s, zone) => (s, zone, (zone =? "")%string)
                         end in
  if bad then None
  else
    let '(s, ellipsis) := if has_prefix "::" s then (drop_bytes 2 s, Some 0%nat) else (s, None) in
    if (s =? "")%string && bool_decide (ellipsis = Some 0%nat) then Some (Addr6 0 zone)
    else match parse6_loop 8 s [] ellipsis with
    | Some (gs, e, "") => (fun a => Addr6 a zone) <$> expand6 gs e
    | _ => None
    end.

(** The first of [.], [:] and [%] decides the family. *)
Fixpoint first_mark (s : string) : option ascii :=
  match s with
  | "" => None
  | String c s' =>
      if Ascii.eqb c dot || Ascii.eqb c ":"%char || Ascii.eqb c "%"%char then Some c
      else first_mark s'
  end.

Definition ParseAddr (s : string) : option Addr :=
  match first_mark s with
  | Some c => if Ascii.eqb c dot then Addr4 <$> parse_ipv4 s
              else if Ascii.eqb c ":"%char then parse_ipv6 s else None
  | None => None
  end.

(** [net.ParseIP]: no zone. *)
Definition ParseIP (s : string) : option Addr :=
  match ParseAddr s with
  | Some ip => if hasZone ip then None else Some ip
  | None => None
  end.

(** [net.ParseCIDR]: the address and the length of its prefix. *)
Definition ParseCIDR (s : string) : option (Addr * Z) :=
  match cut_byte "/"%char s with
  | None => None
  | Some (addr, mask) =>
      match ParseAddr addr with
      | None => None
      | Some ip =>
          if hasZone ip || (mask =? "")%string || negb (string_forallb is_digit mask) then None
          else
            let n := Z.of_N (atoi_acc 0 mask) in
            if (BitLen ip <? n)%Z then None else Some (ip, n)
      end
  end.

(** ** Host and port *)

(** The two sides of the last [c]. *)
Fixpoint cut_last (c : ascii) (s : string) : option (string * string) :=
  match s with
  | "" => None
  | String a s' =>
      match cut_last c s' with
      | Some (u, v) => Some (String a u, v)
      | None => if Ascii.eqb a c then Some ("", s') else None
      end
  end.

Definition has_byte (c : ascii) (s : string) : bool :=
  match cut_byte c s with Some _ => true | None => false end.

(** [net.SplitHostPort]: the host and the port, [None] for an error. *)
Definition SplitHostPort (hostport : string) : option (string * string) :=
  match cut_last ":"%char hostport with
  | None => None
  | Some (front, port) =>
      if has_prefix "[" hostport then
        match cut_byte "]"%char (drop_bytes 1 hostport) with
        | None => None
        | Some (host, after) =>
            if negb (String.length host + 2 =? String.length front)%nat then None
            else if has_byte "["%char (host +:+ "]" +:+ after) || has_byte "]"%char after
            then None else Some (host, port)
        end
      else
        if has_byte ":"%char front || has_byte "["%char hostport || has_byte "]"%char hostport
        then None else Some (front, port)
  end.

(** ** Examples *)

Example string6_run : addr_String (Addr6 (2 ^ 112 * 8193 + 2 ^ 96 * 3512 + 1) "") = "2001:db8::1".
Proof. vm_compute. reflexivity. Qed.

Example string6_all_zero : addr_String (Addr6 0 "") = "::".
Proof. vm_compute. reflexivity. Qed.

Example parse_forms :
  map ParseAddr ["192.168.1.1"; "2001:db8::1"; "::ffff:1.2.3.4"; "fe80::1%eth0"; "01.2.3.4"; "1::2::3"]
  = [Some (Addr4 3232235777); Some (Addr6 (2 ^ 112 * 8193 + 2 ^ 96 * 3512 + 1) "");
     Some (Addr6 (65535 * 2 ^ 32 + 16909060) ""); Some (Addr6 (65152 * 2 ^ 112 + 1) "eth0"); None; None].
Proof. vm_compute. reflexivity. Qed.

Example split_forms :
  map SplitHostPort ["1.1.1.1:53"; "[::1]:53"; "::1:53"; "[::1]"]
  = [Some ("1.1.1.1", "53"); Some ("::1", "53"); None; None].
Proof. vm_compute. reflexivity. Qed.

(** ** Prefixes *)

Lemma top_bits_top len a bits bits' :
  (0 <= bits' <= bits)%Z -> (bits <= len)%Z ->
  top_bits len a bits' = Z.shiftr (top_bits len a bits) (bits - bits').
Proof. intros Hb Hl. unfold top_bits. rewrite Z.shiftr_shiftr by lia. f_equal. lia. Qed.

Lemma same_top_mono len a b bits bits' :
  (0 <= bits' <= bits)%Z -> (bits <= len)%Z ->
  same_top len a b bits = true -> same_top len a b bits' = true.
Proof.
  unfold same_top. rewrite !Z.eqb_eq. intros Hb Hl Heq.
  rewrite (top_bits_top len a bits bits'), (top_bits_top len b bits bits') by lia. by rewrite Heq.
Qed.

Lemma same_top_trans len a b c bits :
  same_top len a b bits = true -> same_top len b c bits = true -> same_top len a c bits = true.
Proof. unfold same_top. rewrite !Z.eqb_eq. congruence. Qed.

Lemma same_top_sym len a b bits : same_top len a b bits = same_top len b a bits.
Proof. unfold same_top. apply Z.eqb_sym. Qed.

(** A prefix inside a shorter one covers only addresses of the shorter one. *)
Lemma prefix_Contains_trans r p ip :
  prefix_Contains r (p_addr p) = true -> (p_bits r <= p_bits p)%Z ->
  prefix_Contains p ip = true -> prefix_Contains r ip = true.
Proof.
  unfold prefix_Contains. rewrite !andb_true_iff.
  intros [[Hr Hz] Ha] Hle [[Hp Hz'] Hb]. split_and!; [done | done |].
  unfold prefix_valid in *. breflect.
  destruct (p_addr r) as [|a|a z], (p_addr p) as [|b|b z'], ip as [|c|c z''];
    simpl in *; try done.
  - eapply same_top_trans; [done |]. eapply same_top_mono; [| |done]; lia.
  - eapply same_top_trans; [done |]. eapply same_top_mono; [| |done]; lia.
Qed.

(** The masked form of an address has the same first bits. *)
Lemma top_bits_mask len a bits :
  (0 <= bits <= len)%Z -> top_bits len (mask_bits len a bits) bits = top_bits len a bits.
Proof.
  intros Hb. unfold mask_bits, top_bits. rewrite Z.shiftr_shiftl_l by lia.
  replace (len - bits - (len - bits))%Z with 0%Z by lia. apply Z.shiftl_0_r.
Qed.

(** ** Dotted addresses *)

(** Facts about every byte value, by computation. *)
Lemma octet_ind (f : Z -> bool) :
  forallb f (map Z.of_nat (seq 0 256)) = true -> forall o, (0 <= o < 256)%Z -> f o = true.
Proof.
  intros Hf o Ho. rewrite forallb_elem in Hf. apply Hf.
  apply list_elem_of_fmap. exists (Z.to_nat o). rewrite Z2Nat.id by lia. split; [done |].
  apply elem_of_seq. lia.
Qed.

Lemma parse_octet_itoa o : (0 <= o < 256)%Z -> parse_octet (itoaZ o) = Some o.
Proof.
  intros Ho. apply (octet_ind (fun o => bool_decide (parse_octet (itoaZ o) = Some o))) in Ho.
  - by apply bool_decide_eq_true in Ho.
  - vm_compute. reflexivity.
Qed.

Lemma octet_range a i : (0 <= octet a i < 256)%Z.
Proof. apply Z.mod_pos_bound. lia. Qed.

Lemma octets_sum a :
  in_range 32 a ->
  (((octet a 3 * 256 + octet a 2) * 256 + octet a 1) * 256 + octet a 0)%Z = a.
Proof.
  unfold in_range, octet. intros Ha. rewrite !Z.shiftr_div_pow2 by lia.
  change (2 ^ (8 * 3))%Z with 16777216%Z. change (2 ^ (8 * 2))%Z with 65536%Z.
  change (2 ^ (8 * 1))%Z with 256%Z. change (2 ^ (8 * 0))%Z with 1%Z.
  change (2 ^ 32)%Z with 4294967296%Z in Ha. Z.to_euclidean_division_equations. lia.
Qed.

Lemma dot_app x : "." +:+ x = String dot x.
Proof. done. Qed.

Lemma itoaZ_no_dot n : no_byte dot (itoaZ n).
Proof. by apply itoa_no_byte. Qed.

Lemma split_byte_cut c u v :
  no_byte c u -> split_byte c (u +:+ String c v) = u :: split_byte c v.
Proof.
  induction u as [|a u IH]; simpl; intros Hu.
  - by rewrite Ascii.eqb_refl.
  - apply no_byte_cons in Hu as [Ha Hu]. apply Ascii.eqb_neq in Ha as ->. by rewrite IH.
Qed.

Lemma split_byte_none c s : no_byte c s -> split_byte c s = [s].
Proof.
  induction s as [|a s IH]; simpl; intros Hs; [done |].
  apply no_byte_cons in Hs as [Ha Hs]. apply Ascii.eqb_neq in Ha as ->. by rewrite IH.
Qed.

(** Reading the dotted form of an address gives the address back. *)
Lemma parse_string4 a : in_range 32 a -> parse_ipv4 (string4 a) = Some a.
Proof.
  intros Ha. unfold parse_ipv4, string4.
  rewrite !dot_app, !split_byte_cut by apply itoaZ_no_dot.
  rewrite split_byte_none by apply itoaZ_no_dot.
  cbn [map]. rewrite !parse_octet_itoa by apply octet_range.
  f_equal. by apply octets_sum.
Qed.

Lemma first_mark_digits s t :
  string_forallb is_digit s = true -> first_mark (s +:+ String dot t) = Some dot.
Proof.
  induction s as [|c s IH]; cbn [String.append first_mark string_forallb]; [done |].
  rewrite andb_true_iff. intros [Hc Hs].
  assert (Ascii.eqb c dot || Ascii.eqb c ":"%char || Ascii.eqb c "%"%char = false) as ->;
    [|by apply IH].
  destruct (Ascii.eqb_spec c dot) as [->|]; [done |].
  destruct (Ascii.eqb_spec c ":"%char) as [->|]; [done |].
  by destruct (Ascii.eqb_spec c "%"%char) as [->|].
Qed.

Lemma ParseAddr_string4 a : in_range 32 a -> ParseAddr (string4 a) = Some (Addr4 a).
Proof.
  intros Ha. unfold ParseAddr.
  assert (first_mark (string4 a) = Some dot) as ->.
  { unfold string4. rewrite !dot_app. apply first_mark_digits, itoa_digits. }
  rewrite Ascii.eqb_refl. by rewrite parse_string4.
Qed.

(** ** Cutting at the last byte *)

Lemma cut_last_none c s : no_byte c s -> cut_last c s = None.
Proof.
  induction s as [|a s IH]; [done |]. rewrite no_byte_cons. intros [Ha Hs]. cbn [cut_last]. rewrite IH by done.
  by apply Ascii.eqb_neq in Ha as ->.
Qed.

Lemma cut_last_app c u v : no_byte c v -> cut_last c (u +:+ String c v) = Some (u, v).
Proof.
  intros Hv. induction u as [|a u IH]; cbn [String.append cut_last].
  - by rewrite cut_last_none, Ascii.eqb_refl.
  - by rewrite IH.
Qed.

Lemma cut_last_Some c s u v : cut_last c s = Some (u, v) -> s = u +:+ String c v /\ no_byte c v.
Proof.
  revert u v. induction s as [| a s IH]; intros u v; simpl; [done |].
  destruct (cut_last c s) as [[u' v'] |] eqn:E.
  - intros [= <- <-]. destruct (IH _ _ eq_refl) as [-> Hn]. done.
  - destruct (Ascii.eqb_spec a c) as [-> |]; [| done]. intros [= <- <-]. split; [done |].
    clear IH. intros (x & y & ->). induction x as [| b x IHx]; simpl in E.
    + destruct (cut_last c y) as [[? ?] |]; [done |]. by rewrite Ascii.eqb_refl in E.
    + destruct (cut_last c (x +:+ String c y)) as [[? ?] |] eqn:E2; [done |]. by apply IHx.
Qed.

Lemma cut_last_None c s : cut_last c s = None -> no_byte c s.
Proof.
  intros E (x & y & ->). induction x as [| b x IHx]; simpl in E.
  - destruct (cut_last c y) as [[? ?] |]; [done |]. by rewrite Ascii.eqb_refl in E.
  - destruct (cut_last c (x +:+ String c y)) as [[? ?] |] eqn:E2; [done |]. by apply IHx.
Qed.
