(* ===== verification/Lan.v ===== *)
(** * The LAN check (internal/dnsserver/lan.go)

    [lanACL] admits a source that is in a range that is local by definition or
    in a subnet of an interface of the host. A read of the interface addresses
    (the field [addrs]) is an argument of the operations that may do one: the
    addresses, or an error. The mutex makes a refresh one step. The operations
    return the new state; the warnings they log are not modelled. *)

From stdpp Require Import base numbers list sets strings.
From Stdlib Require Import Ascii ZArith Lia.
From S2P Require Import Prelude GoStrings GoNet Dns.

Open Scope string_scope.

(** ** State *)

Definition v4 (a b c d : Z) : Addr := Addr4 (((a * 256 + b) * 256 + c) * 256 + d).

Definition lanRanges : list Prefix :=
  [ mkPrefix (v4 127 0 0 0) 8;
    mkPrefix (Addr6 1 "") 128;
    mkPrefix (v4 10 0 0 0) 8;
    mkPrefix (v4 172 16 0 0) 12;
    mkPrefix (v4 192 168 0 0) 16;
    mkPrefix (v4 169 254 0 0) 16;
    mkPrefix (Addr6 (252 * 2 ^ 120) "") 7;
    mkPrefix (Addr6 (65152 * 2 ^ 112) "") 10 ].

Definition lanRefreshInterval : Z := (30 * second)%Z.
Definition readFailWarnInterval : Z := hour.

Record lanACL := mkACL {
  onLink : option (list Prefix);
  refreshed : option Z;
  readFailWarned : option Z;
  notAdmitted : list Prefix;
}.

(** An address of [net.InterfaceAddrs]: an [IPNet] with its IP (as
    [AddrFromSlice] reads it) and the length of its mask, or another type. *)
Inductive IfAddr :=
  | IfNet (ip : option Addr) (bits : Z)
  | IfOther.

Definition read_result : Type := list IfAddr + string.

(** ** Refreshing the interface subnets *)

Definition inLANRanges (p : Prefix) : bool :=
  existsb (fun r => (p_bits r <=? p_bits p)%Z && prefix_Contains r (p_addr p)) lanRanges.

(** The subnet that one interface address stands for. *)
Definition if_prefix (ad : IfAddr) : option Prefix :=
  match ad with
  | IfNet (Some ip) bits =>
      let ip := Unmap ip in
      let bits := if Is4 ip && (32 <? bits)%Z then (bits - 96)%Z else bits in
      let bits := if Is6 ip && IsGlobalUnicast ip && (64 <? bits)%Z then 64%Z else bits in
      addr_Prefix ip bits
  | _ => None
  end.

(** One iteration of the loop of [refresh]: the subnets that count, and the
    IPv4 ones that do not. *)
Definition if_step (acc : list Prefix * list Prefix) (ad : IfAddr) : list Prefix * list Prefix :=
  let '(out, refused) := acc in
  match if_prefix ad with
  | None => (out, refused)
  | Some p =>
      if Is4 (p_addr p) && negb (inLANRanges p)
      then (out, if bool_decide (p ∈ refused) then refused else (refused ++ [p])%list)
      else ((out ++ [p])%list, refused)
  end.

(** [refreshed] unset, or long enough ago, for another read. *)
Definition due (last : option Z) (now interval : Z) : bool :=
  match last with None => true | Some t => negb (time_sub now t <? interval)%Z end.

Definition refresh (a : lanACL) (now : Z) (addrs : read_result) : lanACL :=
  if negb (due (refreshed a) now lanRefreshInterval) then a
  else match addrs with
  | inr _ =>
      mkACL (onLink a) (Some now)
        (if due (readFailWarned a) now readFailWarnInterval then Some now else readFailWarned a)
        (notAdmitted a)
  | inl l =>
      let '(out, refused) := fold_left if_step l ([], []) in
      mkACL (Some out) (Some now) (readFailWarned a) refused
  end.

Definition newLANACL (now : Z) (addrs : read_result) : lanACL :=
  refresh (mkACL None None None []) now addrs.

(** ** The checks *)

Definition acl_contains (a : lanACL) (ip : Addr) : bool :=
  existsb (fun p => prefix_Contains p ip) lanRanges ||
  match onLink a with
  | Some l => existsb (fun pr => prefix_Contains pr ip) l
  | None => false
  end.

Definition allows (a : lanACL) (ip : Addr) (now : Z) (addrs : read_result) : bool * lanACL :=
  let ip := WithoutZone (Unmap ip) in
  if acl_contains a ip then (true, a)
  else let a := refresh a now addrs in (acl_contains a ip, a).

Definition underGlobalV6 (a : lanACL) (p : Prefix) : bool :=
  match onLink a with
  | None => false
  | Some links =>
      existsb (fun l =>
        let ip := p_addr l in
        Is6 ip && IsGlobalUnicast ip && negb (IsPrivate ip)
        && (p_bits l <=? p_bits p)%Z && prefix_Contains l (p_addr p)) links
  end.

Definition ownGlobalV6 (a : lanACL) (p : Prefix) (now : Z) (addrs : read_result)
    : bool * lanACL :=
  if underGlobalV6 a p then (true, a)
  else let a := refresh a now addrs in (underGlobalV6 a p, a).

(** ** The source of a query *)

(** [RemoteAddr] of the transport: a UDP or TCP address with its IP as
    [AddrFromSlice] reads it, nothing, or another type as [ParseAddrPort]
    reads its text. *)
Inductive RemoteAddr :=
  | UDPAddr (ip : option Addr)
  | TCPAddr (ip : option Addr)
  | NoRemote
  | OtherAddr (ip : option Addr).

Definition remoteIP (w : RemoteAddr) : Addr :=
  match w with
  | UDPAddr (Some ip) => ip
  | TCPAddr (Some ip) => ip
  | OtherAddr (Some ip) => ip
  | _ => AddrZero
  end.

(** [refuse]: the reply to a query from outside the LAN; the counter of
    refused queries goes up by one. *)
Definition refuse `{MiekgDNS} (refusedQueries : Z) (req : Msg) : Z * Msg :=
  (wrap 64 (refusedQueries + 1), set_rcode req RcodeRefused).

(** ** Runs *)

Inductive acl_op :=
  | AclRefresh (now : Z) (addrs : read_result)
  | AclAllows (ip : Addr) (now : Z) (addrs : read_result)
  | AclOwn (p : Prefix) (now : Z) (addrs : read_result).

Definition acl_step (a : lanACL) (op : acl_op) : lanACL :=
  match op with
  | AclRefresh now addrs => refresh a now addrs
  | AclAllows ip now addrs => snd (allows a ip now addrs)
  | AclOwn p now addrs => snd (ownGlobalV6 a p now addrs)
  end.

Definition acl_run (a : lanACL) (ops : list acl_op) : lanACL := fold_left acl_step ops a.

Definition op_addrs (op : acl_op) : list IfAddr :=
  match op with
  | AclRefresh _ (inl l) | AclAllows _ _ (inl l) | AclOwn _ _ (inl l) => l
  | _ => []
  end.

(** ** What is admitted *)

(** A range that is local by definition. *)
Definition local_range (ip : Addr) : Prop := exists r, r ∈ lanRanges /\ prefix_Contains r ip = true.

(** A subnet that stands for an address of [seen]; an IPv4 one is inside a
    local range. *)
Definition good_link (seen : list IfAddr) (p : Prefix) : Prop :=
  (exists ad, ad ∈ seen /\ if_prefix ad = Some p) /\
  (Is4 (p_addr p) = true -> inLANRanges p = true).

Definition acl_inv (seen : list IfAddr) (a : lanACL) : Prop :=
  forall l, onLink a = Some l -> Forall (good_link seen) l.

Lemma good_link_mono seen seen' p : seen ⊆ seen' -> good_link seen p -> good_link seen' p.
Proof. intros Hs [(ad & Hin & Hp) H4]. split; [exists ad; auto | done]. Qed.

Lemma if_steps_good seen l out refused :
  l ⊆ seen -> Forall (good_link seen) out ->
  Forall (good_link seen) (fst (fold_left if_step l (out, refused))).
Proof.
  revert out refused. induction l as [|ad l IH]; intros out refused Hl Hout; [done |].
  cbn [fold_left]. assert (l ⊆ seen) as Hl' by set_solver.
  unfold if_step at 2. destruct (if_prefix ad) as [p|] eqn:Hp; [|by apply IH].
  destruct (Is4 (p_addr p) && negb (inLANRanges p)) eqn:H4; apply IH; try done.
  apply Forall_app. split; [done |]. constructor; [|done]. split.
  - exists ad. split; [set_solver | done].
  - intros His4. rewrite His4 in H4. simpl in H4. by apply negb_false_iff in H4.
Qed.

Lemma refresh_inv seen a now addrs :
  match addrs with inl l => l ⊆ seen | inr _ => True end ->
  acl_inv seen a -> acl_inv seen (refresh a now addrs).
Proof.
  intros Hs Ha. unfold refresh. destruct (due (refreshed a) now lanRefreshInterval); [|done].
  simpl. destruct addrs as [l|e]; [|done].
  pose proof (if_steps_good seen l [] [] Hs (Forall_nil_2 _)) as Hg.
  destruct (fold_left if_step l ([], [])) as [out refused]. intros l' [= <-]. done.
Qed.

Lemma acl_run_inv seen a ops :
  (forall op, op ∈ ops -> op_addrs op ⊆ seen) -> acl_inv seen a -> acl_inv seen (acl_run a ops).
Proof.
  unfold acl_run. revert a. induction ops as [|op ops IH]; intros a Hops Ha; [done |].
  cbn [fold_left]. apply IH; [set_solver |].
  assert (op_addrs op ⊆ seen) as Hop by set_solver.
  assert (forall now addrs, op_addrs op = match addrs with inl l => l | inr _ => [] end ->
            acl_inv seen (refresh a now addrs)) as Hr.
  { intros now addrs Ho. apply refresh_inv; [|done]. rewrite Ho in Hop. by destruct addrs. }
  destruct op as [now ad|ip now ad|p now ad]; simpl.
  - apply Hr. by destruct ad.
  - unfold allows. case_match; simpl; [done |]. apply Hr. by destruct ad.
  - unfold ownGlobalV6. case_match; simpl; [done |]. apply Hr. by destruct ad.
Qed.

Lemma acl_contains_local seen a ip :
  acl_inv seen a -> acl_contains a ip = true ->
  local_range ip \/
  (Is6 ip = true /\ exists ad p, ad ∈ seen /\ if_prefix ad = Some p /\ prefix_Contains p ip = true).
Proof.
  intros Ha. unfold acl_contains. rewrite orb_true_iff, existsb_elem.
  intros [(r & Hr & Hc)|Hc]; [by left; exists r |].
  destruct (onLink a) as [l|] eqn:Hl; [|done]. apply existsb_elem in Hc as (p & Hp & Hc).
  specialize (Ha l Hl). rewrite Forall_forall in Ha.
  destruct (Ha p Hp) as [(ad & Hin & Had) H4].
  destruct (Is4 (p_addr p)) eqn:E4.
  - left. specialize (H4 eq_refl). unfold inLANRanges in H4.
    apply existsb_elem in H4 as (r & Hr & Hrp). breflect.
    exists r. split; [done |]. by eapply prefix_Contains_trans.
  - right. split; [|by exists ad, p].
    unfold prefix_Contains in Hc. breflect. by destruct (p_addr p), ip.
Qed.

(** The interface addresses that a run has read. *)
Definition run_addrs (addrs : read_result) (ops : list acl_op) : list IfAddr :=
  ((match addrs with inl l => l | inr _ => [] end) ++ concat (map op_addrs ops))%list.

Lemma run_state_inv t0 addrs0 ops :
  acl_inv (run_addrs addrs0 ops) (acl_run (newLANACL t0 addrs0) ops).
Proof.
  unfold run_addrs. apply acl_run_inv.
  - intros op Hop x Hx. apply elem_of_app. right. apply list_elem_of_In, in_concat.
    exists (op_addrs op). split; [by apply in_map, list_elem_of_In | by apply list_elem_of_In].
  - apply refresh_inv; [destruct addrs0; set_solver | done].
Qed.

Lemma allows_inv seen a ip now addrs :
  acl_inv seen a ->
  acl_inv (seen ++ (match addrs with inl l => l | inr _ => [] end))%list (snd (allows a ip now addrs)) /\
  (fst (allows a ip now addrs) = true ->
   acl_contains (snd (allows a ip now addrs)) (WithoutZone (Unmap ip)) = true).
Proof.
  intros Ha. assert (acl_inv (seen ++ (match addrs with inl l => l | inr _ => [] end))%list a) as Ha'.
  { intros l Hl. eapply Forall_impl; [by apply Ha |]. simpl. intros p.
    apply good_link_mono. set_solver. }
  unfold allows. destruct (acl_contains a (WithoutZone (Unmap ip))) eqn:Hc; simpl; [done |].
  split; [|done]. apply refresh_inv; [destruct addrs; set_solver | done].
Qed.

(** The IPv4 ranges that are local, written out. *)
Definition local_v4 (a : Z) : Prop :=
  (Z.shiftr a 24 = 127 \/ Z.shiftr a 24 = 10 \/ Z.shiftr a 20 = 172 * 16 + 1 \/
   Z.shiftr a 16 = 192 * 256 + 168 \/ Z.shiftr a 16 = 169 * 256 + 254)%Z.

Lemma contains4 n bits a q :
  (0 <=? bits)%Z && (bits <=? 32)%Z = true -> Z.shiftr n (32 - bits) = q ->
  prefix_Contains (mkPrefix (Addr4 n) bits) (Addr4 a) = true <-> Z.shiftr a (32 - bits) = q.
Proof.
  intros Hb <-. unfold prefix_Contains, prefix_valid. simpl. rewrite Hb. simpl.
  unfold same_top, top_bits. rewrite Z.eqb_eq. split; congruence.
Qed.

Lemma local_range_v4 a : local_range (Addr4 a) <-> local_v4 a.
Proof.
  unfold local_range, local_v4. rewrite <- existsb_elem. unfold lanRanges, v4. cbn [existsb].
  rewrite !orb_true_iff.
  rewrite (contains4 _ 8 a 127), (contains4 _ 8 a 10), (contains4 _ 12 a (172 * 16 + 1)),
    (contains4 _ 16 a (192 * 256 + 168)), (contains4 _ 16 a (169 * 256 + 254)) by reflexivity.
  change (prefix_Contains (mkPrefix (Addr6 ?n "") ?b) (Addr4 a)) with false.
  change (32 - 8)%Z with 24%Z. change (32 - 12)%Z with 20%Z. change (32 - 16)%Z with 16%Z.
  assert (false = true <-> False) as -> by (split; done). tauto.
Qed.

Lemma global_bits ip b p :
  Is6 ip = true ->
  addr_Prefix ip (if true && true && (64 <? (if Is4 ip && (32 <? b) then b - 96 else b))%Z
                  then 64 else (if Is4 ip && (32 <? b) then b - 96 else b))%Z = Some p ->
  (p_bits p <= 64)%Z.
Proof.
  intros H6. destruct ip as [|a|a z]; [done | done |]. simpl.
  destruct (Z.ltb_spec 64 b); unfold addr_Prefix; simpl; [by intros [= <-] |].
  repeat case_match; intros; simplify_eq/=; lia.
Qed.

Section admits.
Context (t0 : Z) (addrs0 : read_result) (ops : list acl_op).

Let acl := acl_run (newLANACL t0 addrs0) ops.

(** C24. Whatever interface addresses the host has had and however queries
    and refreshes follow each other, an IPv4 source (also one mapped into
    IPv6) is admitted exactly when it is in 127/8, 10/8, 172.16/12,
    192.168/16 or 169.254/16: an interface with a public or shared IPv4
    subnet never opens the resolver to that subnet. *)
Theorem lan_ipv4_exact (ip : Addr) (a now : Z) (addrs : read_result) :
  Unmap ip = Addr4 a ->
  fst (allows acl ip now addrs) = true <-> local_v4 a.
Proof.
  intros Hip. destruct (allows_inv _ acl ip now addrs (run_state_inv t0 addrs0 ops))
    as [Hinv Hc]. rewrite Hip in Hc. cbn [WithoutZone] in Hc. split.
  - intros Ht. specialize (Hc Ht).
    destruct (acl_contains_local _ _ _ Hinv Hc) as [Hl|[H6 _]]; [|discriminate H6].
    by apply local_range_v4.
  - intros Hl. apply local_range_v4 in Hl. unfold allows. rewrite Hip. cbn [WithoutZone].
    assert (acl_contains acl (Addr4 a) = true) as ->; [|done].
    unfold acl_contains. apply orb_true_iff. left. by apply existsb_elem.
Qed.

(** An IPv6 source that is admitted is the loopback, a unique-local or a
    link-local address, or it is in the subnet of an interface address that
    the host reported: for a global address the subnet that the interface
    gives, but not a longer one than its /64. A source that the transport
    does not give is never admitted. *)
Theorem lan_ipv6_admitted (ip : Addr) (now : Z) (addrs : read_result) :
  fst (allows acl ip now addrs) = true ->
  Unmap ip <> AddrZero /\
  (Is6 (Unmap ip) = true ->
   local_range (WithoutZone (Unmap ip)) \/
   exists ifip bits p,
     (IfNet (Some ifip) bits ∈ run_addrs addrs0 (ops ++ [AclAllows ip now addrs])) /\
     if_prefix (IfNet (Some ifip) bits) = Some p /\
     prefix_Contains p (WithoutZone (Unmap ip)) = true /\
     (Is6 (Unmap ifip) = true -> IsGlobalUnicast (Unmap ifip) = true -> (p_bits p <= 64)%Z)).
Proof.
  intros Ht. destruct (allows_inv _ acl ip now addrs (run_state_inv t0 addrs0 ops))
    as [Hinv Hc]. specialize (Hc Ht). split.
  - intros Hz. rewrite Hz in Hc. cbn [WithoutZone] in Hc. unfold acl_contains in Hc.
    apply orb_true_iff in Hc as [Hc|Hc]; [by vm_compute in Hc |].
    destruct (onLink _) as [l|]; [|done]. apply existsb_elem in Hc as (p & _ & Hc).
    unfold prefix_Contains in Hc. breflect. by destruct (p_addr p).
  - intros H6.
    destruct (acl_contains_local _ _ _ Hinv Hc) as [Hl|(_ & ad & p & Hin & Hp & Hcp)];
      [by left |]. right. destruct ad as [[ifip|] bits|]; [|done|done].
    exists ifip, bits, p. split_and!; [| done | done |].
    + clear -Hin. unfold run_addrs in *. rewrite map_app, concat_app. cbn [map concat op_addrs].
      rewrite app_nil_r, app_assoc. destruct addrs; exact Hin.
    + intros Hi6 Hg. unfold if_prefix in Hp. rewrite Hi6, Hg in Hp.
      by eapply global_bits.
Qed.
End admits.

(** ** Witnesses *)

Module LanExamples.
(** A router on a public IPv4 subnet and a global IPv6 /128. *)
Definition ifaces : read_result :=
  inl [IfNet (Some (v4 203 0 113 7)) 24;
       IfNet (Some (Addr6 (8193 * 2 ^ 112 + 5) "")) 128; IfOther].

Definition acl0 : lanACL := newLANACL 0 ifaces.

Example own_subnet_refused : fst (allows acl0 (v4 203 0 113 9) 1 (inr "x")) = false.
Proof. vm_compute. reflexivity. Qed.

Example neighbour_admitted : fst (allows acl0 (Addr6 (8193 * 2 ^ 112 + 6) "") 1 (inr "x")) = true.
Proof. vm_compute. reflexivity. Qed.

Lemma lan_ipv4_exact_witness :
  fst (allows (acl_run (newLANACL 0 ifaces) []) (v4 192 168 1 20) 1 (inr "x")) = true.
Proof.
  apply (lan_ipv4_exact 0 ifaces [] (v4 192 168 1 20) 3232235796 1 (inr "x")).
  - reflexivity.
  - right; right; right; left. reflexivity.
Defined.

Lemma lan_ipv6_admitted_witness :
  Unmap (Addr6 (8193 * 2 ^ 112 + 6) "") <> AddrZero.
Proof.
  apply (lan_ipv6_admitted 0 ifaces [] (Addr6 (8193 * 2 ^ 112 + 6) "") 1 (inr "x")).
  vm_compute. reflexivity.
Defined.
End LanExamples.
