(* ===== verification/ReverseZones.v ===== *)
(** * Reverse lookups that stay local (internal/dnsserver/handler.go)

    The private reverse zones, the test whether a PTR query is under one of
    them, and the reading of an ip6.arpa name as an IPv6 prefix. The theorems
    say which addresses' reverse names the two tests match. *)

From stdpp Require Import base numbers list gmap strings.
From Stdlib Require Import Ascii ZArith Lia.
From S2P Require Import Prelude GoStrings Blocklist Dns GoNet Lan.

Open Scope string_scope.

(** ** The zones *)

Definition private_zone_names : list string :=
  [ "0.in-addr.arpa."; "10.in-addr.arpa."; "127.in-addr.arpa.";
    "254.169.in-addr.arpa."; "168.192.in-addr.arpa.";
    "2.0.192.in-addr.arpa."; "100.51.198.in-addr.arpa."; "113.0.203.in-addr.arpa.";
    "255.255.255.255.in-addr.arpa.";
    repeat_string "0." 32 +:+ "ip6.arpa.";
    "1." +:+ repeat_string "0." 31 +:+ "ip6.arpa.";
    "c.f.ip6.arpa."; "d.f.ip6.arpa.";
    "8.e.f.ip6.arpa."; "9.e.f.ip6.arpa."; "a.e.f.ip6.arpa."; "b.e.f.ip6.arpa.";
    "8.b.d.0.1.0.0.2.ip6.arpa." ]
  ++ map (fun i => itoaZ i +:+ ".172.in-addr.arpa.") (seqZ 16 16)
  ++ map (fun i => itoaZ i +:+ ".100.in-addr.arpa.") (seqZ 64 64).

Definition reverseZones : gset string := list_to_set private_zone_names.

Section zones.
Context `{UnicodeLower} `{MiekgDNS}.

(** The loop over the label starts. [fuel] bounds their number. *)
Fixpoint ptr_loop (fuel : nat) (name : string) (off : nat) : option bool :=
  match fuel with
  | O => None
  | S fuel' =>
      if mem (drop_bytes off name) reverseZones then Some true
      else let '(off', end_) := next_label name off in
           if end_ then Some false else ptr_loop fuel' name off'
  end.

Definition isPrivatePTR (qtype : Z) (name : string) : option bool :=
  if negb (qtype =? TypePTR)%Z then Some false
  else let name := to_lower name in ptr_loop (S (String.length name)) name 0.

(** ** Reading an ip6.arpa name *)

(** The loop over the labels: the last label is the first nibble. *)
Fixpoint ip6_loop (labels : list string) (b : Z) : option Z :=
  match labels with
  | [] => Some b
  | l :: rest =>
      match l with
      | String c "" =>
          match hex_val c with
          | None => None
          | Some v =>
              let n := Z.of_nat (length rest) in
              let shift := (8 * (15 - n / 2) + (if Z.even n then 4 else 0))%Z in
              ip6_loop rest (Z.lor b (Z.shiftl v shift))
          end
      | _ => None
      end
  end.

Definition ip6_zone : string := ".ip6.arpa.".

Definition ip6Prefix (name : string) : option Prefix :=
  if negb (has_suffix name ip6_zone) then None
  else
    let labels := split_byte dot (trim_suffix name ip6_zone) in
    if (32 <? lenZ labels)%Z then None
    else (fun b => PrefixFrom (Addr6 b "") (lenZ labels * 4)) <$> ip6_loop labels 0.

(** [ownPrefixPTR], on the LAN check of the handler. *)
Definition ownPrefixPTR (lan : lanACL) (qtype : Z) (name : string) (now : Z)
    (addrs : read_result) : bool * lanACL :=
  if negb (qtype =? TypePTR)%Z then (false, lan)
  else match ip6Prefix name with
       | Some p => ownGlobalV6 lan p now addrs
       | None => (false, lan)
       end.
End zones.

(** ** The walk over the labels *)

Section ptr.
Context `{UnicodeLower} `{MiekgLaws}.

Lemma ptr_loop_hits u v fuel :
  plain_name (u +:+ v) -> (String.length v < fuel)%nat -> v <> "" ->
  ptr_loop fuel (u +:+ v) (String.length u) = Some (hits reverseZones v).
Proof.
  revert u fuel. pattern v. apply walk_ind; clear v.
  - intros v Hv u fuel Hp Hf Hne. destruct fuel as [|fuel]; [lia |]. cbn [ptr_loop].
    rewrite drop_bytes_app, next_label_spec, hits_cut, Hv by done.
    by destruct (mem v reverseZones).
  - intros v l rest Hv IH u fuel Hp Hf Hne. destruct fuel as [|fuel]; [lia |]. cbn [ptr_loop].
    rewrite drop_bytes_app, next_label_spec, hits_cut, Hv by done.
    destruct (mem v reverseZones); [done |]. simpl.
    pose proof (cut_byte_length _ _ _ _ Hv) as Hlen.
    apply cut_byte_Some in Hv as [-> _].
    destruct rest as [|c r]; [by vm_compute |].
    replace (String.length u + String.length l + 1)%nat
      with (String.length (u +:+ l +:+ String dot ""))
      by (rewrite !string_length_app; simpl; lia).
    replace (u +:+ l +:+ String dot (String c r))
      with ((u +:+ l +:+ String dot "") +:+ String c r)
      by (rewrite !string_app_assoc; done).
    apply IH; [|lia | done]. rewrite !string_app_assoc. done.
Qed.

(** The test is the suffix test of the zones. *)
Lemma isPrivatePTR_hits qtype name :
  plain_name (to_lower name) -> to_lower name <> "" ->
  isPrivatePTR qtype name =
    Some ((qtype =? TypePTR)%Z && hits reverseZones (to_lower name)).
Proof.
  intros Hp Hne. unfold isPrivatePTR. destruct (qtype =? TypePTR)%Z; [|done].
  cbn [negb andb]. apply (ptr_loop_hits "" (to_lower name)); [done | lia | done].
Qed.
End ptr.

(** ** Reverse names *)

(** The reverse name of a list of numbers, the last one of the address first:
    each has a label, in front of a root. *)
Section rev_names.
Context (label : Z -> string) (root : string) (ok : Z -> Prop).
Context (label_inj : forall a b, ok a -> ok b -> label a = label b -> a = b).
Context (label_dot : forall a, ok a -> no_byte dot (label a)).
Context (label_root : forall a x, ok a -> x ∈ walk root ->
           has_prefix (label a +:+ ".") x = false).

Fixpoint rev_name (l : list Z) : string :=
  match l with [] => root | o :: l' => label o +:+ String dot (rev_name l') end.

Lemma rev_name_walk o l :
  ok o -> walk (rev_name (o :: l)) = rev_name (o :: l) :: walk (rev_name l).
Proof. intros Ho. cbn [rev_name]. rewrite walk_cut, cut_byte_app by auto. done. Qed.

Lemma rev_name_root o l : ok o -> rev_name (o :: l) ∉ walk root.
Proof.
  intros Ho Hin. apply (label_root o) in Hin; [|done].
  apply not_true_iff_false in Hin. apply Hin, has_prefix_spec. exists (rev_name l).
  cbn [rev_name]. rewrite string_app_assoc. done.
Qed.

Lemma rev_name_inj l k : Forall ok l -> Forall ok k -> rev_name l = rev_name k -> l = k.
Proof.
  intros Hl. revert k. induction Hl as [|o l Ho Hl IH]; intros k Hk Heq.
  - destruct Hk as [|o k Ho Hk]; [done |].
    exfalso. apply (rev_name_root o k Ho). rewrite <- Heq. left.
  - destruct Hk as [|o' k Ho' Hk].
    + exfalso. apply (rev_name_root o l Ho). rewrite Heq. left.
    + apply cut_inj in Heq as [Hlab Hrest]; [|auto | auto].
      f_equal; [auto | by apply IH].
Qed.

(** One reverse name is under another exactly when its numbers extend the
    other's. *)
Lemma rev_name_under l k :
  Forall ok l -> Forall ok k -> (under (rev_name l) (rev_name k) <-> suffix k l).
Proof.
  intros Hl Hk. rewrite <- elem_of_walk. induction Hl as [|o l Ho Hl IH].
  - destruct Hk as [|o k Ho Hk].
    + split; [intros _; done | intros _; left].
    + split; [intros Hin; by apply rev_name_root in Hin |].
      intros Hs. apply suffix_nil_inv in Hs. done.
  - rewrite rev_name_walk, elem_of_cons, IH by done. split.
    + intros [Heq|Hs]; [|by apply suffix_cons_r].
      apply rev_name_inj in Heq; [by subst | done | by constructor].
    + intros [pre Hpre]. destruct pre as [|x pre]; simpl in Hpre; simplify_eq.
      * by left.
      * right. by exists pre.
Qed.

(** Every level of the walk is a reverse name or a level of the root. *)
Lemma rev_name_levels l x :
  Forall ok l -> under (rev_name l) x -> (exists k, suffix k l /\ x = rev_name k) \/ x ∈ walk root.
Proof.
  intros Hl. rewrite <- elem_of_walk. induction Hl as [|o l Ho Hl IH]; [by right |].
  rewrite rev_name_walk, elem_of_cons by done. intros [->|Hin].
  - left. by exists (o :: l).
  - destruct (IH Hin) as [(k & Hk & ->)|]; [|by right].
    left. exists k. split; [by apply suffix_cons_r | done].
Qed.
End rev_names.

(** ** Numbers as digits *)

Section digits.
Context (w : Z) (Hw : (0 < w)%Z).

#[local] Abbreviation base := (2 ^ w)%Z.

Lemma base_pos : (0 < base)%Z.
Proof. apply Z.pow_pos_nonneg; lia. Qed.

(** The [n] lowest digits, the lowest first. *)
Fixpoint digits (n : nat) (a : Z) : list Z :=
  match n with O => [] | S n' => (a mod base)%Z :: digits n' (a / base)%Z end.

Fixpoint value (l : list Z) : Z :=
  match l with [] => 0 | d :: l' => (d + base * value l')%Z end.

Definition digit_ok (d : Z) : Prop := (0 <= d < base)%Z.

Lemma digits_ok n a : Forall digit_ok (digits n a).
Proof.
  revert a. induction n as [|n IH]; intros a; simpl; constructor; [|apply IH].
  apply Z.mod_pos_bound, base_pos.
Qed.

Lemma digits_length n a : length (digits n a) = n.
Proof. revert a. induction n; intros a; simpl; congruence. Qed.

Lemma digits_value n a : (0 <= a < base ^ Z.of_nat n)%Z -> value (digits n a) = a.
Proof.
  revert a. induction n as [|n IH]; intros a Ha.
  - simpl in *. lia.
  - rewrite Nat2Z.inj_succ, Z.pow_succ_r in Ha by lia. cbn [digits value]. rewrite IH.
    + pose proof (Z.div_mod a base ltac:(pose proof base_pos; lia)). lia.
    + split; [apply Z.div_pos; pose proof base_pos; lia |].
      apply Z.div_lt_upper_bound; [apply base_pos | lia].
Qed.

Lemma value_digits l : Forall digit_ok l -> digits (length l) (value l) = l.
Proof.
  induction 1 as [|d l Hd _ IH]; [done |]. cbn [length digits value].
  replace ((d + base * value l) mod base)%Z with d.
  - replace ((d + base * value l) / base)%Z with (value l); [by rewrite IH |].
    rewrite Z.mul_comm, Z.div_add by (pose proof base_pos; lia).
    rewrite Z.div_small by done. lia.
  - rewrite Z.mul_comm, Z.mod_add by (pose proof base_pos; lia).
    by rewrite Z.mod_small.
Qed.

Lemma value_range l : Forall digit_ok l -> (0 <= value l < base ^ Z.of_nat (length l))%Z.
Proof.
  induction 1 as [|d l Hd _ IH]; [simpl; lia |]. cbn [length value].
  rewrite Nat2Z.inj_succ, Z.pow_succ_r by lia. unfold digit_ok in Hd. nia.
Qed.

Lemma drop_digits m n a : drop m (digits (m + n) a) = digits n (a / base ^ Z.of_nat m)%Z.
Proof.
  revert a. induction m as [|m IH]; intros a.
  - simpl. by rewrite Z.div_1_r.
  - cbn [drop digits Nat.add]. rewrite IH. f_equal.
    rewrite Nat2Z.inj_succ, Z.pow_succ_r, Z.div_div by (try apply Z.pow_nonzero; pose proof base_pos; lia).
    done.
Qed.

Lemma suffix_drop (k l : list Z) : suffix k l -> k = drop (length l - length k) l.
Proof.
  intros [pre ->]. rewrite length_app.
  replace (length pre + length k - length k)%nat with (length pre) by lia.
  by rewrite drop_app_length.
Qed.

(** A list of digits ends the digits of [a] exactly when it is the number of
    the leading digits. *)
Lemma suffix_digits k n a :
  (0 <= a < base ^ Z.of_nat n)%Z -> Forall digit_ok k -> (length k <= n)%nat ->
  (suffix k (digits n a) <-> (a / base ^ Z.of_nat (n - length k))%Z = value k).
Proof.
  intros Ha Hk Hlen. set (m := (n - length k)%nat).
  assert (drop m (digits n a) = digits (length k) (a / base ^ Z.of_nat m)%Z) as Hd.
  { replace n with (m + length k)%nat by lia. apply drop_digits. }
  assert (0 <= a / base ^ Z.of_nat m < base ^ Z.of_nat (length k))%Z as Hr.
  { pose proof base_pos. assert (0 < base ^ Z.of_nat m)%Z by (apply Z.pow_pos_nonneg; lia).
    split; [apply Z.div_pos; lia |]. apply Z.div_lt_upper_bound; [done |].
    rewrite <- Z.pow_add_r by lia. replace (Z.of_nat m + Z.of_nat (length k))%Z with (Z.of_nat n) by lia.
    lia. }
  split.
  - intros Hs%suffix_drop. rewrite digits_length in Hs. fold m in Hs. rewrite Hd in Hs.
    rewrite Hs at 1. by rewrite digits_value.
  - intros Hv. exists (take m (digits n a)). rewrite Hv in Hd.
    rewrite value_digits in Hd by done. rewrite <- Hd. by rewrite take_drop.
Qed.
End digits.

(** ** The two kinds of reverse names *)

Definition root4 : string := "in-addr.arpa.".
Definition root6 : string := "ip6.arpa.".

Definition rev4 : list Z -> string := rev_name itoaZ root4.
Definition hex_label (n : Z) : string := String (hex_char n) "".
Definition rev6 : list Z -> string := rev_name hex_label root6.

(** The reverse name of an address. *)
Definition reverse_name4 (a : Z) : string := rev4 (digits 8 4 a).
Definition reverse_name6 (a : Z) : string := rev6 (digits 4 32 a).

Definition ok4 : Z -> Prop := digit_ok 8.
Definition ok6 : Z -> Prop := digit_ok 4.

Lemma ok4_byte o : ok4 o -> (0 <= o < 256)%Z.
Proof. done. Qed.

Lemma itoaZ_inj a b : ok4 a -> ok4 b -> itoaZ a = itoaZ b -> a = b.
Proof.
  intros Ha%ok4_byte Hb%ok4_byte Hi. apply itoa_inj in Hi. lia.
Qed.

Lemma walk_root4 : walk root4 = ["in-addr.arpa."; "arpa."; ""].
Proof. reflexivity. Qed.

Lemma walk_root6 : walk root6 = ["ip6.arpa."; "arpa."; ""].
Proof. reflexivity. Qed.

Lemma itoaZ_root a x : ok4 a -> x ∈ walk root4 -> has_prefix (itoaZ a +:+ ".") x = false.
Proof.
  intros Ha%ok4_byte Hx.
  apply (octet_ind (fun a => forallb (fun x => negb (has_prefix (itoaZ a +:+ ".") x)) (walk root4)))
    in Ha; [|vm_compute; reflexivity].
  rewrite forallb_elem in Ha. by apply negb_true_iff, Ha.
Qed.

(** A nibble is a byte value too. *)
Lemma nibble_ind (f : Z -> bool) :
  forallb f [0; 1; 2; 3; 4; 5; 6; 7; 8; 9; 10; 11; 12; 13; 14; 15]%Z = true ->
  forall n, ok6 n -> f n = true.
Proof.
  intros Hf n Hn. rewrite forallb_elem in Hf. apply Hf.
  assert (0 <= n < 16)%Z as Hn' by exact Hn. clear -Hn'.
  rewrite !elem_of_cons. lia.
Qed.

Lemma hex_val_char n : ok6 n -> hex_val (hex_char n) = Some n.
Proof.
  intros Hn. apply (nibble_ind (fun n => bool_decide (hex_val (hex_char n) = Some n))) in Hn.
  - by apply bool_decide_eq_true in Hn.
  - vm_compute. reflexivity.
Qed.

Lemma hex_label_inj a b : ok6 a -> ok6 b -> hex_label a = hex_label b -> a = b.
Proof.
  intros Ha Hb [= Hc]. apply hex_val_char in Ha, Hb. congruence.
Qed.

Lemma hex_label_dot a : ok6 a -> no_byte dot (hex_label a).
Proof.
  intros Ha. apply no_byte_bool. revert a Ha.
  apply (nibble_ind (fun a => string_forallb (fun c => negb (Ascii.eqb c dot)) (hex_label a))).
  vm_compute. reflexivity.
Qed.

Lemma hex_label_root a x : ok6 a -> x ∈ walk root6 -> has_prefix (hex_label a +:+ ".") x = false.
Proof.
  intros Ha Hx.
  apply (nibble_ind (fun a => forallb (fun x => negb (has_prefix (hex_label a +:+ ".") x)) (walk root6)))
    in Ha; [|vm_compute; reflexivity].
  rewrite forallb_elem in Ha. by apply negb_true_iff, Ha.
Qed.

Lemma rev4_under l k :
  Forall ok4 l -> Forall ok4 k -> (under (rev4 l) (rev4 k) <-> suffix k l).
Proof.
  apply rev_name_under; [apply itoaZ_inj | intros; apply itoaZ_no_dot | apply itoaZ_root].
Qed.

Lemma rev6_under l k :
  Forall ok6 l -> Forall ok6 k -> (under (rev6 l) (rev6 k) <-> suffix k l).
Proof.
  apply rev_name_under; [apply hex_label_inj | apply hex_label_dot | apply hex_label_root].
Qed.

(** ** The zones as lists of digits *)

Definition zones4 : list (list Z) :=
  ([ [0]; [10]; [127]; [254; 169]; [168; 192]; [2; 0; 192]; [100; 51; 198]; [113; 0; 203];
     [255; 255; 255; 255] ]
   ++ map (fun i => [i; 172]) (seqZ 16 16) ++ map (fun i => [i; 100]) (seqZ 64 64))%Z%list.

Definition zones6 : list (list Z) :=
  [ replicate 32 0; 1 :: replicate 31 0; [12; 15]; [13; 15]; [8; 14; 15]; [9; 14; 15];
    [10; 14; 15]; [11; 14; 15]; [8; 11; 13; 0; 1; 0; 0; 2] ]%Z.

Definition all_zone_names : list string := (map rev4 zones4 ++ map rev6 zones6)%list.

Lemma zones_names x : x ∈ reverseZones <-> x ∈ all_zone_names.
Proof.
  unfold reverseZones. rewrite elem_of_list_to_set.
  assert (forall l k, forallb (fun x => existsb (String.eqb x) k) l = true -> x ∈ l -> x ∈ k) as Hs.
  { intros l k Hl Hx. rewrite forallb_elem in Hl. apply Hl, existsb_elem in Hx as (y & Hy & He).
    by apply String.eqb_eq in He as ->. }
  split; apply Hs; vm_compute; reflexivity.
Qed.

Lemma zones4_ok : Forall (Forall ok4) zones4.
Proof.
  apply Forall_forall. intros k Hk. apply Forall_forall. intros o Ho.
  assert (forallb (forallb (fun o => (0 <=? o)%Z && (o <? 256)%Z)) zones4 = true) as Hz
    by (vm_compute; reflexivity).
  rewrite forallb_elem in Hz. specialize (Hz k Hk). rewrite forallb_elem in Hz.
  specialize (Hz o Ho). breflect. split; [done |]. by change (2 ^ 8)%Z with 256%Z.
Qed.

Lemma zones6_ok : Forall (Forall ok6) zones6.
Proof.
  apply Forall_forall. intros k Hk. apply Forall_forall. intros o Ho.
  assert (forallb (forallb (fun o => (0 <=? o)%Z && (o <? 16)%Z)) zones6 = true) as Hz
    by (vm_compute; reflexivity).
  rewrite forallb_elem in Hz. specialize (Hz k Hk). rewrite forallb_elem in Hz.
  specialize (Hz o Ho). breflect. split; [done |]. by change (2 ^ 4)%Z with 16%Z.
Qed.

(** A reverse name ends with its root. *)
Lemma rev_name_suffix label root l : has_suffix (rev_name label root l) root = true.
Proof.
  apply has_suffix_spec. induction l as [|o l [r Hr]]; simpl; [by exists "" |].
  exists (label o +:+ String dot r). rewrite Hr, string_app_assoc. done.
Qed.

Lemma hits_rev4 l : Forall ok4 l -> hits reverseZones (rev4 l) = true <-> exists k, k ∈ zones4 /\ suffix k l.
Proof.
  intros Hl. rewrite hits_spec. split.
  - intros (x & Hu & Hx%zones_names). unfold all_zone_names in Hx.
    apply elem_of_app in Hx as [Hx|Hx]; apply list_elem_of_fmap in Hx as (k & -> & Hk).
    + exists k. split; [done |]. apply rev4_under; [done | | done].
      pose proof zones4_ok as Hz. rewrite Forall_forall in Hz. by apply Hz.
    + exfalso. apply (rev_name_levels itoaZ root4 ok4 (fun a _ => itoaZ_no_dot a)) in Hu; [|done].
      assert (forallb (fun k => negb (has_suffix (rev6 k) root4) &&
                negb (existsb (String.eqb (rev6 k)) (walk root4))) zones6 = true) as Hz
        by (vm_compute; reflexivity).
      rewrite forallb_elem in Hz. apply Hz in Hk. breflect. destruct Hu as [(k' & _ & Heq)|Hin].
      * rewrite Heq, rev_name_suffix in H. done.
      * rewrite existsb_elem_false in H0. apply H0 in Hin. by rewrite String.eqb_refl in Hin.
  - intros (k & Hk & Hs). exists (rev4 k). split.
    + apply rev4_under; [done | | done].
      pose proof zones4_ok as Hz. rewrite Forall_forall in Hz. by apply Hz.
    + apply zones_names. unfold all_zone_names. apply elem_of_app. left.
      by apply list_elem_of_fmap_2.
Qed.

Lemma hits_rev6 l : Forall ok6 l -> hits reverseZones (rev6 l) = true <-> exists k, k ∈ zones6 /\ suffix k l.
Proof.
  intros Hl. rewrite hits_spec. split.
  - intros (x & Hu & Hx%zones_names). unfold all_zone_names in Hx.
    apply elem_of_app in Hx as [Hx|Hx]; apply list_elem_of_fmap in Hx as (k & -> & Hk).
    + exfalso. apply (rev_name_levels hex_label root6 ok6 hex_label_dot) in Hu; [|done].
      assert (forallb (fun k => negb (has_suffix (rev4 k) root6) &&
                negb (existsb (String.eqb (rev4 k)) (walk root6))) zones4 = true) as Hz
        by (vm_compute; reflexivity).
      rewrite forallb_elem in Hz. apply Hz in Hk. breflect. destruct Hu as [(k' & _ & Heq)|Hin].
      * rewrite Heq, rev_name_suffix in H. done.
      * rewrite existsb_elem_false in H0. apply H0 in Hin. by rewrite String.eqb_refl in Hin.
    + exists k. split; [done |]. apply rev6_under; [done | | done].
      pose proof zones6_ok as Hz. rewrite Forall_forall in Hz. by apply Hz.
  - intros (k & Hk & Hs). exists (rev6 k). split.
    + apply rev6_under; [done | | done].
      pose proof zones6_ok as Hz. rewrite Forall_forall in Hz. by apply Hz.
    + apply zones_names. unfold all_zone_names. apply elem_of_app. right.
      by apply list_elem_of_fmap_2.
Qed.

(** ** The addresses of the zones *)

Definition privateRanges4 : list Prefix :=
  [ mkPrefix (v4 0 0 0 0) 8; mkPrefix (v4 10 0 0 0) 8; mkPrefix (v4 127 0 0 0) 8;
    mkPrefix (v4 169 254 0 0) 16; mkPrefix (v4 192 168 0 0) 16;
    mkPrefix (v4 192 0 2 0) 24; mkPrefix (v4 198 51 100 0) 24; mkPrefix (v4 203 0 113 0) 24;
    mkPrefix (v4 255 255 255 255) 32; mkPrefix (v4 172 16 0 0) 12; mkPrefix (v4 100 64 0 0) 10 ].

Definition privateRanges6 : list Prefix :=
  [ mkPrefix (Addr6 0 "") 128; mkPrefix (Addr6 1 "") 128;
    mkPrefix (Addr6 (252 * 2 ^ 120) "") 7; mkPrefix (Addr6 (65152 * 2 ^ 112) "") 10;
    mkPrefix (Addr6 (536939960 * 2 ^ 96) "") 32 ].

Definition in_ranges (l : list Prefix) (ip : Addr) : bool :=
  existsb (fun r => prefix_Contains r ip) l.

(** The leading digits of an address, [n] of them left out. *)
Definition lead (w n a : Z) : Z := (a / 2 ^ (w * n))%Z.

Definition zone_hit (w n a : Z) (k : list Z) : Prop := lead w (n - lenZ k) a = value w k.

Lemma zone_hit_suffix w (n : nat) a k :
  (0 < w)%Z -> (0 <= a < 2 ^ (w * Z.of_nat n))%Z -> Forall (digit_ok w) k -> (length k <= n)%nat ->
  suffix k (digits w n a) <-> zone_hit w (Z.of_nat n) a k.
Proof.
  intros Hw Ha Hk Hlen. rewrite suffix_digits; [| done | by rewrite <- Z.pow_mul_r by lia | done | done].
  unfold zone_hit, lead, lenZ. rewrite <- Z.pow_mul_r by lia.
  by replace (Z.of_nat (n - length k)) with (Z.of_nat n - Z.of_nat (length k))%Z by lia.
Qed.

Ltac zone_cases H :=
  repeat (apply elem_of_cons in H as [->|H]); [.. | by apply elem_of_nil in H].

(** The ranges of IPv4 as equations on the leading bits. *)
Lemma in_ranges4 a :
  in_ranges privateRanges4 (Addr4 a) = true <->
  (a / 2 ^ 24 = 0 \/ a / 2 ^ 24 = 10 \/ a / 2 ^ 24 = 127 \/
   a / 2 ^ 16 = 169 * 256 + 254 \/ a / 2 ^ 16 = 192 * 256 + 168 \/
   a / 2 ^ 8 = 192 * 65536 + 2 \/ a / 2 ^ 8 = 198 * 65536 + 51 * 256 + 100 \/
   a / 2 ^ 8 = 203 * 65536 + 113 \/ a / 2 ^ 0 = 4294967295 \/
   a / 2 ^ 20 = 172 * 16 + 1 \/ a / 2 ^ 22 = 100 * 4 + 1)%Z.
Proof.
  unfold in_ranges, privateRanges4, v4. cbn [existsb]. rewrite !orb_true_iff.
  rewrite (contains4 _ 8 a 0), (contains4 _ 8 a 10), (contains4 _ 8 a 127),
    (contains4 _ 16 a (169 * 256 + 254)), (contains4 _ 16 a (192 * 256 + 168)),
    (contains4 _ 24 a (192 * 65536 + 2)), (contains4 _ 24 a (198 * 65536 + 51 * 256 + 100)),
    (contains4 _ 24 a (203 * 65536 + 113)), (contains4 _ 32 a 4294967295),
    (contains4 _ 12 a (172 * 16 + 1)), (contains4 _ 10 a (100 * 4 + 1)) by reflexivity.
  rewrite !Z.shiftr_div_pow2 by lia.
  assert (false = true <-> False) as -> by (split; done). tauto.
Qed.

Lemma zones4_in_ranges a k :
  in_range 32 a -> k ∈ zones4 -> zone_hit 8 4 a k -> in_ranges privateRanges4 (Addr4 a) = true.
Proof.
  intros Ha Hk Hv. apply in_ranges4. unfold in_range in Ha. vm_compute (2 ^ _)%Z in Ha.
  unfold zone_hit, lead in Hv. unfold zones4 in Hk. rewrite !elem_of_app, !list_elem_of_fmap in Hk.
  change (2 ^ 24)%Z with 16777216%Z. change (2 ^ 16)%Z with 65536%Z. change (2 ^ 8)%Z with 256%Z.
  change (2 ^ 0)%Z with 1%Z. change (2 ^ 20)%Z with 1048576%Z. change (2 ^ 22)%Z with 4194304%Z.
  destruct Hk as [Hk|[(i & -> & Hi%elem_of_seqZ)|(i & -> & Hi%elem_of_seqZ)]];
    [zone_cases Hk | |]; unfold lenZ in Hv; cbn [length value] in Hv;
    change (2 ^ 8)%Z with 256%Z in Hv; vm_compute (2 ^ _)%Z in Hv;
    Z.to_euclidean_division_equations; lia.
Qed.

Lemma in_ranges_zones4 a :
  in_ranges privateRanges4 (Addr4 a) = true -> exists k, k ∈ zones4 /\ zone_hit 8 4 a k.
Proof.
  intros Hr%in_ranges4. unfold zone_hit, lead.
  assert (forall k, k ∈ zones4 -> (a / 2 ^ (8 * (4 - lenZ k)))%Z = value 8 k ->
    exists k, k ∈ zones4 /\ (a / 2 ^ (8 * (4 - lenZ k)))%Z = value 8 k) as Hex by eauto.
  unfold lenZ in *.
  destruct Hr as [H|[H|[H|[H|[H|[H|[H|[H|[H|[H|H]]]]]]]]]].
  + apply (Hex [0]%Z); [set_solver | exact H].
  + apply (Hex [10]%Z); [set_solver | exact H].
  + apply (Hex [127]%Z); [set_solver | exact H].
  + apply (Hex [254; 169]%Z); [set_solver | exact H].
  + apply (Hex [168; 192]%Z); [set_solver | exact H].
  + apply (Hex [2; 0; 192]%Z); [set_solver | exact H].
  + apply (Hex [100; 51; 198]%Z); [set_solver | exact H].
  + apply (Hex [113; 0; 203]%Z); [set_solver | exact H].
  + apply (Hex [255; 255; 255; 255]%Z); [set_solver | exact H].
  + apply (Hex [a / 65536 - 172 * 256; 172]%Z).
    * unfold zones4. rewrite !elem_of_app. right; left. apply list_elem_of_fmap.
      eexists. split; [done |]. apply elem_of_seqZ. Z.to_euclidean_division_equations; lia.
    * cbn [length value]. change (2 ^ (8 * (4 - Z.of_nat 2)))%Z with 65536%Z.
      change (2 ^ 8)%Z with 256%Z. lia.
  + apply (Hex [a / 65536 - 100 * 256; 100]%Z).
    * unfold zones4. rewrite !elem_of_app. right; right. apply list_elem_of_fmap.
      eexists. split; [done |]. apply elem_of_seqZ. Z.to_euclidean_division_equations; lia.
    * cbn [length value]. change (2 ^ (8 * (4 - Z.of_nat 2)))%Z with 65536%Z.
      change (2 ^ 8)%Z with 256%Z. lia.
Qed.

Lemma zones4_ranges a :
  in_range 32 a ->
  (exists k, k ∈ zones4 /\ zone_hit 8 4 a k) <-> in_ranges privateRanges4 (Addr4 a) = true.
Proof.
  intros Ha. split; [|apply in_ranges_zones4]. intros (k & Hk & Hv). by eapply zones4_in_ranges.
Qed.

Lemma contains6 n bits a q :
  (0 <=? bits)%Z && (bits <=? 128)%Z = true -> Z.shiftr n (128 - bits) = q ->
  prefix_Contains (mkPrefix (Addr6 n "") bits) (Addr6 a "") = true <-> Z.shiftr a (128 - bits) = q.
Proof.
  intros Hb <-. unfold prefix_Contains, prefix_valid. simpl. rewrite Hb. simpl.
  unfold same_top, top_bits. rewrite Z.eqb_eq. split; congruence.
Qed.

Lemma lead_split p q a : (0 <= p)%Z -> (0 <= q)%Z -> (a / 2 ^ (p + q) = a / 2 ^ p / 2 ^ q)%Z.
Proof.
  intros Hp Hq. rewrite Z.pow_add_r, Z.div_div by (try apply Z.pow_nonzero; lia). done.
Qed.

(** The ranges of IPv6 as equations on the leading hexadecimal digits. *)
Lemma in_ranges6 a :
  in_ranges privateRanges6 (Addr6 a "") = true <->
  (a = 0 \/ a = 1 \/ lead 4 (32 - 2) a / 2 = 126 \/ lead 4 (32 - 3) a / 4 = 1018 \/
   lead 4 (32 - 8) a = 536939960)%Z.
Proof.
  unfold in_ranges, privateRanges6. cbn [existsb]. rewrite !orb_true_iff.
  rewrite (contains6 _ 128 a 0), (contains6 _ 128 a 1), (contains6 _ 7 a 126),
    (contains6 _ 10 a 1018), (contains6 _ 32 a 536939960) by reflexivity.
  rewrite !Z.shiftr_div_pow2 by lia.
  assert (false = true <-> False) as -> by (split; done). unfold lead.
  assert (a / 2 ^ (128 - 7) = a / 2 ^ (4 * (32 - 2)) / 2)%Z as ->.
  { change (128 - 7)%Z with (4 * (32 - 2) + 1)%Z. by rewrite lead_split. }
  assert (a / 2 ^ (128 - 10) = a / 2 ^ (4 * (32 - 3)) / 4)%Z as ->.
  { change (128 - 10)%Z with (4 * (32 - 3) + 2)%Z. by rewrite lead_split. }
  change (2 ^ (128 - 128))%Z with 1%Z. rewrite Z.div_1_r.
  change (2 ^ (128 - 32))%Z with (2 ^ (4 * (32 - 8)))%Z. tauto.
Qed.

Lemma lead_all a : lead 4 (32 - 32) a = a.
Proof. unfold lead. change (2 ^ (4 * (32 - 32)))%Z with 1%Z. by rewrite Z.div_1_r. Qed.

Lemma zones6_in_ranges a k :
  k ∈ zones6 -> zone_hit 4 32 a k -> in_ranges privateRanges6 (Addr6 a "") = true.
Proof.
  intros Hk Hv. apply in_ranges6. unfold zones6 in Hk. unfold zone_hit in Hv.
  zone_cases Hk;
    match type of Hv with lead _ (_ - lenZ ?k) _ = value _ ?k =>
      let n := eval vm_compute in (lenZ k) in change (lenZ k) with n in Hv;
      let v := eval vm_compute in (value 4 k) in change (value 4 k) with v in Hv end;
    rewrite ?lead_all in Hv; rewrite ?Hv; tauto.
Qed.

Lemma in_ranges_zones6 a :
  in_ranges privateRanges6 (Addr6 a "") = true -> exists k, k ∈ zones6 /\ zone_hit 4 32 a k.
Proof.
  intros Hr%in_ranges6. unfold zone_hit.
  assert (forall k m v, k ∈ zones6 -> lenZ k = m -> value 4 k = v -> lead 4 (32 - m) a = v ->
    exists k, k ∈ zones6 /\ lead 4 (32 - lenZ k) a = value 4 k) as Hex.
  { intros k m v Hk <- <- Hv. by exists k. }
  destruct Hr as [H|[H|[H|[H|H]]]].
  + apply (Hex (replicate 32 0%Z) 32%Z 0%Z); [set_solver | done | done | by rewrite lead_all].
  + apply (Hex (1%Z :: replicate 31 0%Z) 32%Z 1%Z); [set_solver | done | done | by rewrite lead_all].
  + set (b := lead 4 (32 - 2) a) in *.
    assert (b = 252 \/ b = 253)%Z as [Hb|Hb] by (Z.to_euclidean_division_equations; lia).
    * apply (Hex [12; 15]%Z 2%Z 252%Z); [set_solver | done | done | exact Hb].
    * apply (Hex [13; 15]%Z 2%Z 253%Z); [set_solver | done | done | exact Hb].
  + set (b := lead 4 (32 - 3) a) in *.
    assert (b = 4072 \/ b = 4073 \/ b = 4074 \/ b = 4075)%Z as [Hb|[Hb|[Hb|Hb]]]
      by (Z.to_euclidean_division_equations; lia).
    * apply (Hex [8; 14; 15]%Z 3%Z 4072%Z); [set_solver | done | done | exact Hb].
    * apply (Hex [9; 14; 15]%Z 3%Z 4073%Z); [set_solver | done | done | exact Hb].
    * apply (Hex [10; 14; 15]%Z 3%Z 4074%Z); [set_solver | done | done | exact Hb].
    * apply (Hex [11; 14; 15]%Z 3%Z 4075%Z); [set_solver | done | done | exact Hb].
  + apply (Hex [8; 11; 13; 0; 1; 0; 0; 2]%Z 8%Z 536939960%Z); [set_solver | done | done | exact H].
Qed.

Lemma zones6_ranges a :
  in_range 128 a ->
  (exists k, k ∈ zones6 /\ zone_hit 4 32 a k) <-> in_ranges privateRanges6 (Addr6 a "") = true.
Proof.
  intros _. split; [|apply in_ranges_zones6]. intros (k & Hk & Hv). by eapply zones6_in_ranges.
Qed.

(** ** Which reverse lookups stay local *)

Lemma rev_name_no_byte c label root l :
  c <> dot -> (forall o, o ∈ l -> no_byte c (label o)) -> no_byte c root ->
  no_byte c (rev_name label root l).
Proof.
  intros Hc Hl Hr. induction l as [|o l IH]; simpl; [done |].
  apply no_byte_app. split; [apply Hl; left |].
  apply no_byte_cons. split; [congruence |]. apply IH. intros o' Ho'. apply Hl. by right.
Qed.

Lemma reverse_name4_plain a : plain_name (reverse_name4 a) /\ reverse_name4 a <> "".
Proof.
  split.
  - apply rev_name_no_byte; [done | intros; by apply itoa_no_byte | by apply no_byte_bool].
  - unfold reverse_name4, rev4. cbn [digits rev_name]. by destruct (itoaZ _).
Qed.

Lemma reverse_name6_plain a : plain_name (reverse_name6 a) /\ reverse_name6 a <> "".
Proof.
  split; [|done].
  apply rev_name_no_byte; [done | | by apply no_byte_bool].
  intros o Ho. pose proof (digits_ok 4 ltac:(lia) 32 a) as Hd.
  rewrite Forall_forall in Hd. apply Hd in Ho. apply no_byte_bool. revert o Ho.
  apply (nibble_ind (fun a => string_forallb (fun c => negb (Ascii.eqb c backslash)) (hex_label a))).
  vm_compute. reflexivity.
Qed.

Lemma zone_hits_suffix w (n : nat) a zones :
  (0 < w)%Z -> (0 <= a < 2 ^ (w * Z.of_nat n))%Z -> Forall (Forall (digit_ok w)) zones ->
  forallb (fun k => (length k <=? n)%nat) zones = true ->
  (exists k, k ∈ zones /\ suffix k (digits w n a)) <->
  (exists k, k ∈ zones /\ zone_hit w (Z.of_nat n) a k).
Proof.
  intros Hw Ha Hz Hlen. rewrite forallb_elem in Hlen. rewrite Forall_forall in Hz.
  split; intros (k & Hk & Hs); exists k; (split; [exact Hk |]);
    apply (zone_hit_suffix w n a k) in Hs; try exact Hs;
    try done; try (by apply Hz); apply Nat.leb_le; by apply Hlen.
Qed.

Section answers.
Context `{UnicodeLower} `{MiekgLaws}.

(** A PTR query for the reverse name of an IPv4 address, in any letter
    case, is answered locally exactly when the address is in one of the
    documented private, shared, loopback, link-local or documentation
    ranges. *)
Theorem private_ptr_v4 (a : Z) (name : string) :
  in_range 32 a -> to_lower name = reverse_name4 a ->
  isPrivatePTR TypePTR name = Some (in_ranges privateRanges4 (Addr4 a)).
Proof.
  intros Ha Hn. destruct (reverse_name4_plain a) as [Hp Hne].
  rewrite isPrivatePTR_hits by (by rewrite Hn). rewrite Hn. apply (f_equal Some).
  change (TypePTR =? TypePTR)%Z with true. rewrite andb_true_l.
  apply eq_true_iff_eq. rewrite <- zones4_ranges by done.
  unfold reverse_name4. rewrite hits_rev4 by (apply digits_ok; lia).
  apply zone_hits_suffix; [lia | exact Ha | apply zones4_ok | vm_compute; reflexivity].
Qed.

(** The same for IPv6: the reverse name of an IPv6 address, one label
    for each nibble, is answered locally exactly when the address is ::, ::1,
    or in fc00::/7, fe80::/10 or 2001:db8::/32. *)
Theorem private_ptr_v6 (a : Z) (name : string) :
  in_range 128 a -> to_lower name = reverse_name6 a ->
  isPrivatePTR TypePTR name = Some (in_ranges privateRanges6 (Addr6 a "")).
Proof.
  intros Ha Hn. destruct (reverse_name6_plain a) as [Hp Hne].
  rewrite isPrivatePTR_hits by (by rewrite Hn). rewrite Hn. apply (f_equal Some).
  change (TypePTR =? TypePTR)%Z with true. rewrite andb_true_l.
  apply eq_true_iff_eq. rewrite <- zones6_ranges by done.
  unfold reverse_name6. rewrite hits_rev6 by (apply digits_ok; lia).
  apply zone_hits_suffix; [lia | exact Ha | apply zones6_ok | vm_compute; reflexivity].
Qed.
End answers.

(** ** The address of an ip6.arpa name *)

Lemma lor_disjoint b v s :
  (0 <= s)%Z -> (0 <= b < 2 ^ s)%Z -> (0 <= v)%Z ->
  Z.lor b (Z.shiftl v s) = (b + v * 2 ^ s)%Z.
Proof.
  intros Hs Hb Hv. rewrite <- Z.shiftl_mul_pow2 by done. symmetry. apply Z.add_nocarry_lor.
  apply Z.bits_inj'. intros i Hi. rewrite Z.land_spec, Z.bits_0.
  destruct (Z.ltb_spec i s) as [Hlt|Hge].
  - rewrite Z.shiftl_spec_low by lia. apply andb_false_r.
  - destruct (Z.eq_dec b 0) as [->|Hnz]; [by rewrite Z.bits_0 |].
    rewrite (Z.bits_above_log2 b i); [done | lia |].
    assert (Z.log2 b < s)%Z by (apply Z.log2_lt_pow2; lia). lia.
Qed.

(** The two cases of a byte's nibbles are one shift. *)
Lemma nibble_shift n :
  (8 * (15 - n / 2) + (if Z.even n then 4 else 0) = 4 * (31 - n))%Z.
Proof.
  destruct (Z.even n) eqn:E.
  - apply Z.even_spec in E as [m ->]. Z.to_euclidean_division_equations. lia.
  - rewrite <- Z.negb_odd in E. apply negb_false_iff, Z.odd_spec in E as [m ->].
    Z.to_euclidean_division_equations. lia.
Qed.

Lemma ip6_loop_value l b :
  Forall ok6 l -> (length l <= 32)%nat -> (0 <= b < 2 ^ (4 * (32 - lenZ l)))%Z ->
  ip6_loop (map hex_label l) b = Some (b + value 4 l * 2 ^ (4 * (32 - lenZ l)))%Z.
Proof.
  intros Hl. revert b. induction Hl as [|v l Hv Hl IH]; intros b Hlen Hb.
  - cbn [map ip6_loop value]. f_equal. lia.
  - cbn [map ip6_loop]. unfold hex_label at 1. rewrite hex_val_char by done.
    rewrite nibble_shift, length_map. unfold lenZ in *. cbn [length] in *.
    set (s := (4 * (32 - Z.of_nat (S (length l))))%Z) in *.
    replace (4 * (31 - Z.of_nat (length l)))%Z with s by (unfold s; lia).
    assert (0 <= v < 16)%Z as Hv' by exact Hv.
    assert (0 < 2 ^ s)%Z by (apply Z.pow_pos_nonneg; unfold s; lia).
    rewrite lor_disjoint by (unfold s in *; lia).
    replace (4 * (32 - Z.of_nat (length l)))%Z with (s + 4)%Z in IH by (unfold s; lia).
    rewrite IH; rewrite ?Z.pow_add_r by (unfold s; lia); change (2 ^ 4)%Z with 16%Z; [|lia | nia].
    cbn [value]. change (2 ^ 4)%Z with 16%Z. f_equal. ring.
Qed.

Lemma rev6_join l : l <> [] -> rev6 l = join "." (map hex_label l) +:+ ip6_zone.
Proof.
  intros Hl. unfold rev6. induction l as [|o [|o' l] IH]; [done | done |].
  cbn [rev_name map join] in *. rewrite IH by done. done.
Qed.

Lemma split_byte_join ls :
  Forall (no_byte dot) ls -> ls <> [] -> split_byte dot (join "." ls) = ls.
Proof.
  intros Hls Hne. induction Hls as [|l ls Hl Hls IH]; [done |].
  destruct ls as [|l' ls]; [by apply split_byte_none |].
  cbn [join]. rewrite dot_app, split_byte_cut by done. f_equal. by apply IH.
Qed.

Lemma hex_labels_dot l : Forall ok6 l -> Forall (no_byte dot) (map hex_label l).
Proof. intros Hl. apply Forall_map. eapply Forall_impl; [done |]. intros; by apply hex_label_dot. Qed.

(** Reading the reverse name of [n] nibbles gives the prefix of [4n] bits. *)
Lemma ip6Prefix_rev6 l :
  Forall ok6 l -> l <> [] -> (length l <= 32)%nat ->
  ip6Prefix (rev6 l) =
    Some (mkPrefix (Addr6 (value 4 l * 2 ^ (4 * (32 - lenZ l))) "") (lenZ l * 4)).
Proof.
  intros Hok Hne Hlen. unfold ip6Prefix. rewrite rev6_join by done.
  assert (has_suffix (join "." (map hex_label l) +:+ ip6_zone) ip6_zone = true) as ->.
  { apply has_suffix_spec. eauto. }
  rewrite trim_suffix_app, split_byte_join;
    [|by apply hex_labels_dot | by destruct l].
  assert (lenZ (map hex_label l) = lenZ l) as -> by (unfold lenZ; by rewrite length_map).
  cbn [negb]. destruct (Z.ltb_spec 32 (lenZ l)); [unfold lenZ in *; lia |].
  assert (0 < 2 ^ (4 * (32 - lenZ l)))%Z by (apply Z.pow_pos_nonneg; unfold lenZ in *; lia).
  rewrite ip6_loop_value by (try done; lia). cbn [fmap option_fmap option_map].
  unfold PrefixFrom. cbn [WithoutZone IsValid BitLen].
  destruct (Z.leb_spec 0 (lenZ l * 4)), (Z.leb_spec (lenZ l * 4) 128);
    unfold lenZ in *; try lia. done.
Qed.

(** The reverse name of an IPv6 address, read as [ip6Prefix] does, is that
    address; so a PTR query for it is kept on the LAN exactly when, after the
    refresh that a miss may cause, the address is in a global (not
    unique-local) IPv6 subnet of one of the host's interfaces. *)
Theorem own_prefix_ptr (lan : lanACL) (a now : Z) (addrs : read_result) :
  in_range 128 a ->
  let '(own, lan') := ownPrefixPTR lan TypePTR (reverse_name6 a) now addrs in
  ip6Prefix (reverse_name6 a) = Some (mkPrefix (Addr6 a "") 128) /\
  (own = true <->
   exists links l, onLink lan' = Some links /\ l ∈ links /\
     Is6 (p_addr l) = true /\ IsGlobalUnicast (p_addr l) = true /\ IsPrivate (p_addr l) = false /\
     prefix_Contains l (Addr6 a "") = true).
Proof.
  intros Ha.
  assert (ip6Prefix (reverse_name6 a) = Some (mkPrefix (Addr6 a "") 128)) as Hp.
  { unfold reverse_name6. rewrite ip6Prefix_rev6;
      [| apply digits_ok; lia | done | by rewrite digits_length].
    unfold lenZ. rewrite digits_length. change (Z.of_nat 32) with 32%Z.
    rewrite digits_value by (try lia; exact Ha).
    change (2 ^ (4 * (32 - 32)))%Z with 1%Z. by rewrite Z.mul_1_r. }
  unfold ownPrefixPTR. change (TypePTR =? TypePTR)%Z with true. cbn [negb]. rewrite Hp.
  assert (forall lan', underGlobalV6 lan' (mkPrefix (Addr6 a "") 128) = true <->
    exists links l, onLink lan' = Some links /\ l ∈ links /\
     Is6 (p_addr l) = true /\ IsGlobalUnicast (p_addr l) = true /\ IsPrivate (p_addr l) = false /\
     prefix_Contains l (Addr6 a "") = true) as Hu.
  { intros lan'. unfold underGlobalV6. destruct (onLink lan') as [links|]; [|naive_solver].
    rewrite existsb_elem. cbn [p_addr p_bits]. split.
    - intros (l & Hl & Hc). breflect. exists links, l. done.
    - intros (links' & l & [= <-] & Hl & H6 & Hg & Hpr & Hc). exists l. split; [done |].
      rewrite H6, Hg, Hpr, Hc. rewrite andb_true_r. simpl.
      unfold prefix_Contains, prefix_valid in Hc. breflect. apply Z.leb_le.
      clear Hp. destruct (p_addr l); cbn [BitLen] in *; lia. }
  unfold ownGlobalV6. destruct (underGlobalV6 lan _) eqn:E; (split; [done |]); [|apply Hu].
  rewrite <- Hu. done.
Qed.

(** ** Witnesses *)

Module ReverseExamples.
Import RefDns.
#[local] Instance ascii_only : UnicodeLower := fun s => s.

Example router_name : reverse_name4 3232235777 = "1.1.168.192.in-addr.arpa.".
Proof. vm_compute. reflexivity. Qed.

Lemma private_ptr_v4_witness :
  isPrivatePTR TypePTR "1.1.168.192.IN-ADDR.arpa." = Some true.
Proof.
  rewrite (private_ptr_v4 3232235777).
  - vm_compute. reflexivity.
  - vm_compute. split; [discriminate | reflexivity].
  - vm_compute. reflexivity.
Defined.

Lemma private_ptr_v6_witness :
  isPrivatePTR TypePTR (reverse_name6 (8193 * 2 ^ 112)) = Some false.
Proof.
  rewrite (private_ptr_v6 (8193 * 2 ^ 112)).
  - vm_compute. reflexivity.
  - vm_compute. split; [discriminate | reflexivity].
  - vm_compute. reflexivity.
Defined.

Definition lan0 : lanACL :=
  mkACL (Some [mkPrefix (Addr6 (8193 * 2 ^ 112) "") 64]) (Some 0%Z) None [].

Lemma own_prefix_ptr_witness :
  fst (ownPrefixPTR lan0 TypePTR (reverse_name6 (8193 * 2 ^ 112 + 9)) 1 (inr "")) = true.
Proof.
  pose proof (own_prefix_ptr lan0 (8193 * 2 ^ 112 + 9) 1 (inr "")) as Ho.
  destruct (ownPrefixPTR _ _ _ _ _) as [own lan'] eqn:E.
  destruct Ho as [_ Ho]; [vm_compute; split; [discriminate | reflexivity] |].
  vm_compute in E. injection E as <- <-. apply Ho.
  eexists _, _. split; [reflexivity |]. split; [left |]. vm_compute. auto.
Defined.
End ReverseExamples.
