(* ===== verification/LocalNames.v ===== *)
(** * Local-only names (internal/dnsserver/localnames.go)

    The class of a query name, the suffixes from the configuration, and the
    upstreams that are on the LAN. *)

From stdpp Require Import base numbers list sets strings.
From Stdlib Require Import Ascii ZArith Lia.
From S2P Require Import Prelude GoStrings GoUrl Blocklist Dns GoNet Lan.

Open Scope string_scope.

(** ** Classes *)

Inductive nameClass := publicName | localhostName | neverResolved | lanOnlyName.

#[export] Instance nameClass_eq_dec : EqDecision nameClass.
Proof. solve_decision. Defined.

Definition neverResolvedSuffixes : list string := ["invalid."; "onion."; "alt."].

Definition lanOnlySuffixes : list string :=
  ["local."; "home.arpa."; "internal."; "test.";
   "intranet."; "private."; "corp."; "home."; "lan."; "localdomain.";
   "fritz.box."].

Definition zoneType (qtype : Z) : bool :=
  bool_decide (qtype ∈ [TypeSOA; TypeNS; TypeDS; TypeDNSKEY; TypeRRSIG;
    TypeNSEC; TypeNSEC3; TypeNSEC3PARAM; TypeCDS; TypeCDNSKEY]).

Definition underSuffix (name suffix : string) : bool :=
  (name =? suffix)%string ||
  (has_suffix name suffix &&
   match String.get (String.length name - String.length suffix - 1) name with
   | Some c => Ascii.eqb c dot
   | None => false
   end).

Definition suffixClass (name : string) (localDomains : list string) : nameClass :=
  if underSuffix name "localhost." then localhostName
  else if existsb (underSuffix name) neverResolvedSuffixes then neverResolved
  else if existsb (underSuffix name) lanOnlySuffixes then lanOnlyName
  else if existsb (underSuffix name) localDomains then lanOnlyName
  else publicName.

(** [url.Parse(s)] and [Hostname]. *)

Section names.
Context `{UnicodeLower} `{MiekgDNS} `{HURL : UrlParse}.

Definition classify (qtype : Z) (name : string) (localDomains : list string) : nameClass :=
  let c := suffixClass name localDomains in
  if negb (bool_decide (c = publicName)) then c
  else if (count_label name =? 1)%Z && negb (zoneType qtype) then lanOnlyName
  else publicName.

Definition localSuffixes (domains : list string) : list string :=
  map (fun d => fqdn (to_lower d)) domains.

(** [KeepsLocal] on the handler's [localDomains]. *)
Definition KeepsLocal (localDomains : list string) (domain : string) : bool :=
  negb (bool_decide (suffixClass (fqdn (to_lower domain)) localDomains = publicName)).

(** ** Upstreams on the LAN *)

Definition upstreamIP (upstream : string) : option Addr :=
  let host := if contains upstream "://" then url_hostname upstream
              else fst <$> SplitHostPort upstream in
  match host with
  | None => None
  | Some h => (fun ip => WithoutZone (Unmap ip)) <$> ParseAddr h
  end.

(** [upstreamIPs] of [NewHandler]: the zero address where there is none. *)
Definition upstreamIPs (upstreams : list string) : list Addr :=
  map (fun u => default AddrZero (upstreamIP u)) upstreams.

(** The loop of [lanUpstreams], on the upstreams with their addresses; each
    [allows] may read the interface addresses. *)
Fixpoint lanUpstreams_loop (l : list (string * Addr)) (lan : lanACL) (now : Z)
    (addrs : read_result) : list string * lanACL :=
  match l with
  | [] => ([], lan)
  | (u, ip) :: l' =>
      let '(ok, lan) := if IsValid ip then allows lan ip now addrs else (false, lan) in
      let '(rest, lan) := lanUpstreams_loop l' lan now addrs in
      ((if ok then u :: rest else rest), lan)
  end.

Definition lanUpstreams (upstreams : list string) (ips : list Addr) (lan : lanACL) (now : Z)
    (addrs : read_result) : list string * lanACL :=
  lanUpstreams_loop (zip upstreams ips) lan now addrs.

Definition HasLANUpstream (upstreams : list string) (ips : list Addr) (lan : lanACL) (now : Z)
    (addrs : read_result) : bool :=
  (0 <? lenZ (fst (lanUpstreams upstreams ips lan now addrs)))%Z.
End names.

(** ** The suffix test *)

Lemma get_app_last p c s :
  String.get (String.length p) (p +:+ String c s) = Some c.
Proof. induction p; simpl; done. Qed.

(** The test is the one of the block list: the suffix itself, or a name under
    it, cut at a dot. *)
Lemma underSuffix_under name suffix : underSuffix name suffix = true <-> under name suffix.
Proof.
  unfold underSuffix, under. rewrite orb_true_iff, String.eqb_eq, andb_true_iff, has_suffix_spec.
  split.
  - intros [->|[[r ->] Hc]]; [by left |].
    destruct (decide (r +:+ suffix = suffix)) as [|Hne]; [by left |]. right.
    rewrite string_length_app in Hc.
    replace (String.length r + String.length suffix - String.length suffix - 1)%nat
      with (String.length r - 1)%nat in Hc by lia.
    assert (r <> "") as Hr by (intros ->; done).
    assert (exists p c, r = p +:+ String c "") as (p & c & ->).
    { clear -Hr. induction r as [|a r IH]; [done |]. destruct r as [|b r].
      - by exists "", a.
      - destruct IH as (p & c & Hp); [done |]. rewrite Hp. by exists (String a p), c. }
    rewrite string_length_app in Hc. simpl in Hc.
    replace (String.length p + 1 - 1)%nat with (String.length p) in Hc by lia.
    rewrite string_app_assoc in Hc |- *. simpl in *. rewrite get_app_last in Hc.
    apply Ascii.eqb_eq in Hc as ->. by exists p.
  - intros [->|[p ->]]; [by left |]. right. split.
    + exists (p +:+ String dot ""). by rewrite string_app_assoc.
    + rewrite string_length_app. simpl.
      replace (String.length p + S (String.length suffix) - String.length suffix - 1)%nat
        with (String.length p) by lia.
      by rewrite get_app_last.
Qed.

Lemma existsb_under name l : existsb (underSuffix name) l = true <-> exists s, s ∈ l /\ under name s.
Proof. rewrite existsb_elem. by setoid_rewrite underSuffix_under. Qed.

(** ** What the classes mean *)

Section classes.
Context `{UnicodeLower} `{MiekgDNS}.

(** Under one of the suffixes of a list. *)
Definition under_any (l : list string) (name : string) : Prop := exists s, s ∈ l /\ under name s.

(** The class of a name: localhost names first, then the names that no
    DNS server resolves, then the LAN-only suffixes, built in or configured,
    and single-label names except for the query types that ask about a
    top-level domain; everything else, and nothing else, is public. A suffix
    matches only whole labels. *)
Theorem classify_spec (qtype : Z) (name : string) (localDomains : list string) :
  let c := classify qtype name localDomains in
  let special := under name "localhost." \/ under_any neverResolvedSuffixes name in
  let lan := under_any (lanOnlySuffixes ++ localDomains) name \/
             (count_label name = 1%Z /\ zoneType qtype = false) in
  (c = localhostName <-> under name "localhost.") /\
  (c = neverResolved <-> ~ under name "localhost." /\ under_any neverResolvedSuffixes name) /\
  (c = lanOnlyName <-> ~ special /\ lan) /\
  (c = publicName <-> ~ special /\ ~ lan).
Proof.
  simpl. unfold classify, suffixClass, under_any.
  assert ((exists s, s ∈ (lanOnlySuffixes ++ localDomains)%list /\ under name s) <->
          existsb (underSuffix name) lanOnlySuffixes = true \/
          existsb (underSuffix name) localDomains = true) as ->.
  { rewrite !existsb_under. setoid_rewrite elem_of_app. firstorder. }
  rewrite <- !existsb_under, <- underSuffix_under.
  assert (count_label name = 1%Z <-> (count_label name =? 1)%Z = true) as ->
    by (by rewrite Z.eqb_eq).
  destruct (underSuffix name "localhost."), (existsb _ neverResolvedSuffixes),
    (existsb _ lanOnlySuffixes), (existsb _ localDomains), (count_label name =? 1)%Z,
    (zoneType qtype); simpl; intuition congruence.
Qed.

(** A name under a local name is local too. *)
Lemma suffixClass_under name sub localDomains :
  under sub name -> suffixClass name localDomains <> publicName ->
  suffixClass sub localDomains <> publicName.
Proof.
  intros Hs. assert (forall s, underSuffix name s = true -> underSuffix sub s = true) as Hu.
  { intros s. rewrite !underSuffix_under. by apply under_trans. }
  assert (forall l, existsb (underSuffix name) l = true -> existsb (underSuffix sub) l = true) as He.
  { intros l. rewrite !existsb_elem. intros (s & Hl & Hn). exists s. auto. }
  unfold suffixClass. intros Hn.
  destruct (underSuffix name "localhost.") eqn:E1; [by rewrite (Hu _ E1) |].
  destruct (existsb (underSuffix name) neverResolvedSuffixes) eqn:E2;
    [rewrite (He _ E2); by case_match |].
  destruct (existsb (underSuffix name) lanOnlySuffixes) eqn:E3;
    [rewrite (He _ E3); by repeat case_match |].
  destruct (existsb (underSuffix name) localDomains) eqn:E4; [|done].
  rewrite (He _ E4). by repeat case_match.
Qed.
End classes.

(** ** LAN upstreams *)

Section upstreams.
Lemma lanUpstreams_loop_sublist l lan now addrs :
  sublist (fst (lanUpstreams_loop l lan now addrs)) (map fst l).
Proof.
  revert lan. induction l as [|[u ip] l IH]; intros lan; cbn [lanUpstreams_loop map fst].
  - constructor.
  - destruct (if IsValid ip then _ else _) as [ok lan'].
    specialize (IH lan'). destruct (lanUpstreams_loop l lan' now addrs) as [rest lan''].
    destruct ok; by constructor.
Qed.

(** Whatever is in the answer was admitted by the LAN check. *)
Lemma lanUpstreams_loop_allowed l lan now addrs u :
  u ∈ fst (lanUpstreams_loop l lan now addrs) ->
  exists ip lan', (u, ip) ∈ l /\ IsValid ip = true /\ fst (allows lan' ip now addrs) = true.
Proof.
  revert lan. induction l as [|[u' ip] l IH]; intros lan; cbn [lanUpstreams_loop];
    [by intros ?%elem_of_nil |].
  destruct (IsValid ip) eqn:Hv.
  - destruct (allows lan ip now addrs) as [ok lan'] eqn:Ha.
    destruct (lanUpstreams_loop l lan' now addrs) as [rest lan''] eqn:Hr.
    destruct ok; cbn [fst].
    + intros [->|Hin]%elem_of_cons.
      * exists ip, lan. rewrite Ha. split; [left | done].
      * specialize (IH lan'). rewrite Hr in IH. destruct (IH Hin) as (ip0 & lan0 & ? & ?).
        exists ip0, lan0. split; [by right | done].
    + intros Hin. specialize (IH lan'). rewrite Hr in IH.
      destruct (IH Hin) as (ip0 & lan0 & ? & ?). exists ip0, lan0. split; [by right | done].
  - destruct (lanUpstreams_loop l lan now addrs) as [rest lan''] eqn:Hr. cbn [fst].
    intros Hin. specialize (IH lan). rewrite Hr in IH.
    destruct (IH Hin) as (ip0 & lan0 & ? & ?). exists ip0, lan0. split; [by right | done].
Qed.
End upstreams.

(** ** Examples *)

Module LocalNamesExamples.
Import RefDns.
#[local] Instance ascii_only : UnicodeLower := fun s => s.

Example classes :
  map (fun n => classify TypeA n (localSuffixes ["Home.Example"]))
    ["x.localhost."; "a.onion."; "nas.lan."; "printer."; "nas.home.example."; "notlocal."; "www.example."]
  = [localhostName; neverResolved; lanOnlyName; lanOnlyName; lanOnlyName; lanOnlyName; publicName].
Proof. vm_compute. reflexivity. Qed.

Example tld_query : classify TypeDS "com." [] = publicName.
Proof. vm_compute. reflexivity. Qed.
End LocalNamesExamples.
