(* ===== verification/Edns.v ===== *)
(** * EDNS: the upstream query and the client's reply (internal/dnsserver/edns.go)

    What s-hole sends upstream for a query, how it removes the upstream's OPT
    record from a reply, and how [send] finishes a reply for the client: its
    query ID, its OPT record, its size and its padding. *)

From stdpp Require Import base numbers list strings.
From Stdlib Require Import Ascii ZArith Lia.
From S2P Require Import Prelude GoStrings GoNet Dns Lan.

Open Scope string_scope.

Definition upstreamUDPSize : Z := 1232.
Definition queryPadBlock : Z := 128.
Definition replyPadBlock : Z := 468.

(** What [send] reads of the response writer. *)
Record Writer := mkWriter {
  w_remote : RemoteAddr;
  w_tls : bool;            (* the ConnectionState of a TLS connection *)
}.

Section edns.
Context `{MiekgDNS}.

(** [upstreamQuery]; [id] is the fresh [dns.Id()]. [None] is the run-time
    panic of a request without a question. *)
Definition upstreamQuery (id : Z) (req : Msg) : option Msg :=
  match Questions req with
  | [] => None
  | q :: _ =>
      let m := mkMsg id false OpcodeQuery false false (RecursionDesired req)
                 (CheckingDisabled req) (AuthenticatedData req) 0 [q] [] [] [] in
      let d := match is_edns0 req with Some opt => opt_do opt | None => false end in
      Some (set_edns0 m upstreamUDPSize d)
  end.

Definition stripOPT (resp : Msg) : Msg :=
  set_Extra (List.filter (fun rr => negb (Rrtype rr =? TypeOPT)%Z) (Extra resp)) resp.

Definition fitUDP (w : Writer) (req resp : Msg) : Msg :=
  match w_remote w with
  | UDPAddr _ =>
      let size := match is_edns0 req with
                  | Some opt => if (MinMsgSize <? opt_udp_size opt)%Z then opt_udp_size opt
                                else MinMsgSize
                  | None => MinMsgSize
                  end in
      truncate_msg resp size
  | _ => resp
  end.

Definition overTLS (w : Writer) : bool := w_tls w.

Definition wantsPadding (opt : RR) : bool :=
  existsb (fun o => (opt_code o =? EDNS0PADDING)%Z) (opt_options opt).

(** [opt.Option = append(opt.Option, p)] on the OPT record at index [i]. *)
Definition add_padding (m : Msg) (i : nat) (opt : RR) (padding : string) : Msg :=
  set_Extra
    (<[i := set_Data (DataOPT (opt_options opt ++ [mkEDNS0 EDNS0PADDING padding])%list) opt]> (Extra m)) m.

Definition zeros (n : Z) : string := repeat_string (String "000" "") (Z.to_nat n).

Definition pad (m : Msg) (block : Z) : Msg :=
  match edns0_index m with
  | None => m
  | Some i =>
      match Extra m !! i with
      | None => m
      | Some opt =>
          let m0 := add_padding m i opt "" in
          let n := msg_len m0 in
          let r := (n mod block)%Z in
          if negb (r =? 0)%Z && (n + block - r <=? MaxMsgSize)%Z
          then add_padding m i opt (zeros (block - r))
          else m0
      end
  end.

(** [send]: the message that is written. *)
Definition send (w : Writer) (req resp : Msg) : Msg :=
  let resp := set_Id (Id req) resp in
  let opt := is_edns0 req in
  let resp :=
    match opt with
    | Some opt =>
        match is_edns0 resp with
        | None => set_edns0 resp (opt_udp_size opt) (opt_do opt)
        | Some _ => resp
        end
    | None => if (15 <? Rcode resp)%Z then set_Rcode_field RcodeServerFailure resp else resp
    end in
  let resp := fitUDP w req resp in
  match opt with
  | Some opt => if overTLS w && wantsPadding opt then pad resp replyPadBlock else resp
  | None => resp
  end.

(** [packDoH], before the library's [Pack]. *)
Definition packDoH (q : Msg) : Msg := pad (set_Id 0 q) queryPadBlock.
End edns.

(** ** Lemmas *)

Section lemmas.
Context `{MiekgLaws}.

Lemma stripOPT_no_opt m : is_edns0 (stripOPT m) = None.
Proof.
  apply is_edns0_none. unfold stripOPT. cbn [Extra set_Extra set_sections].
  rewrite Forall_forall. intros rr. rewrite list_elem_of_In, filter_In, negb_true_iff.
  by intros [_ Hr].
Qed.

Lemma is_edns0_ext m m' :
  Extra m = Extra m' -> is_edns0 m = is_edns0 m'.
Proof.
  intros He. unfold is_edns0. rewrite (edns0_index_ext m m') by by rewrite He. by rewrite He.
Qed.

Lemma is_OPT_set_Data d rr : is_OPT (set_Data d rr) = is_OPT rr.
Proof. done. Qed.

Lemma add_padding_index m i opt p :
  Extra m !! i = Some opt -> edns0_index (add_padding m i opt p) = edns0_index m.
Proof.
  intros Hi. apply edns0_index_ext. unfold add_padding. cbn [Extra set_Extra set_sections].
  apply list_eq. intros j. rewrite !list_lookup_fmap.
  destruct (decide (j = i)) as [->|Hj].
  - rewrite list_lookup_insert_eq by by eapply lookup_lt_Some. by rewrite Hi.
  - by rewrite list_lookup_insert_ne.
Qed.

(** [pad] adds one Padding option to the message's OPT record and changes
    nothing else. *)
Lemma pad_shape m block :
  (is_edns0 m = None /\ pad m block = m) \/
  exists i opt p, edns0_index m = Some i /\ Extra m !! i = Some opt /\
    pad m block = add_padding m i opt p.
Proof.
  unfold pad, is_edns0. destruct (edns0_index m) as [i|] eqn:Hi; [|by left].
  destruct (edns0_some m i Hi) as (opt & Ho & _). rewrite Ho. right.
  destruct (_ && _); eauto 10.
Qed.

Lemma pad_edns0 m block opt :
  is_edns0 m = Some opt ->
  exists p, is_edns0 (pad m block) =
    Some (set_Data (DataOPT (opt_options opt ++ [mkEDNS0 EDNS0PADDING p])%list) opt).
Proof.
  intros Ho. destruct (pad_shape m block) as [[Hn _]|(i & o & p & Hi & Hx & ->)]; [congruence |].
  unfold is_edns0 in *. rewrite add_padding_index, Hi in * by done. simpl in *.
  rewrite Hx in Ho. injection Ho as ->. exists p. unfold add_padding. cbn [Extra set_Extra set_sections].
  by rewrite list_lookup_insert_eq by by eapply lookup_lt_Some.
Qed.

Lemma pad_fields m block :
  Id (pad m block) = Id m /\ Rcode (pad m block) = Rcode m /\
  Questions (pad m block) = Questions m /\ Answer (pad m block) = Answer m.
Proof. destruct (pad_shape m block) as [[_ ->]|(i & o & p & _ & _ & ->)]; done. Qed.

Lemma slen_zeros n : (0 <= n)%Z -> slen (zeros n) = n.
Proof.
  intros Hn. unfold zeros, slen. assert (forall k, String.length (repeat_string (String "000" "") k) = k) as ->.
  { induction k; simpl; congruence. } lia.
Qed.

(** A message whose last additional record is its OPT record is padded to
    a whole number of blocks, unless that would push it over the size limit of
    a DNS message. *)
Theorem pad_multiple (m : Msg) (pre : list RR) (opt : RR) (block : Z)
  (Hblock : (0 < block)%Z) (Hextra : Extra m = (pre ++ [opt])%list) (Hopt : is_OPT opt = true)
  (Hpre : Forall (fun rr => is_OPT rr = false) pre) :
  (msg_len (pad m block) mod block = 0)%Z \/
  (MaxMsgSize < msg_len (pad m block) + (block - msg_len (pad m block) mod block))%Z.
Proof.
  assert (edns0_index m = Some (length pre)) as Hi.
  { destruct (edns0_index m) as [i|] eqn:Hi.
    - destruct (edns0_some m i Hi) as (o & Ho & Hoo). rewrite Hextra in Ho.
      apply lookup_app_Some in Ho as [Ho|[Hl Ho]].
      + rewrite Forall_lookup in Hpre. apply Hpre in Ho. congruence.
      + apply list_lookup_singleton_Some in Ho as [Ho _]. f_equal. lia.
    - apply edns0_none in Hi. rewrite Hextra in Hi. apply Forall_app in Hi as [_ Hi].
      inversion Hi; congruence. }
  assert (forall p, add_padding m (length pre) opt p =
    set_Extra (pre ++ [set_Data (DataOPT (opt_options opt ++ [mkEDNS0 EDNS0PADDING p])) opt])%list m) as Ha.
  { intros p. unfold add_padding. rewrite Hextra. f_equal.
    by rewrite insert_app_r_alt, Nat.sub_diag by done. }
  assert (Extra m !! length pre = Some opt) as Hx
    by (rewrite Hextra, lookup_app_r, Nat.sub_diag by done; done).
  unfold pad. rewrite Hi, Hx. cbv zeta.
  set (n := msg_len (add_padding m (length pre) opt "")).
  pose proof (Z.mod_pos_bound n block Hblock).
  destruct (Z.eqb_spec (n mod block) 0) as [Hz|Hz]; simpl andb; cbv iota; [by left; exact Hz |].
  destruct (Z.leb_spec (n + block - n mod block) MaxMsgSize); [|right; fold n; lia].
  left. rewrite Ha, msg_len_option, <- Ha, slen_zeros by lia. fold n.
  rewrite (Z.div_mod n block) at 1 by lia.
  replace (block * (n / block) + n mod block + (block - n mod block))%Z
    with ((n / block + 1) * block)%Z by lia.
  by rewrite Z.mod_mul by lia.
Qed.

(** C23. The upstream sees nothing of the client's message but the question
    and four bits: two requests that agree on the question, on RD, CD and AD,
    and on the DO bit give the same upstream query. Its OPT record is
    s-hole's own, with no options. *)
Theorem upstream_query_private (id : Z) (req req' : Msg) (q : Question)
  (Hq : head (Questions req) = Some q) (Hq' : head (Questions req') = Some q)
  (Hrd : RecursionDesired req = RecursionDesired req')
  (Hcd : CheckingDisabled req = CheckingDisabled req')
  (Had : AuthenticatedData req = AuthenticatedData req')
  (Hdo : do_bit req = do_bit req') :
  exists m opt, upstreamQuery id req = Some m /\ upstreamQuery id req' = Some m /\
    Id m = id /\ Response m = false /\ Opcode m = OpcodeQuery /\ Questions m = [q] /\
    Answer m = [] /\ Ns m = [] /\ Extra m = [opt] /\ is_edns0 m = Some opt /\
    opt_options opt = [] /\ opt_do opt = do_bit req /\ opt_udp_size opt = upstreamUDPSize.
Proof.
  unfold upstreamQuery. destruct (Questions req) as [|q0 l]; [done |].
  destruct (Questions req') as [|q0' l']; [done |]. injection Hq as ->. injection Hq' as ->.
  change (match is_edns0 req with Some opt => opt_do opt | None => false end) with (do_bit req).
  change (match is_edns0 req' with Some opt => opt_do opt | None => false end) with (do_bit req').
  rewrite <- Hrd, <- Hcd, <- Had, <- Hdo.
  set (m0 := mkMsg id false OpcodeQuery false false _ _ _ 0 [q] [] [] []).
  destruct (set_edns0_spec m0 upstreamUDPSize (do_bit req)) as (o & He & Ho & H1 & H2 & H3).
  assert (is_edns0 m0 = None) as Hn by by apply is_edns0_none.
  destruct (is_edns0_set m0 upstreamUDPSize (do_bit req) Hn) as (o' & He' & _).
  assert (o' = o) as ->.
  { apply is_edns0_some in He' as [Hin _]. rewrite He in Hin. simpl in Hin.
    by apply list_elem_of_singleton in Hin. }
  exists (set_edns0 m0 upstreamUDPSize (do_bit req)), o.
  split_and!; try done; by rewrite He.
Qed.

(** The reply of [send] before it is fitted and padded. *)
Lemma fitUDP_fields w req resp :
  Id (fitUDP w req resp) = Id resp /\ Rcode (fitUDP w req resp) = Rcode resp /\
  Questions (fitUDP w req resp) = Questions resp /\ is_edns0 (fitUDP w req resp) = is_edns0 resp.
Proof.
  unfold fitUDP. destruct (w_remote w); try done.
  match goal with |- context [truncate_msg resp ?s] =>
    destruct (truncate_spec resp s) as (H1 & H2 & H3 & H4 & _) end. done.
Qed.

(** What [send] writes for a reply without an OPT record of its own (every
    reply of s-hole: its own have none and an upstream's is removed). The
    client's ID and the reply's question come back. The reply has an OPT record
    exactly when the query had one, with the client's UDP size and DO bit
    mirrored, and no option but the padding of an encrypted client that
    padded its query. An extended RCODE is kept with EDNS and becomes SERVFAIL
    without. *)
Theorem send_reply (w : Writer) (req resp : Msg) (Hresp : is_edns0 resp = None) :
  let m := send w req resp in
  Id m = Id req /\ Questions m = Questions resp /\
  match is_edns0 req with
  | None => is_edns0 m = None /\ (Rcode m <= 15)%Z /\
      ((Rcode resp <= 15)%Z -> Rcode m = Rcode resp) /\
      ((15 < Rcode resp)%Z -> Rcode m = RcodeServerFailure)
  | Some o => Rcode m = Rcode resp /\
      exists o', is_edns0 m = Some o' /\
        opt_udp_size o' = opt_udp_size o /\ opt_do o' = opt_do o /\
        (opt_options o' = [] \/ exists z, opt_options o' = [mkEDNS0 EDNS0PADDING z] /\
           w_tls w = true /\ wantsPadding o = true)
  end.
Proof.
  cbv zeta. unfold send. set (r0 := set_Id (Id req) resp).
  assert (is_edns0 r0 = None) as Hr0 by (rewrite (is_edns0_ext r0 resp) by done; exact Hresp).
  destruct (is_edns0 req) as [o|] eqn:Ho.
  - rewrite Hr0. destruct (is_edns0_set r0 (opt_udp_size o) (opt_do o) Hr0) as (o' & Hs & Hopt & Hdo & Hsz).
    destruct (set_edns0_spec r0 (opt_udp_size o) (opt_do o)) as (o2 & He & _).
    set (r1 := set_edns0 r0 _ _) in *.
    assert (Id r1 = Id req /\ Rcode r1 = Rcode resp /\ Questions r1 = Questions resp)
      as (E1 & E2 & E3) by (rewrite He; done).
    destruct (fitUDP_fields w req r1) as (F1 & F2 & F3 & F4). rewrite Hs in F4.
    destruct (overTLS w && wantsPadding o) eqn:Hp.
    + destruct (pad_fields (fitUDP w req r1) replyPadBlock) as (P1 & P2 & P3 & _).
      destruct (pad_edns0 (fitUDP w req r1) replyPadBlock o' F4) as (p & Hpad).
      split_and!; [congruence | congruence | congruence |].
      eexists. split; [exact Hpad |]. rewrite opt_do_data, opt_udp_data.
      split_and!; [done | done |]. right. exists p. apply andb_true_iff in Hp as [Ht Hw].
      unfold opt_options at 1. cbn [Data set_Data]. by rewrite Hopt.
    + split_and!; [congruence | congruence | congruence |]. exists o'. eauto.
  - set (r1 := if (15 <? Rcode r0)%Z then _ else _).
    destruct (fitUDP_fields w req r1) as (F1 & F2 & F3 & F4).
    rewrite F1, F2, F3, F4. unfold r1. change (Rcode r0) with (Rcode resp).
    destruct (Z.ltb_spec 15 (Rcode resp)); (split_and!;
      [done | done | by rewrite (is_edns0_ext _ resp) by done | | |]); cbn; try done; lia.
Qed.
End lemmas.

Module EdnsExamples.
Import RefDns.

Definition q_www : Question := mkQuestion "www.example." TypeA ClassINET.

(** A request with a client cookie, and one without. *)
Definition ex_req (options : list EDNS0) : Msg :=
  mkMsg 4660 false 0 false false true false false 0 [q_www] [] []
    [mkRR "." TypeOPT 4096 32768 (DataOPT options)].

Definition cookie : EDNS0 := mkEDNS0 10 "devicetoken".

Lemma upstream_query_private_witness :
  upstreamQuery 7 (ex_req [cookie]) = upstreamQuery 7 (ex_req []).
Proof.
  assert (do_bit (ex_req [cookie]) = do_bit (ex_req [])) as Hdo by (vm_compute; reflexivity).
  destruct (upstream_query_private 7 (ex_req [cookie]) (ex_req []) q_www
    eq_refl eq_refl eq_refl eq_refl eq_refl Hdo) as (m & opt & H1 & H2 & _).
  rewrite H1, H2. reflexivity.
Defined.

Definition ex_reply : Msg := set_reply (ex_req []).

Lemma pad_multiple_witness :
  let m := set_Extra [ref_opt 1232 false] ex_reply in
  (msg_len (pad m 128) mod 128 = 0)%Z \/
  (MaxMsgSize < msg_len (pad m 128) + (128 - msg_len (pad m 128) mod 128))%Z.
Proof.
  apply (pad_multiple (set_Extra [ref_opt 1232 false] ex_reply) [] (ref_opt 1232 false) 128);
    [lia | reflexivity | reflexivity | constructor].
Defined.

Definition tls_writer : Writer := mkWriter (TCPAddr None) true.

(** A padded query over TLS gets one OPT record with one Padding option. *)
Lemma send_reply_witness :
  Id (send tls_writer (ex_req [mkEDNS0 EDNS0PADDING ""]) ex_reply) = 4660%Z.
Proof.
  apply (send_reply tls_writer (ex_req [mkEDNS0 EDNS0PADDING ""]) ex_reply). reflexivity.
Defined.
End EdnsExamples.
