(* ===== verification/Upstream.v ===== *)
(** * Forwarding to the upstreams (internal/dnsserver/upstream.go)

    The cooldown tracker, one exchange with an upstream, and the two sweeps
    over the list. What the network, the clock, the context and the other
    queries do is an [Attempt] for each step of the loops; every message sent
    is in the trace. The two sweeps are structural over the list, so they end. *)

From stdpp Require Import base numbers list gmap sets strings.
From Stdlib Require Import Ascii ZArith Lia.
From S2P Require Import Prelude GoStrings GoUrl GoNet Dns Lan Redact Edns.

Open Scope string_scope.

Definition upstreamCooldown : Z := (30 * second)%Z.

(** ** The tracker *)

Record upstreamTracker := mkTracker {
  lastErr : gmap string Z;
  transportFailures : gmap string Z;
}.

Definition newUpstreamTracker : upstreamTracker := mkTracker ∅ ∅.

Definition shouldSkip (t : upstreamTracker) (addr : string) (now : Z) : bool :=
  match lastErr t !! addr with
  | None => false
  | Some last => (time_sub now last <? upstreamCooldown)%Z
  end.

Definition recordFailure (t : upstreamTracker) (addr : string) (now : Z) : upstreamTracker :=
  mkTracker (<[addr := now]> (lastErr t))
    (<[addr := wrap 64 (default 0%Z (transportFailures t !! addr) + 1)]> (transportFailures t)).

Definition recordSuccess (t : upstreamTracker) (addr : string) : upstreamTracker :=
  mkTracker (delete addr (lastErr t)) (transportFailures t).

Definition TransportFailureCounts (t : upstreamTracker) : gmap string Z := transportFailures t.

(** ** One exchange *)

Definition errReplyMismatch : error := ErrText "reply does not match the query".
Definition errDoHRedirect : error := ErrText "redirect refused".
Definition maxDoHResponse : Z := MaxMsgSize.

Definition is_https (u : string) : bool := has_prefix "https://" u.

(** What the HTTP client and the message library do in one DoH request: the
    packing, the request, the response with its body (the bytes up to the end
    or the error), and [Unpack]. *)
Record DoHResult := mkDoH {
  doh_pack : option error;
  doh_request : option error;
  doh_do : error + (Z * (string * option error));
  doh_unpack : string -> error + Msg;
}.

(** What one attempt on an upstream meets. *)
Record NetResult := mkNet {
  net_udp : error + Msg;
  net_tcp : error + Msg;
  net_doh : DoHResult;
}.

(** A message that leaves the host. *)
Inductive Contact :=
  | ContactUDP (upstream : string) (q : Msg)
  | ContactTCP (upstream : string) (q : Msg)
  | ContactDoH (upstream : string) (q : Msg).

(** [io.ReadAll] of a body behind [io.LimitReader]. *)
Definition read_limited (limit : Z) (body : string * option error) : error + string :=
  let '(bytes, err) := body in
  if (limit <=? slen bytes)%Z then inr (take_bytes (Z.to_nat limit) bytes)
  else match err with Some e => inl e | None => inr bytes end.

(** [errors.As] for [*url.Error]: its inner error. *)
Definition as_url (e : error) : option error :=
  match e with ErrURL _ _ inner => Some inner | _ => None end.

Section upstream.
Context `{HUL : UnicodeLower} `{HDNS : MiekgDNS} `{HURL : UrlParse}.

(** [checkReply]: [None] when the reply answers the query. *)
Definition checkReply (req resp : Msg) : option error :=
  if negb (Response resp) || negb (Opcode resp =? OpcodeQuery)%Z
  then Some errReplyMismatch
  else match Questions resp, Questions req with
  | [got], want :: _ =>
      if negb (Qtype got =? Qtype want)%Z || negb (Qclass got =? Qclass want)%Z
         || negb (equal_fold (QName got) (QName want))
      then Some errReplyMismatch else None
  | _, _ => Some errReplyMismatch
  end.

Definition refuseRedirect : option error := Some errDoHRedirect.

Definition exchangeDoH (req : Msg) (upstream : string) (d : DoHResult)
    : list Contact * (error + Msg) :=
  match doh_pack d with
  | Some err => ([], inl (ErrWrap "packing DoH query: " err ""))
  | None =>
      match doh_request d with
      | Some err => ([], inl (ErrWrap "building DoH request: " err ""))
      | None =>
          let shown := URL upstream in
          ([ContactDoH upstream (packDoH req)],
           match doh_do d with
           | inl err =>
               let err := default err (err_as as_url (err_chain err)) in
               inl (ErrWrap ("DoH request to " +:+ shown +:+ ": ") err "")
           | inr (status, body) =>
               if negb (status =? 200)%Z
               then inl (ErrText ("DoH request to " +:+ shown +:+ ": status " +:+ itoa (Z.to_N status)))
               else match read_limited maxDoHResponse body with
               | inl err => inl (ErrWrap ("reading DoH response from " +:+ shown +:+ ": ") err "")
               | inr bytes =>
                   match doh_unpack d bytes with
                   | inl err => inl (ErrWrap ("unpacking DoH response from " +:+ shown +:+ ": ") err "")
                   | inr out => inr (set_Id (Id req) out)
                   end
               end
           end)
      end
  end.

Definition exchange (req : Msg) (upstream : string) (n : NetResult)
    : list Contact * (error + Msg) :=
  if is_https upstream then
    let '(cs, r) := exchangeDoH req upstream (net_doh n) in
    (cs, match r with
         | inl err => inl err
         | inr resp => match checkReply req resp with
                       | Some err => inl err
                       | None => inr resp
                       end
         end)
  else
    match net_udp n with
    | inl err => ([ContactUDP upstream req], inl err)
    | inr resp =>
        match checkReply req resp with
        | Some err => ([ContactUDP upstream req], inl err)
        | None =>
            if negb (Truncated resp) then ([ContactUDP upstream req], inr resp)
            else
              ([ContactUDP upstream req; ContactTCP upstream req],
               inr (match net_tcp n with
                    | inl _ => resp
                    | inr full => match checkReply req full with
                                  | Some _ => resp
                                  | None => full
                                  end
                    end))
        end
    end.

(** ** Forwarding *)

(** What one step of a sweep meets: what the other queries did to the shared
    tracker, the context, the network, and the time after a failure. *)
Record Attempt := mkAttempt {
  at_other : upstreamTracker -> upstreamTracker;
  at_ctx : option error;
  at_net : NetResult;
  at_now : Z;
}.

(** The state of a call of [forwardWith], with the trace: the upstreams that
    were contacted, in order, with the messages sent. *)
Record Fwd := mkFwd {
  f_tracker : upstreamTracker;
  f_tried : gset string;
  f_causes : list (string * error);
  f_contacts : list (string * list Contact);
  f_fallbacks : Z;
}.

Definition countPlaintextFallback (used : string) (upstreams : list string) (n : Z) : Z :=
  if is_https used then n
  else if existsb is_https upstreams then wrap 64 (n + 1) else n.

(** The exchange of one step and what the tracker learns from it. *)
Definition try_upstream (req : Msg) (upstreams : list string) (u : string) (a : Attempt) (s : Fwd)
    : Fwd * option (error + Msg) :=
  let '(cs, r) := exchange req u (at_net a) in
  match r with
  | inr resp =>
      (mkFwd (recordSuccess (f_tracker s) u) (f_tried s) (f_causes s)
         (f_contacts s ++ [(u, cs)])%list (countPlaintextFallback u upstreams (f_fallbacks s)),
       Some (inr resp))
  | inl err =>
      (mkFwd (recordFailure (f_tracker s) u (at_now a)) (f_tried s)
         (f_causes s ++ [(u, err)])%list (f_contacts s ++ [(u, cs)])%list (f_fallbacks s),
       None)
  end.

Definition see_others (a : Attempt) (s : Fwd) : Fwd :=
  mkFwd (at_other a (f_tracker s)) (f_tried s) (f_causes s) (f_contacts s) (f_fallbacks s).

Definition add_tried (u : string) (s : Fwd) : Fwd :=
  mkFwd (f_tracker s) ({[u]} ∪ f_tried s) (f_causes s) (f_contacts s) (f_fallbacks s).

(** The first sweep, with the time [now] at the start of the call; step [i] is
    the [i]-th of the call. *)
Fixpoint sweep1 (env : nat -> Attempt) (i : nat) (req : Msg) (upstreams : list string) (now : Z)
    (l : list string) (s : Fwd) : Fwd * option (error + Msg) :=
  match l with
  | [] => (s, None)
  | u :: l' =>
      let s := see_others (env i) s in
      match at_ctx (env i) with
      | Some err => (s, Some (inl err))
      | None =>
          if shouldSkip (f_tracker s) u now then sweep1 env (S i) req upstreams now l' s
          else
            match try_upstream req upstreams u (env i) (add_tried u s) with
            | (s, Some r) => (s, Some r)
            | (s, None) => sweep1 env (S i) req upstreams now l' s
            end
      end
  end.

Fixpoint sweep2 (env : nat -> Attempt) (i : nat) (req : Msg) (upstreams : list string)
    (l : list string) (s : Fwd) : Fwd * option (error + Msg) :=
  match l with
  | [] => (s, None)
  | u :: l' =>
      let s := see_others (env i) s in
      match at_ctx (env i) with
      | Some err => (s, Some (inl err))
      | None =>
          if mem u (f_tried s) then sweep2 env (S i) req upstreams l' s
          else
            match try_upstream req upstreams u (env i) s with
            | (s, Some r) => (s, Some r)
            | (s, None) => sweep2 env (S i) req upstreams l' s
            end
      end
  end.

Definition fwd_start (t : upstreamTracker) (fallbacks : Z) : Fwd := mkFwd t ∅ [] [] fallbacks.

Definition forwardWith (env : nat -> Attempt) (now : Z) (req : Msg) (upstreams : list string)
    (tracker : upstreamTracker) (fallbacks : Z) : Fwd * (error + Msg) :=
  let n := length upstreams in
  match sweep1 env 0 req upstreams now upstreams (fwd_start tracker fallbacks) with
  | (s, Some r) => (s, r)
  | (s, None) =>
      match sweep2 env n req upstreams upstreams s with
      | (s, Some r) => (s, r)
      | (s, None) =>
          (s, match f_causes s, at_ctx (env (n + n)%nat) with
              | [], Some err => inl err
              | _, _ => inl (ErrForward (f_causes s))
              end)
      end
  end.

(** [forward]: on the shared tracker. *)
Definition forward := forwardWith.

(** [clockSuspect]: an expired or not yet valid certificate. *)
Definition as_cert (e : error) : option Z :=
  match e with ErrCertInvalid reason _ => Some reason | _ => None end.

Definition clockSuspect (err : error) : bool :=
  match err_as as_cert (err_chain err) with
  | Some reason => (reason =? x509_Expired)%Z
  | None => false
  end.

(** [PlaintextFallbacks]. *)
Definition PlaintextFallbacks (s : Fwd) : Z := f_fallbacks s.
End upstream.

(** ** One exchange *)

Section exchange_lemmas.
Context `{HUL : UnicodeLower} `{HDNS : MiekgDNS} `{HURL : UrlParse}.

(** What [checkReply] accepts. *)
Definition answers (req resp : Msg) : Prop :=
  Response resp = true /\ Opcode resp = OpcodeQuery /\
  exists got want rest, Questions resp = [got] /\ Questions req = want :: rest /\
    Qtype got = Qtype want /\ Qclass got = Qclass want /\
    equal_fold (QName got) (QName want) = true.

Lemma checkReply_None req resp : checkReply req resp = None <-> answers req resp.
Proof.
  unfold checkReply, answers. split.
  - intros Hc. destruct (Response resp); simpl in Hc; [|done].
    destruct (Z.eqb_spec (Opcode resp) OpcodeQuery) as [Ho|]; simpl in Hc; [|done].
    destruct (Questions resp) as [|got [|]]; try done.
    destruct (Questions req) as [|want rest]; [done |].
    destruct (Z.eqb_spec (Qtype got) (Qtype want)) as [H1|]; [|done].
    destruct (Z.eqb_spec (Qclass got) (Qclass want)) as [H2|]; [|done].
    destruct (equal_fold (QName got) (QName want)) eqn:H3; [|done].
    split_and!; [done | done |]. by exists got, want, rest.
  - intros (-> & -> & got & want & rest & -> & -> & -> & -> & ->).
    by rewrite !Z.eqb_refl.
Qed.

Lemma set_Id_answers req resp id : answers req (set_Id id resp) <-> answers req resp.
Proof. done. Qed.

(** The messages of one attempt: to that upstream, and nothing but the query
    (for DoH, packed with ID 0 and padding). *)
Definition own_contact (req : Msg) (u : string) (c : Contact) : Prop :=
  c = ContactUDP u req \/ c = ContactTCP u req \/ c = ContactDoH u (packDoH req).

Lemma exchange_facts (req : Msg) (u : string) (n : NetResult) :
  let '(cs, r) := exchange req u n in
  Forall (own_contact req u) cs /\
  (is_https u = true -> forall c, c ∈ cs -> c = ContactDoH u (packDoH req)) /\
  (is_https u = false -> head cs = Some (ContactUDP u req)) /\
  (ContactTCP u req ∈ cs -> exists resp, net_udp n = inr resp /\ Truncated resp = true) /\
  forall resp, r = inr resp -> answers req resp /\
    (is_https u = false -> Truncated resp = true ->
     forall full, net_tcp n = inr full -> answers req full -> resp = full).
Proof.
  unfold exchange. destruct (is_https u) eqn:Hu.
  - assert (match exchangeDoH req u (net_doh n) with
            (cs, _) => cs = [] \/ cs = [ContactDoH u (packDoH req)] end) as Hcs.
    { unfold exchangeDoH. destruct (doh_pack _); [by left |]. destruct (doh_request _); [by left |].
      by right. }
    destruct (exchangeDoH req u (net_doh n)) as [cs r].
    assert (forall c, c ∈ cs -> c = ContactDoH u (packDoH req)) as Hall.
    { destruct Hcs as [-> | ->]; [by intros c Hc%elem_of_nil |].
      by intros c Hc%list_elem_of_singleton. }
    split_and!; [| done | done | |].
    + rewrite Forall_forall. intros c Hc. right. right. by apply Hall.
    + intros Hc. by apply Hall in Hc.
    + intros resp Hr. split; [|done]. destruct r as [err|out]; [done |].
      destruct (checkReply req out) eqn:Hck; [done |]. injection Hr as ->.
      by apply checkReply_None.
  - destruct (net_udp n) as [err|resp] eqn:Hudp; [|
      destruct (checkReply req resp) eqn:Hck; [|
      apply checkReply_None in Hck; destruct (Truncated resp) eqn:Ht; cbn [negb]]].
    1, 2, 4: split_and!; [by repeat constructor | done | done
      | by intros Hc%list_elem_of_singleton |].
    + done.
    + done.
    + intros r [= <-]. split; [done | congruence].
    + split_and!; [| done | done | by exists resp |].
      { apply Forall_cons. split; [by left |]. apply Forall_cons. by split; [right; left | constructor]. }
      intros r [= <-]. destruct (net_tcp n) as [|full] eqn:Htcp; [by split |].
      destruct (checkReply req full) eqn:Hcf.
      * split; [done |]. intros _ _ full' [= <-] Ha. apply checkReply_None in Ha. congruence.
      * apply checkReply_None in Hcf. split; [done |]. by intros _ _ full' [= <-].
Qed.

Lemma exchange_own req u n cs r :
  exchange req u n = (cs, r) -> Forall (own_contact req u) cs.
Proof. intros Hx. pose proof (exchange_facts req u n) as Hf. rewrite Hx in Hf. by destruct Hf. Qed.

Lemma exchange_answers req u n cs resp :
  exchange req u n = (cs, inr resp) -> answers req resp.
Proof.
  intros Hx. pose proof (exchange_facts req u n) as Hf. rewrite Hx in Hf.
  destruct Hf as (_ & _ & _ & _ & Hr). by apply Hr.
Qed.

(** An attempt sends only the query, only to its upstream, encrypted when
    the upstream is a DoH URL; TCP is used only after a truncated UDP reply. A
    reply it returns answers the query: same name without regard to case, same
    type and class. A truncated reply is returned only when the TCP retry gave
    no reply that answers the query. *)
Theorem exchange_spec (req : Msg) (u : string) (n : NetResult) :
  let '(cs, r) := exchange req u n in
  Forall (own_contact req u) cs /\
  (is_https u = true -> forall c, c ∈ cs -> c = ContactDoH u (packDoH req)) /\
  (is_https u = false -> head cs = Some (ContactUDP u req)) /\
  (ContactTCP u req ∈ cs -> exists resp, net_udp n = inr resp /\ Truncated resp = true) /\
  forall resp, r = inr resp -> answers req resp /\
    (is_https u = false -> Truncated resp = true ->
     forall full, net_tcp n = inr full -> answers req full -> resp = full).
Proof. exact (exchange_facts req u n). Qed.
End exchange_lemmas.

(** ** The sweeps *)

Section sweeps.
Context `{HUL : UnicodeLower} `{HDNS : MiekgDNS} `{HURL : UrlParse}.
Context (env : nat -> Attempt) (req : Msg).

Definition contacted (s : Fwd) : list string := map fst (f_contacts s).

Lemma try_upstream_spec ups u a s s' r :
  try_upstream req ups u a s = (s', r) ->
  exists cs res, exchange req u (at_net a) = (cs, res) /\
    f_contacts s' = (f_contacts s ++ [(u, cs)])%list /\ f_tried s' = f_tried s /\
    match res with
    | inl e => r = None /\ f_causes s' = (f_causes s ++ [(u, e)])%list /\
               f_tracker s' = recordFailure (f_tracker s) u (at_now a)
    | inr resp => r = Some (inr resp) /\ f_causes s' = f_causes s
    end.
Proof.
  unfold try_upstream. destruct (exchange req u (at_net a)) as [cs res].
  intros Ht. exists cs, res. destruct res; injection Ht as <- <-; done.
Qed.

(** What a sweep over [l] does, from [s] to [s']: it contacts some of the
    upstreams of [l] in order, and ends with the context's error, with the
    reply of the last one contacted, or with a failure of each. *)
Definition sweep_ok (l : list string) (s s' : Fwd) (r : option (error + Msg)) : Prop :=
  exists cs, f_contacts s' = (f_contacts s ++ cs)%list /\ sublist (map fst cs) l /\
    (forall u c, (u, c) ∈ cs -> exists i res, exchange req u (at_net (env i)) = (c, res)) /\
    match r with
    | None => map fst (f_causes s') = (map fst (f_causes s) ++ map fst cs)%list
    | Some (inl e) => exists i, at_ctx (env i) = Some e
    | Some (inr resp) =>
        exists pre u c i, cs = (pre ++ [(u, c)])%list /\
          exchange req u (at_net (env i)) = (c, inr resp) /\
          map fst (f_causes s') = (map fst (f_causes s) ++ map fst pre)%list
    end.

Lemma sweep_ok_nil s : sweep_ok [] s s None.
Proof.
  exists []. rewrite !app_nil_r. split_and!; [done | constructor | | done].
  by intros u c Hu%elem_of_nil.
Qed.

Lemma sweep_ok_ctx l s s' e i :
  f_contacts s' = f_contacts s -> at_ctx (env i) = Some e -> sweep_ok l s s' (Some (inl e)).
Proof.
  intros Hc He. exists []. rewrite app_nil_r. split_and!; [done | apply sublist_nil_l | | by exists i].
  by intros u c Hu%elem_of_nil.
Qed.

Lemma sweep_ok_skip u l s s1 s' r :
  f_contacts s1 = f_contacts s -> f_causes s1 = f_causes s ->
  sweep_ok l s1 s' r -> sweep_ok (u :: l) s s' r.
Proof.
  intros Hc Hk (cs & H1 & H2 & H3 & H4). exists cs. rewrite <- Hc, <- Hk.
  split_and!; [done | by constructor | done | done].
Qed.

Lemma sweep_ok_same l s s1 s' r :
  f_contacts s1 = f_contacts s -> f_causes s1 = f_causes s ->
  sweep_ok l s1 s' r -> sweep_ok l s s' r.
Proof. intros Hc Hk Hs. unfold sweep_ok in *. by rewrite <- Hc, <- Hk. Qed.

Lemma sweep_ok_reply ups u l i s s' r :
  try_upstream req ups u (env i) s = (s', Some r) -> sweep_ok (u :: l) s s' (Some r).
Proof.
  intros (cs & res & Hx & Hc & _ & Hr)%try_upstream_spec. exists [(u, cs)].
  destruct res as [e|resp]; destruct Hr as [Hr Hk]; [done |]. injection Hr as ->.
  split_and!; [done | apply sublist_skip, sublist_nil_l | | ].
  - intros u' c [= -> ->]%list_elem_of_singleton. eauto.
  - exists [], u, cs, i. rewrite Hk. simpl. by rewrite app_nil_r.
Qed.

Lemma sweep_ok_failed ups u l i s s1 s' r :
  try_upstream req ups u (env i) s = (s1, None) ->
  sweep_ok l s1 s' r -> sweep_ok (u :: l) s s' r.
Proof.
  intros (cs & res & Hx & Hc & _ & Hr)%try_upstream_spec (cs' & H1 & H2 & H3 & H4).
  destruct res as [e|resp]; [|by destruct Hr]. destruct Hr as (_ & Hk & _).
  exists ((u, cs) :: cs'). split_and!.
  - by rewrite H1, Hc, <- app_assoc.
  - by constructor.
  - intros u' c [[= -> ->]|Hin]%elem_of_cons; eauto.
  - rewrite Hk in H4. destruct r as [[e'|resp]|].
    + done.
    + destruct H4 as (pre & u' & c & j & -> & Hj & Hp). exists ((u, cs) :: pre), u', c, j.
      split_and!; [done | done |]. by rewrite Hp, map_app, <- app_assoc.
    + by rewrite H4, map_app, <- app_assoc.
Qed.

Lemma sweep1_ok ups now l i s s' r :
  sweep1 env i req ups now l s = (s', r) -> sweep_ok l s s' r.
Proof.
  revert i s. induction l as [|u l IH]; intros i s; cbn [sweep1].
  { intros [= <- <-]. apply sweep_ok_nil. }
  destruct (at_ctx (env i)) as [e|] eqn:Hctx.
  { intros [= <- <-]. by eapply sweep_ok_ctx. }
  destruct (shouldSkip _ _ _).
  { intros Hs. by eapply sweep_ok_skip; [| | apply (IH _ _ Hs)]. }
  destruct (try_upstream req ups u (env i) _) as [s1 [r1|]] eqn:Ht; intros Hs.
  - injection Hs as <- <-. eapply sweep_ok_same; [| | by eapply sweep_ok_reply]; done.
  - eapply sweep_ok_same; [| | eapply sweep_ok_failed; [exact Ht | by eapply IH]]; done.
Qed.

(** Each upstream of the list was tried or skipped when the first sweep is
    over, and those tried are those contacted. *)
Lemma sweep1_tried ups now l i s s' r :
  (forall u, u ∈ f_tried s <-> u ∈ contacted s) ->
  sweep1 env i req ups now l s = (s', r) -> forall u, u ∈ f_tried s' <-> u ∈ contacted s'.
Proof.
  revert i s. induction l as [|u l IH]; intros i s Hi; cbn [sweep1]; [by intros [= <- <-] |].
  destruct (at_ctx (env i)); [by intros [= <- <-] |].
  destruct (shouldSkip _ _ _); [by apply IH |].
  destruct (try_upstream req ups u (env i) _) as [s1 r1] eqn:Ht.
  apply try_upstream_spec in Ht as (cs & res & _ & Hc & Htr & _).
  assert (forall u', u' ∈ f_tried s1 <-> u' ∈ contacted s1) as H1.
  { intros u'. unfold contacted in *. rewrite Htr, Hc, map_app, elem_of_app. cbn.
    rewrite elem_of_union, elem_of_singleton, list_elem_of_singleton, Hi. tauto. }
  destruct r1; [by intros [= <- <-] | by apply IH].
Qed.

Lemma sweep2_ok ups l i s s' r :
  sweep2 env i req ups l s = (s', r) ->
  sweep_ok (List.filter (fun u => negb (mem u (f_tried s))) l) s s' r.
Proof.
  revert i s. induction l as [|u l IH]; intros i s; cbn [sweep2 List.filter].
  { intros [= <- <-]. apply sweep_ok_nil. }
  destruct (at_ctx (env i)) as [e|] eqn:Hctx.
  { intros [= <- <-]. by eapply sweep_ok_ctx. }
  cbn [f_tried see_others]. destruct (mem u (f_tried s)) eqn:Hm; cbn [negb].
  { intros Hs. eapply sweep_ok_same; [| | apply (IH _ _ Hs)]; done. }
  destruct (try_upstream req ups u (env i) _) as [s1 [r1|]] eqn:Ht; intros Hs.
  - injection Hs as <- <-. eapply sweep_ok_same; [| | by eapply sweep_ok_reply]; done.
  - pose proof Ht as (_ & _ & _ & _ & Htr & _)%try_upstream_spec.
    eapply sweep_ok_same; [| | eapply sweep_ok_failed; [exact Ht |]]; [done | done |].
    specialize (IH _ _ Hs). by rewrite Htr in IH.
Qed.

(** A second sweep that ends without a reply has contacted every upstream
    that the first one had not. *)
Lemma sweep2_all ups l i s s' :
  sweep2 env i req ups l s = (s', None) ->
  (forall u, u ∈ contacted s -> u ∈ contacted s') /\
  forall u, u ∈ l -> u ∈ f_tried s \/ u ∈ contacted s'.
Proof.
  revert i s. induction l as [|u l IH]; intros i s; cbn [sweep2].
  { intros [= <-]. split; [done | by intros u Hu%elem_of_nil]. }
  destruct (at_ctx (env i)); [done |]. cbn [f_tried see_others].
  destruct (mem u (f_tried s)) eqn:Hm.
  { intros Hs. destruct (IH _ _ Hs) as [H1 H2]. split; [exact H1 |].
    intros u' [->|Hu]%elem_of_cons; [left; by apply mem_true | by apply H2]. }
  destruct (try_upstream req ups u (env i) _) as [s1 [r1|]] eqn:Ht; [done |].
  apply try_upstream_spec in Ht as (cs & res & _ & Hc & Htr & _).
  intros Hs. destruct (IH _ _ Hs) as [H1 H2].
  assert (forall u', u' ∈ contacted s \/ u' = u -> u' ∈ contacted s') as H3.
  { intros u' Hu. apply H1. unfold contacted in *. rewrite Hc, map_app. cbn.
    rewrite elem_of_app, list_elem_of_singleton. exact Hu. }
  split; [by intros; apply H3; left |].
  intros u' [->|Hu]%elem_of_cons; [right; apply H3; by right |].
  rewrite Htr in H2. by apply H2.
Qed.
End sweeps.

(** ** Forwarding *)

Section forwarding.
Context `{HUL : UnicodeLower} `{HDNS : MiekgDNS} `{HURL : UrlParse}.

Lemma filter_sublist {A} (f : A -> bool) l : sublist (List.filter f l) l.
Proof. induction l as [|x l IH]; simpl; [done |]. destruct (f x); by constructor. Qed.

(** A call of [forwardWith] as its two sweeps. *)
Lemma forward_cases env now req ups t n s r :
  forwardWith env now req ups t n = (s, r) ->
  sweep1 env 0 req ups now ups (fwd_start t n) = (s, Some r) \/
  exists s1, sweep1 env 0 req ups now ups (fwd_start t n) = (s1, None) /\
    (sweep2 env (length ups) req ups ups s1 = (s, Some r) \/
     sweep2 env (length ups) req ups ups s1 = (s, None) /\
     (r = inl (ErrForward (f_causes s)) \/ exists i e, at_ctx (env i) = Some e /\ r = inl e)).
Proof.
  unfold forwardWith. destruct (sweep1 _ _ _ _ _ _ _) as [s1 [r1|]]; [intros [= <- <-]; by left |].
  right. exists s1. split; [done |].
  destruct (sweep2 _ _ _ _ _ _) as [s2 [r2|]]; injection H as <- <-; [by left |]. right.
  split; [done |]. destruct (f_causes s2); [|by left].
  destruct (at_ctx (env (length ups + length ups)%nat)) as [e|] eqn:He; [right; eauto | by left].
Qed.

(** Every contact of a call is an exchange with an upstream of the list. *)
Lemma forward_contacts_sub env now req ups t n s r u c :
  forwardWith env now req ups t n = (s, r) -> (u, c) ∈ f_contacts s ->
  u ∈ ups /\ Forall (own_contact req u) c.
Proof.
  assert (forall l s0 s' r', sublist l ups -> sweep_ok env req l s0 s' r' ->
    (forall u c, (u, c) ∈ f_contacts s0 -> u ∈ ups /\ Forall (own_contact req u) c) ->
    forall u c, (u, c) ∈ f_contacts s' -> u ∈ ups /\ Forall (own_contact req u) c) as Hsw.
  { intros l s0 s' r' Hl (cs & Hc & Hsub & Hx & _) H0 u' c' Hin. rewrite Hc in Hin.
    apply elem_of_app in Hin as [Hin|Hin]; [by apply H0 |]. split.
    - apply (sublist_subseteq _ _ Hl), (sublist_subseteq _ _ Hsub). apply list_elem_of_fmap.
      by exists (u', c').
    - destruct (Hx _ _ Hin) as (i & res & He). by eapply exchange_own. }
  intros Hf. revert u c. apply forward_cases in Hf as [Hs|(s1 & Hs1 & Hs2)].
  - eapply Hsw; [reflexivity | by eapply sweep1_ok |]. by intros u c Hu%elem_of_nil.
  - assert (exists r', sweep2 env (length ups) req ups ups s1 = (s, r')) as [r' Hs]
      by (destruct Hs2 as [Hs|[Hs _]]; eauto).
    eapply Hsw; [apply filter_sublist | by eapply sweep2_ok |].
    eapply Hsw; [reflexivity | by eapply sweep1_ok |]. by intros u c Hu%elem_of_nil.
Qed.


(** C11. When forwarding fails, either the context ended, or the error names
    every upstream that was contacted, in order, and that is every upstream of
    the list, those in cooldown included. *)
Theorem forward_fails_after_all (env : nat -> Attempt) (now : Z) (req : Msg) (ups : list string)
  (t : upstreamTracker) (n : Z) (e : error) (s : Fwd)
  (Hf : forwardWith env now req ups t n = (s, inl e)) :
  (exists i, at_ctx (env i) = Some e) \/
  (e = ErrForward (f_causes s) /\ map fst (f_causes s) = contacted s /\
   forall u, u ∈ ups -> u ∈ contacted s).
Proof.
  apply forward_cases in Hf as [Hs|(s1 & Hs1 & [Hs|[Hs He]])].
  - left. apply sweep1_ok in Hs as (cs & _ & _ & _ & He). exact He.
  - left. apply sweep2_ok in Hs as (cs & _ & _ & _ & He). exact He.
  - destruct He as [[= ->]|(i & e' & Hi & [= ->])]; [|left; eauto]. right. split; [done |].
    assert (forall u, u ∈ f_tried s1 <-> u ∈ contacted s1) as Htr.
    { eapply sweep1_tried; [|exact Hs1]. intros u. unfold contacted. cbn. set_solver. }
    pose proof Hs as [Hmono Hall]%sweep2_all.
    apply sweep1_ok in Hs1 as (cs1 & Hc1 & _ & _ & Hk1).
    apply sweep2_ok in Hs as (cs2 & Hc2 & _ & _ & Hk2).
    unfold contacted in *. split.
    + rewrite Hc2, map_app, Hk2, Hk1, Hc1. done.
    + intros u Hu. destruct (Hall u Hu) as [Ht|Ht]; [|done]. apply Hmono. by rewrite <- Htr.
Qed.

(** C12. A reply that forwarding returns answers the query, and comes from the
    last upstream contacted; every upstream contacted before it has failed. *)
Theorem forward_reply (env : nat -> Attempt) (now : Z) (req : Msg) (ups : list string)
  (t : upstreamTracker) (n : Z) (resp : Msg) (s : Fwd)
  (Hf : forwardWith env now req ups t n = (s, inr resp)) :
  answers req resp /\
  exists u c i, last (f_contacts s) = Some (u, c) /\ u ∈ ups /\
    exchange req u (at_net (env i)) = (c, inr resp) /\
    (map fst (f_causes s) ++ [u])%list = contacted s.
Proof.
  assert (exists u c i, last (f_contacts s) = Some (u, c) /\ u ∈ ups /\
    exchange req u (at_net (env i)) = (c, inr resp) /\
    (map fst (f_causes s) ++ [u])%list = contacted s) as Hx.
  { apply forward_cases in Hf as [Hs|(s1 & Hs1 & [Hs|[_ [He|(i & e & _ & He)]]])]; try done.
    - apply sweep1_ok in Hs as (cs & Hc & Hsub & _ & pre & u & c & i & -> & Hx & Hk).
      exists u, c, i. unfold contacted. rewrite Hc, Hk. cbn. rewrite last_snoc, map_app.
      split_and!; try done. apply (sublist_subseteq _ _ Hsub). rewrite map_app. set_solver.
    - apply sweep1_ok in Hs1 as (cs1 & Hc1 & _ & _ & Hk1). cbn in Hc1, Hk1.
      apply sweep2_ok in Hs as (cs & Hc & Hsub & _ & pre & u & c & i & -> & Hx & Hk).
      exists u, c, i. unfold contacted. rewrite Hc, Hk, Hk1, Hc1, !map_app, app_assoc, last_snoc, app_assoc.
      split_and!; try done. eapply sublist_subseteq; [apply filter_sublist |].
      apply (sublist_subseteq _ _ Hsub). rewrite map_app. set_solver. }
  split; [|exact Hx]. destruct Hx as (u & c & i & _ & _ & Hx & _).
  by eapply exchange_answers.
Qed.
End forwarding.

(** ** Plain upstreams come last *)

Section plaintext.
Context `{HUL : UnicodeLower} `{HDNS : MiekgDNS} `{HURL : UrlParse}.
Context (env : nat -> Attempt) (req : Msg) (ups : list string) (now : Z).

Definition failed_ (s : Fwd) : list string := map fst (f_causes s).

Lemma try_failed_mono u a s s' r :
  try_upstream req ups u a s = (s', r) -> failed_ s ⊆ failed_ s'.
Proof.
  intros (cs & res & _ & _ & _ & Hr)%try_upstream_spec. unfold failed_.
  destruct res; destruct Hr as [_ Hr]; [destruct Hr as [-> _] | by rewrite Hr].
  rewrite map_app. set_solver.
Qed.

Lemma sweep1_failed_mono l i s s' r :
  sweep1 env i req ups now l s = (s', r) -> failed_ s ⊆ failed_ s'.
Proof.
  revert i s. induction l as [|u l IH]; intros i s; cbn [sweep1]; [by intros [= <- _] |].
  destruct (at_ctx (env i)); [by intros [= <- _] |].
  destruct (shouldSkip _ _ _); [intros Hs; apply (IH _ _ Hs) |].
  destruct (try_upstream req ups u (env i) _) as [s1 r1] eqn:Ht.
  apply try_failed_mono in Ht. destruct r1 as [r1|]; [by intros [= <- _] |].
  intros Hs. etrans; [exact Ht | exact (IH _ _ Hs)].
Qed.

Lemma sweep2_failed_mono l i s s' r :
  sweep2 env i req ups l s = (s', r) -> failed_ s ⊆ failed_ s'.
Proof.
  revert i s. induction l as [|u l IH]; intros i s; cbn [sweep2]; [by intros [= <- _] |].
  destruct (at_ctx (env i)); [by intros [= <- _] |].
  destruct (mem _ _); [intros Hs; apply (IH _ _ Hs) |].
  destruct (try_upstream req ups u (env i) _) as [s1 r1] eqn:Ht.
  apply try_failed_mono in Ht. destruct r1 as [r1|]; [by intros [= <- _] |].
  intros Hs. etrans; [exact Ht | exact (IH _ _ Hs)].
Qed.

Lemma shouldSkip_other t u d at_ :
  d <> u -> shouldSkip (recordFailure t u at_) d now = shouldSkip t d now.
Proof. intros Hd. unfold shouldSkip. simpl. by rewrite lookup_insert_ne. Qed.

(** A first sweep over [l1 ++ l2] either stops in [l1], or every upstream of
    [l1] has failed or was skipped. *)
Lemma sweep1_front (Hq : forall i tr, at_other (env i) tr = tr) l1 l2 i s s' r :
  NoDup l1 ->
  sweep1 env i req ups now (l1 ++ l2) s = (s', r) ->
  (is_Some r /\ exists new, contacted s' = (contacted s ++ new)%list /\ new ⊆ l1) \/
  (forall d, d ∈ l1 -> d ∈ failed_ s' \/ shouldSkip (f_tracker s) d now = true).
Proof.
  revert i s. induction l1 as [|d l1 IH]; intros i s Hnd; [right; by intros d Hd%elem_of_nil |].
  apply NoDup_cons in Hnd as [Hd Hnd]. cbn [app sweep1]. cbn [f_tracker see_others].
  rewrite Hq. destruct (at_ctx (env i)) as [e|].
  { intros [= <- <-]. left. split; [done |]. exists []. split; [by rewrite app_nil_r | set_solver]. }
  destruct (shouldSkip (f_tracker s) d now) eqn:Hskip.
  { intros Hs. destruct (IH _ _ Hnd Hs) as [[Hr (new & Hc & Hn)]|Hall].
    - left. split; [done |]. exists new. split; [done |]. set_solver.
    - right. cbn [f_tracker see_others] in Hall. rewrite Hq in Hall.
      intros d' [->|Hd']%elem_of_cons; [by right | by apply Hall]. }
  destruct (try_upstream req ups d (env i) _) as [s1 r1] eqn:Ht.
  apply try_upstream_spec in Ht as (cs & res & _ & Hc & _ & Hr).
  cbn [f_contacts f_tracker f_causes add_tried see_others] in *. rewrite Hq in Hr.
  destruct res as [e|resp].
  - destruct Hr as (-> & Hk & Htr). intros Hs. pose proof (sweep1_failed_mono _ _ _ _ _ Hs) as Hm.
    destruct (IH _ _ Hnd Hs) as [[Hsr (new & Hc' & Hn)]|Hall].
    + left. split; [done |]. exists (d :: new). unfold contacted in *.
      rewrite Hc', Hc, map_app, <- app_assoc. split; [done |]. set_solver.
    + right. intros d' [->|Hd']%elem_of_cons.
      * left. apply Hm. unfold failed_. rewrite Hk, map_app. cbn. set_solver.
      * specialize (Hall d' Hd'). rewrite Htr, shouldSkip_other in Hall by by intros ->. exact Hall.
  - destruct Hr as [-> _]. intros [= <- <-]. left. split; [done |]. exists [d].
    unfold contacted. rewrite Hc, map_app. split; [done |]. set_solver.
Qed.
End plaintext.

Section plaintext_last.
Context `{HUL : UnicodeLower} `{HDNS : MiekgDNS} `{HURL : UrlParse}.

(** With the DoH upstreams first in the list, a plain upstream is
    contacted only when each DoH upstream has failed in this query or was in
    its cooldown when the query arrived. *)
Theorem plaintext_last (env : nat -> Attempt) (now : Z) (req : Msg) (dohs plains : list string)
  (t : upstreamTracker) (n : Z) (s : Fwd) (r : error + Msg) (u : string)
  (Hf : forwardWith env now req (dohs ++ plains) t n = (s, r))
  (Hd : forall d, d ∈ dohs -> is_https d = true) (Hp : is_https u = false)
  (Hu : u ∈ contacted s) (Hnd : NoDup dohs)
  (Hq : forall i tr, at_other (env i) tr = tr) :
  forall d, d ∈ dohs -> d ∈ map fst (f_causes s) \/ shouldSkip t d now = true.
Proof.
  assert (forall new : list string, new ⊆ dohs -> u ∈ new -> False) as Hno.
  { intros new Hn Hin. apply Hn, Hd in Hin. congruence. }
  apply forward_cases in Hf. destruct Hf as [Hs|(s1 & Hs1 & Hs2)].
  - destruct (sweep1_front _ _ _ _ Hq _ _ _ _ _ _ Hnd Hs) as [[_ (new & Hc & Hn)]|Hall]; [|exact Hall].
    exfalso. rewrite Hc in Hu. by apply (Hno new).
  - destruct (sweep1_front _ _ _ _ Hq _ _ _ _ _ _ Hnd Hs1) as [[[] _]|Hall]; [done |].
    intros d Hin. destruct (Hall d Hin) as [Hfl|Hsk]; [|by right]. left.
    destruct Hs2 as [Hs|[Hs _]]; exact (sweep2_failed_mono _ _ _ _ _ _ _ _ Hs d Hfl).
Qed.
End plaintext_last.

Module UpstreamExamples.
Import RefDns.
#[local] Instance ascii_only : UnicodeLower := fun s => s.
#[local] Instance no_parse : UrlParse := fun _ => None.

Definition q_www : Question := mkQuestion "www.example." TypeA ClassINET.
Definition ex_query : Msg := mkMsg 7 false 0 false false true false false 0 [q_www] [] [] [].
Definition ex_reply : Msg := set_reply ex_query.

Definition no_doh : DoHResult := mkDoH None None (inl (ErrText "timeout")) (fun _ => inl (ErrText "")).
Definition up : Attempt :=
  mkAttempt (fun t => t) None (mkNet (inr ex_reply) (inl (ErrText "")) no_doh) 1000000000.
Definition down : Attempt :=
  mkAttempt (fun t => t) None (mkNet (inl (ErrText "timeout")) (inl (ErrText "")) no_doh) 1000000000.

Definition one : list string := ["192.168.1.1:53"].
Definition two : list string := ["https://9.9.9.9/dns-query"; "9.9.9.9:53"].


Definition ended (env : nat -> Attempt) (ups : list string) : Fwd * (error + Msg) :=
  forwardWith env 0 ex_query ups newUpstreamTracker 0.

Lemma forward_fails_after_all_witness :
  (exists i, at_ctx ((fun _ : nat => down) i) = Some (ErrForward (f_causes (fst (ended (fun _ => down) two))))) \/
  (ErrForward (f_causes (fst (ended (fun _ => down) two))) =
     ErrForward (f_causes (fst (ended (fun _ => down) two))) /\
   map fst (f_causes (fst (ended (fun _ => down) two))) = contacted (fst (ended (fun _ => down) two)) /\
   forall u, u ∈ two -> u ∈ contacted (fst (ended (fun _ => down) two))).
Proof.
  apply (forward_fails_after_all (fun _ => down) 0 ex_query two newUpstreamTracker 0
    (ErrForward (f_causes (fst (ended (fun _ => down) two)))) (fst (ended (fun _ => down) two))).
  vm_compute. reflexivity.
Defined.

Lemma forward_reply_witness : answers ex_query ex_reply.
Proof.
  apply (forward_reply (fun _ => up) 0 ex_query one newUpstreamTracker 0 ex_reply
    (fst (ended (fun _ => up) one))).
  vm_compute. reflexivity.
Defined.

(** The DoH upstream fails, then the plain one answers. *)
Lemma plaintext_last_witness :
  "https://9.9.9.9/dns-query" ∈ map fst (f_causes (fst (ended (fun _ => up) two))) \/
  shouldSkip newUpstreamTracker "https://9.9.9.9/dns-query" 0 = true.
Proof.
  apply (plaintext_last (fun _ => up) 0 ex_query ["https://9.9.9.9/dns-query"] ["9.9.9.9:53"]
    newUpstreamTracker 0 (fst (ended (fun _ => up) two)) (snd (ended (fun _ => up) two)) "9.9.9.9:53").
  - vm_compute. reflexivity.
  - intros d Hd. apply list_elem_of_singleton in Hd as ->. reflexivity.
  - reflexivity.
  - refine (bool_decide_unpack ("9.9.9.9:53" ∈ contacted (fst (ended (fun _ => up) two))) _).
    vm_compute. exact I.
  - apply NoDup_singleton.
  - reflexivity.
  - apply list_elem_of_singleton. reflexivity.
Defined.

(** A repeated entry in its cooldown is contacted once for each time it is in
    the list: the second sweep does not add to the tried set. *)
Definition cooling : upstreamTracker := mkTracker {["9.9.9.9:53" := 0%Z]} ∅.

Example repeated_entry_contacted_twice :
  contacted (fst (forwardWith (fun _ => down) 0 ex_query ["9.9.9.9:53"; "9.9.9.9:53"] cooling 0))
  = ["9.9.9.9:53"; "9.9.9.9:53"].
Proof. vm_compute. reflexivity. Qed.

(** A plain upstream before a DoH one is used first, with no DoH failure, and
    the query is counted as a plaintext fallback. *)
Example plain_first_used_first :
  let s := fst (ended (fun _ => up) ["9.9.9.9:53"; "https://9.9.9.9/dns-query"]) in
  contacted s = ["9.9.9.9:53"] /\ f_causes s = [] /\ f_fallbacks s = 1%Z.
Proof. vm_compute. done. Qed.
End UpstreamExamples.
