(* ===== verification/Failures.v ===== *)
(** * The failure summaries (internal/dnsserver/failures.go)

    What s-hole collects between two summary lines about the queries that it
    could not resolve and the replies that it could not send, and what a
    summary line holds. *)

From stdpp Require Import base numbers list gmap sets strings sorting.
From Stdlib Require Import Ascii ZArith Lia.
From S2P Require Import Prelude GoStrings GoUrl Redact Upstream.

Open Scope string_scope.

Definition failureReportInterval : Z := minute.
Definition maxReplyErrors : Z := 8.

(** [errForwardLimit] (handler.go), and [errors.Is] for it. *)
Definition errForwardLimit : error := ErrText "too many queries were waiting for an upstream".

Definition is_forward_limit (err : error) : bool :=
  existsb (fun e => match e with
                    | ErrText t => (t =? "too many queries were waiting for an upstream")%string
                    | _ => false
                    end) (err_chain err).

Definition as_forward (e : error) : option (list (string * error)) :=
  match e with ErrForward causes => Some causes | _ => None end.

(** ** Unresolved queries *)

Record failureLog := mkFailureLog {
  fa_count : Z;
  fa_causes : gmap string string;
  fa_clock : bool;
  fa_limited : bool;
}.

Definition newFailureLog : failureLog := mkFailureLog 0 ∅ false false.

Section record.
Context `{HURL : UrlParse}.

Definition record_cause (f : failureLog) (c : string * error) : failureLog :=
  mkFailureLog (fa_count f) (<[URL (fst c) := err_text (snd c)]> (fa_causes f))
    (if clockSuspect (snd c) then true else fa_clock f) (fa_limited f).

(** [failureLog.record]. *)
Definition record_failure (f : failureLog) (err : error) : failureLog :=
  let f := mkFailureLog (fa_count f + 1) (fa_causes f) (fa_clock f) (fa_limited f) in
  match err_as as_forward (err_chain err) with
  | Some causes => fold_left record_cause causes f
  | None =>
      if is_forward_limit err
      then mkFailureLog (fa_count f) (<["forward limit" := err_text err]> (fa_causes f)) (fa_clock f) true
      else mkFailureLog (fa_count f) (<["query" := err_text err]> (fa_causes f)) (fa_clock f) (fa_limited f)
  end.
End record.

(** The hint of a summary line. *)
Inductive failure_hint := HintUpstreams | HintClock | HintLimit | HintLimitAndUpstreams.

Record failure_summary := mkFailureSummary {
  fs_queries : Z;
  fs_causes : list string;
  fs_hint : failure_hint;
}.

(** [failureLog.flush]: the line that is logged, if any, and the new interval. *)
Definition flush_failures (f : failureLog) : option failure_summary * failureLog :=
  (if (fa_count f =? 0)%Z then None
   else
     let ups := merge_sort String.le (map fst (map_to_list (fa_causes f))) in
     let parts := map (fun u => u +:+ ": " +:+ default "" (fa_causes f !! u)) ups in
     let hint := if fa_clock f then HintClock
                 else if fa_limited f && (Z.of_nat (size (fa_causes f)) =? 1)%Z then HintLimit
                 else if fa_limited f then HintLimitAndUpstreams
                 else HintUpstreams in
     Some (mkFailureSummary (fa_count f) parts hint),
   newFailureLog).

(** ** Failed replies *)

Record replyLog := mkReplyLog {
  rl_count : Z;
  rl_errs : gset string;
}.

Definition newReplyLog : replyLog := mkReplyLog 0 ∅.

(** [replyLog.record]. *)
Definition record_reply (r : replyLog) (err : error) : replyLog :=
  let text := NetError err in
  mkReplyLog (rl_count r + 1)
    (if (Z.of_nat (size (rl_errs r)) <? maxReplyErrors)%Z then {[text]} ∪ rl_errs r else rl_errs r).

(** [replyLog.flush]. *)
Definition flush_replies (r : replyLog) : option (Z * list string) * replyLog :=
  (if (rl_count r =? 0)%Z then None
   else Some (rl_count r, merge_sort String.le (elements (rl_errs r))),
   newReplyLog).

(** ** The report *)

(** One call of [report] in [RunFailureReport]: the two summaries, the number
    of plaintext queries since the last report when there is one, and the new
    [last]. *)
Definition report (f : failureLog) (r : replyLog) (last fallbacks : Z)
    : (option failure_summary * option (Z * list string) * option Z) * (failureLog * replyLog * Z) :=
  let '(s, f) := flush_failures f in
  let '(t, r) := flush_replies r in
  let n := wrap 64 (fallbacks - last) in
  ((s, t, if (0 <? n)%Z then Some n else None), (f, r, fallbacks)).

(** ** Lemmas *)

Section bounded.
Context `{HURL : UrlParse}.

Lemma record_causes_count causes f : fa_count (fold_left record_cause causes f) = fa_count f.
Proof. revert f. induction causes as [|c l IH]; intros f; simpl; [done |]. by rewrite IH. Qed.

Lemma record_causes_dom (ok : gset string) causes f :
  (forall c, c ∈ causes -> URL (fst c) ∈ ok) ->
  dom (fa_causes f) ⊆ ok -> dom (fa_causes (fold_left record_cause causes f)) ⊆ ok.
Proof.
  revert f. induction causes as [|c l IH]; intros f Hc Hf; simpl; [done |].
  apply IH; [intros; apply Hc; by right |]. simpl. rewrite dom_insert.
  assert (URL (fst c) ∈ ok) by (apply Hc; by left). set_solver.
Qed.

(** The names that a failure log can hold: what is shown of the upstreams, and
    two fixed labels. *)
Definition cause_labels (ups : list string) : gset string :=
  list_to_set ("forward limit" :: "query" :: map URL ups).

(** The errors that the handler records: of a forward to upstreams of the
    list, or another one. *)
Definition error_of (ups : list string) (err : error) : Prop :=
  match err_as as_forward (err_chain err) with
  | Some causes => map fst causes ⊆ ups
  | None => True
  end.

Lemma record_failure_spec ups f err :
  error_of ups err -> dom (fa_causes f) ⊆ cause_labels ups ->
  fa_count (record_failure f err) = (fa_count f + 1)%Z /\
  dom (fa_causes (record_failure f err)) ⊆ cause_labels ups.
Proof.
  unfold error_of, record_failure. intros He Hd.
  assert (forall s t l, s ∈ cause_labels ups -> dom l ⊆ cause_labels ups ->
    dom (<[s := t]> (l : gmap string string)) ⊆ cause_labels ups) as Hins.
  { intros s t l Hs Hl. rewrite dom_insert. set_solver. }
  destruct (err_as as_forward (err_chain err)) as [causes|].
  - rewrite record_causes_count. split; [done |]. apply record_causes_dom; [|done].
    intros c Hc. unfold cause_labels. rewrite elem_of_list_to_set. do 2 right.
    apply list_elem_of_fmap. exists (fst c). split; [done |]. apply He.
    apply list_elem_of_fmap. by exists c.
  - destruct (is_forward_limit err); (split; [done |]); apply Hins; try done;
      unfold cause_labels; rewrite elem_of_list_to_set; set_solver.
Qed.

(** Between two summary lines the failure log keeps the exact number of
    unresolved queries, and nothing per query: its labels are what is shown of
    the upstreams and two fixed ones, so it holds at most one text for each
    upstream and two more, however many queries failed. A summary is logged
    exactly when a query failed, and starts a new interval. *)
Theorem failure_log_bounded (ups : list string) (errs : list error)
  (Herrs : forall e, e ∈ errs -> error_of ups e) :
  let f := fold_left record_failure errs newFailureLog in
  fa_count f = lenZ errs /\
  dom (fa_causes f) ⊆ cause_labels ups /\
  (size (fa_causes f) <= length ups + 2)%nat /\
  (fst (flush_failures f) = None <-> errs = []) /\
  (forall s, fst (flush_failures f) = Some s ->
     fs_queries s = lenZ errs /\ length (fs_causes s) = size (fa_causes f)) /\
  snd (flush_failures f) = newFailureLog.
Proof.
  assert (forall f0, dom (fa_causes f0) ⊆ cause_labels ups ->
    fa_count (fold_left record_failure errs f0) = (fa_count f0 + lenZ errs)%Z /\
    dom (fa_causes (fold_left record_failure errs f0)) ⊆ cause_labels ups) as Hrun.
  { induction errs as [|e l IH]; intros f0 H0; simpl.
    - unfold lenZ. simpl. split; [lia | done].
    - destruct (record_failure_spec ups f0 e) as [H1 H2];
        [apply Herrs; by left | done |].
      destruct (IH ltac:(intros; apply Herrs; by right) _ H2) as [H3 H4].
      split; [|done]. rewrite H3, H1. unfold lenZ. simpl. lia. }
  destruct (Hrun newFailureLog) as [Hc Hd]; [set_solver |].
  cbv zeta. set (f := fold_left record_failure errs newFailureLog) in *.
  cbn [newFailureLog fa_count] in Hc.
  assert (fa_count f = lenZ errs) as Hn by lia.
  split_and!; [done | done | | | | done].
  - rewrite <- size_dom. transitivity (size (cause_labels ups)); [by apply subseteq_size |].
    unfold cause_labels. transitivity (length ("forward limit" :: "query" :: map URL ups)).
    + generalize ("forward limit" :: "query" :: map URL ups). intros l.
      induction l as [|x l IHl]; [done |]. cbn [list_to_set length].
      etrans; [apply gset_size_insert |]. lia.
    + simpl. rewrite length_map. lia.
  - unfold flush_failures. cbn [fst]. rewrite Hn. unfold lenZ.
    destruct errs as [|e l]; [done |]. split; [|done]. by case_match eqn:E; breflect.
  - intros s. unfold flush_failures. cbn [fst]. destruct (fa_count f =? 0)%Z; [done |].
    intros [= <-]. cbn [fs_queries fs_causes]. split; [done |].
    by rewrite length_map, (Permutation_length (merge_sort_Permutation _ _)), length_map,
      length_map_to_list.
Qed.
End bounded.

(** The failed-reply log counts every failed reply and keeps at most eight
    distinct texts, each the text of a recorded error without its addresses. *)
Theorem reply_log_bounded (errs : list error) :
  let r := fold_left record_reply errs newReplyLog in
  rl_count r = lenZ errs /\ (Z.of_nat (size (rl_errs r)) <= maxReplyErrors)%Z /\
  (forall t, t ∈ rl_errs r -> exists e, e ∈ errs /\ t = NetError e) /\
  (fst (flush_replies r) = None <-> errs = []) /\ snd (flush_replies r) = newReplyLog.
Proof.
  assert (forall l r0, (Z.of_nat (size (rl_errs r0)) <= maxReplyErrors)%Z ->
    rl_count (fold_left record_reply l r0) = (rl_count r0 + lenZ l)%Z /\
    (Z.of_nat (size (rl_errs (fold_left record_reply l r0))) <= maxReplyErrors)%Z /\
    (forall t, t ∈ rl_errs (fold_left record_reply l r0) ->
       t ∈ rl_errs r0 \/ exists e, e ∈ l /\ t = NetError e)) as Hrun.
  { induction l as [|e l IH]; intros r0 H0; cbn [fold_left].
    - unfold lenZ. simpl. split_and!; [lia | done | auto].
    - destruct (IH (record_reply r0 e)) as (H1 & H2 & H3).
      { unfold record_reply. cbn [rl_errs].
        destruct (Z.ltb_spec (Z.of_nat (size (rl_errs r0))) maxReplyErrors); [|done].
        pose proof (gset_size_insert (NetError e) (rl_errs r0)). lia. }
      split_and!; [rewrite H1; cbn [record_reply rl_count]; unfold lenZ; simpl; lia | done |].
      intros t Ht. destruct (H3 t Ht) as [Hin|(e' & He' & ->)]; [|right; exists e'; set_solver].
      revert Hin. unfold record_reply. cbn [rl_errs]. case_match; [|by left].
      intros [Hin%elem_of_singleton|Hin]%elem_of_union; [right; exists e; set_solver | by left]. }
  destruct (Hrun errs newReplyLog) as (H1 & H2 & H3); [done |]. cbv zeta.
  set (r := fold_left record_reply errs newReplyLog) in *. cbn [newReplyLog rl_count] in H1.
  assert (rl_count r = lenZ errs) as Hn by lia.
  split_and!; [done | done | | | done].
  - intros t Ht. destruct (H3 t Ht) as [Hin|He]; [|done]. cbn in Hin. set_solver.
  - unfold flush_replies. cbn [fst]. rewrite Hn. unfold lenZ.
    destruct errs as [|e l]; [done |]. split; [|done]. by case_match eqn:E; breflect.
Qed.

Module FailuresExamples.
#[local] Instance no_parse : UrlParse := fun _ => None.

Definition ups : list string := ["https://9.9.9.9/dns-query"].
Definition timeouts : list error := replicate 3 (ErrForward [("https://9.9.9.9/dns-query", ErrText "timeout")]).

Lemma failure_log_bounded_witness :
  fa_count (fold_left record_failure timeouts newFailureLog) = 3%Z.
Proof.
  apply (failure_log_bounded ups timeouts).
  intros e He. repeat (apply elem_of_cons in He as [->|He];
    [unfold error_of; cbn [err_chain err_as as_forward map fst]; intros x Hx; exact Hx |]).
  by apply elem_of_nil in He.
Defined.

Example one_summary :
  fst (flush_failures (fold_left record_failure timeouts newFailureLog)) =
    Some (mkFailureSummary 3 ["https://9.9.9.9/dns-query: timeout"] HintUpstreams).
Proof. vm_compute. reflexivity. Qed.
End FailuresExamples.
