(* ===== verification/QueryLog.v ===== *)
(** * The query log (internal/querylog)

    The record of one query and its outcome, the masking of the client
    address, and the two asynchronous sinks as state machines: the buffered
    channel, the writer's batch and what has reached the database or the file.
    SQLite and the file system are outside: what they do in one flush is an
    argument of the step. The time stamp of an entry is its number. *)

From stdpp Require Import base numbers list sets strings.
From Stdlib Require Import Ascii ZArith Lia.
From S2P Require Import Prelude GoStrings GoNet Dns.

Open Scope string_scope.

(** ** Records *)

Inductive BlockSource := BlockedByName | BlockedByCNAME | OtherSource (n : Z).

#[export] Instance BlockSource_eq_dec : EqDecision BlockSource.
Proof. solve_decision. Defined.

Definition BlockSource_String (b : BlockSource) : string :=
  match b with
  | BlockedByName => "name"
  | BlockedByCNAME => "cname"
  | OtherSource _ => "unknown"
  end.

Record QRecord := mkRecord {
  ClientIP : string;
  Domain : string;
  RBlocked : bool;
  CacheHit : bool;
  RRcode : Z;
  Synthesized : bool;
  RBlockSource : BlockSource;
}.

#[export] Instance QRecord_eq_dec : EqDecision QRecord.
Proof. solve_decision. Defined.

Definition isUnresolved (rcode : Z) (synthesized : bool) : bool :=
  synthesized && (rcode =? 2)%Z.

Definition isUpstreamError (rcode : Z) (synthesized : bool) : bool :=
  negb synthesized && ((rcode =? 2)%Z || (rcode =? 5)%Z).

Definition Unresolved (r : QRecord) : bool := isUnresolved (RRcode r) (Synthesized r).
Definition UpstreamError (r : QRecord) : bool := isUpstreamError (RRcode r) (Synthesized r).
Definition Failed (r : QRecord) : bool := Unresolved r || UpstreamError r.

(** [QueryRow.Outcome], on the columns it reads. *)
Definition Outcome (blocked : bool) (rcode : Z) (synthesized : bool) : string :=
  if blocked then "blocked"
  else if isUnresolved rcode synthesized then "unresolved"
  else if isUpstreamError rcode synthesized then "upstream_error"
  else "allowed".

(** ** Masking the client *)

Definition MaskClientIP (ip mode : string) : string :=
  if (mode =? "full")%string then ip
  else if (mode =? "subnet")%string then
    match ParseIP ip with
    | None => ""
    | Some a =>
        match Unmap a with
        | Addr4 n => addr_String (Addr4 (mask_bits 32 n 24))
        | Addr6 n _ => addr_String (Addr6 (mask_bits 128 n 64) "")
        | AddrZero => ""
        end
    end
  else "".

(** ** Which queries are recorded *)

(** The two tests at the start of [Log], in both loggers. *)
Definition log_wanted (logQueries : string) (blocked : bool) : bool :=
  if (logQueries =? "none")%string then false
  else if (logQueries =? "blocked")%string && negb blocked then false
  else true.

(** ** The file logger *)

Definition log_marker (rec : QRecord) : string :=
  if RBlocked rec then
    (if bool_decide (RBlockSource rec = BlockedByCNAME) then " CNAME" else "")
  else if CacheHit rec then " CACHED"
  else if Failed rec then " FAILED" else "".

Definition log_line (now : string) (rec : QRecord) : string :=
  now +:+ " " +:+ (if RBlocked rec then "BLOCK" else "ALLOW") +:+ " " +:+ ClientIP rec
    +:+ " " +:+ Domain rec +:+ log_marker rec +:+ String "010"%char "".

Definition fileQueueSize : Z := 1024.

Record FileLogger := mkFileLogger {
  fl_mode : string;
  fl_ch : list string;
  fl_written : list string;
  fl_dropped : Z;
}.

Definition FileLogger_Log (l : FileLogger) (now : string) (rec : QRecord) : FileLogger :=
  if negb (log_wanted (fl_mode l) (RBlocked rec)) then l
  else if (lenZ (fl_ch l) <? fileQueueSize)%Z
  then mkFileLogger (fl_mode l) (fl_ch l ++ [log_line now rec])%list (fl_written l) (fl_dropped l)
  else mkFileLogger (fl_mode l) (fl_ch l) (fl_written l) (wrap 64 (fl_dropped l + 1)).

(** The writer receives one line. [truncate] discards the queue, then empties
    the file; [emptied] is false on standard output and when both ways to
    empty the file fail. *)
Definition FileLogger_write (l : FileLogger) : FileLogger :=
  match fl_ch l with
  | [] => l
  | line :: rest =>
      mkFileLogger (fl_mode l) rest (fl_written l ++ [line])%list (fl_dropped l)
  end.

Definition FileLogger_truncate (l : FileLogger) (emptied : bool) : FileLogger :=
  mkFileLogger (fl_mode l) [] (if emptied then [] else fl_written l) (fl_dropped l).

(** [Close]: the queued lines are written, then the writer stops. *)
Definition FileLogger_drain (l : FileLogger) : FileLogger :=
  mkFileLogger (fl_mode l) [] (fl_written l ++ fl_ch l)%list (fl_dropped l).

(** ** The database logger *)

Definition flushBatchSize : Z := 100.
Definition queryQueueSize : Z := 1000.

(** An entry is a record with its time. *)
Definition db_entry : Type := Z * QRecord.

Record DBLogger := mkDBLogger {
  db_mode : string;
  db_ch : list db_entry;
  db_batch : list db_entry;
  db_rows : list db_entry;
  db_dropped : Z;
}.

Definition DBLogger_Log (d : DBLogger) (now : Z) (rec : QRecord) : DBLogger :=
  if negb (log_wanted (db_mode d) (RBlocked rec)) then d
  else if (lenZ (db_ch d) <? queryQueueSize)%Z
  then mkDBLogger (db_mode d) (db_ch d ++ [(now, rec)])%list (db_batch d) (db_rows d) (db_dropped d)
  else mkDBLogger (db_mode d) (db_ch d) (db_batch d) (db_rows d) (wrap 64 (db_dropped d + 1)).

(** What SQLite does in one flush: [None] when Begin, Prepare or Commit fails,
    otherwise which inserts succeed. *)
Definition flush_result : Type := option (db_entry -> bool).

Definition flush (rows batch : list db_entry) (res : flush_result) : list db_entry :=
  match res with
  | None => rows
  | Some ok => (rows ++ List.filter ok batch)%list
  end.

(** The cases of the writer's select. *)
Definition DBLogger_recv (d : DBLogger) (res : flush_result) : DBLogger :=
  match db_ch d with
  | [] => d
  | e :: rest =>
      let batch := (db_batch d ++ [e])%list in
      if (flushBatchSize <=? lenZ batch)%Z
      then mkDBLogger (db_mode d) rest [] (flush (db_rows d) batch res) (db_dropped d)
      else mkDBLogger (db_mode d) rest batch (db_rows d) (db_dropped d)
  end.

Definition DBLogger_tick (d : DBLogger) (res : flush_result) : DBLogger :=
  if (0 <? lenZ (db_batch d))%Z
  then mkDBLogger (db_mode d) (db_ch d) [] (flush (db_rows d) (db_batch d) res) (db_dropped d)
  else d.

(** The purge: the batch and the queue are discarded, then the steps of
    [purgeAll] run until one fails; [deleted] says whether the DELETE, its
    first step, was done. *)
Definition DBLogger_purge (d : DBLogger) (deleted : bool) : DBLogger :=
  mkDBLogger (db_mode d) [] [] (if deleted then [] else db_rows d) (db_dropped d).

(** [done]: drain the queue, flush, stop. *)
Definition DBLogger_close (d : DBLogger) (res : flush_result) : DBLogger :=
  let batch := (db_batch d ++ db_ch d)%list in
  if (0 <? lenZ batch)%Z
  then mkDBLogger (db_mode d) [] [] (flush (db_rows d) batch res) (db_dropped d)
  else mkDBLogger (db_mode d) [] [] (db_rows d) (db_dropped d).

(** The [ts] column holds RFC 3339 text in UTC, which has whole seconds and
    compares as the number of seconds does. *)
Definition rfc3339 (t : Z) : Z := (t / second)%Z.

(** [-time.Duration(retentionDays) * 24 * time.Hour], in 64 bits. *)
Definition retention_offset (retentionDays : Z) : Z :=
  wrap_s (wrap_s (wrap_s (- retentionDays) * 24) * hour).

(** [prune]: the DELETE of the rows before the cutoff. *)
Definition prune (retentionDays now : Z) (rows : list db_entry) : list db_entry :=
  let cutoff := rfc3339 (now + retention_offset retentionDays) in
  List.filter (fun e => negb (rfc3339 (fst e) <? cutoff)%Z) rows.

Definition DBLogger_prune (d : DBLogger) (retentionDays now : Z) : DBLogger :=
  mkDBLogger (db_mode d) (db_ch d) (db_batch d) (prune retentionDays now (db_rows d))
    (db_dropped d).

Inductive db_op :=
  | DbLog (now : Z) (rec : QRecord)
  | DbRecv (res : flush_result)
  | DbTick (res : flush_result)
  | DbPurge (deleted : bool)
  | DbPrune (retentionDays now : Z)
  | DbClose (res : flush_result).

Definition db_step (d : DBLogger) (op : db_op) : DBLogger :=
  match op with
  | DbLog now rec => DBLogger_Log d now rec
  | DbRecv res => DBLogger_recv d res
  | DbTick res => DBLogger_tick d res
  | DbPurge deleted => DBLogger_purge d deleted
  | DbPrune days now => DBLogger_prune d days now
  | DbClose res => DBLogger_close d res
  end.

Definition db_run (d : DBLogger) (ops : list db_op) : DBLogger := fold_left db_step ops d.

Definition db_new (mode : string) : DBLogger := mkDBLogger mode [] [] [] 0.

(** ** Masking *)

Lemma string4_mask a :
  in_range 32 a -> in_range 32 (mask_bits 32 a 24).
Proof.
  unfold in_range, mask_bits, top_bits. intros Ha.
  rewrite Z.shiftl_mul_pow2, Z.shiftr_div_pow2 by lia.
  change (2 ^ (32 - 24))%Z with 256%Z. change (2 ^ 32)%Z with 4294967296%Z in *.
  Z.to_euclidean_division_equations. lia.
Qed.

(** What is stored of a client: the address itself under "full", nothing
    under "drop" or any value that is not a mode, nothing under "subnet" for a
    text that is no address, and for an IPv4 address under "subnet" the
    address with its last octet zero, which is the same text for every host of
    the /24 and is left alone when it is masked again. *)
Theorem mask_client_ip (ip mode : string) :
  (mode = "full" -> MaskClientIP ip mode = ip) /\
  (mode <> "full" -> mode <> "subnet" -> MaskClientIP ip mode = "") /\
  (mode = "subnet" -> ParseIP ip = None -> MaskClientIP ip mode = "") /\
  (mode = "subnet" -> forall a, in_range 32 a -> ip = addr_String (Addr4 a) ->
     MaskClientIP ip mode = addr_String (Addr4 (mask_bits 32 a 24)) /\
     MaskClientIP (MaskClientIP ip mode) mode = MaskClientIP ip mode /\
     forall b, in_range 32 b -> Z.shiftr b 8 = Z.shiftr a 8 ->
       MaskClientIP (addr_String (Addr4 b)) mode = MaskClientIP ip mode).
Proof.
  assert (forall a, in_range 32 a ->
    MaskClientIP (addr_String (Addr4 a)) "subnet" = addr_String (Addr4 (mask_bits 32 a 24))) as Hm.
  { intros a Ha. unfold MaskClientIP, ParseIP. cbn [addr_String].
    rewrite ParseAddr_string4 by done. done. }
  split_and!.
  - by intros ->.
  - intros H1 H2. unfold MaskClientIP. apply String.eqb_neq in H1 as ->.
    by apply String.eqb_neq in H2 as ->.
  - intros -> Hp. unfold MaskClientIP.
    change ("subnet" =? "full")%string with false.
    change ("subnet" =? "subnet")%string with true. cbv iota. rewrite Hp. reflexivity.
  - intros -> a Ha ->. rewrite !Hm by (try apply string4_mask; done). split_and!; [done | |].
    + apply (f_equal (fun x => addr_String (Addr4 x))).
      unfold mask_bits at 1. rewrite top_bits_mask by lia. reflexivity.
    + intros b Hb Heq. rewrite Hm by done. apply (f_equal (fun x => addr_String (Addr4 x))).
      unfold mask_bits, top_bits. change (32 - 24)%Z with 8%Z. rewrite Heq. reflexivity.
Qed.

(** ** The database logger keeps what it accepts, in order *)

#[local] Opaque queryQueueSize flushBatchSize.

Definition entry_wanted (mode : string) (e : db_entry) : bool := log_wanted mode (RBlocked (snd e)).

(** The entries that a run logs and the mode records, since the last purge
    that emptied the table. *)
Fixpoint logged (mode : string) (acc : list db_entry) (ops : list db_op) : list db_entry :=
  match ops with
  | [] => acc
  | DbLog now rec :: ops' =>
      logged mode (if log_wanted mode (RBlocked rec) then acc ++ [(now, rec)] else acc)%list ops'
  | DbPurge true :: ops' => logged mode [] ops'
  | _ :: ops' => logged mode acc ops'
  end.

Definition held (d : DBLogger) : list db_entry := (db_rows d ++ db_batch d ++ db_ch d)%list.

Definition db_inv (mode : string) (acc : list db_entry) (d : DBLogger) : Prop :=
  db_mode d = mode /\ sublist (held d) acc /\
  (lenZ (db_ch d) <= queryQueueSize)%Z /\ (lenZ (db_batch d) < flushBatchSize)%Z.

Lemma list_filter_sublist {A} (f : A -> bool) l : sublist (List.filter f l) l.
Proof. induction l as [|x l IH]; simpl; [done |]. destruct (f x); by constructor. Qed.

Lemma flush_sublist rows batch res : sublist (flush rows batch res) (rows ++ batch)%list.
Proof.
  unfold flush. destruct res as [ok|].
  - apply sublist_app; [done | apply list_filter_sublist].
  - rewrite <- (app_nil_r rows) at 1. apply sublist_app; [done | apply sublist_nil_l].
Qed.

Lemma held_flush rows batch ch res :
  sublist (flush rows batch res ++ [] ++ ch)%list (rows ++ batch ++ ch)%list.
Proof. simpl. rewrite app_assoc. apply sublist_app; [apply flush_sublist | done]. Qed.

Lemma db_inv_log mode acc d now rec :
  db_inv mode acc d ->
  db_inv mode (if log_wanted mode (RBlocked rec) then acc ++ [(now, rec)] else acc)%list
    (DBLogger_Log d now rec).
Proof.
  intros (Hm & Hs & Hc & Hb). unfold DBLogger_Log. rewrite Hm.
  destruct (log_wanted mode (RBlocked rec)); simpl; [|done].
  destruct (Z.ltb_spec (lenZ (db_ch d)) queryQueueSize); split_and!; simpl; try done.
  - unfold held in *. simpl. rewrite !app_assoc in *. by apply sublist_app.
  - rewrite lenZ_app. change (lenZ [(now, rec)]) with 1%Z. lia.
  - etrans; [exact Hs |]. by apply sublist_inserts_r.
Qed.

Lemma db_inv_recv mode acc d res : db_inv mode acc d -> db_inv mode acc (DBLogger_recv d res).
Proof.
  intros (Hm & Hs & Hc & Hb). unfold DBLogger_recv. unfold held in Hs.
  destruct (db_ch d) as [|e rest] eqn:Hch; [unfold db_inv, held; rewrite Hch; done |].
  assert (lenZ rest <= queryQueueSize)%Z by (unfold lenZ in *; simpl in *; lia).
  assert (db_rows d ++ (db_batch d ++ [e]) ++ rest = db_rows d ++ db_batch d ++ e :: rest)%list
    as Heq by (by rewrite <- !app_assoc).
  destruct (Z.leb_spec flushBatchSize (lenZ (db_batch d ++ [e])%list));
    (split_and!; [done | | done | done]); unfold held; simpl.
  - etrans; [apply (held_flush (db_rows d) (db_batch d ++ [e])%list rest res) | by rewrite Heq].
  - by rewrite Heq.
Qed.

Lemma db_inv_step mode acc d op :
  db_inv mode acc d -> db_inv mode (logged mode acc [op]) (db_step d op).
Proof.
  intros Hi. destruct op as [now rec|res|res|deleted|days now|res]; simpl.
  - by apply db_inv_log.
  - by apply db_inv_recv.
  - destruct Hi as (Hm & Hs & Hc & Hb). unfold DBLogger_tick.
    destruct (0 <? lenZ (db_batch d))%Z; [|done]. split_and!; [done | | done | done].
    etrans; [apply (held_flush (db_rows d) (db_batch d) (db_ch d) res) | done].
  - destruct Hi as (Hm & Hs & Hc & Hb). unfold DBLogger_purge, db_inv, held. simpl.
    destruct deleted; (split_and!; [done | | done | done]); simpl; [done |].
    rewrite app_nil_r. etrans; [|exact Hs]. apply sublist_inserts_r. done.
  - destruct Hi as (Hm & Hs & Hc & Hb). split_and!; [done | | done | done].
    etrans; [|exact Hs]. apply sublist_app; [apply list_filter_sublist | done].
  - destruct Hi as (Hm & Hs & Hc & Hb). unfold DBLogger_close.
    destruct (0 <? lenZ (db_batch d ++ db_ch d)%list)%Z; (split_and!; [done | | done | done]);
      unfold held; simpl; rewrite !app_nil_r.
    + etrans; [apply flush_sublist | done].
    + etrans; [|exact Hs]. by apply sublist_inserts_r.
Qed.

Lemma logged_cons mode acc op ops :
  logged mode acc (op :: ops) = logged mode (logged mode acc [op]) ops.
Proof. destruct op as [| | |[]| |]; done. Qed.

Lemma db_inv_run mode ops :
  db_inv mode (logged mode [] ops) (db_run (db_new mode) ops).
Proof.
  assert (db_inv mode [] (db_new mode)) as Hi
    by (split_and!; [reflexivity | constructor | by vm_compute | by vm_compute]).
  revert Hi. generalize (db_new mode) ([] : list db_entry). unfold db_run.
  induction ops as [|op ops IH]; intros d acc Hi; [done |].
  rewrite logged_cons. simpl fold_left. by apply IH, db_inv_step.
Qed.


(** ** Retention *)

(** The prune keeps exactly the rows whose second is not before the
    cutoff's, as long as the retention is at most 106,751 days, which is what
    fits in a 64-bit number of nanoseconds. *)
Theorem prune_exact (days now : Z) (rows : list db_entry) (e : db_entry)
  (Hdays : (0 <= days <= 106751)%Z) :
  e ∈ prune days now rows <->
  e ∈ rows /\ ((now - days * 86400000000000) / second <= fst e / second)%Z.
Proof.
  assert (retention_offset days = - (days * 86400000000000))%Z as Ho.
  { unfold retention_offset, hour, minute, second.
    rewrite (wrap_s_id (- days)), (wrap_s_id (- days * 24)), wrap_s_id;
      unfold min_int64, max_int64; lia. }
  unfold prune, rfc3339. rewrite Ho, list_elem_of_In, filter_In, <- list_elem_of_In.
  rewrite negb_true_iff, Z.ltb_ge.
  replace (now + - (days * 86400000000000))%Z with (now - days * 86400000000000)%Z by lia.
  reflexivity.
Qed.

Module QueryLogExamples.
Definition ex_rec : QRecord := mkRecord "192.168.1.0" "example.com." false false 0 false BlockedByName.

Lemma prune_exact_witness :
  (0 <= 7 <= 106751)%Z /\
  ((700000000000000, ex_rec) ∈ prune 7 800000000000000 [(100000000000000, ex_rec); (700000000000000, ex_rec)])%Z.
Proof.
  split; [lia |]. apply (prune_exact 7 800000000000000); [lia |].
  split; [set_solver | vm_compute; discriminate].
Defined.

(** Above that bound the product wraps around: with 200,000 days the cutoff is
    22 years after now, so the prune deletes every row. *)
Example prune_overflow :
  prune 200000 1800000000000000000 [(1799999999000000000%Z, ex_rec)] = [].
Proof. vm_compute. reflexivity. Qed.
End QueryLogExamples.
