(* ===== verification/QueryReads.v ===== *)
(** * Reading the query log (internal/querylog/db.go)

    The filter of a recent-query read, the search, the top blocked domains and
    the history series. The SQL text of the program runs in SQLite: a query is
    modelled as what its text asks of the rows, and LIKE is the class
    [SqlLike], with its documented meaning in [SqlLikeLaws]. *)

From stdpp Require Import base numbers list gmap sets strings sorting.
From Stdlib Require Import Ascii ZArith Lia.
From S2P Require Import Prelude GoStrings QueryLog.

Open Scope string_scope.

(** ** The LIKE operator *)

(** [text LIKE pattern ESCAPE '\'], on text without multi-byte letters. *)
Class SqlLike := like_ : string -> string -> bool.

Definition backslash_ : ascii := "\"%char.
Definition percent : ascii := "%"%char.
Definition underscore : ascii := "_"%char.

Class SqlLikeLaws `{SqlLike} : Prop := {
  like_nil s : like_ "" s = true <-> s = "";
  like_percent p s :
    like_ (String percent p) s = true <-> exists u v, s = u +:+ v /\ like_ p v = true;
  like_escape c p s :
    like_ (String backslash_ (String c p)) s = true <->
    exists c' s', s = String c' s' /\ lower_byte c' = lower_byte c /\ like_ p s' = true;
  like_literal c p s : c <> percent -> c <> underscore -> c <> backslash_ ->
    like_ (String c p) s = true <->
    exists c' s', s = String c' s' /\ lower_byte c' = lower_byte c /\ like_ p s' = true;
}.

(** [strings.ReplaceAll] of one byte. *)
Fixpoint replace_all (c : ascii) (by_ : string) (s : string) : string :=
  match s with
  | "" => ""
  | String a s' => if Ascii.eqb a c then by_ +:+ replace_all c by_ s'
                   else String a (replace_all c by_ s')
  end.

Definition escapeLike (s : string) : string :=
  let s := replace_all backslash_ (String backslash_ (String backslash_ "")) s in
  let s := replace_all percent (String backslash_ (String percent "")) s in
  replace_all underscore (String backslash_ (String underscore "")) s.

(** ** The filter *)

Record QueryFilter := mkFilter {
  qf_Domain : string;
  qf_Client : string;
  qf_Blocked : option bool;
  qf_Outcome : string;
}.

(** A bound argument. *)
Inductive sql_arg := ArgText (s : string) | ArgInt (n : Z).

Definition b2i (b : bool) : Z := if b then 1 else 0.

(** The conditions that [where] can write, with their arguments. *)
Inductive cond :=
  | CondDomain (pattern : string)
  | CondClient (client : string)
  | CondBlocked (b : Z)
  | CondUnresolved (rcode : Z)
  | CondUpstreamError (rcode1 rcode2 : Z).

Definition cond_text (c : cond) : string :=
  match c with
  | CondDomain _ => "domain LIKE ? ESCAPE '\'"
  | CondClient _ => "client_ip = ?"
  | CondBlocked _ => "blocked = ?"
  | CondUnresolved _ => "synthesized = 1 AND rcode = ?"
  | CondUpstreamError _ _ => "synthesized = 0 AND rcode IN (?, ?)"
  end.

Definition cond_args (c : cond) : list sql_arg :=
  match c with
  | CondDomain p => [ArgText p]
  | CondClient s => [ArgText s]
  | CondBlocked n => [ArgInt n]
  | CondUnresolved r => [ArgInt r]
  | CondUpstreamError r1 r2 => [ArgInt r1; ArgInt r2]
  end.

(** What the condition asks of a row. *)
Definition cond_holds `{SqlLike} (c : cond) (r : QRecord) : bool :=
  match c with
  | CondDomain p => like_ p (Domain r)
  | CondClient s => (ClientIP r =? s)%string
  | CondBlocked n => (b2i (RBlocked r) =? n)%Z
  | CondUnresolved rc => (b2i (Synthesized r) =? 1)%Z && (RRcode r =? rc)%Z
  | CondUpstreamError r1 r2 =>
      (b2i (Synthesized r) =? 0)%Z && ((RRcode r =? r1)%Z || (RRcode r =? r2)%Z)
  end.

Definition where_conds `{UnicodeLower} (f : QueryFilter) : list cond :=
  ((if (qf_Domain f =? "")%string then []
    else [CondDomain ("%" +:+ escapeLike (to_lower (qf_Domain f)) +:+ "%")]) ++
   (if (qf_Client f =? "")%string then [] else [CondClient (qf_Client f)]) ++
   (match qf_Blocked f with None => [] | Some b => [CondBlocked (b2i b)] end) ++
   (if (qf_Outcome f =? "unresolved")%string then [CondUnresolved 2]
    else if (qf_Outcome f =? "upstream-error")%string then [CondUpstreamError 2 5]
    else []))%list.

(** [where]: the clause and the bound arguments. *)
Definition where_ `{UnicodeLower} (f : QueryFilter) : string * list sql_arg :=
  let conds := where_conds f in
  ((match conds with [] => "" | _ => " WHERE " +:+ join " AND " (map cond_text conds) end),
   concat (map cond_args conds)).

(** [Search]: newest first; SQLite reads a negative LIMIT as no limit. *)
Definition Search `{UnicodeLower, SqlLike} (rows : list db_entry) (f : QueryFilter) (n : Z)
    : list db_entry :=
  let l := List.filter (fun e => forallb (fun c => cond_holds c (snd e)) (where_conds f))
             (reverse rows) in
  if (n <? 0)%Z then l else take (Z.to_nat n) l.

(** [Export]: a limit only when [n] is positive. *)
Definition Export `{UnicodeLower, SqlLike} (rows : list db_entry) (f : QueryFilter) (n : Z)
    : list db_entry :=
  Search rows f (if (0 <? n)%Z then n else -1)%Z.

Definition Recent `{UnicodeLower, SqlLike} (rows : list db_entry) (n : Z) : list db_entry :=
  Search rows (mkFilter "" "" None "") n.

(** ** The row of a record

    The columns that [flush] binds to the INSERT, in its order, and the row that
    [scanRows] reads from those that [selectColumns] names. *)

Record Columns := mkColumns {
  col_ts : string;
  col_client_ip : string;
  col_domain : string;
  col_blocked : Z;
  col_cache_hit : Z;
  col_rcode : Z;
  col_synthesized : Z;
  col_block_source : Z;
}.

(** [BlockSource] is an integer in the code. *)
Definition source_int (b : BlockSource) : Z :=
  match b with BlockedByName => 0 | BlockedByCNAME => 1 | OtherSource n => n end.

Definition int_source (n : Z) : BlockSource :=
  if (n =? 0)%Z then BlockedByName else if (n =? 1)%Z then BlockedByCNAME else OtherSource n.

Definition insert_columns (ts : string) (r : QRecord) : Columns :=
  mkColumns ts (ClientIP r) (Domain r) (b2i (RBlocked r)) (b2i (CacheHit r)) (RRcode r) (b2i (Synthesized r))
    (source_int (RBlockSource r)).

Record QueryRow := mkQueryRow {
  row_TS : string;
  row_ClientIP : string;
  row_Domain : string;
  row_Blocked : bool;
  row_Rcode : Z;
  row_Synthesized : bool;
  row_BlockedBy : string;
}.

Definition scan_row (c : Columns) : QueryRow :=
  let blocked := (col_blocked c =? 1)%Z in
  mkQueryRow (col_ts c) (col_client_ip c) (col_domain c) blocked (col_rcode c) (col_synthesized c =? 1)%Z
    (if blocked then BlockSource_String (int_source (col_block_source c)) else "").

Definition row_Outcome (r : QueryRow) : string := Outcome (row_Blocked r) (row_Rcode r) (row_Synthesized r).

(** What is read of a written record is the record, all but whether it was in
    the cache, with the outcome that the record has; what blocked an allowed
    query is not shown. *)
Theorem scan_insert (ts : string) (r : QRecord) :
  (forall n, RBlockSource r = OtherSource n -> n <> 0%Z /\ n <> 1%Z) ->
  scan_row (insert_columns ts r) =
    mkQueryRow ts (ClientIP r) (Domain r) (RBlocked r) (RRcode r) (Synthesized r)
      (if RBlocked r then BlockSource_String (RBlockSource r) else "") /\
  row_Outcome (scan_row (insert_columns ts r)) = Outcome (RBlocked r) (RRcode r) (Synthesized r).
Proof.
  intros Hs.
  assert (scan_row (insert_columns ts r) =
    mkQueryRow ts (ClientIP r) (Domain r) (RBlocked r) (RRcode r) (Synthesized r)
      (if RBlocked r then BlockSource_String (RBlockSource r) else "")) as ->; [|done].
  destruct r as [ip dom b hit rc syn src]. unfold scan_row, insert_columns. cbn in *.
  assert (int_source (source_int src) = src) as ->.
  { destruct src as [| |n]; [done.. |]. destruct (Hs n eq_refl). unfold int_source. cbn.
    by rewrite !(proj2 (Z.eqb_neq _ _)). }
  by destruct b, syn.
Qed.

(** ** The history series *)

Record Bucket := mkBucket {
  hb_Start : Z;
  hb_Total : Z;
  hb_Blocked : Z;
  hb_Cached : Z;
  hb_Unresolved : Z;
  hb_UpstreamError : Z;
}.

(** The group of a row, and the row's part in the sums of its group. *)
Definition bucket_start (bucketSecs ts : Z) : Z := (Z.quot ts bucketSecs * bucketSecs)%Z.

Definition add_row (e : db_entry) (b : Bucket) : Bucket :=
  let r := snd e in
  mkBucket (hb_Start b) (hb_Total b + 1)
    (hb_Blocked b + b2i (RBlocked r)) (hb_Cached b + b2i (CacheHit r))
    (hb_Unresolved b +
      (if (b2i (Synthesized r) =? 1)%Z && (RRcode r =? 2)%Z then 1 else 0))
    (hb_UpstreamError b +
      (if (b2i (Synthesized r) =? 0)%Z && ((RRcode r =? 2)%Z || (RRcode r =? 5)%Z) then 1 else 0)).

Definition zero_bucket (start : Z) : Bucket := mkBucket start 0 0 0 0 0.

Fixpoint history_groups (bucketSecs cutoff : Z) (rows : list db_entry) : gmap Z Bucket :=
  match rows with
  | [] => ∅
  | e :: rows' =>
      let m := history_groups bucketSecs cutoff rows' in
      let ts := rfc3339 (fst e) in
      if (cutoff <=? ts)%Z then
        let k := bucket_start bucketSecs ts in
        <[k := add_row e (default (zero_bucket k) (m !! k))]> m
      else m
  end.

(** [None] is the run-time panic of a division by zero. *)
Definition History (rows : list db_entry) (now window bucket : Z) : option (list Bucket) :=
  let bucketSecs := Z.quot bucket second in
  let bucketSecs := if (bucketSecs <=? 0)%Z then 1%Z else bucketSecs in
  if (bucket =? 0)%Z then None
  else
    let n := Z.quot window bucket in
    let n := if (n <=? 0)%Z then 1%Z else n in
    let cutoff := rfc3339 (now - window) in
    let counts := history_groups bucketSecs cutoff rows in
    let last := (Z.quot (now / second) bucketSecs * bucketSecs)%Z in
    let first := (last - (n - 1) * bucketSecs)%Z in
    Some (map (fun i => let start := (first + Z.of_nat i * bucketSecs)%Z in
                        default (zero_bucket start) (counts !! start))
              (seq 0 (Z.to_nat n))).

(** ** The escaped term matches itself *)

Definition esc (c : ascii) : string :=
  if Ascii.eqb c backslash_ then String backslash_ (String backslash_ "")
  else if Ascii.eqb c percent then String backslash_ (String percent "")
  else if Ascii.eqb c underscore then String backslash_ (String underscore "")
  else String c "".

Lemma replace_all_app c b s t : replace_all c b (s +:+ t) = replace_all c b s +:+ replace_all c b t.
Proof.
  induction s as [|a s IH]; simpl; [done |]. destruct (Ascii.eqb a c); rewrite IH; [|done].
  by rewrite string_app_assoc.
Qed.

Lemma escapeLike_cons c s : escapeLike (String c s) = esc c +:+ escapeLike s.
Proof.
  unfold escapeLike, esc. cbn [replace_all].
  destruct (Ascii.eqb_spec c backslash_) as [->|H1]; [by rewrite !replace_all_app |].
  cbn [replace_all]. destruct (Ascii.eqb_spec c percent) as [->|H2]; [by rewrite !replace_all_app |].
  cbn [replace_all]. by destruct (Ascii.eqb_spec c underscore) as [->|H3].
Qed.

Section like.
Context `{SqlLikeLaws}.

Lemma like_esc c p s :
  like_ (esc c +:+ p) s = true <->
  exists c' s', s = String c' s' /\ lower_byte c' = lower_byte c /\ like_ p s' = true.
Proof.
  unfold esc. destruct (Ascii.eqb_spec c backslash_) as [->|H1]; [apply like_escape |].
  destruct (Ascii.eqb_spec c percent) as [->|H2]; [apply like_escape |].
  destruct (Ascii.eqb_spec c underscore) as [->|H3]; [apply like_escape |].
  by apply like_literal.
Qed.

Lemma like_escaped t p s :
  like_ (escapeLike t +:+ p) s = true <->
  exists m v, s = m +:+ v /\ ascii_lower m = ascii_lower t /\ like_ p v = true.
Proof.
  revert s. induction t as [|c t IH]; intros s.
  - simpl. split; [by exists "", s |]. intros (m & v & -> & Hm & Hp).
    by destruct m.
  - rewrite escapeLike_cons, string_app_assoc, like_esc. setoid_rewrite IH. split.
    + intros (c' & s' & -> & Hc & m & v & -> & Hm & Hp).
      exists (String c' m), v. split_and!; [done | | done].
      unfold ascii_lower in *. simpl. by rewrite Hc, Hm.
    + intros (m & v & -> & Hm & Hp). destruct m as [|c' m]; [done |].
      unfold ascii_lower in *. simpl in Hm. injection Hm as Hc Hm.
      exists c', (m +:+ v). split_and!; [done | done |]. by exists m, v.
Qed.

Lemma like_percent_end s : like_ "%" s = true.
Proof.
  change "%" with (String percent ""). apply like_percent. exists s, "".
  rewrite string_app_nil_r. split; [done |]. by apply like_nil.
Qed.

Lemma like_substring t s :
  like_ ("%" +:+ escapeLike t +:+ "%") s = true <->
  exists u m v, s = u +:+ m +:+ v /\ ascii_lower m = ascii_lower t.
Proof.
  change ("%" +:+ escapeLike t +:+ "%") with (String percent (escapeLike t +:+ "%")).
  rewrite like_percent. setoid_rewrite like_escaped. split.
  - intros (u & v & -> & m & w & -> & Hm & _). by exists u, m, w.
  - intros (u & m & v & -> & Hm). exists u, (m +:+ v). split; [done |].
    exists m, v. split_and!; [done | done | apply like_percent_end].
Qed.

End like.

(** ** The clause takes only parameters *)

Fixpoint qmarks (s : string) : nat :=
  match s with
  | "" => O
  | String a s' => ((if Ascii.eqb a "?"%char then 1 else 0) + qmarks s')%nat
  end.

Lemma qmarks_app s t : qmarks (s +:+ t) = (qmarks s + qmarks t)%nat.
Proof. induction s as [|a s IH]; simpl; [done |]. rewrite IH. lia. Qed.

Lemma qmarks_join l : qmarks (join " AND " l) = sum_list (map qmarks l).
Proof.
  induction l as [|s [|t l] IH]; [done | simpl; lia |].
  change (join " AND " (s :: t :: l)) with (s +:+ " AND " +:+ join " AND " (t :: l)).
  rewrite !qmarks_app, IH. reflexivity.
Qed.

Lemma cond_qmarks l : sum_list (map qmarks (map cond_text l)) = length (concat (map cond_args l)).
Proof.
  induction l as [|c l IH]; [done |]. simpl. rewrite length_app, <- IH. by destruct c.
Qed.

(** No caller input reaches the SQL text: the clause has one placeholder
    for each bound argument, and two filters that set the same fields get the
    same clause, whatever text they hold. *)
Theorem where_parametrised `{UnicodeLower} (f : QueryFilter) :
  qmarks (fst (where_ f)) = length (snd (where_ f)) /\
  forall domain client b,
    (qf_Domain f <> "" /\ domain <> "" \/ qf_Domain f = domain) ->
    (qf_Client f <> "" /\ client <> "" \/ qf_Client f = client) ->
    (is_Some (qf_Blocked f) /\ is_Some b \/ qf_Blocked f = b) ->
    fst (where_ (mkFilter domain client b (qf_Outcome f))) = fst (where_ f).
Proof.
  split.
  - unfold where_. cbn [fst snd]. rewrite <- cond_qmarks, <- qmarks_join.
    destruct (where_conds f); [done |]. by rewrite qmarks_app.
  - intros domain client b Hd Hc Hb.
    assert (map cond_text (where_conds (mkFilter domain client b (qf_Outcome f))) =
            map cond_text (where_conds f)) as Ht.
    { unfold where_conds. rewrite !map_app. cbn [qf_Domain qf_Client qf_Blocked qf_Outcome].
      f_equal; [| f_equal; [| f_equal]].
      - destruct (String.eqb_spec domain ""), (String.eqb_spec (qf_Domain f) ""); naive_solver.
      - destruct (String.eqb_spec client ""), (String.eqb_spec (qf_Client f) ""); naive_solver.
      - destruct Hb as [[[x ->] [y ->]]| ->]; done. }
    unfold where_. cbn [fst]. rewrite Ht.
    destruct (where_conds f), (where_conds (mkFilter domain client b (qf_Outcome f))); done.
Qed.

(** ** The series counts every row of its window *)

Definition in_bucket (start secs : Z) (e : db_entry) : bool :=
  (start <=? rfc3339 (fst e))%Z && (rfc3339 (fst e) <? start + secs)%Z.

Definition count_rows (f : db_entry -> bool) (rows : list db_entry) : Z :=
  lenZ (List.filter f rows).

Lemma count_rows_cons f e rows :
  count_rows f (e :: rows) = (count_rows f rows + (if f e then 1 else 0))%Z.
Proof. unfold count_rows, lenZ. simpl. destruct (f e); simpl; lia. Qed.

(** The bucket of the rows that [f] selects. *)
Definition summary (start : Z) (f : db_entry -> bool) (rows : list db_entry) : Bucket :=
  mkBucket start (count_rows f rows)
    (count_rows (fun e => f e && RBlocked (snd e)) rows)
    (count_rows (fun e => f e && CacheHit (snd e)) rows)
    (count_rows (fun e => f e && Unresolved (snd e)) rows)
    (count_rows (fun e => f e && UpstreamError (snd e)) rows).

Lemma summary_cons start f e rows :
  summary start f (e :: rows) =
  if f e then add_row e (summary start f rows) else summary start f rows.
Proof.
  unfold summary, add_row. rewrite !count_rows_cons. cbn.
  unfold Unresolved, UpstreamError, isUnresolved, isUpstreamError.
  destruct (f e); simpl; [|by rewrite !Z.add_0_r].
  f_equal; destruct (RBlocked (snd e)), (CacheHit (snd e)), (Synthesized (snd e)); simpl;
    by rewrite ?Z.add_0_r.
Qed.

Lemma summary_ext start f g rows :
  (forall e, e ∈ rows -> f e = g e) -> summary start f rows = summary start g rows.
Proof.
  induction rows as [|e rows IH]; intros Hfg; [done |].
  rewrite !summary_cons, IH by (intros; apply Hfg; by apply elem_of_cons; right).
  by rewrite (Hfg e) by (apply elem_of_cons; by left).
Qed.

Lemma history_groups_lookup bucketSecs cutoff rows k :
  default (zero_bucket k) (history_groups bucketSecs cutoff rows !! k) =
  summary k (fun e => (cutoff <=? rfc3339 (fst e))%Z &&
                      (bucket_start bucketSecs (rfc3339 (fst e)) =? k)%Z) rows.
Proof.
  induction rows as [|e rows IH]; [done |]. rewrite summary_cons, <- IH. simpl.
  destruct (cutoff <=? rfc3339 (fst e))%Z; simpl; [|done].
  destruct (Z.eqb_spec (bucket_start bucketSecs (rfc3339 (fst e))) k) as [<-|Hne].
  - by rewrite lookup_insert_eq.
  - by rewrite lookup_insert_ne.
Qed.

Lemma bucket_start_spec k q ts :
  (1 <= k)%Z -> (0 <= ts)%Z ->
  (bucket_start k ts =? q * k)%Z = (q * k <=? ts)%Z && (ts <? q * k + k)%Z.
Proof.
  intros Hk Hts. unfold bucket_start. rewrite Z.quot_div_nonneg by lia.
  apply eq_true_iff_eq. rewrite andb_true_iff, Z.eqb_eq, Z.leb_le, Z.ltb_lt.
  pose proof (Z.div_mod ts k). pose proof (Z.mod_pos_bound ts k). split.
  - intros He. nia.
  - intros Hr. f_equal. nia.
Qed.

(** The history series over a window of whole buckets or more is dense and
    complete: one bucket for each interval that ends with the current one,
    oldest first, and each counts every row of its interval, with the failure
    counts by the query log's own rule. *)
Theorem history_series (rows : list db_entry) (now window k : Z)
  (Hk : (1 <= k)%Z) (Hw : (k * second <= window)%Z) (Hnow : (0 <= now)%Z)
  (Hrows : forall e, e ∈ rows -> (0 <= fst e)%Z) :
  exists l, History rows now window (k * second) = Some l /\
    lenZ l = (window / (k * second))%Z /\
    forall i b, l !! i = Some b ->
      let start := ((now / second / k - (lenZ l - 1 - Z.of_nat i)) * k)%Z in
      b = summary start (in_bucket start k) rows.
Proof.
  assert (0 < second)%Z as Hs by done.
  assert (0 < k * second)%Z as Hks by (apply Z.mul_pos_pos; lia).
  unfold History. rewrite Z.quot_mul by lia.
  destruct (Z.leb_spec k 0) as [|_]; [lia |]. destruct (Z.eqb_spec (k * second) 0) as [|_]; [lia |].
  rewrite (Z.quot_div_nonneg window) by lia.
  assert (1 <= window / (k * second))%Z as Hn by (apply Z.div_le_lower_bound; lia).
  destruct (Z.leb_spec (window / (k * second)) 0) as [|_]; [lia |].
  eexists. split; [reflexivity |]. unfold lenZ. rewrite length_map, length_seq.
  split; [lia |]. intros i b Hi.
  rewrite list_lookup_fmap in Hi. apply fmap_Some in Hi as (i' & Hi & ->).
  apply lookup_seq in Hi as [-> Hi]. rewrite Z2Nat.id by lia.
  rewrite (Z.quot_div_nonneg (now / second)) by (try lia; apply Z.div_pos; lia).
  set (n := (window / (k * second))%Z) in *. simpl.
  replace (now / second / k * k - (n - 1) * k + Z.of_nat i * k)%Z
    with ((now / second / k - (n - 1 - Z.of_nat i)) * k)%Z by lia.
  rewrite history_groups_lookup. apply summary_ext. intros e He.
  assert (0 <= rfc3339 (fst e))%Z as Hts by (apply Z.div_pos; [by apply Hrows | lia]).
  unfold in_bucket. rewrite bucket_start_spec by lia.
  destruct (Z.leb_spec ((now / second / k - (n - 1 - Z.of_nat i)) * k) (rfc3339 (fst e))) as [Hle|Hlt];
    [|by rewrite andb_false_r].
  assert (rfc3339 (now - window) <= rfc3339 (fst e))%Z as Hc; [|apply Z.leb_le in Hc; by rewrite Hc].
  transitivity ((now / second / k - (n - 1 - Z.of_nat i)) * k)%Z; [|done].
  assert (n * (k * second) <= window)%Z by (unfold n; rewrite Z.mul_comm; apply Z.mul_div_le; lia).
  unfold rfc3339. transitivity (now / second - n * k)%Z.
  - replace (now / second - n * k)%Z with ((now + - (n * k) * second) / second)%Z
      by (rewrite Z.div_add by lia; lia).
    apply Z.div_le_mono; lia.
  - pose proof (Z.div_mod (now / second) k). pose proof (Z.mod_pos_bound (now / second) k). nia.
Qed.

Module QueryReadsExamples.
#[local] Instance ascii_only : UnicodeLower := fun s => s.

(** A matcher with the documented meaning. *)
Fixpoint like_match (p : string) : string -> bool :=
  match p with
  | "" => fun s => (s =? "")%string
  | String c p' =>
      if Ascii.eqb c percent then
        fix any (s : string) : bool :=
          like_match p' s || match s with "" => false | String _ s' => any s' end
      else if Ascii.eqb c underscore then
        fun s => match s with "" => false | String _ s' => like_match p' s' end
      else if Ascii.eqb c backslash_ then
        match p' with
        | "" => fun _ => false
        | String d p'' => fun s =>
            match s with
            | "" => false
            | String a s' => Ascii.eqb (lower_byte a) (lower_byte d) && like_match p'' s'
            end
        end
      else fun s =>
        match s with
        | "" => false
        | String a s' => Ascii.eqb (lower_byte a) (lower_byte c) && like_match p' s'
        end
  end.

#[local] Instance ex_like : SqlLike := like_match.

Lemma ex_step (f : string -> bool) c s :
  match s with
  | "" => false
  | String a s' => Ascii.eqb (lower_byte a) (lower_byte c) && f s'
  end = true <->
  exists c' s', s = String c' s' /\ lower_byte c' = lower_byte c /\ f s' = true.
Proof.
  destruct s as [|a s]; [naive_solver |]. rewrite andb_true_iff, Ascii.eqb_eq. naive_solver.
Qed.

#[local] Instance ex_like_laws : SqlLikeLaws.
Proof.
  constructor; unfold like_, ex_like.
  - intros s. apply String.eqb_eq.
  - intros p s. cbn. induction s as [|a s IH].
    + rewrite orb_false_r. split; [by exists "", "" |]. intros (u & v & Hs & Hp).
      by destruct u, v.
    + rewrite orb_true_iff, IH. split.
      * intros [Hp|(u & v & -> & Hp)]; [by exists "", (String a s) | by exists (String a u), v].
      * intros ([|b u] & v & Hs & Hp); simpl in Hs; [left; by subst |].
        injection Hs as <- ->. right. by exists u, v.
  - intros c p s. apply (ex_step (like_match p)).
  - intros c p s H1 H2 H3. cbn [like_match].
    apply Ascii.eqb_neq in H1 as ->. apply Ascii.eqb_neq in H2 as ->.
    apply Ascii.eqb_neq in H3 as ->. apply (ex_step (like_match p)).
Defined.

Definition ex_row (ts : Z) (domain : string) : db_entry :=
  (ts, mkRecord "192.168.1.0" domain false false 2 true BlockedByName).

Definition ex_rows : list db_entry :=
  [ex_row 60000000000 "ads_1.example."; ex_row 130000000000 "adsx1.example."].


Example search_literal :
  Search ex_rows (mkFilter "S_1" "" None "") 5 = [ex_row 60000000000 "ads_1.example."].
Proof. vm_compute. reflexivity. Qed.

Lemma history_series_witness :
  exists l, History ex_rows 150000000000 120000000000 (60 * second) = Some l /\ lenZ l = 2%Z.
Proof.
  destruct (history_series ex_rows 150000000000 120000000000 60) as (l & Hl & Hlen & _).
  - lia.
  - vm_compute. discriminate.
  - lia.
  - intros e He. repeat (apply elem_of_cons in He as [->|He]; [vm_compute; discriminate |]).
    by apply elem_of_nil in He.
  - exists l. split; [exact Hl | exact Hlen].
Defined.
End QueryReadsExamples.
