(* ===== verification/Handler.v ===== *)
(** * The query handler (internal/dnsserver/handler.go, cname.go)

    [ServeDNS] as the code writes it: the LAN check, the refusals that leave no
    trace, the local answers, the block list, the cache, the forward and the
    CNAME inspection, with every counter, log entry and reply. The handler's
    settings are an [HConfig], what it changes an [HState]; what one query
    meets outside is a [QueryEnv].

    [ServeDNS] runs once for each query, in its own goroutine. A step here is
    one query; what other queries do to the shared parts between the steps of
    one query is modelled where it matters: the counters in Stats, the tracker
    in Upstream, the writers in QueryLog, and the forward slots below. *)

From stdpp Require Import base numbers list gmap sets strings.
From Stdlib Require Import Ascii ZArith Lia.
From S2P Require Import Prelude GoStrings GoUrl Blocklist Dns Cache Timeline Stats GoNet Lan.
From S2P Require Import ReverseZones LocalNames Redact Edns Upstream Failures QueryLog.

Open Scope string_scope.

Definition maxForwards : Z := 512.
Definition queryDeadline : Z := (10 * second)%Z.
Definition localhostTTL : Z := 3600.

(** ** The handler *)

Record HConfig := mkConfig {
  upstreams : list string;
  blockMode : string;
  blockTTL : Z;
  localPTR : bool;
  queryPrivacy : string;
  logMode : string;
  h_upstreamIPs : list Addr;
  localDomains : list string;
  cnameInspection : bool;
}.

(** [hs_log], [hs_sent] and [hs_contacts] are the trace: the calls of the query
    logger, the replies written, and the messages that left for an upstream. *)
Record HState := mkState {
  hs_store : Store;
  hs_counter : Counter;
  hs_cache : option Cache;
  hs_failures : failureLog;
  hs_replies : replyLog;
  hs_lan : lanACL;
  hs_tracker : upstreamTracker;
  hs_fallbacks : Z;
  hs_slots : Z;
  hs_limited : Z;
  hs_refused : Z;
  hs_log : list QRecord;
  hs_sent : list Msg;
  hs_contacts : list (string * list Contact);
}.

Definition set_counter (f : Counter -> Counter) (s : HState) : HState :=
  mkState (hs_store s) (f (hs_counter s)) (hs_cache s) (hs_failures s) (hs_replies s) (hs_lan s)
    (hs_tracker s) (hs_fallbacks s) (hs_slots s) (hs_limited s) (hs_refused s) (hs_log s)
    (hs_sent s) (hs_contacts s).

Definition set_cache (c : option Cache) (s : HState) : HState :=
  mkState (hs_store s) (hs_counter s) c (hs_failures s) (hs_replies s) (hs_lan s)
    (hs_tracker s) (hs_fallbacks s) (hs_slots s) (hs_limited s) (hs_refused s) (hs_log s)
    (hs_sent s) (hs_contacts s).

Definition set_failures (f : failureLog) (s : HState) : HState :=
  mkState (hs_store s) (hs_counter s) (hs_cache s) f (hs_replies s) (hs_lan s)
    (hs_tracker s) (hs_fallbacks s) (hs_slots s) (hs_limited s) (hs_refused s) (hs_log s)
    (hs_sent s) (hs_contacts s).

Definition set_lan (a : lanACL) (s : HState) : HState :=
  mkState (hs_store s) (hs_counter s) (hs_cache s) (hs_failures s) (hs_replies s) a
    (hs_tracker s) (hs_fallbacks s) (hs_slots s) (hs_limited s) (hs_refused s) (hs_log s)
    (hs_sent s) (hs_contacts s).

Definition set_slots (n : Z) (s : HState) : HState :=
  mkState (hs_store s) (hs_counter s) (hs_cache s) (hs_failures s) (hs_replies s) (hs_lan s)
    (hs_tracker s) (hs_fallbacks s) n (hs_limited s) (hs_refused s) (hs_log s)
    (hs_sent s) (hs_contacts s).

Definition set_limited (n : Z) (s : HState) : HState :=
  mkState (hs_store s) (hs_counter s) (hs_cache s) (hs_failures s) (hs_replies s) (hs_lan s)
    (hs_tracker s) (hs_fallbacks s) (hs_slots s) n (hs_refused s) (hs_log s)
    (hs_sent s) (hs_contacts s).

(** What a forward changes: the tracker, the fallback counter, the trace. *)
Definition set_forward (f : Fwd) (s : HState) : HState :=
  mkState (hs_store s) (hs_counter s) (hs_cache s) (hs_failures s) (hs_replies s) (hs_lan s)
    (f_tracker f) (f_fallbacks f) (hs_slots s) (hs_limited s) (hs_refused s) (hs_log s)
    (hs_sent s) (hs_contacts s ++ f_contacts f)%list.

Definition log_query (r : QRecord) (s : HState) : HState :=
  mkState (hs_store s) (hs_counter s) (hs_cache s) (hs_failures s) (hs_replies s) (hs_lan s)
    (hs_tracker s) (hs_fallbacks s) (hs_slots s) (hs_limited s) (hs_refused s)
    (hs_log s ++ [r])%list (hs_sent s) (hs_contacts s).

(** What one query meets: the fresh query ID, the clock at each place that
    reads it, the interface addresses, the network (with the start time of the
    forward), what [WriteMsg] returns, and the iteration orders of the maps. *)
Record QueryEnv := mkEnv {
  e_id : Z;
  e_lan_now : Z;
  e_ptr_now : Z;
  e_ups_now : Z;
  e_get_now1 : Z;
  e_get_now2 : Z;
  e_set_now : Z;
  e_stats_now : Z;
  e_outcome_now : Z;
  e_addrs : read_result;
  e_fwd_now : Z;
  e_net : nat -> Attempt;
  e_write : option error;
  e_cache_order : list string;
  e_clients_order : gmap string Z -> list (string * Z);
  e_domains_order : gmap string Z -> list (string * Z);
}.

Section handler.
Context `{HUL : UnicodeLower} `{HDNS : MiekgDNS} `{HURL : UrlParse}.

(** [NewHandler] with its settings ([SetLocalDomains], [SetCNAMEInspection] and
    [SetQueryLogMode] change one each). *)
Definition NewHandler (ups : list string) (mode : string) (ttl : Z) (ptr : bool) (privacy : string)
    : HConfig :=
  mkConfig ups mode ttl ptr privacy "" (upstreamIPs ups) [] true.

Definition SetLocalDomains (h : HConfig) (domains : list string) : HConfig :=
  mkConfig (upstreams h) (blockMode h) (blockTTL h) (localPTR h) (queryPrivacy h) (logMode h)
    (h_upstreamIPs h) (localSuffixes domains) (cnameInspection h).

Definition SetCNAMEInspection (h : HConfig) (on : bool) : HConfig :=
  mkConfig (upstreams h) (blockMode h) (blockTTL h) (localPTR h) (queryPrivacy h) (logMode h)
    (h_upstreamIPs h) (localDomains h) on.

Definition Handler_SetQueryLogMode (h : HConfig) (mode : string) : HConfig :=
  mkConfig (upstreams h) (blockMode h) (blockTTL h) (localPTR h) (queryPrivacy h) mode
    (h_upstreamIPs h) (localDomains h) (cnameInspection h).

Definition records (h : HConfig) (blocked : bool) : bool :=
  if (logMode h =? "all")%string then true
  else if (logMode h =? "blocked")%string then blocked
  else false.

Definition tally (h : HConfig) (clientIP domain : string) (blocked : bool) : string * string :=
  if negb (records h blocked) then ("", "") else (clientIP, domain).

Context (h : HConfig) (w : Writer) (env : QueryEnv).

Definition recordQuery (clientIP domain : string) (blocked : bool) (s : HState) : HState :=
  let '(tallyClient, tallyDomain) := tally h clientIP domain blocked in
  set_counter (fun c => RecordQuery c tallyClient tallyDomain blocked (e_stats_now env)
                          (e_clients_order env) (e_domains_order env)) s.

(** ** Replies *)

(** [send] and the failed-reply summary. *)
Definition send_ (req resp : Msg) (s : HState) : HState :=
  mkState (hs_store s) (hs_counter s) (hs_cache s) (hs_failures s)
    (match e_write env with Some err => record_reply (hs_replies s) err | None => hs_replies s end)
    (hs_lan s) (hs_tracker s) (hs_fallbacks s) (hs_slots s) (hs_limited s) (hs_refused s) (hs_log s)
    (hs_sent s ++ [send w req resp])%list (hs_contacts s).

(** [refuse] (lan.go) writes the reply itself, without [send]. *)
Definition refuse_ (req : Msg) (s : HState) : HState :=
  let '(n, resp) := refuse (hs_refused s) req in
  mkState (hs_store s) (hs_counter s) (hs_cache s) (hs_failures s) (hs_replies s) (hs_lan s)
    (hs_tracker s) (hs_fallbacks s) (hs_slots s) (hs_limited s) n (hs_log s)
    (hs_sent s ++ [resp])%list (hs_contacts s).

Definition writeRcode (req : Msg) (rcode : Z) (s : HState) : HState :=
  send_ req (set_rcode req rcode) s.

(** [SetReply], [Authoritative], then [SetRcode] on the same message, which
    keeps the Authoritative flag that [SetReply] does not touch. *)
Definition writeLocalNXDOMAIN (req : Msg) (s : HState) : HState :=
  send_ req (set_Authoritative true (set_rcode req RcodeNameError)) s.

Definition localhost_reply (req : Msg) (q : Question) : Msg :=
  let resp := set_Authoritative true (set_reply req) in
  let hdr d := mkRR (QName q) (Qtype q) ClassINET localhostTTL d in
  if (Qtype q =? TypeA)%Z then set_Answer (Answer resp ++ [hdr (DataA 2130706433)])%list resp
  else if (Qtype q =? TypeAAAA)%Z then set_Answer (Answer resp ++ [hdr (DataAAAA 1)])%list resp
  else resp.

Definition writeLocalhost (req : Msg) (q : Question) (s : HState) : HState :=
  send_ req (localhost_reply req q) s.

Definition sinkhole_reply (req : Msg) (q : Question) : Msg :=
  let resp := set_Authoritative true (set_reply req) in
  if (blockMode h =? "nxdomain")%string
  then set_Authoritative true (set_rcode req RcodeNameError)
  else if (Qtype q =? TypeA)%Z
  then set_Answer (Answer resp ++ [mkRR (QName q) TypeA ClassINET (blockTTL h) (DataA 0)])%list resp
  else if (Qtype q =? TypeAAAA)%Z
  then set_Answer (Answer resp ++ [mkRR (QName q) TypeAAAA ClassINET (blockTTL h) (DataAAAA 0)])%list resp
  else resp.

Definition writeSinkhole (req : Msg) (q : Question) (s : HState) : HState :=
  send_ req (sinkhole_reply req q) s.

Definition writeBlocked (req : Msg) (q : Question) (clientIP domain : string)
    (source : BlockSource) (s : HState) : HState :=
  let s := recordQuery clientIP domain true s in
  let s := if bool_decide (source = BlockedByCNAME) then set_counter RecordCNAMEBlocked s else s in
  let blockRcode := if (blockMode h =? "nxdomain")%string then RcodeNameError else RcodeSuccess in
  let s := log_query (mkRecord clientIP domain true false blockRcode true source) s in
  writeSinkhole req q s.

(** ** CNAME inspection (cname.go) *)

(** The lookups of the store end for every name ([IsBlocked_eq],
    [IsAllowlisted_eq]), so the default is never used. *)
Definition store_blocked (st : Store) (d : string) : bool := default false (IsBlocked st d).
Definition store_allowlisted (st : Store) (d : string) : bool := default false (IsAllowlisted st d).

(** The handler never passes a nil reply. *)
Definition chainBlocked (st : Store) (domain : string) (resp : Msg) : bool :=
  if negb (cnameInspection h) || negb (Rcode resp =? RcodeSuccess)%Z then false
  else
    let hasCNAME := existsb (fun rr => match as_CNAME rr with Some _ => true | None => false end)
                      (Answer resp) in
    if negb hasCNAME || store_allowlisted st domain then false
    else existsb (fun rr => match as_CNAME rr with
                            | Some target => store_blocked st target
                            | None => false
                            end) (Answer resp).

(** ** One query *)

(** The query is forwarded, or gets its SERVFAIL at once when every slot is
    taken. *)
Definition forward_query (req : Msg) (ups : list string) (s : HState) : HState * (error + Msg) :=
  if (hs_slots s <? maxForwards)%Z then
    let s := set_slots (hs_slots s + 1) s in
    match upstreamQuery (e_id env) req with
    | None => (s, inl (ErrText ""))   (* a panic; the request has a question *)
    | Some q =>
        let '(f, r) := forward (e_net env) (e_fwd_now env) q ups (hs_tracker s) (hs_fallbacks s) in
        let s := set_forward f s in
        (set_slots (hs_slots s - 1) s, r)
    end
  else (set_limited (wrap 64 (hs_limited s + 1)) s, inl errForwardLimit).

(** The part after the cache: forward, count, log and answer. *)
Definition serve_forward (req : Msg) (q : Question) (clientIP domain : string)
    (ups : list string) (s : HState) : HState :=
  match forward_query req ups s with
  | (s, inl err) =>
      let s := set_failures (record_failure (hs_failures s) err) s in
      let s := recordQuery clientIP domain false s in
      let s := set_counter (fun c => RecordForwardFailure c (e_outcome_now env)) s in
      let s := log_query (mkRecord clientIP domain false false RcodeServerFailure true BlockedByName) s in
      writeRcode req RcodeServerFailure s
  | (s, inr resp) =>
      let resp := stripOPT resp in
      let s := match hs_cache s with
               | Some c => set_cache (Some (Set_ c req resp (e_set_now env) (e_cache_order env))) s
               | None => s
               end in
      if chainBlocked (hs_store s) domain resp
      then writeBlocked req q clientIP domain BlockedByCNAME s
      else
        let s := recordQuery clientIP domain false s in
        let s := if (Rcode resp =? RcodeServerFailure)%Z || (Rcode resp =? RcodeRefused)%Z
                 then set_counter (fun c => RecordUpstreamError c (e_outcome_now env)) s else s in
        let s := log_query (mkRecord clientIP domain false false (Rcode resp) false BlockedByName) s in
        send_ req resp s
  end.

(** The part after the block list: the cache, then the forward. *)
Definition serve_cache (req : Msg) (q : Question) (clientIP domain : string)
    (ups : list string) (s : HState) : HState :=
  match hs_cache s with
  | None => serve_forward req q clientIP domain ups s
  | Some c =>
      let '(hit, c) := Get c req (e_get_now1 env) (e_get_now2 env) in
      let s := set_cache (Some c) s in
      match hit with
      | None => serve_forward req q clientIP domain ups s
      | Some cached =>
          if chainBlocked (hs_store s) domain cached
          then writeBlocked req q clientIP domain BlockedByCNAME s
          else
            let s := recordQuery clientIP domain false s in
            let s := set_counter (fun c => RecordCacheHit c (e_outcome_now env)) s in
            let s := log_query (mkRecord clientIP domain false true (Rcode cached) false BlockedByName) s in
            send_ req cached s
      end
  end.

(** The part after the local PTR answers: the local names and the block list. *)
Definition serve_names (req : Msg) (q : Question) (clientIP domain : string) (s : HState) : HState :=
  let class := classify (Qtype q) domain (localDomains h) in
  let '(ups, s) :=
    if bool_decide (class = lanOnlyName) then
      let '(ups, lan) := lanUpstreams (upstreams h) (h_upstreamIPs h) (hs_lan s)
                           (e_ups_now env) (e_addrs env) in
      (ups, set_lan lan s)
    else (upstreams h, s) in
  if bool_decide (class = localhostName) || bool_decide (class = neverResolved)
     || (bool_decide (class = lanOnlyName) && (lenZ ups =? 0)%Z)
  then
    let s := recordQuery clientIP domain false s in
    let s := set_counter RecordLocalName s in
    if bool_decide (class = localhostName) then
      let s := log_query (mkRecord clientIP domain false false RcodeSuccess true BlockedByName) s in
      writeLocalhost req q s
    else
      let s := log_query (mkRecord clientIP domain false false RcodeNameError true BlockedByName) s in
      writeLocalNXDOMAIN req s
  else if store_blocked (hs_store s) domain
  then writeBlocked req q clientIP domain BlockedByName s
  else serve_cache req q clientIP domain ups s.

(** The two local PTR tests, with what the second one does to the LAN check. *)
Definition local_ptr (q : Question) (domain : string) (s : HState) : bool * HState :=
  if negb (localPTR h) then (false, s)
  else if default false (isPrivatePTR (Qtype q) domain) then (true, s)
  else
    let '(own, lan) := ownPrefixPTR (hs_lan s) (Qtype q) domain (e_ptr_now env) (e_addrs env) in
    (own, set_lan lan s).

Definition serve_query (ip : Addr) (req : Msg) (q : Question) (s : HState) : HState :=
  let domain := to_lower (QName q) in
  let clientIP := MaskClientIP (addr_String ip) (queryPrivacy h) in
  let '(ptr, s) := local_ptr q domain s in
  if ptr then
    let s := recordQuery clientIP domain false s in
    let s := set_counter RecordLocalPTR s in
    let s := log_query (mkRecord clientIP domain false false RcodeNameError true BlockedByName) s in
    writeLocalNXDOMAIN req s
  else serve_names req q clientIP domain s.

Definition ServeDNS (req : Msg) (s : HState) : HState :=
  let ip := WithoutZone (Unmap (remoteIP (w_remote w))) in
  if negb (IsValid ip) then refuse_ req s
  else
    let '(allowed, lan) := allows (hs_lan s) ip (e_lan_now env) (e_addrs env) in
    let s := set_lan lan s in
    if negb allowed then refuse_ req s
    else match Questions req with
    | [q] =>
        if negb (Opcode req =? OpcodeQuery)%Z then writeRcode req RcodeNotImplemented s
        else if negb (RecursionDesired req) then writeRcode req RcodeRefused s
        else serve_query ip req q s
    | _ => writeRcode req RcodeServerFailure s
    end.
End handler.

(** ** Accounting *)

Definition count_steps (o : outcome) (v : counts) : counts :=
  fold_left (fun v k => bump k v) (query_steps o) v.

(** The log entry says what the counters say. *)
Definition rec_ok (clientIP domain : string) (o : outcome) (rec : QRecord) : Prop :=
  ClientIP rec = clientIP /\ Domain rec = domain /\
  RBlocked rec = bool_decide (o = OBlocked \/ o = OBlockedCNAME) /\
  (RBlocked rec = true -> RBlockSource rec = BlockedByCNAME <-> o = OBlockedCNAME) /\
  CacheHit rec = bool_decide (o = OCacheHit) /\
  (o <> OCacheHit -> Unresolved rec = bool_decide (o = OForwardFailure) /\
                     UpstreamError rec = bool_decide (o = OUpstreamError)).

(** The part of the state that a reply or a LAN check does not touch. *)
Definition no_trace (s s' : HState) : Prop :=
  hs_store s' = hs_store s /\ hs_counter s' = hs_counter s /\ hs_cache s' = hs_cache s /\
  hs_failures s' = hs_failures s /\ hs_tracker s' = hs_tracker s /\
  hs_fallbacks s' = hs_fallbacks s /\ hs_slots s' = hs_slots s /\ hs_limited s' = hs_limited s /\
  hs_log s' = hs_log s /\ hs_contacts s' = hs_contacts s.

Section accounting.
Context `{HUL : UnicodeLower} `{HDNS : MiekgDNS} `{HLAWS : !MiekgLaws} `{HURL : UrlParse}
 .
Context (h : HConfig) (w : Writer) (env : QueryEnv).

(** No cached reply holds an OPT record. *)
Definition opt_free (s : HState) : Prop :=
  match hs_cache s with
  | None => True
  | Some c => forall k e, entries c !! k = Some e -> is_edns0 (msg e) = None
  end.

(** The graph keeps its mode, and under a mode that draws nothing its buckets. *)
Definition graph_kept (c c' : Counter) : Prop :=
  graphMode c' = graphMode c /\ (graphs c true = false -> graph c' = graph c).

(** What a query does to the tallies: [RecordQuery] with the names that
    [tally] lets through. *)
Definition tallied (clientIP domain : string) (blocked : bool) (c c' : Counter) : Prop :=
  let c1 := RecordQuery c (fst (tally h clientIP domain blocked))
              (snd (tally h clientIP domain blocked)) blocked (e_stats_now env)
              (e_clients_order env) (e_domains_order env) in
  topClients c' = topClients c1 /\ topDomains c' = topDomains c1 /\ graph_kept c c'.

(** The outcomes whose reply comes from the cache or an upstream. *)
Definition relayed (o : outcome) : bool :=
  match o with OCacheHit | OForwarded | OUpstreamError => true | _ => false end.

(** One query with outcome [o] was counted, logged as [rec] and answered with
    [r], once each; a relayed reply leads to no blocked name. *)
Definition accounted (req : Msg) (clientIP domain : string) (s s' : HState) (o : outcome)
    (rec : QRecord) (r : Msg) : Prop :=
  vals (hs_counter s') = count_steps o (vals (hs_counter s)) /\
  tallied clientIP domain (RBlocked rec) (hs_counter s) (hs_counter s') /\
  hs_log s' = (hs_log s ++ [rec])%list /\ rec_ok clientIP domain o rec /\
  hs_sent s' = (hs_sent s ++ [send w req r])%list /\
  (opt_free s -> is_edns0 r = None /\ opt_free s') /\
  (relayed o = true -> chainBlocked h (hs_store s) domain r = false) /\
  hs_slots s' = hs_slots s /\ hs_refused s' = hs_refused s /\ hs_store s' = hs_store s.

(** The same, up to what the answer is. *)
Definition served (req : Msg) (clientIP domain : string) (s s' : HState) : Prop :=
  exists o rec r, accounted req clientIP domain s s' o rec r.

Lemma recordQuery_eq clientIP domain blocked s :
  recordQuery h env clientIP domain blocked s =
  set_counter (fun c => RecordQuery c (fst (tally h clientIP domain blocked))
    (snd (tally h clientIP domain blocked)) blocked (e_stats_now env)
    (e_clients_order env) (e_domains_order env)) s.
Proof. unfold recordQuery. by destruct (tally h clientIP domain blocked). Qed.

(** A part of a query that changes nothing that is accounted. *)
Definition frame (s s0 : HState) : Prop :=
  hs_counter s0 = hs_counter s /\ hs_sent s0 = hs_sent s /\ hs_slots s0 = hs_slots s /\
  hs_refused s0 = hs_refused s /\ hs_store s0 = hs_store s /\ hs_log s0 = hs_log s /\
  (opt_free s -> opt_free s0).

Lemma frame_refl s : frame s s.
Proof. done. Qed.

Lemma frame_trans s s0 s1 : frame s s0 -> frame s0 s1 -> frame s s1.
Proof.
  intros (A1 & A2 & A3 & A4 & A5 & A6 & A7) (B1 & B2 & B3 & B4 & B5 & B6 & B7).
  split_and!; (congruence || auto).
Qed.

Lemma accounted_from req clientIP domain s0 s s' o rec r :
  frame s s0 -> accounted req clientIP domain s0 s' o rec r ->
  accounted req clientIP domain s s' o rec r.
Proof.
  intros (H1 & H2 & H3 & H4 & H5 & H6 & H7). unfold accounted.
  rewrite H1, H2, H3, H4, H5, H6. intuition.
Qed.

Lemma served_from req clientIP domain s0 s s' :
  frame s s0 -> served req clientIP domain s0 s' -> served req clientIP domain s s'.
Proof. intros Hf (o & rec & r & Ha). exists o, rec, r. by eapply accounted_from. Qed.

(** The shape that every path ends in: one [RecordQuery], at most one other
    counter, one log entry, one reply. *)
Definition finish (req : Msg) (clientIP domain : string) (blocked : bool) (post : Counter -> Counter)
    (rec : QRecord) (r : Msg) (s : HState) : HState :=
  send_ w env req r (log_query rec (set_counter post (recordQuery h env clientIP domain blocked s))).

(** [post] bumps the counters of the outcome that [RecordQuery] leaves. *)
Definition post_ok (blocked : bool) (o : outcome) (post : Counter -> Counter) : Prop :=
  exists extra, query_steps o = (RecordQuery_steps blocked ++ extra)%list /\
  forall c, vals (post c) = fold_left (fun v k => bump k v) extra (vals c) /\
            topClients (post c) = topClients c /\ topDomains (post c) = topDomains c /\ graph_kept c (post c).

Lemma graph_kept_trans c c1 c2 : graph_kept c c1 -> graph_kept c1 c2 -> graph_kept c c2.
Proof.
  intros [M1 G1] [M2 G2]. split; [congruence |]. intros Hg. rewrite G2, G1; [done | done |].
  unfold graphs in *. by rewrite M1.
Qed.

Lemma graph_event_kept c b n f : graph_kept c (graph_event c b n f).
Proof.
  unfold graph_event, graph_kept. destruct (graphs c b) eqn:E; [| done]. split; [done |].
  unfold graphs in *. destruct (graphMode c =? "all")%string, (graphMode c =? "blocked")%string; done.
Qed.

Lemma RecordQuery_graph_kept c clientIP domain blocked now oc od :
  graph_kept c (RecordQuery c clientIP domain blocked now oc od).
Proof.
  assert (H1 : graph_kept c (graph_event (set_vals (bump CTotal (vals c)) c) blocked now FTotal)).
  { apply (graph_kept_trans _ (set_vals (bump CTotal (vals c)) c)); [done | apply graph_event_kept]. }
  unfold RecordQuery. destruct blocked; [| exact H1].
  apply (graph_kept_trans _ _ _ H1). apply graph_event_kept.
Qed.

Lemma finish_accounted req clientIP domain blocked o post rec r s :
  post_ok blocked o post -> rec_ok clientIP domain o rec -> RBlocked rec = blocked ->
  (opt_free s -> is_edns0 r = None) ->
  (relayed o = true -> chainBlocked h (hs_store s) domain r = false) ->
  accounted req clientIP domain s (finish req clientIP domain blocked post rec r s) o rec r.
Proof.
  intros (extra & Hsteps & Hpost) Hrec Hb Hr Hchain. unfold accounted, finish. rewrite recordQuery_eq.
  cbn [hs_counter hs_log hs_sent hs_slots hs_refused hs_store send_ log_query set_counter].
  destruct (Hpost (RecordQuery (hs_counter s) (fst (tally h clientIP domain blocked))
    (snd (tally h clientIP domain blocked)) blocked (e_stats_now env)
    (e_clients_order env) (e_domains_order env))) as (P1 & P2 & P3 & P4).
  split_and!; try done.
  - rewrite P1, RecordQuery_vals, <- fold_left_app, <- Hsteps. done.
  - rewrite Hb. split_and!; [done | done |].
    eapply graph_kept_trans; [apply RecordQuery_graph_kept | exact P4].
  - intros Ho. split; [by apply Hr | exact Ho].
Qed.

Lemma graph_event_tallies c b n f :
  topClients (graph_event c b n f) = topClients c /\ topDomains (graph_event c b n f) = topDomains c.
Proof. unfold graph_event. by case_match. Qed.

(** The counters that each path bumps after [RecordQuery]. *)
Lemma post_none : post_ok true OBlocked (fun c => c) /\ post_ok false OForwarded (fun c => c).
Proof. split; exists []; done. Qed.

Lemma post_plain :
  post_ok true OBlockedCNAME RecordCNAMEBlocked /\ post_ok false OLocalPTR RecordLocalPTR /\
  post_ok false OLocalName RecordLocalName.
Proof. split_and!; eexists [_]; (split; [reflexivity | done]). Qed.

Lemma post_graph now :
  post_ok false OCacheHit (fun c => RecordCacheHit c now) /\
  post_ok false OForwardFailure (fun c => RecordForwardFailure c now) /\
  post_ok false OUpstreamError (fun c => RecordUpstreamError c now).
Proof.
  unfold RecordCacheHit, RecordForwardFailure, RecordUpstreamError.
  split_and!; eexists [_]; (split; [reflexivity |]); intros c;
    rewrite graph_event_vals, !(proj1 (graph_event_tallies _ _ _ _)),
      !(proj2 (graph_event_tallies _ _ _ _)); split_and!; try done;
    exact (graph_kept_trans _ (set_vals _ c) _ (conj eq_refl (fun _ => eq_refl)) (graph_event_kept _ _ _ _)).
Qed.

(** The replies that the handler makes hold no OPT record. *)
Lemma made_no_opt req m : Extra m = Extra (set_reply req) -> is_edns0 m = None.
Proof.
  intros He. apply is_edns0_none. rewrite He.
  destruct (set_reply_spec req) as (_ & _ & _ & _ & _ & _ & _ & ->). constructor.
Qed.

Lemma set_rcode_no_opt req rc : is_edns0 (set_rcode req rc) = None.
Proof. apply (made_no_opt req). by rewrite set_rcode_spec. Qed.

Lemma set_rcode_auth_no_opt req rc : is_edns0 (set_Authoritative true (set_rcode req rc)) = None.
Proof. apply (made_no_opt req). by rewrite set_rcode_spec. Qed.

Lemma localhost_no_opt req q : is_edns0 (localhost_reply req q) = None.
Proof. apply (made_no_opt req). unfold localhost_reply. by repeat case_match. Qed.

Lemma sinkhole_no_opt req q : is_edns0 (sinkhole_reply h req q) = None.
Proof.
  apply (made_no_opt req). unfold sinkhole_reply.
  repeat case_match; try done. by rewrite set_rcode_spec.
Qed.

Ltac solve_rec_ok :=
  unfold rec_ok, Unresolved, UpstreamError, isUnresolved, isUpstreamError;
  cbn [ClientIP Domain RBlocked CacheHit RRcode Synthesized RBlockSource];
  split_and!; [done | done | done | try (intros _; done) | done | first [by intros [] | intros _; split; done]].

Lemma writeBlocked_served req q clientIP domain (by_name : bool) s :
  served req clientIP domain s
    (writeBlocked h w env req q clientIP domain (if by_name then BlockedByName else BlockedByCNAME) s).
Proof.
  set (rc := if (blockMode h =? "nxdomain")%string then RcodeNameError else RcodeSuccess).
  assert ((rc =? 2)%Z = false /\ (rc =? 5)%Z = false) as [Hrc2 Hrc5] by (unfold rc; case_match; done).
  destruct by_name; eexists _, _, _.
  - apply (finish_accounted _ _ _ true OBlocked (fun c => c)
      (mkRecord clientIP domain true false rc true BlockedByName));
      [apply post_none | solve_rec_ok | done | intros _; apply sinkhole_no_opt | done].
  - apply (finish_accounted _ _ _ true OBlockedCNAME RecordCNAMEBlocked
      (mkRecord clientIP domain true false rc true BlockedByCNAME));
      [apply post_plain | solve_rec_ok | done | intros _; apply sinkhole_no_opt | done].
Qed.

(** ** The cache *)

Lemma no_opt_map (f : RR -> RR) m m' :
  (forall rr, is_OPT (f rr) = is_OPT rr) -> Extra m' = map f (Extra m) ->
  is_edns0 m = None -> is_edns0 m' = None.
Proof.
  intros Hf He. rewrite !is_edns0_none, He, !Forall_forall. intros Hm rr Hin.
  apply list_elem_of_fmap in Hin as (rr0 & -> & Hin). rewrite Hf. by apply Hm.
Qed.

Lemma decrement_no_opt m n : is_edns0 m = None -> is_edns0 (decrementTTLs m n) = None.
Proof.
  apply (no_opt_map (decrementTTL n)); [|done]. intros rr. unfold decrementTTL.
  by repeat case_match.
Qed.

Lemma cap_no_opt m n : is_edns0 m = None -> is_edns0 (capTTLs m n) = None.
Proof.
  apply (no_opt_map (capTTL n)); [|done]. intros rr. unfold capTTL. by repeat case_match.
Qed.

Lemma get_entries c req t1 t2 : entries (snd (Get c req t1 t2)) = entries c.
Proof. unfold Get, miss. by repeat case_match. Qed.

Lemma get_opt_free c req t1 t2 s :
  hs_cache s = Some c -> opt_free s ->
  opt_free (set_cache (Some (snd (Get c req t1 t2))) s).
Proof.
  intros Hc Ho. unfold opt_free in *. rewrite Hc in Ho. cbn [hs_cache set_cache].
  by rewrite get_entries.
Qed.

Lemma get_reply_no_opt c req t1 t2 s m :
  opt_free (set_cache (Some (snd (Get c req t1 t2))) s) ->
  fst (Get c req t1 t2) = Some m -> is_edns0 m = None.
Proof.
  unfold opt_free. cbn [hs_cache set_cache]. rewrite get_entries. intros Ho Hm. apply get_Some in Hm as (k & e & _ & He & _ & ->).
  apply decrement_no_opt. by eapply Ho.
Qed.

Lemma set_opt_free c req m now order s :
  hs_cache s = Some c -> opt_free s -> is_edns0 m = None ->
  opt_free (set_cache (Some (Set_ c req m now order)) s).
Proof.
  intros Hc Ho Hm. unfold opt_free in *. rewrite Hc in Ho. cbn [hs_cache set_cache].
  assert (forall k e, (if (maxSize c <=? Z.of_nat (size (entries c)))%Z
    then reclaimOneExpired order (entries c) now else entries c) !! k = Some e ->
    is_edns0 (msg e) = None) as Hes.
  { intros k e. case_match; [|apply Ho]. intros He. apply (Ho k).
    eapply lookup_weaken; [exact He | apply reclaim_scan_subseteq]. }
  unfold Set_. destruct (negb (cacheable m)); [done |]. destruct (keyOf req) as [k|]; [|done].
  set (es := if (_ <=? _)%Z then _ else _) in *. clearbody es.
  destruct (Z.of_nat (size es) <? maxSize c)%Z; cbn [entries]; [|done].
  intros k' e. destruct (decide (k' = k)) as [->|Hne].
  - rewrite lookup_insert_eq. intros [= <-]. cbn [msg new_entry]. by apply cap_no_opt.
  - rewrite lookup_insert_ne by done. apply Hes.
Qed.

(** ** The paths of one query *)

Lemma forward_query_frame req q ups s s' r :
  Questions req = [q] -> forward_query env req ups s = (s', r) ->
  frame s s' /\ hs_cache s' = hs_cache s.
Proof.
  intros Hq. unfold forward_query. destruct (hs_slots s <? maxForwards)%Z; [|by intros [= <- <-]].
  unfold upstreamQuery. rewrite Hq.
  destruct (forward _ _ _ _ _ _) as [f r0]. intros [= <- <-]. split; [|done].
  split_and!; try done. cbn. lia.
Qed.

Lemma serve_forward_served req q clientIP domain ups s :
  Questions req = [q] ->
  served req clientIP domain s (serve_forward h w env req q clientIP domain ups s).
Proof.
  intros Hq. unfold serve_forward.
  destruct (forward_query env req ups s) as [s1 r] eqn:Hf.
  apply (forward_query_frame req q) in Hf as [Hf Hc]; [|done].
  destruct r as [err|resp].
  - apply (served_from _ _ _ (set_failures (record_failure (hs_failures s1) err) s1)); [exact Hf |].
    eexists _, _, _. eapply (finish_accounted _ _ _ false OForwardFailure
      (fun c => RecordForwardFailure c (e_outcome_now env))
      (mkRecord clientIP domain false false RcodeServerFailure true BlockedByName));
      [apply post_graph | solve_rec_ok | done | intros _; apply set_rcode_no_opt | done].
  - set (s2 := match hs_cache s1 with Some c => _ | None => s1 end).
    assert (frame s s2) as Hf2.
    { apply (frame_trans _ s1); [done |]. unfold s2. destruct (hs_cache s1) as [c|] eqn:Hc1; [|done].
      split_and!; try done. intros Ho. apply set_opt_free; [done | done |]. apply stripOPT_no_opt. }
    apply (served_from _ _ _ s2); [done |].
    destruct (chainBlocked _ _ _ _) eqn:Hchain;
      [apply (writeBlocked_served req q clientIP domain false) |].
    destruct ((Rcode (stripOPT resp) =? RcodeServerFailure)%Z || (Rcode (stripOPT resp) =? RcodeRefused)%Z)
      eqn:Hrc; eexists _, _, _.
    + apply (finish_accounted _ _ _ false OUpstreamError
        (fun c => RecordUpstreamError c (e_outcome_now env))
        (mkRecord clientIP domain false false (Rcode (stripOPT resp)) false BlockedByName));
        [apply post_graph | solve_rec_ok | done | intros _; apply stripOPT_no_opt | done].
    + apply (finish_accounted _ _ _ false OForwarded (fun c => c)
        (mkRecord clientIP domain false false (Rcode (stripOPT resp)) false BlockedByName));
        [apply post_none | solve_rec_ok | done | intros _; apply stripOPT_no_opt | done].
Qed.

Lemma serve_cache_served req q clientIP domain ups s :
  Questions req = [q] ->
  served req clientIP domain s (serve_cache h w env req q clientIP domain ups s).
Proof.
  intros Hq. unfold serve_cache. destruct (hs_cache s) as [c|] eqn:Hc; [|by apply serve_forward_served].
  pose proof (get_opt_free c req (e_get_now1 env) (e_get_now2 env) s Hc) as Hget.
  pose proof (get_reply_no_opt c req (e_get_now1 env) (e_get_now2 env) s) as Hrep.
  destruct (Get c req _ _) as [hit c'] eqn:Hg. cbn [fst snd] in Hget, Hrep.
  apply (served_from _ _ _ (set_cache (Some c') s)); [by split_and! |].
  destruct hit as [cached|]; [|by apply serve_forward_served].
  destruct (chainBlocked _ _ _ _) eqn:Hchain;
      [apply (writeBlocked_served req q clientIP domain false) |].
  eexists _, _, _. apply (finish_accounted _ _ _ false OCacheHit
    (fun c => RecordCacheHit c (e_outcome_now env))
    (mkRecord clientIP domain false true (Rcode cached) false BlockedByName));
    [apply post_graph | solve_rec_ok | done | intros Ho; by eapply Hrep | done].
Qed.

Lemma set_lan_frame lan s : frame s (set_lan lan s).
Proof. done. Qed.

(** The upstreams that a query may go to, and the state after they are known. *)
Definition query_upstreams (domain : string) (q : Question) (s : HState) : list string * HState :=
  if bool_decide (classify (Qtype q) domain (localDomains h) = lanOnlyName) then
    let '(ups, lan) := lanUpstreams (upstreams h) (h_upstreamIPs h) (hs_lan s)
                         (e_ups_now env) (e_addrs env) in
    (ups, set_lan lan s)
  else (upstreams h, s).

Lemma query_upstreams_lan domain q s :
  exists lan, snd (query_upstreams domain q s) = set_lan lan s.
Proof.
  unfold query_upstreams. destruct (bool_decide _).
  - destruct (lanUpstreams _ _ _ _ _) as [ups lan]. by exists lan.
  - exists (hs_lan s). by destruct s.
Qed.

Lemma serve_names_served req q clientIP domain s :
  Questions req = [q] ->
  served req clientIP domain s (serve_names h w env req q clientIP domain s).
Proof.
  intros Hq. unfold serve_names. fold (query_upstreams domain q s).
  pose proof (query_upstreams_lan domain q s) as [lan Hlan].
  destruct (query_upstreams domain q s) as [ups s1]. cbn [snd] in Hlan. subst s1.
  apply (served_from _ _ _ (set_lan lan s)); [apply set_lan_frame |].
  destruct (_ || _ || _).
  - destruct (bool_decide (_ = localhostName)); eexists _, _, _.
    + apply (finish_accounted _ _ _ false OLocalName RecordLocalName
        (mkRecord clientIP domain false false RcodeSuccess true BlockedByName));
        [apply post_plain | solve_rec_ok | done | intros _; apply localhost_no_opt | done].
    + apply (finish_accounted _ _ _ false OLocalName RecordLocalName
        (mkRecord clientIP domain false false RcodeNameError true BlockedByName));
        [apply post_plain | solve_rec_ok | done | intros _; apply set_rcode_auth_no_opt | done].
  - destruct (store_blocked _ _); [apply (writeBlocked_served req q clientIP domain true) |].
    by apply serve_cache_served.
Qed.

Lemma local_ptr_frame q domain s b s' :
  local_ptr h env q domain s = (b, s') -> exists lan, s' = set_lan lan s.
Proof.
  unfold local_ptr. destruct (negb (localPTR h)); [intros [= <- <-]; exists (hs_lan s); by destruct s |].
  destruct (default false _); [intros [= <- <-]; exists (hs_lan s); by destruct s |].
  destruct (ownPrefixPTR _ _ _ _ _) as [own lan]. intros [= <- <-]. by exists lan.
Qed.

Lemma serve_query_served ip req q s :
  Questions req = [q] ->
  served req (MaskClientIP (addr_String ip) (queryPrivacy h)) (to_lower (QName q)) s
    (serve_query h w env ip req q s).
Proof.
  intros Hq. unfold serve_query. set (clientIP := MaskClientIP _ _). set (domain := to_lower _).
  destruct (local_ptr h env q domain s) as [ptr s1] eqn:Hp.
  apply local_ptr_frame in Hp as [lan ->].
  apply (served_from _ _ _ (set_lan lan s)); [apply set_lan_frame |].
  destruct ptr; [|by apply serve_names_served]. eexists _, _, _.
  apply (finish_accounted _ _ _ false OLocalPTR RecordLocalPTR
    (mkRecord clientIP domain false false RcodeNameError true BlockedByName));
    [apply post_plain | solve_rec_ok | done | intros _; apply set_rcode_auth_no_opt | done].
Qed.
End accounting.

(** ** Correctness *)

Section correctness.
Context `{HUL : UnicodeLower} `{HDNS : MiekgDNS} `{HLAWS : !MiekgLaws} `{HURL : UrlParse}
 .
Context (h : HConfig) (w : Writer) (env : QueryEnv).

(** The source of the query, and its LAN check. *)
Definition source : Addr := WithoutZone (Unmap (remoteIP (w_remote w))).

Definition lan_check (s : HState) : bool * lanACL :=
  allows (hs_lan s) source (e_lan_now env) (e_addrs env).

Definition admitted (s : HState) : Prop := IsValid source = true /\ fst (lan_check s) = true.

(** A query that s-hole serves. *)
Definition well_formed (req : Msg) (q : Question) : Prop :=
  Questions req = [q] /\ Opcode req = OpcodeQuery /\ RecursionDesired req = true.

Definition stored_client : string := MaskClientIP (addr_String source) (queryPrivacy h).
Definition stored_domain (q : Question) : string := to_lower (QName q).

Lemma ServeDNS_query req q s :
  admitted s -> well_formed req q ->
  ServeDNS h w env req s = serve_query h w env source req q (set_lan (snd (lan_check s)) s).
Proof.
  intros [Hv Ha] (Hq & Ho & Hr). unfold ServeDNS. fold source. rewrite Hv. cbn [negb].
  unfold lan_check in *. destruct (allows _ _ _ _) as [ok lan]. cbn [fst snd] in *. subst ok.
  cbn [negb]. rewrite Hq, Ho, Hr. done.
Qed.

(** C1. The accounting of one query from the LAN. Whatever the outcome, it
    bumps the counters of exactly one outcome, total first, in the order that
    the load-order invariant needs; it makes exactly one log entry, whose
    blocked, CNAME, cached, unresolved and upstream-error marks say that same
    outcome; it writes exactly one reply; it gives its forward slot back; and
    no reply that it caches or sends carries an upstream's OPT record. *)
Theorem serve_accounting (req : Msg) (q : Question) (s : HState)
  (Hadm : admitted s) (Hwf : well_formed req q) :
  served h w env req stored_client (stored_domain q) s (ServeDNS h w env req s).
Proof.
  rewrite (ServeDNS_query req q) by done.
  apply (served_from h w env _ _ _ (set_lan (snd (lan_check s)) s)); [apply set_lan_frame |].
  apply serve_query_served. by destruct Hwf.
Qed.

(** The code of a reply to a query that is not served. *)
Definition rejection (req : Msg) : Z :=
  match Questions req with
  | [_] => if negb (Opcode req =? OpcodeQuery)%Z then RcodeNotImplemented else RcodeRefused
  | _ => RcodeServerFailure
  end.

(** C22. A query from outside the LAN, one with a question count other than
    one, another opcode or RD=0 leaves no trace: no counter, no log entry, no
    cache access, no failure entry, no message to an upstream, and one reply,
    with REFUSED, SERVFAIL or NOTIMP. *)
Theorem rejected_no_trace (req : Msg) (s : HState)
  (Hrej : ~ admitted s \/ ~ (exists q, well_formed req q)) :
  let s' := ServeDNS h w env req s in
  no_trace s s' /\
  (~ admitted s -> hs_sent s' = (hs_sent s ++ [set_rcode req RcodeRefused])%list /\
                   hs_refused s' = wrap 64 (hs_refused s + 1)) /\
  (admitted s -> hs_sent s' = (hs_sent s ++ [send w req (set_rcode req (rejection req))])%list /\
                 hs_refused s' = hs_refused s).
Proof.
  cbv zeta. unfold ServeDNS. fold source. unfold admitted in *. unfold lan_check in *.
  destruct (IsValid source); cbn [negb].
  2:{ split_and!; try done. by intros []. }
  destruct (allows _ _ _ _) as [ok lan]. cbn [fst snd] in *. destruct ok; cbn [negb].
  2:{ split_and!; try done. by intros []. }
  destruct Hrej as [Hrej|Hrej]; [by destruct Hrej |].
  assert (no_trace s (writeRcode w env req (rejection req) (set_lan lan s)) /\
    hs_sent (writeRcode w env req (rejection req) (set_lan lan s)) =
      (hs_sent s ++ [send w req (set_rcode req (rejection req))])%list /\
    hs_refused (writeRcode w env req (rejection req) (set_lan lan s)) = hs_refused s) as (H1 & H2 & H3)
    by done.
  assert (match Questions req with
    | [q] => if negb (Opcode req =? OpcodeQuery)%Z then writeRcode w env req RcodeNotImplemented (set_lan lan s)
             else if negb (RecursionDesired req) then writeRcode w env req RcodeRefused (set_lan lan s)
             else serve_query h w env source req q (set_lan lan s)
    | _ => writeRcode w env req RcodeServerFailure (set_lan lan s)
    end = writeRcode w env req (rejection req) (set_lan lan s)) as ->.
  { unfold rejection. destruct (Questions req) as [|q [|]] eqn:Hq; try done.
    destruct (Z.eqb_spec (Opcode req) OpcodeQuery) as [Ho|]; [|done]. cbn [negb].
    destruct (RecursionDesired req) eqn:Hrd; [|done]. exfalso. apply Hrej. by exists q. }
  split_and!; [done | by intros [] | done].
Qed.

(** ** Where a query goes *)

(** The messages that left between [s] and [s'] are the upstream query of
    [req], to upstreams of which [ok] holds. *)
Definition sends_to (req : Msg) (ok : string -> Prop) (s s' : HState) : Prop :=
  exists cs, hs_contacts s' = (hs_contacts s ++ cs)%list /\
    forall u c, (u, c) ∈ cs -> ok u /\
      exists qm, upstreamQuery (e_id env) req = Some qm /\ Forall (own_contact qm u) c.

Lemma sends_none req ok s s' : hs_contacts s' = hs_contacts s -> sends_to req ok s s'.
Proof.
  intros Hc. exists []. rewrite app_nil_r. split; [done |]. by intros u c Hu%elem_of_nil.
Qed.

Lemma sends_mono req (ok ok' : string -> Prop) s s' :
  (forall u, ok u -> ok' u) -> sends_to req ok s s' -> sends_to req ok' s s'.
Proof. intros Hm (cs & Hc & Hs). exists cs. split; [done |]. intros u c Hu. naive_solver. Qed.

Lemma writeBlocked_contacts req q clientIP domain src s :
  hs_contacts (writeBlocked h w env req q clientIP domain src s) = hs_contacts s.
Proof. unfold writeBlocked. rewrite recordQuery_eq. by destruct (bool_decide _). Qed.

Lemma serve_forward_sends req q clientIP domain ups s :
  sends_to req (fun u => u ∈ ups /\ (hs_slots s < maxForwards)%Z) s
    (serve_forward h w env req q clientIP domain ups s).
Proof.
  unfold serve_forward. destruct (forward_query env req ups s) as [s1 r] eqn:Hf.
  assert (sends_to req (fun u => u ∈ ups /\ (hs_slots s < maxForwards)%Z) s s1) as Hs.
  { revert Hf. unfold forward_query. destruct (Z.ltb_spec (hs_slots s) maxForwards) as [Hlt|].
    - destruct (upstreamQuery (e_id env) req) as [qm|] eqn:Hqm; [|intros [= <- <-]; by apply sends_none].
      unfold forward. destruct (forwardWith _ _ _ _ _ _) as [f r0] eqn:Hfw. intros [= <- <-].
      exists (f_contacts f). split; [done |]. intros u c Hu.
      destruct (forward_contacts_sub _ _ _ _ _ _ _ _ _ _ Hfw Hu) as [Hin Hown]. eauto.
    - intros [= <- <-]. by apply sends_none. }
  destruct Hs as (cs & Hc & Hok). exists cs. split; [|done].
  destruct r as [err|resp].
  - unfold writeRcode. rewrite recordQuery_eq. exact Hc.
  - set (s2 := match hs_cache s1 with Some c => _ | None => s1 end).
    assert (hs_contacts s2 = hs_contacts s1) as H2 by (unfold s2; by destruct (hs_cache s1)).
    destruct (chainBlocked _ _ _ _); [by rewrite writeBlocked_contacts, H2 |].
    rewrite recordQuery_eq. rewrite <- Hc, <- H2. by destruct (_ || _).
Qed.

Lemma serve_cache_sends req q clientIP domain ups s :
  sends_to req (fun u => u ∈ ups /\ (hs_slots s < maxForwards)%Z) s
    (serve_cache h w env req q clientIP domain ups s).
Proof.
  unfold serve_cache. destruct (hs_cache s) as [c|]; [|apply serve_forward_sends].
  destruct (Get c req _ _) as [[cached|] c'].
  - destruct (chainBlocked _ _ _ _).
    + apply sends_none. by rewrite writeBlocked_contacts.
    + apply sends_none. by rewrite recordQuery_eq.
  - apply (serve_forward_sends req q clientIP domain ups (set_cache (Some c') s)).
Qed.

(** A name that goes to the LAN upstreams only goes to admitted addresses. *)
Definition on_lan (u : string) : Prop :=
  exists ip lan, (u, ip) ∈ zip (upstreams h) (h_upstreamIPs h) /\ IsValid ip = true /\
    fst (allows lan ip (e_ups_now env) (e_addrs env)) = true.

Definition may_forward (q : Question) (domain : string) (st : Store) (u : string) : Prop :=
  let class := classify (Qtype q) domain (localDomains h) in
  u ∈ upstreams h /\ class <> localhostName /\ class <> neverResolved /\
  (class = lanOnlyName -> on_lan u) /\ IsBlocked st domain <> Some true.

Lemma serve_names_sends req q clientIP domain s :
  sends_to req (fun u => may_forward q domain (hs_store s) u /\ (hs_slots s < maxForwards)%Z) s
    (serve_names h w env req q clientIP domain s).
Proof.
  unfold serve_names. fold (query_upstreams h env domain q s).
  set (class := classify (Qtype q) domain (localDomains h)).
  assert (exists lan, query_upstreams h env domain q s = (fst (query_upstreams h env domain q s), set_lan lan s) /\
    (forall u, u ∈ fst (query_upstreams h env domain q s) ->
       u ∈ upstreams h /\ (class = lanOnlyName -> on_lan u))) as (lan & Hqu & Hups).
  { unfold query_upstreams. fold class. destruct (bool_decide_reflect (class = lanOnlyName)) as [Hc|Hc].
    - unfold lanUpstreams. destruct (lanUpstreams_loop _ _ _ _) as [ups lan] eqn:Hl. exists lan.
      split; [done |]. cbn [fst]. intros u Hu.
      destruct (lanUpstreams_loop_allowed (zip (upstreams h) (h_upstreamIPs h)) (hs_lan s)
        (e_ups_now env) (e_addrs env) u) as (ip & lan' & Hin & Hv & Ha); [by rewrite Hl |].
      split; [|intros _; by exists ip, lan']. by apply elem_of_zip_l in Hin.
    - exists (hs_lan s). split; [by destruct s |]. by intros u Hu. }
  rewrite Hqu. set (ups := fst (query_upstreams h env domain q s)) in *.
  destruct (bool_decide (class = localhostName) || _ || _) eqn:Hloc.
  { apply sends_none. rewrite recordQuery_eq. by destruct (bool_decide (class = localhostName)). }
  apply orb_false_iff in Hloc as [Hloc _]. apply orb_false_iff in Hloc as [H1 H2].
  apply bool_decide_eq_false in H1. apply bool_decide_eq_false in H2.
  destruct (store_blocked (hs_store (set_lan lan s)) domain) eqn:Hb.
  { apply sends_none. by rewrite writeBlocked_contacts. }
  eapply sends_mono; [|apply (serve_cache_sends req q clientIP domain ups (set_lan lan s))].
  intros u [Hu Hslot]. split; [|exact Hslot]. destruct (Hups u Hu) as [Hin Hlan].
  split_and!; try done. intros Hbl. unfold store_blocked in Hb.
  change (hs_store (set_lan lan s)) with (hs_store s) in Hb. by rewrite Hbl in Hb.
Qed.


(** ** Privacy of the top lists *)

Lemma mask_other (ip mode : string) :
  mode <> "full" -> mode <> "subnet" -> MaskClientIP ip mode = "".
Proof.
  intros H1 H2. unfold MaskClientIP. apply String.eqb_neq in H1 as ->.
  by apply String.eqb_neq in H2 as ->.
Qed.

(** The in-memory top lists hold no more than the query log does. A query
    adds no client and no domain when the mode does not record it, no client
    when clients are dropped (its log entry then has none either), and no domain
    unless it was blocked; and for each of the three modes "does not record" is
    the query loggers' own rule. *)
Theorem top_lists_private (req : Msg) (q : Question) (s : HState)
  (Hadm : admitted s) (Hwf : well_formed req q)
  (Hoc : forall m, iterates (e_clients_order env m) m)
  (Hod : forall m, iterates (e_domains_order env m) m)
  (Hc : (Z.of_nat (size (topClients (hs_counter s))) <= topNMaxEntries)%Z)
  (Hd : (Z.of_nat (size (topDomains (hs_counter s))) <= topNMaxEntries)%Z) :
  let s' := ServeDNS h w env req s in
  exists rec, hs_log s' = (hs_log s ++ [rec])%list /\
    (records h (RBlocked rec) = false ->
       topClients (hs_counter s') = topClients (hs_counter s) /\
       topDomains (hs_counter s') = topDomains (hs_counter s)) /\
    (queryPrivacy h <> "full" -> queryPrivacy h <> "subnet" ->
       ClientIP rec = "" /\ topClients (hs_counter s') = topClients (hs_counter s)) /\
    (RBlocked rec = false -> topDomains (hs_counter s') = topDomains (hs_counter s)) /\
    (logMode h ∈ ["none"; "blocked"; "all"] ->
       records h (RBlocked rec) = log_wanted (logMode h) (RBlocked rec)).
Proof.
  cbv zeta. rewrite (ServeDNS_query req q) by done.
  destruct (serve_query_served h w env source req q (set_lan (snd (lan_check s)) s))
    as (o & rec & r & _ & (Ht1 & Ht2 & _) & Hlog & (Hcl & _) & _); [by destruct Hwf |].
  exists rec. split; [exact Hlog |]. rewrite Ht1, Ht2.
  change (hs_counter (set_lan (snd (lan_check s)) s)) with (hs_counter s).
  fold stored_client in Hcl |- *. set (d := to_lower (QName q)). set (b := RBlocked rec) in *.
  destruct (record_query_tallies (hs_counter s) (fst (tally h stored_client d b))
    (snd (tally h stored_client d b)) b (e_stats_now env) (e_clients_order env)
    (e_domains_order env) Hoc Hod Hc Hd) as (_ & _ & Hnc & Hnd).
  split_and!.
  - intros Hr. split; [apply Hnc | apply Hnd; left]; unfold tally; by rewrite Hr.
  - intros H1 H2. assert (stored_client = "") as He by by apply mask_other.
    split; [by rewrite Hcl |]. apply Hnc. unfold tally. destruct (negb _); [done | exact He].
  - intros Hb. apply Hnd. by right.
  - intros Hm. unfold records, log_wanted.
    repeat (apply elem_of_cons in Hm as [->|Hm]; [by destruct b |]). by apply elem_of_nil in Hm.
Qed.

(** ** Blocking *)

(** What [IsBlocked] and [IsAllowlisted] say, as in Blocklist. *)
Definition blocked_name (st : Store) (d : string) : Prop := IsBlocked st d = Some true.
Definition allowed_name (st : Store) (d : string) : Prop := IsAllowlisted st d = Some true.

(** CNAME inspection. A reply is blocked by its chain exactly when
    inspection is on, the reply is NOERROR, a CNAME record of its answer leads
    to a blocked name, and the queried name is not allowlisted. *)
Theorem chain_blocked_spec (st : Store) (domain : string) (resp : Msg) :
  chainBlocked h st domain resp = true <->
  cnameInspection h = true /\ Rcode resp = RcodeSuccess /\ ~ allowed_name st domain /\
  exists rr target, rr ∈ Answer resp /\ Data rr = DataCNAME target /\ blocked_name st target.
Proof.
  assert (forall st d, store_blocked st d = true <-> blocked_name st d) as Hb.
  { intros st0 d. unfold store_blocked, blocked_name. destruct (IsBlocked st0 d) as [[]|]; done. }
  assert (forall st d, store_allowlisted st d = true <-> allowed_name st d) as Ha.
  { intros st0 d. unfold store_allowlisted, allowed_name. destruct (IsAllowlisted st0 d) as [[]|]; done. }
  unfold chainBlocked. rewrite <- Ha. split.
  - intros Hch. destruct (cnameInspection h); cbn [negb orb] in Hch; [|done].
    destruct (Z.eqb_spec (Rcode resp) RcodeSuccess); cbn [negb orb] in Hch; [|done].
    destruct (existsb _ (Answer resp)); cbn [negb orb] in Hch; [|done].
    destruct (store_allowlisted st domain); [done |].
    apply existsb_elem in Hch as (rr & Hin & Ht). split_and!; try done. exists rr.
    unfold as_CNAME in Ht. destruct (Data rr) as [| |t| |] eqn:Hdt; try done.
    exists t. split_and!; [done | done | by apply Hb].
  - intros (-> & -> & Hna & rr & t & Hin & Hdt & Hbl).
    change (negb true || negb (RcodeSuccess =? RcodeSuccess)%Z) with false. cbv iota zeta.
    assert (existsb (fun rr => match as_CNAME rr with Some _ => true | None => false end)
      (Answer resp) = true) as ->.
    { apply existsb_elem. exists rr. split; [done |]. unfold as_CNAME. by rewrite Hdt. }
    cbn [negb orb]. destruct (store_allowlisted st domain); [done |]. apply existsb_elem. exists rr.
    split; [done |]. unfold as_CNAME. rewrite Hdt. by apply Hb.
Qed.

(** A query for a blocked public name that is not answered locally gets the
    sinkhole reply, with nothing sent upstream and the cache untouched:
    NXDOMAIN in the "nxdomain" mode, otherwise NOERROR with the zero address for
    an A or AAAA query and no record for another type, with the query's own
    spelling of the name. *)
Theorem blocked_query_sinkholed (req : Msg) (q : Question) (s : HState)
  (Hadm : admitted s) (Hwf : well_formed req q)
  (Hptr : fst (local_ptr h env q (stored_domain q) (set_lan (snd (lan_check s)) s)) = false)
  (Hpub : classify (Qtype q) (stored_domain q) (localDomains h) = publicName)
  (Hblk : blocked_name (hs_store s) (stored_domain q)) :
  let s' := ServeDNS h w env req s in
  exists r, hs_sent s' = (hs_sent s ++ [send w req r])%list /\
    hs_contacts s' = hs_contacts s /\ hs_cache s' = hs_cache s /\
    Questions r = [q] /\ Extra r = [] /\
    if (blockMode h =? "nxdomain")%string then Rcode r = RcodeNameError /\ Answer r = []
    else Rcode r = RcodeSuccess /\
      Answer r = if (Qtype q =? TypeA)%Z then [mkRR (QName q) TypeA ClassINET (blockTTL h) (DataA 0)]
                 else if (Qtype q =? TypeAAAA)%Z
                 then [mkRR (QName q) TypeAAAA ClassINET (blockTTL h) (DataAAAA 0)] else [].
Proof.
  cbv zeta. rewrite (ServeDNS_query req q) by done. unfold serve_query. fold (stored_domain q).
  set (s0 := set_lan (snd (lan_check s)) s) in *.
  destruct (local_ptr h env q (stored_domain q) s0) as [ptr s1] eqn:Hp. cbn [fst] in Hptr. subst ptr.
  pose proof (local_ptr_frame h env q (stored_domain q) s0 false s1 Hp) as [lan ->].
  unfold serve_names. rewrite Hpub.
  change (bool_decide (publicName = lanOnlyName)) with false.
  change (bool_decide (publicName = localhostName)) with false.
  change (bool_decide (publicName = neverResolved)) with false. cbn [orb andb].
  unfold store_blocked. unfold blocked_name in Hblk.
  change (hs_store (set_lan lan s0)) with (hs_store s). rewrite Hblk. cbn [default].
  unfold writeBlocked. rewrite recordQuery_eq.
  change (bool_decide (BlockedByName = BlockedByCNAME)) with false. exists (sinkhole_reply h req q).
  split; [reflexivity |]. split; [reflexivity |]. split; [reflexivity |].
  destruct (set_reply_spec req) as (_ & _ & Hrc & _ & Hqs & Han & _ & Hex).
  destruct Hwf as (Hq & _). rewrite Hq in Hqs. cbn in Hqs.
  unfold sinkhole_reply. destruct (blockMode h =? "nxdomain")%string.
  - rewrite set_rcode_spec. cbn. done.
  - destruct (Qtype q =? TypeA)%Z; [|destruct (Qtype q =? TypeAAAA)%Z]; cbn; by rewrite ?Han.
Qed.
End correctness.

Module HandlerExamples.
Import RefDns.
#[local] Instance ascii_only : UnicodeLower := fun s => s.
#[local] Instance no_parse : UrlParse := fun _ => None.

Definition cfg : HConfig :=
  Handler_SetQueryLogMode (NewHandler ["192.168.1.1:53"] "zero_ip" 300 true "drop") "all".

Definition w_lan : Writer := mkWriter (UDPAddr (Some (v4 192 168 1 20))) false.
Definition w_out : Writer := mkWriter (UDPAddr (Some (v4 8 8 8 8))) false.

Definition req_of (name : string) : Msg :=
  mkMsg 4660 false 0 false false true false false 0 [mkQuestion name TypeA ClassINET] [] [] [].

Definition reply_to (name : string) (an : list RR) : Msg :=
  set_Answer an (set_reply (req_of name)).

(** The upstream answers with a CNAME to a blocked name. *)
Definition tracked : Msg :=
  reply_to "metrics.shop.example." [mkRR "metrics.shop.example." TypeCNAME ClassINET 300 (DataCNAME "ads.example.")].

Definition env_of (resp : error + Msg) : QueryEnv :=
  mkEnv 7 0 0 0 0 0 0 0 0 (inl []) 0
    (fun _ => mkAttempt (fun t => t) None (mkNet resp (inl (ErrText "")) (mkDoH None None (inl (ErrText "")) (fun _ => inl (ErrText "")))) 0)
    None [] map_to_list map_to_list.

Definition st0 : HState :=
  mkState (Replace NewStore ["ads.example"]) Stats.New (Some (Cache.New 10)) newFailureLog newReplyLog
    (newLANACL 0 (inl [])) newUpstreamTracker 0 0 0 0 [] [] [].

Lemma st0_admitted env : e_lan_now env = 0%Z -> e_addrs env = inl [] -> admitted w_lan env st0.
Proof. intros Ht Ha. unfold admitted, lan_check. rewrite Ht, Ha. split; vm_compute; reflexivity. Qed.

Lemma req_wf name : well_formed (req_of name) (mkQuestion name TypeA ClassINET).
Proof. done. Qed.

Lemma serve_accounting_witness :
  served cfg w_lan (env_of (inr tracked)) (req_of "metrics.shop.example.") "" "metrics.shop.example." st0
    (ServeDNS cfg w_lan (env_of (inr tracked)) (req_of "metrics.shop.example.") st0).
Proof.
  apply (serve_accounting cfg w_lan (env_of (inr tracked)) (req_of "metrics.shop.example.")
    (mkQuestion "metrics.shop.example." TypeA ClassINET) st0).
  - apply st0_admitted; reflexivity.
  - apply req_wf.
Defined.

(** The run itself: the query counts as blocked by a CNAME target, and is
    answered with the zero address. *)
Example cname_blocked :
  let s' := ServeDNS cfg w_lan (env_of (inr tracked)) (req_of "metrics.shop.example.") st0 in
  hs_log s' = [mkRecord "" "metrics.shop.example." true false 0 true BlockedByCNAME] /\
  map Answer (hs_sent s') =
    [[mkRR "metrics.shop.example." TypeA ClassINET 300 (DataA 0)]] /\
  map fst (hs_contacts s') = ["192.168.1.1:53"] /\
  map (vals (hs_counter s')) all_ctrs = map (count_steps OBlockedCNAME (fun _ => 0%Z)) all_ctrs.
Proof. vm_compute. done. Qed.

Lemma rejected_no_trace_witness :
  no_trace st0 (ServeDNS cfg w_out (env_of (inr tracked)) (req_of "ads.example.") st0).
Proof.
  apply (rejected_no_trace cfg w_out (env_of (inr tracked)) (req_of "ads.example.") st0).
  left. intros [_ Ha]. revert Ha. vm_compute. discriminate.
Defined.


Lemma top_lists_private_witness :
  exists rec, hs_log (ServeDNS cfg w_lan (env_of (inr tracked)) (req_of "ads.example.") st0) = [rec] /\
    ClientIP rec = "".
Proof.
  destruct (top_lists_private cfg w_lan (env_of (inr tracked)) (req_of "ads.example.")
    (mkQuestion "ads.example." TypeA ClassINET) st0) as (rec & Hlog & _ & Hdrop & _).
  - apply st0_admitted; reflexivity.
  - apply req_wf.
  - intros m. apply iterates_refl.
  - intros m. apply iterates_refl.
  - vm_compute. discriminate.
  - vm_compute. discriminate.
  - exists rec. split; [exact Hlog |]. apply Hdrop; vm_compute; discriminate.
Defined.

Lemma blocked_query_sinkholed_witness :
  hs_contacts (ServeDNS cfg w_lan (env_of (inr tracked)) (req_of "ADS.example.") st0) = [].
Proof.
  destruct (blocked_query_sinkholed cfg w_lan (env_of (inr tracked)) (req_of "ADS.example.")
    (mkQuestion "ADS.example." TypeA ClassINET) st0) as (r & _ & Hc & _).
  - apply st0_admitted; reflexivity.
  - apply req_wf.
  - vm_compute. reflexivity.
  - vm_compute. reflexivity.
  - vm_compute. reflexivity.
  - exact Hc.
Defined.

(** A query over the forward limit gets SERVFAIL at once. *)
Example over_the_limit :
  let s' := ServeDNS cfg w_lan (env_of (inr tracked)) (req_of "www.example.") (set_slots 512 st0) in
  map Rcode (hs_sent s') = [RcodeServerFailure] /\ hs_limited s' = 1%Z /\ hs_contacts s' = [].
Proof. vm_compute. done. Qed.
End HandlerExamples.
