(* ===== verification/Config.v ===== *)
(** * The configuration (internal/config/config.go, privacy.go)

    From the YAML document and the environment to a checked configuration:
    [load] with its problems and its fatal errors, and the privacy warnings.

    [yaml.Unmarshal] belongs to a third-party package: it is a parameter, and
    its result is the tree of nodes that the code walks. A pointer to a setting
    ([&c.DNS.Listen]) is a [ptr], which loads and stores one field. *)

From stdpp Require Import base numbers list gmap sets strings.
From Stdlib Require Import Ascii ZArith Lia.
From S2P Require Import Prelude GoStrings GoUrl GoConv GoNet Redact Loader.

Open Scope string_scope.

(** ** The settings *)

Record DNS := mkDNS {
  Listen : string;
  DoTListen : string;
  DoTCert : string;
  DoTKey : string;
  Upstreams : list string;
  CacheEntries : Z;
  LocalPTR : bool;
  LocalDomains : list string;
}.

Record Blocking := mkBlocking {
  Lists : list string;
  Allowlist : list string;
  Reply : string;
  ReplyTTLSeconds : Z;
  RefreshInterval : Z;
  CacheDir : string;
  CNAMEInspection : bool;
}.

Record QueryLog := mkQueryLog {
  Mode : string;
  Clients : string;
  Database : string;
  File : string;
  RetentionDays : Z;
  FlushInterval : Z;
  ClientNames : gmap string string;
}.

Record Admin := mkAdmin {
  AdminListen : string;
  Pprof : bool;
}.

Record Config := mkConfig {
  c_DNS : DNS;
  c_Blocking : Blocking;
  c_QueryLog : QueryLog;
  c_Admin : Admin;
  StatsInterval : Z;
}.

Definition ModeNone : string := "none".
Definition ModeBlocked : string := "blocked".
Definition ModeAll : string := "all".
Definition ClientsDrop : string := "drop".
Definition ClientsSubnet : string := "subnet".
Definition ClientsFull : string := "full".
Definition ReplyZeroIP : string := "zero_ip".
Definition ReplyNXDomain : string := "nxdomain".
Definition FileStdout : string := "stdout".
Definition Off : string := "off".

Definition DefaultUpstreams : list string :=
  ["https://9.9.9.9/dns-query"; "https://1.1.1.1/dns-query"; "9.9.9.9:53"; "1.1.1.1:53"].

Definition defaultListen : string := ":53".
Definition defaultCacheEntries : Z := 2000.
Definition defaultReplyTTL : Z := 300.
Definition defaultRefreshInterval : Z := (24 * hour)%Z.
Definition defaultCacheDir : string := ".".
Definition defaultRetentionDays : Z := 7.
Definition defaultFlushInterval : Z := (30 * second)%Z.
Definition defaultAdminListen : string := "127.0.0.1:8080".
Definition defaultStatsInterval : Z := (5 * minute)%Z.

Definition defaults : Config :=
  mkConfig
    (mkDNS defaultListen "" "" "" DefaultUpstreams defaultCacheEntries true [])
    (mkBlocking [] [] ReplyZeroIP defaultReplyTTL defaultRefreshInterval defaultCacheDir true)
    (mkQueryLog ModeNone ClientsDrop "" "" defaultRetentionDays defaultFlushInterval ∅)
    (mkAdmin defaultAdminListen false)
    defaultStatsInterval.

(** ** Pointers to the settings *)

Record ptr (A : Type) := mkPtr {
  load_ : Config -> A;
  store_ : A -> Config -> Config;
}.
Arguments mkPtr {A}.
Arguments load_ {A}.
Arguments store_ {A}.

Definition upd_DNS (f : DNS -> DNS) (c : Config) : Config :=
  mkConfig (f (c_DNS c)) (c_Blocking c) (c_QueryLog c) (c_Admin c) (StatsInterval c).
Definition upd_Blocking (f : Blocking -> Blocking) (c : Config) : Config :=
  mkConfig (c_DNS c) (f (c_Blocking c)) (c_QueryLog c) (c_Admin c) (StatsInterval c).
Definition upd_QueryLog (f : QueryLog -> QueryLog) (c : Config) : Config :=
  mkConfig (c_DNS c) (c_Blocking c) (f (c_QueryLog c)) (c_Admin c) (StatsInterval c).
Definition upd_Admin (f : Admin -> Admin) (c : Config) : Config :=
  mkConfig (c_DNS c) (c_Blocking c) (c_QueryLog c) (f (c_Admin c)) (StatsInterval c).

Definition p_Listen : ptr string := mkPtr (fun c => Listen (c_DNS c)) (fun x => upd_DNS (fun d =>
  mkDNS x (DoTListen d) (DoTCert d) (DoTKey d) (Upstreams d) (CacheEntries d) (LocalPTR d) (LocalDomains d))).
Definition p_DoTListen : ptr string := mkPtr (fun c => DoTListen (c_DNS c)) (fun x => upd_DNS (fun d =>
  mkDNS (Listen d) x (DoTCert d) (DoTKey d) (Upstreams d) (CacheEntries d) (LocalPTR d) (LocalDomains d))).
Definition p_DoTCert : ptr string := mkPtr (fun c => DoTCert (c_DNS c)) (fun x => upd_DNS (fun d =>
  mkDNS (Listen d) (DoTListen d) x (DoTKey d) (Upstreams d) (CacheEntries d) (LocalPTR d) (LocalDomains d))).
Definition p_DoTKey : ptr string := mkPtr (fun c => DoTKey (c_DNS c)) (fun x => upd_DNS (fun d =>
  mkDNS (Listen d) (DoTListen d) (DoTCert d) x (Upstreams d) (CacheEntries d) (LocalPTR d) (LocalDomains d))).
Definition p_Upstreams : ptr (list string) := mkPtr (fun c => Upstreams (c_DNS c)) (fun x => upd_DNS (fun d =>
  mkDNS (Listen d) (DoTListen d) (DoTCert d) (DoTKey d) x (CacheEntries d) (LocalPTR d) (LocalDomains d))).
Definition p_CacheEntries : ptr Z := mkPtr (fun c => CacheEntries (c_DNS c)) (fun x => upd_DNS (fun d =>
  mkDNS (Listen d) (DoTListen d) (DoTCert d) (DoTKey d) (Upstreams d) x (LocalPTR d) (LocalDomains d))).
Definition p_LocalPTR : ptr bool := mkPtr (fun c => LocalPTR (c_DNS c)) (fun x => upd_DNS (fun d =>
  mkDNS (Listen d) (DoTListen d) (DoTCert d) (DoTKey d) (Upstreams d) (CacheEntries d) x (LocalDomains d))).
Definition p_LocalDomains : ptr (list string) := mkPtr (fun c => LocalDomains (c_DNS c)) (fun x => upd_DNS (fun d =>
  mkDNS (Listen d) (DoTListen d) (DoTCert d) (DoTKey d) (Upstreams d) (CacheEntries d) (LocalPTR d) x)).

Definition p_Lists : ptr (list string) := mkPtr (fun c => Lists (c_Blocking c)) (fun x => upd_Blocking (fun b =>
  mkBlocking x (Allowlist b) (Reply b) (ReplyTTLSeconds b) (RefreshInterval b) (CacheDir b) (CNAMEInspection b))).
Definition p_Allowlist : ptr (list string) := mkPtr (fun c => Allowlist (c_Blocking c)) (fun x => upd_Blocking (fun b =>
  mkBlocking (Lists b) x (Reply b) (ReplyTTLSeconds b) (RefreshInterval b) (CacheDir b) (CNAMEInspection b))).
Definition p_Reply : ptr string := mkPtr (fun c => Reply (c_Blocking c)) (fun x => upd_Blocking (fun b =>
  mkBlocking (Lists b) (Allowlist b) x (ReplyTTLSeconds b) (RefreshInterval b) (CacheDir b) (CNAMEInspection b))).
Definition p_ReplyTTLSeconds : ptr Z := mkPtr (fun c => ReplyTTLSeconds (c_Blocking c)) (fun x => upd_Blocking (fun b =>
  mkBlocking (Lists b) (Allowlist b) (Reply b) x (RefreshInterval b) (CacheDir b) (CNAMEInspection b))).
Definition p_RefreshInterval : ptr Z := mkPtr (fun c => RefreshInterval (c_Blocking c)) (fun x => upd_Blocking (fun b =>
  mkBlocking (Lists b) (Allowlist b) (Reply b) (ReplyTTLSeconds b) x (CacheDir b) (CNAMEInspection b))).
Definition p_CacheDir : ptr string := mkPtr (fun c => CacheDir (c_Blocking c)) (fun x => upd_Blocking (fun b =>
  mkBlocking (Lists b) (Allowlist b) (Reply b) (ReplyTTLSeconds b) (RefreshInterval b) x (CNAMEInspection b))).
Definition p_CNAMEInspection : ptr bool := mkPtr (fun c => CNAMEInspection (c_Blocking c)) (fun x => upd_Blocking (fun b =>
  mkBlocking (Lists b) (Allowlist b) (Reply b) (ReplyTTLSeconds b) (RefreshInterval b) (CacheDir b) x)).

Definition p_Mode : ptr string := mkPtr (fun c => Mode (c_QueryLog c)) (fun x => upd_QueryLog (fun q =>
  mkQueryLog x (Clients q) (Database q) (File q) (RetentionDays q) (FlushInterval q) (ClientNames q))).
Definition p_Clients : ptr string := mkPtr (fun c => Clients (c_QueryLog c)) (fun x => upd_QueryLog (fun q =>
  mkQueryLog (Mode q) x (Database q) (File q) (RetentionDays q) (FlushInterval q) (ClientNames q))).
Definition p_Database : ptr string := mkPtr (fun c => Database (c_QueryLog c)) (fun x => upd_QueryLog (fun q =>
  mkQueryLog (Mode q) (Clients q) x (File q) (RetentionDays q) (FlushInterval q) (ClientNames q))).
Definition p_File : ptr string := mkPtr (fun c => File (c_QueryLog c)) (fun x => upd_QueryLog (fun q =>
  mkQueryLog (Mode q) (Clients q) (Database q) x (RetentionDays q) (FlushInterval q) (ClientNames q))).
Definition p_RetentionDays : ptr Z := mkPtr (fun c => RetentionDays (c_QueryLog c)) (fun x => upd_QueryLog (fun q =>
  mkQueryLog (Mode q) (Clients q) (Database q) (File q) x (FlushInterval q) (ClientNames q))).
Definition p_FlushInterval : ptr Z := mkPtr (fun c => FlushInterval (c_QueryLog c)) (fun x => upd_QueryLog (fun q =>
  mkQueryLog (Mode q) (Clients q) (Database q) (File q) (RetentionDays q) x (ClientNames q))).
Definition p_ClientNames : ptr (gmap string string) := mkPtr (fun c => ClientNames (c_QueryLog c)) (fun x => upd_QueryLog (fun q =>
  mkQueryLog (Mode q) (Clients q) (Database q) (File q) (RetentionDays q) (FlushInterval q) x)).

Definition p_AdminListen : ptr string := mkPtr (fun c => AdminListen (c_Admin c)) (fun x => upd_Admin (fun a =>
  mkAdmin x (Pprof a))).
Definition p_Pprof : ptr bool := mkPtr (fun c => Pprof (c_Admin c)) (fun x => upd_Admin (fun a =>
  mkAdmin (AdminListen a) x)).
Definition p_StatsInterval : ptr Z := mkPtr StatsInterval (fun x c =>
  mkConfig (c_DNS c) (c_Blocking c) (c_QueryLog c) (c_Admin c) x).

(** ** YAML *)

Inductive Kind := DocumentNode | SequenceNode | MappingNode | ScalarNode | AliasNode | ZeroNode.

#[export] Instance Kind_eq_dec : EqDecision Kind.
Proof. solve_decision. Defined.

Inductive Node := mkNode {
  n_Kind : Kind;
  n_Tag : string;
  n_Value : string;
  n_Content : list Node;
}.

(** [yaml.Unmarshal] into a [yaml.Node]: an error or the root. *)
Class YamlParse := yaml_unmarshal : string -> string + Node.

Definition is_null (n : Node) : bool :=
  bool_decide (n_Kind n = ScalarNode) && (n_Tag n =? "!!null")%string.

(** The keys and values of a mapping node: [for i := 0; i+1 < len; i += 2]. *)
Fixpoint pairs {A} (l : list A) : list (A * A) :=
  match l with
  | k :: v :: l' => (k, v) :: pairs l'
  | _ => []
  end.

Record Problem := mkProblem { Key : string; Detail : string }.

Definition Problem_String (p : Problem) : string := Key p +:+ ": " +:+ Detail p.

(** ** Setting parsers *)

Section config.
Context `{HUL : UnicodeLower} `{HUQ : UnicodeQuote} `{HURL : UrlParse} `{HYAML : YamlParse}.

(** [IsOff]. *)
Definition IsOff (v : string) : bool := (v =? "")%string || equal_fold v Off.

(** A parser of a scalar: an error, or the configuration with the value. *)
Definition scalar_parser : Type := string -> Config -> string + Config.

Definition quoteJoin (vals : list string) : string :=
  match rev (map Quote vals) with
  | [] => ""
  | [q] => q
  | q :: front => join ", " (rev front) +:+ " or " +:+ q
  end.

Definition setString (dst : ptr string) (def : string) : scalar_parser := fun raw c =>
  if (raw =? "")%string then inr (store_ dst def c) else inr (store_ dst raw c).

Definition setPath (dst : ptr string) : scalar_parser := fun raw c => inr (store_ dst raw c).

Definition setOptional (dst : ptr string) : scalar_parser := fun raw c =>
  if IsOff raw then inr (store_ dst "" c) else inr (store_ dst raw c).

Definition setFile (dst : ptr string) : scalar_parser := fun raw c =>
  if IsOff raw then inr (store_ dst "" c)
  else if equal_fold raw FileStdout then inr (store_ dst FileStdout c)
  else inr (store_ dst raw c).

Definition setEnum (dst : ptr string) (def : string) (allowed : list string) : scalar_parser :=
  fun raw c =>
  if (raw =? "")%string then inr (store_ dst def c)
  else if existsb (fun a => (raw =? a)%string) allowed then inr (store_ dst raw c)
  else inl (Quote raw +:+ " is not allowed (use " +:+ quoteJoin allowed +:+ ")").

Definition setInt (dst : ptr Z) (lowest def : Z) : scalar_parser := fun raw c =>
  if (raw =? "")%string then inr (store_ dst def c)
  else match Atoi (trim_space raw) with
  | None => inl (Quote raw +:+ " is not a whole number")
  | Some n =>
      if (n <? lowest)%Z then inl (Itoa n +:+ " is below " +:+ Itoa lowest)
      else inr (store_ dst n c)
  end.

Definition setUint32 (dst : ptr Z) (def : Z) : scalar_parser := fun raw c =>
  if (raw =? "")%string then inr (store_ dst def c)
  else match ParseUint (trim_space raw) 32 with
  | None => inl (Quote raw +:+ " is not a whole number from 0 to 4294967295")
  | Some n => inr (store_ dst n c)
  end.

Definition setBool (dst : ptr bool) (def : bool) : scalar_parser := fun raw c =>
  if (raw =? "")%string then inr (store_ dst def c)
  else
    let v := to_lower (trim_space raw) in
    if existsb (fun a => (v =? a)%string) ["true"; "yes"; "1"] then inr (store_ dst true c)
    else if existsb (fun a => (v =? a)%string) ["false"; "no"; "0"] then inr (store_ dst false c)
    else inl (Quote raw +:+ " is not true or false").

Definition setDuration (dst : ptr Z) (def : Z) : scalar_parser := fun raw c =>
  if (raw =? "")%string then inr (store_ dst def c)
  else match ParseDuration (trim_space raw) with
  | None => inl (Quote raw +:+ " is not a duration such as 30s, 5m, or 24h")
  | Some d =>
      if (d <=? 0)%Z then inl (Quote raw +:+ " must be positive")
      else inr (store_ dst d c)
  end.

(** A parser of a list or a map. Its list of problems is always empty, so only
    the error is kept. *)
Definition node_parser : Type := Node -> Config -> string + Config.

Definition item_value (item : Node) : string := if is_null item then "" else n_Value item.

(** The code reads the tag of an item that is a scalar node. *)
Definition listSetter (dst : ptr (list string)) (keepEmpty : bool) : node_parser := fun n c =>
  if is_null n then inr (store_ dst [] c)
  else if negb (bool_decide (n_Kind n = SequenceNode)) then inl "must be a list"
  else if existsb (fun item => negb (bool_decide (n_Kind item = ScalarNode))) (n_Content n)
  then inl "every list entry must be a single value"
  else inr (store_ dst (List.filter (fun v => negb (v =? "")%string || keepEmpty)
                          (map item_value (n_Content n))) c).

Definition setList (dst : ptr (list string)) : node_parser := listSetter dst false.
Definition setListKeepEmpty (dst : ptr (list string)) : node_parser := listSetter dst true.

Definition setMap (dst : ptr (gmap string string)) : node_parser := fun n c =>
  if is_null n then inr (store_ dst ∅ c)
  else if negb (bool_decide (n_Kind n = MappingNode)) then inl "must be a map of key: value pairs"
  else if existsb (fun kv => negb (bool_decide (n_Kind (fst kv) = ScalarNode))
                             || negb (bool_decide (n_Kind (snd kv) = ScalarNode)))
            (pairs (n_Content n))
  then inl "every entry must be key: value"
  else inr (store_ dst
         (fold_left (fun m kv => <[n_Value (fst kv) := n_Value (snd kv)]> m) (pairs (n_Content n)) ∅) c).

(** ** The table of settings *)

Definition quoted (p : ptr string) : Config -> string := fun c => Quote (load_ p c).
Definition offOr (p : ptr string) : Config -> string := fun c =>
  if (load_ p c =? "")%string then Off else Quote (load_ p c).
Definition itoa (p : ptr Z) : Config -> string := fun c => Itoa (load_ p c).
Definition btoa (p : ptr bool) : Config -> string := fun c => FormatBool (load_ p c).
Definition dtoa (p : ptr Z) : Config -> string := fun c => Duration_String (load_ p c).

(** A setting holds a scalar, or a list or map. *)
Inductive setting_kind :=
  | Scalar (f : scalar_parser)
  | NodeValue (f : node_parser).

Record setting := mkSetting {
  key : string;
  parser : setting_kind;
  current : Config -> string;
}.

Definition settings : list setting := [
  mkSetting "dns.listen" (Scalar (setString p_Listen defaultListen)) (quoted p_Listen);
  mkSetting "dns.dot_listen" (Scalar (setOptional p_DoTListen)) (offOr p_DoTListen);
  mkSetting "dns.dot_cert" (Scalar (setPath p_DoTCert)) (quoted p_DoTCert);
  mkSetting "dns.dot_key" (Scalar (setPath p_DoTKey)) (quoted p_DoTKey);
  mkSetting "dns.upstreams" (NodeValue (setList p_Upstreams)) (fun c => join ", " (Upstreams (c_DNS c)));
  mkSetting "dns.cache_entries" (Scalar (setInt p_CacheEntries 0 defaultCacheEntries)) (itoa p_CacheEntries);
  mkSetting "dns.local_ptr" (Scalar (setBool p_LocalPTR true)) (btoa p_LocalPTR);
  mkSetting "dns.local_domains" (NodeValue (setListKeepEmpty p_LocalDomains))
    (fun c => Itoa (lenZ (LocalDomains (c_DNS c))) +:+ " domains");
  mkSetting "blocking.lists" (NodeValue (setList p_Lists))
    (fun c => Itoa (lenZ (Lists (c_Blocking c))) +:+ " lists");
  mkSetting "blocking.allowlist" (NodeValue (setList p_Allowlist))
    (fun c => Itoa (lenZ (Allowlist (c_Blocking c))) +:+ " domains");
  mkSetting "blocking.reply" (Scalar (setEnum p_Reply ReplyZeroIP [ReplyZeroIP; ReplyNXDomain])) (quoted p_Reply);
  mkSetting "blocking.reply_ttl_seconds" (Scalar (setUint32 p_ReplyTTLSeconds defaultReplyTTL)) (itoa p_ReplyTTLSeconds);
  mkSetting "blocking.refresh_interval" (Scalar (setDuration p_RefreshInterval defaultRefreshInterval)) (dtoa p_RefreshInterval);
  mkSetting "blocking.cache_dir" (Scalar (setString p_CacheDir defaultCacheDir)) (quoted p_CacheDir);
  mkSetting "blocking.cname_inspection" (Scalar (setBool p_CNAMEInspection true)) (btoa p_CNAMEInspection);
  mkSetting "query_log.mode" (Scalar (setEnum p_Mode ModeNone [ModeNone; ModeBlocked; ModeAll])) (quoted p_Mode);
  mkSetting "query_log.clients" (Scalar (setEnum p_Clients ClientsDrop [ClientsDrop; ClientsSubnet; ClientsFull])) (quoted p_Clients);
  mkSetting "query_log.database" (Scalar (setOptional p_Database)) (offOr p_Database);
  mkSetting "query_log.file" (Scalar (setFile p_File)) (offOr p_File);
  mkSetting "query_log.retention_days" (Scalar (setInt p_RetentionDays 0 defaultRetentionDays)) (itoa p_RetentionDays);
  mkSetting "query_log.flush_interval" (Scalar (setDuration p_FlushInterval defaultFlushInterval)) (dtoa p_FlushInterval);
  mkSetting "query_log.client_names" (NodeValue (setMap p_ClientNames))
    (fun c => Itoa (Z.of_nat (size (ClientNames (c_QueryLog c)))) +:+ " labels");
  mkSetting "admin.listen" (Scalar (setString p_AdminListen defaultAdminListen)) (quoted p_AdminListen);
  mkSetting "admin.pprof" (Scalar (setBool p_Pprof false)) (btoa p_Pprof);
  mkSetting "stats_interval" (Scalar (setDuration p_StatsInterval defaultStatsInterval)) (dtoa p_StatsInterval)
].

Definition is_section (k : string) : bool :=
  existsb (fun a => (k =? a)%string) ["dns"; "blocking"; "query_log"; "admin"].

Definition lookup_renamed (l : list (string * string)) (k : string) : option string :=
  snd <$> List.find (fun p => (fst p =? k)%string) l.

Definition renamedKeys : list (string * string) := [
  ("listen", "dns.listen"); ("dot_listen", "dns.dot_listen"); ("tls_cert", "dns.dot_cert");
  ("tls_key", "dns.dot_key"); ("upstreams", "dns.upstreams"); ("cache_size", "dns.cache_entries");
  ("local_ptr", "dns.local_ptr"); ("blocklists", "blocking.lists"); ("whitelist", "blocking.allowlist");
  ("block_mode", "blocking.reply"); ("block_ttl", "blocking.reply_ttl_seconds");
  ("refresh_interval", "blocking.refresh_interval"); ("cache_dir", "blocking.cache_dir");
  ("log_queries", "query_log.mode"); ("query_privacy", "query_log.clients");
  ("query_db", "query_log.database"); ("log_file", "query_log.file");
  ("query_db_retention_days", "query_log.retention_days");
  ("db_flush_interval", "query_log.flush_interval"); ("client_names", "query_log.client_names");
  ("api_listen", "admin.listen"); ("enable_pprof", "admin.pprof")].

Definition renamedEnv : list (string * string) := [
  ("S_HOLE_LISTEN", "S_HOLE_DNS_LISTEN"); ("S_HOLE_DOT_LISTEN", "S_HOLE_DNS_DOT_LISTEN");
  ("S_HOLE_TLS_CERT", "S_HOLE_DNS_DOT_CERT"); ("S_HOLE_TLS_KEY", "S_HOLE_DNS_DOT_KEY");
  ("S_HOLE_CACHE_SIZE", "S_HOLE_DNS_CACHE_ENTRIES"); ("S_HOLE_LOCAL_PTR", "S_HOLE_DNS_LOCAL_PTR");
  ("S_HOLE_BLOCK_MODE", "S_HOLE_BLOCKING_REPLY");
  ("S_HOLE_BLOCK_TTL", "S_HOLE_BLOCKING_REPLY_TTL_SECONDS");
  ("S_HOLE_REFRESH_INTERVAL", "S_HOLE_BLOCKING_REFRESH_INTERVAL");
  ("S_HOLE_CACHE_DIR", "S_HOLE_BLOCKING_CACHE_DIR"); ("S_HOLE_LOG_QUERIES", "S_HOLE_QUERY_LOG_MODE");
  ("S_HOLE_QUERY_PRIVACY", "S_HOLE_QUERY_LOG_CLIENTS"); ("S_HOLE_QUERY_DB", "S_HOLE_QUERY_LOG_DATABASE");
  ("S_HOLE_LOG_FILE", "S_HOLE_QUERY_LOG_FILE");
  ("S_HOLE_RETENTION_DAYS", "S_HOLE_QUERY_LOG_RETENTION_DAYS");
  ("S_HOLE_DB_FLUSH_INTERVAL", "S_HOLE_QUERY_LOG_FLUSH_INTERVAL");
  ("S_HOLE_API_LISTEN", "S_HOLE_ADMIN_LISTEN"); ("S_HOLE_ENABLE_PPROF", "S_HOLE_ADMIN_PPROF")].

Definition otherEnv : list string := ["S_HOLE_LOG_FORMAT"; "S_HOLE_ASCII_BANNER"].

Definition byKey (k : string) : option setting :=
  List.find (fun s => (key s =? k)%string) settings.

(** ** Applying the document *)

Definition applyNode (s : setting) (val : Node) (c : Config) : Config * list Problem :=
  match parser s with
  | NodeValue f =>
      match f val c with
      | inr c' => (c', [])
      | inl err => (c, [mkProblem (key s) (err +:+ "; using the default")])
      end
  | Scalar f =>
      if negb (bool_decide (n_Kind val = ScalarNode))
      then (c, [mkProblem (key s) ("must be a single value; using " +:+ current s c)])
      else match f (item_value val) c with
           | inr c' => (c', [])
           | inl err => (c, [mkProblem (key s) (err +:+ "; using " +:+ current s c)])
           end
  end.

(** The variables of [applyYAML] that its closure [apply] changes. *)
Record apply_state := mkApply {
  ap_config : Config;
  ap_probs : list Problem;
  ap_seen : gset string;
}.

Definition add_problem (p : Problem) (st : apply_state) : apply_state :=
  mkApply (ap_config st) (ap_probs st ++ [p])%list (ap_seen st).

Definition apply_key (k : string) (val : Node) (st : apply_state) : apply_state :=
  let st := if mem k (ap_seen st)
            then add_problem (mkProblem k "is set more than once; the last value is used") st else st in
  let st := mkApply (ap_config st) (ap_probs st) ({[k]} ∪ ap_seen st) in
  match byKey k with
  | None => add_problem (mkProblem k "is not a known setting; it is ignored") st
  | Some s =>
      let '(c, probs) := applyNode s val (ap_config st) in
      mkApply c (ap_probs st ++ probs)%list (ap_seen st)
  end.

Definition apply_entry (kv : Node * Node) (st : apply_state) : apply_state :=
  let k := n_Value (fst kv) in
  let v := snd kv in
  if is_section k then
    if is_null v then st
    else if negb (bool_decide (n_Kind v = MappingNode))
    then add_problem (mkProblem k "must be a section of settings; it is ignored") st
    else fold_left (fun st jv => apply_key (k +:+ "." +:+ n_Value (fst jv)) (snd jv) st)
           (pairs (n_Content v)) st
  else match lookup_renamed renamedKeys k with
  | Some new =>
      add_problem (mkProblem k ("was renamed to " +:+ new +:+ " in s-hole 2.0; the old key is ignored")) st
  | None => apply_key k v st
  end.

Definition applyYAML (root : Node) (c : Config) : Config * list Problem :=
  match n_Content root with
  | [] => (c, [])
  | doc :: _ =>
      if bool_decide (n_Kind root = ZeroNode) || is_null doc then (c, [])
      else if negb (bool_decide (n_Kind doc = MappingNode))
      then (c, [mkProblem "config" "the file must be a mapping of keys to values; the whole file is ignored and every setting uses its default"])
      else
        let st := fold_left (fun st kv => apply_entry kv st) (pairs (n_Content doc)) (mkApply c [] ∅) in
        (ap_config st, ap_probs st)
  end.

(** ** Applying the environment *)

(** [strings.ToUpper] and [ReplaceAll] on a key, which is ASCII. *)
Definition upper_byte (a : ascii) : ascii :=
  if is_lower a then ascii_of_N (byte_val a - 32) else a.

Definition envName (k : string) : string :=
  "S_HOLE_" +:+ string_map (fun a => upper_byte (if Ascii.eqb a dot then "_"%char else a)) k.

(** The first loop: each scalar setting in the order of the table. *)
Definition apply_env_one (lookup : string -> option string) (cp : Config * list Problem) (s : setting)
    : Config * list Problem :=
  let '(c, probs) := cp in
  match parser s with
  | NodeValue _ => (c, probs)
  | Scalar f =>
      match lookup (envName (key s)) with
      | None => (c, probs)
      | Some v =>
          match f v c with
          | inr c' => (c', probs)
          | inl err =>
              (c, probs ++ [mkProblem (envName (key s))
                (err +:+ "; the variable is ignored and " +:+ key s +:+ " stays " +:+ current s c)])%list
          end
      end
  end.

Definition known_env : list string :=
  flat_map (fun s => match parser s with Scalar _ => [envName (key s)] | NodeValue _ => [] end) settings.

Definition env_problem (name : string) : Problem :=
  match lookup_renamed renamedEnv name with
  | Some to => mkProblem name ("was renamed to " +:+ to +:+ " in s-hole 2.0; the old variable is ignored")
  | None => mkProblem name "is not a known s-hole variable; it is ignored"
  end.

Definition env_var_name (kv : string) : string :=
  match cut_byte "="%char kv with Some (name, _) => name | None => kv end.

Definition in_list (x : string) (l : list string) : bool := existsb (fun a => (x =? a)%string) l.

Definition applyEnv (lookup : string -> option string) (environ : list string) (c : Config)
    : Config * list Problem :=
  let '(c, probs) := fold_left (apply_env_one lookup) settings (c, []) in
  let names := List.filter (fun name => has_prefix "S_HOLE_" name && negb (in_list name known_env)
                                        && negb (in_list name otherEnv)) (map env_var_name environ) in
  (c, probs ++ map env_problem (sort_strings names))%list.

(** ** Checking *)

Definition isHostPort (s : string) : bool :=
  match SplitHostPort s with
  | Some (_, port) => negb (port =? "")%string
  | None => false
  end.

(** [normalizeDoHURL]. *)
Definition normalizeDoHURL (u : string) : option string :=
  match url_parse u with
  | None => None
  | Some p =>
      if negb (u_Scheme p =? "https")%string || match u_User p with Some _ => true | None => false end
      then None
      else if (u_Path p =? "")%string || (u_Path p =? "/")%string then None
      else match ParseIP (u_Hostname p) with
           | None => None
           | Some _ => Some (url_String p)
           end
  end.

(** One entry: the string for the list, or [None] when it is dropped. *)
Definition filter_upstream (u : string) : option string :=
  if contains u "://" then normalizeDoHURL u
  else match SplitHostPort u with
       | None => None
       | Some (host, port) =>
           if (host =? "")%string || (port =? "")%string then None else Some u
       end.

(** The two results of a loop that appends to [valid] or [dropped]. *)
Definition split_entries {A B} (f : A -> option B) (l : list A) : list B * list A :=
  fold_left (fun '(valid, dropped) x =>
    match f x with
    | Some y => (valid ++ [y], dropped)%list
    | None => (valid, dropped ++ [x])%list
    end) l ([], []).

Definition filterUpstreams (upstreams : list string) : list string * list string :=
  split_entries filter_upstream upstreams.

Definition filterAllowlist (entries : list string) : list string * list string :=
  split_entries (fun d => if ValidDomain d then Some d else None) entries.

Definition local_byte (a : ascii) : bool :=
  is_lower a || is_digit a || Ascii.eqb a "-"%char || Ascii.eqb a "_"%char.

Definition last_byte (s : string) : option ascii := last (String.list_ascii_of_string s).

Definition validLocalLabel (label : string) : bool :=
  negb ((label =? "")%string || (63 <? slen label)%Z || has_prefix "-" label
        || match last_byte label with Some a => Ascii.eqb a "-"%char | None => false end)
  && string_forallb local_byte label.

Definition validLocalDomain (d : string) : bool :=
  if (d =? "")%string || (253 <? slen d)%Z then false
  else forallb validLocalLabel (split_byte dot d).

Definition normalizeLocal (raw : string) : string :=
  trim_suffix (trim_prefix (trim_prefix (to_lower (trim_space raw)) "*.") ".") ".".

Definition filter_local_step (st : list string * list string * gset string) (raw : string)
    : list string * list string * gset string :=
  let '(valid, dropped, seen) := st in
  let d := normalizeLocal raw in
  if negb (validLocalDomain d) then (valid, dropped ++ [raw], seen)%list
  else if mem d seen then st
  else (valid ++ [d], dropped, {[d]} ∪ seen)%list.

Definition filterLocalDomains (entries : list string) : list string * list string :=
  fst (fold_left filter_local_step entries ([], [], ∅)).

Definition client_key_ok (k : string) : bool :=
  match ParseIP k with
  | Some _ => true
  | None => match ParseCIDR k with Some _ => true | None => false end
  end.

(** The dropped keys are sorted, so the order of the map does not show. *)
Definition filterClientNames (m : gmap string string) : gmap string string * list string :=
  (filter (fun kv => client_key_ok (fst kv) = true) m,
   sort_strings (map fst (map_to_list (filter (fun kv => client_key_ok (fst kv) = false) m)))).

(** [load_pair cert key] is the error of [tls.LoadX509KeyPair]. *)
Definition checkDoT (load_pair : string -> string -> option string) (c : Config) : option string :=
  if (DoTCert (c_DNS c) =? "")%string || (DoTKey (c_DNS c) =? "")%string
  then Some "dns.dot_listen is set, so dns.dot_cert and dns.dot_key are required"
  else match load_pair (DoTCert (c_DNS c)) (DoTKey (c_DNS c)) with
       | Some err => Some ("dns.dot_cert/dns.dot_key: cannot load the DoT certificate: " +:+ err)
       | None => None
       end.

(** The upstream list of [check]: the problems, and the list or the fatal
    error. *)
Definition malformed_upstream (u : string) : Problem :=
  mkProblem "dns.upstreams" (Quote (URL u) +:+ " is malformed and is ignored (use IP:port, such as 9.9.9.9:53, or a DoH URL with an IP host and a path, such as https://9.9.9.9/dns-query, with no user name or password)").

Definition check_upstreams (ups : list string) : list Problem * (string + list string) :=
  match ups with
  | [] => ([], inr DefaultUpstreams)
  | _ =>
      let '(valid, dropped) := filterUpstreams ups in
      (map malformed_upstream dropped,
       match valid with
       | [] => inl "dns.upstreams: every entry is malformed, so s-hole cannot forward any query (use IP:port, such as 9.9.9.9:53, or a DoH URL such as https://9.9.9.9/dns-query)"
       | _ => inr valid
       end)
  end.

(** The three lists that are only filtered. *)
Definition check_lists (c : Config) : list Problem * Config :=
  let '(locals, badLocal) := filterLocalDomains (LocalDomains (c_DNS c)) in
  let '(allow, badDomains) := filterAllowlist (Allowlist (c_Blocking c)) in
  let '(names, badKeys) := filterClientNames (ClientNames (c_QueryLog c)) in
  (map (fun d => mkProblem "dns.local_domains"
      (Quote d +:+ " is not a valid domain and is ignored (use a name such as home.example or lan)")) badLocal ++
   map (fun d => mkProblem "blocking.allowlist" (Quote d +:+ " is not a valid domain and is ignored")) badDomains ++
   map (fun k => mkProblem "query_log.client_names"
      ("key " +:+ Quote k +:+ " is not an IP address or a CIDR and is ignored")) badKeys,
   store_ p_ClientNames names (store_ p_Allowlist allow (store_ p_LocalDomains locals c)))%list.

Definition check_admin (c : Config) : list Problem * Config :=
  if isHostPort (AdminListen (c_Admin c)) then ([], c)
  else ([mkProblem "admin.listen" (Quote (AdminListen (c_Admin c)) +:+ " is not host:port; using "
           +:+ Quote defaultAdminListen)],
        store_ p_AdminListen defaultAdminListen c).

(** The last part of [check]: DNS over TLS. *)
Definition check_dot (load_pair : string -> string -> option string) (c : Config)
    : list Problem * (string + Config) :=
  let dot := DoTListen (c_DNS c) in
  if (dot =? "")%string then ([], inr c)
  else if negb (isHostPort dot)
  then ([mkProblem "dns.dot_listen" (Quote dot +:+ " is not host:port; DoT stays off")],
        inr (store_ p_DoTListen "" c))
  else match checkDoT load_pair c with
       | Some err => ([], inl err)
       | None => ([], inr c)
       end.

Definition check (load_pair : string -> string -> option string) (c : Config)
    : list Problem * (string + Config) :=
  if negb (isHostPort (Listen (c_DNS c)))
  then ([], inl ("dns.listen " +:+ Quote (Listen (c_DNS c)) +:+ ": must be host:port, such as "
                   +:+ Quote ":53"))
  else
    let '(probs1, c) := check_admin c in
    match check_upstreams (Upstreams (c_DNS c)) with
    | (probs2, inl err) => (probs1 ++ probs2, inl err)%list
    | (probs2, inr ups) =>
        let '(probs3, c) := check_lists (store_ p_Upstreams ups c) in
        let '(probs4, r) := check_dot load_pair c in
        (probs1 ++ probs2 ++ probs3 ++ probs4, r)%list
    end.

Definition load (data : string) (lookup : string -> option string) (environ : list string)
    (load_pair : string -> string -> option string) : list Problem * (string + Config) :=
  match yaml_unmarshal data with
  | inl err => ([], inl ("config is not valid YAML: " +:+ err))
  | inr root =>
      let '(c, probs1) := applyYAML root defaults in
      let '(c, probs2) := applyEnv lookup environ c in
      let '(probs3, r) := check load_pair c in
      (probs1 ++ probs2 ++ probs3, r)%list
  end.

(** [Load]: the file is read first. *)
Definition Load (file : string + string) (lookup : string -> option string) (environ : list string)
    (load_pair : string -> string -> option string) : list Problem * (string + Config) :=
  match file with
  | inl err => ([], inl err)
  | inr data => load data lookup environ load_pair
  end.

(** ** Notes and warnings *)

Definition is_doh (u : string) : bool := has_prefix "https://" u.

Definition UpstreamNotes (c : Config) : list string :=
  let ups := Upstreams (c_DNS c) in
  let doh := existsb is_doh ups in
  let plain := existsb (fun u => negb (is_doh u)) ups in
  ((if (lenZ ups =? 1)%Z then ["single upstream configured; no forwarding fallback if it fails"] else []) ++
   (if doh && negb plain then ["every upstream is DoH; if TLS fails (for example, the system clock is wrong), s-hole cannot resolve names until it works again"]
    else if doh && plain then ["plain upstreams are a fallback; for a public name, s-hole uses one only when every DoH upstream has failed, and warns once a minute while it does"]
    else []))%list.

Record Warning := mkWarning { w_Key : string; w_Detail : string; w_Hint : string }.

Definition maxPrivateRetentionDays : Z := defaultRetentionDays.

Definition isLoopbackListen (addr : string) : bool :=
  match SplitHostPort addr with
  | None => false
  | Some (host, _) =>
      if equal_fold host "localhost" then true
      else match ParseIP host with
           | Some ip => IsLoopback (Unmap ip)
           | None => false
           end
  end.

Definition mode_warnings (q : QueryLog) : list Warning :=
  if (Mode q =? ModeAll)%string
  then [mkWarning "query_log.mode" "every query is recorded: the history shows each site every device uses"
          ("set query_log.mode to " +:+ Quote "none" +:+ ", or " +:+ Quote "blocked" +:+ " to record blocked queries only")]
  else if (Mode q =? ModeBlocked)%string
  then [mkWarning "query_log.mode" "blocked queries are recorded: the history shows which trackers and ads each app contacts"
          ("set query_log.mode to " +:+ Quote "none")]
  else [].

Definition client_warnings (q : QueryLog) : list Warning :=
  if (Clients q =? ClientsFull)%string
  then [mkWarning "query_log.clients"
          ("the address of each device is recorded, so each query can be traced to a device"
             +:+ if (size (ClientNames q) =? 0)%nat then "" else ", and client_names labels name the devices")
          ("set query_log.clients to " +:+ Quote "drop")]
  else if (Clients q =? ClientsSubnet)%string
  then [mkWarning "query_log.clients" "the subnet of each device is recorded" ("set query_log.clients to " +:+ Quote "drop")]
  else [].

Definition file_warnings (q : QueryLog) : list Warning :=
  if (File q =? "")%string then []
  else if (File q =? FileStdout)%string
  then [mkWarning "query_log.file" "query lines go to standard output: the system journal or the container log, which retention and purge cannot reach"
          ("set query_log.file to " +:+ Quote "off")]
  else [mkWarning "query_log.file" ("query lines go to " +:+ File q +:+ ", which retention does not shorten")
          ("set query_log.file to " +:+ Quote "off" +:+ ", or delete the file with s-hole -purge")].

Definition retention_warnings (q : QueryLog) : list Warning :=
  if (Database q =? "")%string then []
  else if (RetentionDays q =? 0)%Z
  then [mkWarning "query_log.retention_days" "the query history is kept forever"
          ("set query_log.retention_days to " +:+ Itoa maxPrivateRetentionDays)]
  else if (maxPrivateRetentionDays <? RetentionDays q)%Z
  then [mkWarning "query_log.retention_days" ("the query history is kept for " +:+ Itoa (RetentionDays q) +:+ " days")
          ("set query_log.retention_days to " +:+ Itoa maxPrivateRetentionDays +:+ " or less")]
  else [].

Definition list_warning (u : string) : list Warning :=
  if has_prefix "http://" (to_lower u)
  then [mkWarning "blocking.lists" (URL u +:+ " is downloaded over plain HTTP: anyone on the network path can change the list and unblock trackers")
          "use the https:// URL of the list"]
  else [].

Definition Warnings (c : Config) : list Warning :=
  let q := c_QueryLog c in
  (mode_warnings q ++
   (if negb (Mode q =? ModeNone)%string
    then client_warnings q ++ file_warnings q ++ retention_warnings q else []) ++
   (if isLoopbackListen (AdminListen (c_Admin c)) then []
    else [mkWarning "admin.listen" ("the dashboard and API on " +:+ AdminListen (c_Admin c) +:+ " have no login and use plain HTTP: every device that can reach them can read the stored history and change the allowlist, and a device on the network path can read the traffic")
            ("set admin.listen to " +:+ Quote "127.0.0.1:8080")]) ++
   (if Pprof (c_Admin c)
    then [mkWarning "admin.pprof" "the Go profiler is exposed on the admin address and shows the internal state of the process"
            "set admin.pprof to false when the investigation is done"] else []) ++
   (if LocalPTR (c_DNS c) then []
    else [mkWarning "dns.local_ptr" "reverse lookups for LAN addresses go upstream and tell the upstream which addresses the LAN uses"
            "set dns.local_ptr to true, unless a resolver on the LAN serves those reverse zones"]) ++
   (if existsb is_doh (Upstreams (c_DNS c)) then []
    else [mkWarning "dns.upstreams" "every upstream is plain DNS: the internet provider can read and change every forwarded query"
            "put a DoH upstream first, such as https://9.9.9.9/dns-query"]) ++
   (if CNAMEInspection (c_Blocking c) then []
    else [mkWarning "blocking.cname_inspection" "s-hole does not check CNAME targets, so it does not block a tracker behind a subdomain of a site"
            "set blocking.cname_inspection to true"]) ++
   flat_map list_warning (Lists (c_Blocking c)))%list.
End config.

(** ** What a setting stores *)

Section stores.
Context `{HUL : UnicodeLower} `{HUQ : UnicodeQuote}.

(** A parser that succeeds stores a value with [P] and changes nothing else. *)
Definition stores {A V} (f : V -> Config -> string + Config) (p : ptr A) (P : A -> Prop) : Prop :=
  forall raw, (exists e, forall c, f raw c = inl e) \/
              (exists v, P v /\ forall c, f raw c = inr (store_ p v c)).

Local Ltac value v := right; exists v; split; [|done].
Local Ltac fails := left; eexists; intros c; reflexivity.

Lemma setString_stores p def : stores (setString p def) p (fun v => def <> "" -> v <> "").
Proof.
  intros raw. unfold setString. destruct (String.eqb_spec raw "") as [->|Hr]; [value def | value raw]; auto.
Qed.

Lemma setPath_stores p : stores (setPath p) p (fun _ => True).
Proof. intros raw. by value raw. Qed.

Lemma setOptional_stores p : stores (setOptional p) p (fun v => IsOff v = false \/ v = "").
Proof.
  intros raw. unfold setOptional. destruct (IsOff raw) eqn:Ho; [value "" | value raw]; auto.
Qed.

Lemma setFile_stores p : stores (setFile p) p (fun v => IsOff v = false \/ v = "" \/ v = FileStdout).
Proof.
  intros raw. unfold setFile. destruct (IsOff raw) eqn:Ho; [value ""; auto |].
  destruct (equal_fold raw FileStdout); [value FileStdout | value raw]; auto.
Qed.

Lemma setEnum_stores p def allowed : stores (setEnum p def allowed) p (fun v => v ∈ def :: allowed).
Proof.
  intros raw. unfold setEnum. destruct (String.eqb_spec raw "") as [->|Hr].
  - value def. left.
  - destruct (existsb _ allowed) eqn:He; [|fails]. value raw. right.
    apply existsb_elem in He as (a & Ha & ->%String.eqb_eq). done.
Qed.

Lemma setInt_stores p lowest def :
  (lowest <= def <= max_int64)%Z ->
  stores (setInt p lowest def) p (fun v => lowest <= v <= max_int64)%Z.
Proof.
  intros Hd raw. unfold setInt. destruct (String.eqb_spec raw "") as [->|Hr]; [by value def |].
  destruct (Atoi (trim_space raw)) as [n|] eqn:Hn; [|fails].
  destruct (Z.ltb_spec n lowest); [fails |]. value n. apply Atoi_range in Hn. lia.
Qed.

Lemma setUint32_stores p def :
  in_range 32 def -> stores (setUint32 p def) p (in_range 32).
Proof.
  intros Hd raw. unfold setUint32. destruct (String.eqb_spec raw "") as [->|Hr]; [by value def |].
  destruct (ParseUint (trim_space raw) 32) as [n|] eqn:Hn; [|fails]. value n.
  by apply ParseUint_range in Hn.
Qed.

Lemma setBool_stores p def : stores (setBool p def) p (fun _ => True).
Proof.
  intros raw. unfold setBool. destruct (String.eqb_spec raw "") as [->|Hr]; [by value def |].
  cbv zeta. destruct (existsb _ ["true"; _; _]); [by value true |].
  destruct (existsb _ _); [by value false | fails].
Qed.

Lemma setDuration_stores p def :
  (0 < def <= max_int64)%Z -> stores (setDuration p def) p (fun v => 0 < v <= max_int64)%Z.
Proof.
  intros Hd raw. unfold setDuration. destruct (String.eqb_spec raw "") as [->|Hr]; [by value def |].
  destruct (ParseDuration (trim_space raw)) as [d|] eqn:Hn; [|fails].
  destruct (Z.leb_spec d 0); [fails |]. value d. apply ParseDuration_range in Hn. lia.
Qed.

Lemma listSetter_stores p keep : stores (listSetter p keep) p (fun _ => True).
Proof.
  intros n. unfold listSetter. destruct (is_null n); [by value (@nil string) |].
  destruct (negb _); [fails |]. destruct (existsb _ _); [fails |]. right.
  eexists. split; [exact I | reflexivity].
Qed.

Lemma setMap_stores p : stores (setMap p) p (fun _ => True).
Proof.
  intros n. unfold setMap. destruct (is_null n); [by value (∅ : gmap string string) |].
  destruct (negb _); [fails |]. destruct (existsb _ _); [fails |]. right.
  eexists. split; [exact I | reflexivity].
Qed.
End stores.
#[export] Hint Resolve setString_stores setPath_stores setOptional_stores setFile_stores setEnum_stores
  setInt_stores setUint32_stores setBool_stores setDuration_stores listSetter_stores setMap_stores : shole.

(** ** What a whole document stores *)

(** The settings have their values' types: the enumerated ones are one of the
    values that the code uses, the numbers fit their width, and the durations
    are positive, as a ticker needs. *)
Definition scalars_ok (c : Config) : Prop :=
  Mode (c_QueryLog c) ∈ [ModeNone; ModeBlocked; ModeAll] /\
  Clients (c_QueryLog c) ∈ [ClientsDrop; ClientsSubnet; ClientsFull] /\
  Reply (c_Blocking c) ∈ [ReplyZeroIP; ReplyNXDomain] /\
  in_range 32 (ReplyTTLSeconds (c_Blocking c)) /\
  (0 <= CacheEntries (c_DNS c) <= max_int64)%Z /\
  (0 <= RetentionDays (c_QueryLog c) <= max_int64)%Z /\
  (0 < RefreshInterval (c_Blocking c) <= max_int64)%Z /\
  (0 < FlushInterval (c_QueryLog c) <= max_int64)%Z /\
  (0 < StatsInterval c <= max_int64)%Z.

(** [c'] differs from [c] in the setting [k] at most. *)
Definition frame (k : string) (c c' : Config) : Prop :=
  (k <> "dns.listen" -> Listen (c_DNS c') = Listen (c_DNS c)) /\
  (k <> "dns.dot_listen" -> DoTListen (c_DNS c') = DoTListen (c_DNS c)) /\
  (k <> "dns.dot_cert" -> DoTCert (c_DNS c') = DoTCert (c_DNS c)) /\
  (k <> "dns.dot_key" -> DoTKey (c_DNS c') = DoTKey (c_DNS c)) /\
  (k <> "dns.upstreams" -> Upstreams (c_DNS c') = Upstreams (c_DNS c)) /\
  (k <> "dns.cache_entries" -> CacheEntries (c_DNS c') = CacheEntries (c_DNS c)) /\
  (k <> "dns.local_ptr" -> LocalPTR (c_DNS c') = LocalPTR (c_DNS c)) /\
  (k <> "dns.local_domains" -> LocalDomains (c_DNS c') = LocalDomains (c_DNS c)) /\
  (k <> "blocking.lists" -> Lists (c_Blocking c') = Lists (c_Blocking c)) /\
  (k <> "blocking.allowlist" -> Allowlist (c_Blocking c') = Allowlist (c_Blocking c)) /\
  (k <> "blocking.reply" -> Reply (c_Blocking c') = Reply (c_Blocking c)) /\
  (k <> "blocking.reply_ttl_seconds" -> ReplyTTLSeconds (c_Blocking c') = ReplyTTLSeconds (c_Blocking c)) /\
  (k <> "blocking.refresh_interval" -> RefreshInterval (c_Blocking c') = RefreshInterval (c_Blocking c)) /\
  (k <> "blocking.cache_dir" -> CacheDir (c_Blocking c') = CacheDir (c_Blocking c)) /\
  (k <> "blocking.cname_inspection" -> CNAMEInspection (c_Blocking c') = CNAMEInspection (c_Blocking c)) /\
  (k <> "query_log.mode" -> Mode (c_QueryLog c') = Mode (c_QueryLog c)) /\
  (k <> "query_log.clients" -> Clients (c_QueryLog c') = Clients (c_QueryLog c)) /\
  (k <> "query_log.database" -> Database (c_QueryLog c') = Database (c_QueryLog c)) /\
  (k <> "query_log.file" -> File (c_QueryLog c') = File (c_QueryLog c)) /\
  (k <> "query_log.retention_days" -> RetentionDays (c_QueryLog c') = RetentionDays (c_QueryLog c)) /\
  (k <> "query_log.flush_interval" -> FlushInterval (c_QueryLog c') = FlushInterval (c_QueryLog c)) /\
  (k <> "query_log.client_names" -> ClientNames (c_QueryLog c') = ClientNames (c_QueryLog c)) /\
  (k <> "admin.listen" -> AdminListen (c_Admin c') = AdminListen (c_Admin c)) /\
  (k <> "admin.pprof" -> Pprof (c_Admin c') = Pprof (c_Admin c)) /\
  (k <> "stats_interval" -> StatsInterval c' = StatsInterval c).

Section apply_lemmas.
Context `{HUL : UnicodeLower} `{HUQ : UnicodeQuote}.

(** A setting stores its own field only, keeps the types, and shows the value
    that it stored. *)
Definition setting_spec (s : setting) : Prop :=
  exists A (p : ptr A) (P : A -> Prop) (shown : A -> string),
    match parser s with Scalar f => stores f p P | NodeValue f => stores f p P end /\
    (forall v c, P v -> scalars_ok c -> scalars_ok (store_ p v c)) /\
    (forall v c, current s (store_ p v c) = shown v) /\
    (forall v c, frame (key s) c (store_ p v c)).

Local Ltac const_range := split; vm_compute; (reflexivity || discriminate).

Lemma settings_spec : Forall setting_spec settings.
Proof.
  unfold settings.
  repeat (apply Forall_cons; split; [eexists _, _, _, _; split; [cbn [parser];
    first [ eapply setString_stores | eapply setPath_stores | eapply setOptional_stores | eapply setFile_stores
      | eapply setEnum_stores | eapply setInt_stores; const_range | eapply setUint32_stores; const_range
      | eapply setBool_stores | eapply setDuration_stores; const_range
      | eapply listSetter_stores | eapply setMap_stores ] |
    split; [intros v c; unfold scalars_ok; cbn; intuition; set_solver |
    split; [intros v c; unfold quoted, offOr, itoa, btoa, dtoa; cbn -[lenZ Itoa Quote Duration_String FormatBool]; reflexivity | intros v c; unfold frame; cbn; split_and!; done]]] |]).
  constructor.
Qed.

Lemma current_frame s k c c' :
  s ∈ settings -> frame k c c' -> k <> key s -> current s c' = current s c.
Proof.
  assert (Forall (fun s => forall k c c', frame k c c' -> k <> key s -> current s c' = current s c)
            settings) as Hall.
  { unfold settings.
    repeat (apply Forall_cons; split; [intros k0 c0 c1 Hf Hk; unfold frame in Hf; cbn [key] in Hk;
      destruct_and! Hf; unfold quoted, offOr, itoa, btoa, dtoa; cbn -[lenZ Itoa Quote Duration_String FormatBool];
      match goal with H : k0 <> ?x -> ?e, Hk : k0 <> ?x |- _ => rewrite (H Hk) end; reflexivity |]).
    constructor. }
  rewrite Forall_forall in Hall. intros Hs. by apply Hall.
Qed.

Lemma settings_keys : NoDup (map key settings).
Proof. apply (bool_decide_unpack _). vm_compute. exact I. Qed.

Lemma setting_unique s s' : s ∈ settings -> s' ∈ settings -> key s = key s' -> s = s'.
Proof.
  intros [i Hi]%list_elem_of_lookup [j Hj]%list_elem_of_lookup Hk.
  assert (i = j) as ->; [|congruence].
  eapply NoDup_lookup; [apply settings_keys | |]; rewrite list_lookup_fmap;
    [by rewrite Hi | rewrite Hj; simpl; by rewrite Hk].
Qed.

Lemma byKey_Some k s : byKey k = Some s -> s ∈ settings /\ key s = k.
Proof.
  intros Hf%find_some. destruct Hf as [Hs Hk%String.eqb_eq]. split; [by apply list_elem_of_In | done].
Qed.

(** ** The values in a document and in the environment *)

(** The values of a document in order, with the full key of each. *)
Definition entry_values (kv : Node * Node) : list (string * Node) :=
  let k := n_Value (fst kv) in
  if is_section k then
    if bool_decide (n_Kind (snd kv) = MappingNode)
    then map (fun jv => (k +:+ "." +:+ n_Value (fst jv), snd jv)) (pairs (n_Content (snd kv))) else []
  else match lookup_renamed renamedKeys k with Some _ => [] | None => [(k, snd kv)] end.

Definition yaml_values (root : Node) : list (string * Node) :=
  match n_Content root with
  | doc :: _ =>
      if negb (bool_decide (n_Kind root = ZeroNode)) && bool_decide (n_Kind doc = MappingNode)
      then flat_map entry_values (pairs (n_Content doc)) else []
  | [] => []
  end.

(** The scalar values of the key [k], then the value of its variable. *)
Definition raw_values (k : string) (root : Node) (lookup : string -> option string) : list string :=
  (omap (fun kv : string * Node => if decide (fst kv = k /\ n_Kind (snd kv) = ScalarNode)
                 then Some (item_value (snd kv)) else None) (yaml_values root) ++
   match lookup (envName k) with Some v => [v] | None => [] end)%list.

(** One value after the other; a value that is not valid changes nothing. *)
Definition store_raw (f : scalar_parser) (c : Config) (raw : string) : Config :=
  match f raw c with inr c' => c' | inl _ => c end.

Definition assign (c : Config) (kv : string * Node) : Config :=
  match byKey (fst kv) with Some s => fst (applyNode s (snd kv) c) | None => c end.

Definition env_assign (lookup : string -> option string) (c : Config) (s : setting) : Config :=
  match parser s with
  | Scalar f => match lookup (envName (key s)) with Some v => store_raw f c v | None => c end
  | NodeValue _ => c
  end.

Lemma apply_key_config k v st : ap_config (apply_key k v st) = assign (ap_config st) (k, v).
Proof.
  unfold apply_key, assign. cbn [fst snd ap_config].
  assert (ap_config (if mem k (ap_seen st) then add_problem (mkProblem k "is set more than once; the last value is used") st
                     else st) = ap_config st) as -> by by case_match.
  destruct (byKey k) as [s|]; [|done]. by destruct (applyNode s v (ap_config st)).
Qed.

Lemma apply_entry_config kv st :
  ap_config (apply_entry kv st) = fold_left assign (entry_values kv) (ap_config st).
Proof.
  unfold apply_entry, entry_values. destruct (is_section _).
  - destruct (is_null (snd kv)) eqn:Hn.
    { rewrite bool_decide_eq_false_2; [done |]. intros Hk. unfold is_null in Hn. by rewrite Hk in Hn. }
    destruct (bool_decide_reflect (n_Kind (snd kv) = MappingNode)); cbn [negb]; [|done].
    generalize (pairs (n_Content (snd kv))) as l. intros l. revert st.
    induction l as [|jv l IH]; intros st; [done |]. cbn [fold_left map].
    rewrite IH, apply_key_config. done.
  - destruct (lookup_renamed _ _); [done |]. by rewrite apply_key_config.
Qed.

Lemma applyYAML_config root c : fst (applyYAML root c) = fold_left assign (yaml_values root) c.
Proof.
  unfold applyYAML, yaml_values. destruct (n_Content root) as [|doc rest]; [done |].
  destruct (bool_decide_reflect (n_Kind root = ZeroNode)); [done |]. cbn [orb negb andb].
  destruct (is_null doc) eqn:Hn.
  { rewrite bool_decide_eq_false_2; [done |]. intros Hk. unfold is_null in Hn. by rewrite Hk in Hn. }
  destruct (bool_decide_reflect (n_Kind doc = MappingNode)); cbn [negb]; [|done]. cbn [fst].
  change c with (ap_config (mkApply c [] ∅)) at 2. generalize (mkApply c [] ∅) as st.
  induction (pairs (n_Content doc)) as [|kv l IH]; intros st; [done |].
  cbn [fold_left flat_map]. by rewrite IH, apply_entry_config, fold_left_app.
Qed.

Lemma applyEnv_config lookup environ c :
  fst (applyEnv lookup environ c) = fold_left (env_assign lookup) settings c.
Proof.
  unfold applyEnv.
  assert (forall l cp, fst (fold_left (apply_env_one lookup) l cp) = fold_left (env_assign lookup) l (fst cp)) as Hf.
  { induction l as [|s l IH]; intros [c0 ps]; [done |]. cbn [fold_left]. rewrite IH. f_equal.
    unfold apply_env_one, env_assign, store_raw. destruct (parser s); [|done].
    destruct (lookup _); [|done]. by destruct (f _ _). }
  pose proof (Hf settings (c, [])) as H. cbn [fst] in H. rewrite <- H.
  by destruct (fold_left (apply_env_one lookup) settings (c, [])).
Qed.
End apply_lemmas.

(** ** The value of a setting *)

Section effective.
Context `{HUL : UnicodeLower} `{HUQ : UnicodeQuote}.

(** One step of a setting, on either path. *)
Lemma store_raw_cases s f raw :
  s ∈ settings -> parser s = Scalar f ->
  (forall c, store_raw f c raw = c) \/
  exists A (p : ptr A) v shown, (forall c, store_raw f c raw = store_ p v c) /\
    (forall c, current s (store_ p v c) = shown) /\ (forall c, frame (key s) c (store_ p v c)) /\
    (forall c, scalars_ok c -> scalars_ok (store_ p v c)).
Proof.
  intros Hs Hf. pose proof settings_spec as Hall. rewrite Forall_forall in Hall.
  destruct (Hall s Hs) as (A & p & P & shown & Hst & Hok & Hcur & Hfr). rewrite Hf in Hst.
  unfold store_raw. destruct (Hst raw) as [[e He] | (v & Hv & He)].
  - left. intros c. by rewrite He.
  - right. exists A, p, v, (shown v). split_and!; auto. intros c. by rewrite He.
Qed.

(** A step of any setting stores its own field only. *)
Lemma assign_cases c kv :
  assign c kv = c \/ exists s, s ∈ settings /\ key s = fst kv /\ frame (key s) c (assign c kv) /\
    (scalars_ok c -> scalars_ok (assign c kv)) /\
    forall f, parser s = Scalar f -> n_Kind (snd kv) = ScalarNode /\
      assign c kv = store_raw f c (item_value (snd kv)).
Proof.
  unfold assign. destruct (byKey (fst kv)) as [s|] eqn:Hb; [|by left].
  apply byKey_Some in Hb as [Hs Hk]. unfold applyNode. destruct (parser s) as [f|f] eqn:Hp.
  - destruct (bool_decide_reflect (n_Kind (snd kv) = ScalarNode)) as [Hkind|]; cbn [negb]; [|by left].
    destruct (store_raw_cases s f (item_value (snd kv)) Hs Hp) as [Hc | (A & p & v & t & Hc & Ht & Hfr & Hok)];
      assert (forall c, fst match f (item_value (snd kv)) c with
                            | inl err => (c, [mkProblem (key s) (err +:+ "; using " +:+ current s c)])
                            | inr c' => (c', [])
                            end = store_raw f c (item_value (snd kv))) as Hfst
        by (intros c0; unfold store_raw; by destruct (f _ c0)).
    + left. by rewrite Hfst.
    + right. exists s. rewrite Hfst, Hc. split_and!; auto. rewrite Hp. intros f' [= <-]. by rewrite Hc.
  - pose proof settings_spec as Hall. rewrite Forall_forall in Hall.
    destruct (Hall s Hs) as (A & p & P & shown & Hst & Hok & _ & Hfr). rewrite Hp in Hst.
    destruct (Hst (snd kv)) as [[e He] | (v & Hv & He)]; rewrite He; [by left |]; cbn [fst].
    right. exists s. split_and!; auto; intros f' Hf'; congruence.
Qed.

Lemma assign_other s c kv : s ∈ settings -> fst kv <> key s -> current s (assign c kv) = current s c.
Proof.
  intros Hs Hk. destruct (assign_cases c kv) as [-> | (s' & Hs' & Hkey & Hfr & _)]; [done |].
  rewrite Hkey in Hfr. by eapply current_frame.
Qed.

Lemma store_raw_current s f raw c1 c2 :
  s ∈ settings -> parser s = Scalar f -> current s c1 = current s c2 ->
  current s (store_raw f c1 raw) = current s (store_raw f c2 raw).
Proof.
  intros Hs Hp Hc. destruct (store_raw_cases s f raw Hs Hp) as [He | (A & p & v & t & He & Ht & _)];
    rewrite !He; [done | by rewrite !Ht].
Qed.

Lemma assign_own s f c1 c2 kv :
  s ∈ settings -> parser s = Scalar f -> fst kv = key s -> current s c1 = current s c2 ->
  current s (assign c1 kv) =
  current s (if decide (n_Kind (snd kv) = ScalarNode) then store_raw f c2 (item_value (snd kv)) else c2).
Proof.
  intros Hs Hp Hk Hc. unfold assign.
  assert (byKey (fst kv) = Some s) as ->.
  { destruct (byKey (fst kv)) as [s'|] eqn:Hb.
    - apply byKey_Some in Hb as [Hs' Hk']. f_equal. apply setting_unique; congruence.
    - unfold byKey in Hb. pose proof (find_none _ _ Hb s) as Hn. cbn beta in Hn.
      rewrite Hk, String.eqb_refl in Hn. discriminate Hn. by apply list_elem_of_In. }
  unfold applyNode. rewrite Hp.
  destruct (decide (n_Kind (snd kv) = ScalarNode)) as [He|He].
  - rewrite bool_decide_eq_true_2 by done. cbn [negb].
    rewrite <- (store_raw_current s f _ c1 c2) by done. unfold store_raw.
    by destruct (f (item_value (snd kv)) c1).
  - rewrite bool_decide_eq_false_2 by done. done.
Qed.

Lemma yaml_effective s f l c1 c2 :
  s ∈ settings -> parser s = Scalar f -> current s c1 = current s c2 ->
  current s (fold_left assign l c1) =
  current s (fold_left (store_raw f) (omap (fun kv : string * Node =>
    if decide (fst kv = key s /\ n_Kind (snd kv) = ScalarNode)
    then Some (item_value (snd kv)) else None) l) c2).
Proof.
  intros Hs Hp. revert c1 c2. induction l as [|kv l IH]; intros c1 c2 Hc; [done |].
  cbn [fold_left omap list_omap]. destruct (decide (fst kv = key s)) as [Hk|Hk].
  - pose proof (assign_own s f c1 c2 kv Hs Hp Hk Hc) as Ha.
    destruct (decide (n_Kind (snd kv) = ScalarNode)) as [He|He].
    + rewrite decide_True by done. cbn [fold_left]. by apply IH.
    + rewrite decide_False by tauto. by apply IH.
  - rewrite decide_False by tauto. apply IH. by rewrite assign_other.
Qed.

Lemma env_effective s f lookup l c1 c2 :
  s ∈ settings -> parser s = Scalar f -> NoDup (map key l) -> (forall s', s' ∈ l -> s' ∈ settings) ->
  current s c1 = current s c2 ->
  current s (fold_left (env_assign lookup) l c1) =
  current s (if decide (key s ∈ map key l) then
               match lookup (envName (key s)) with Some v => store_raw f c2 v | None => c2 end else c2).
Proof.
  intros Hs Hp. revert c1 c2. induction l as [|s' l IH]; intros c1 c2 Hnd Hin Hc; [done |].
  cbn [map] in Hnd. apply NoDup_cons in Hnd as [Hnk Hnd]. cbn [fold_left].
  assert (forall s0, s0 ∈ l -> s0 ∈ settings) as Hin' by (intros s0 H0; apply Hin; by right).
  destruct (decide (key s' = key s)) as [Hk|Hk].
  - assert (s' = s) as -> by (apply setting_unique; [apply Hin; left | done | done]).
    cbn [map]. rewrite decide_True by by left.
    etransitivity; [apply (IH _ (env_assign lookup c2 s)); [done | done |] |].
    + unfold env_assign. rewrite Hp. destruct (lookup _); [|done]. by apply store_raw_current.
    + rewrite decide_False by done. unfold env_assign. by rewrite Hp.
  - cbn [map]. etransitivity; [apply (IH _ c2); [done | done |] |].
    + rewrite <- Hc. unfold env_assign. destruct (parser s') as [f'|] eqn:Hp'; [|done].
      destruct (lookup (envName (key s'))) as [v|]; [|done].
      destruct (store_raw_cases s' f' v) as [He | (A & p & x & t & He & _ & Hfr & _)];
        [apply Hin; left | done | by rewrite He |].
      rewrite He. eapply current_frame; eauto.
    + destruct (decide (key s ∈ map key l)) as [Hl|Hl].
      * rewrite decide_True by by right. done.
      * rewrite decide_False; [done |]. intros [?|?]%elem_of_cons; congruence.
Qed.

(** Precedence: after the document and the environment are applied, a scalar
    setting holds the last of its own valid values: the values of its key in
    the order of the document, then its environment variable. No other key, no
    unknown or renamed key and no value that is not valid has an effect on it;
    with no valid value it keeps its default. *)
Theorem setting_effective (root : Node) (lookup : string -> option string) (environ : list string)
    (c : Config) (s : setting) (f : scalar_parser)
  (Hs : s ∈ settings) (Hf : parser s = Scalar f) :
  current s (fst (applyEnv lookup environ (fst (applyYAML root c)))) =
  current s (fold_left (store_raw f) (raw_values (key s) root lookup) c).
Proof.
  rewrite applyEnv_config, applyYAML_config.
  rewrite (env_effective s f lookup settings _ (fold_left (store_raw f) (omap (fun kv : string * Node =>
    if decide (fst kv = key s /\ n_Kind (snd kv) = ScalarNode)
    then Some (item_value (snd kv)) else None) (yaml_values root)) c)); try done.
  - rewrite decide_True by by apply (list_elem_of_fmap_2 key). unfold raw_values. rewrite fold_left_app.
    by destruct (lookup (envName (key s))).
  - apply settings_keys.
  - by apply yaml_effective.
Qed.

(** [stored_from view f l c c']: the view of [c'] is that of [c], or one that
    a value of [l] was parsed to. *)
Definition stored_from {A} (view : Config -> A) (f : scalar_parser) (l : list string) (c c' : Config) : Prop :=
  view c' = view c \/ exists raw c1 c2, raw ∈ l /\ f raw c1 = inr c2 /\ view c' = view c2.

Section stored_from.
Context {A : Type} (view : Config -> A) (s : setting) (f : scalar_parser).
Context (Hs : s ∈ settings) (Hp : parser s = Scalar f).
Context (Hview : forall k c c', frame k c c' -> k <> key s -> view c' = view c).

Lemma stored_from_store raw c : stored_from view f [raw] c (store_raw f c raw).
Proof.
  unfold stored_from, store_raw. destruct (f raw c) as [|c2] eqn:Hr; [by left |].
  right. exists raw, c, c2. split_and!; [left | done | done].
Qed.

Lemma stored_from_trans l l' c c' c'' :
  stored_from view f l c c' -> stored_from view f l' c' c'' -> stored_from view f (l ++ l')%list c c''.
Proof.
  intros [H1|(r1 & a1 & b1 & Hr1 & Hf1 & H1)] [H2|(r2 & a2 & b2 & Hr2 & Hf2 & H2)].
  - left. congruence.
  - right. exists r2, a2, b2. rewrite elem_of_app. auto.
  - right. exists r1, a1, b1. rewrite elem_of_app. split_and!; [auto | done | congruence].
  - right. exists r2, a2, b2. rewrite elem_of_app. auto.
Qed.

Lemma stored_from_yaml l c :
  stored_from view f (omap (fun kv : string * Node =>
    if decide (fst kv = key s /\ n_Kind (snd kv) = ScalarNode)
    then Some (item_value (snd kv)) else None) l) c (fold_left assign l c).
Proof.
  revert c. induction l as [|kv l IH]; intros c; [by left |]. cbn [fold_left omap list_omap].
  destruct (assign_cases c kv) as [-> | (s' & Hs' & Hk & Hfr & _ & Hraw)].
  { case_decide; [|apply IH]. apply (stored_from_trans [_] _ c c); [by left | apply IH]. }
  case_decide as Hd.
  - assert (s' = s) as -> by (apply setting_unique; [done | done |]; destruct Hd; congruence).
    destruct (Hraw f Hp) as [_ Heq]. eapply (stored_from_trans [_]); [|apply IH].
    rewrite Heq. apply stored_from_store.
  - eapply (stored_from_trans []); [|apply IH]. left.
    destruct (decide (key s' = key s)) as [He|He]; [|by eapply Hview].
    assert (s' = s) as -> by by apply setting_unique.
    destruct (Hraw f Hp) as [Hkind _]. destruct Hd. by rewrite <- Hk.
Qed.

Let env_value (lookup : string -> option string) : list string :=
  match lookup (envName (key s)) with Some v => [v] | None => [] end.

Lemma stored_from_env_assign lookup c s' :
  s' ∈ settings -> stored_from view f (env_value lookup) c (env_assign lookup c s').
Proof.
  intros Hs'. unfold env_assign, env_value. destruct (parser s') as [f'|] eqn:Hp'; [|by left].
  destruct (decide (key s' = key s)) as [He|He].
  - assert (s' = s) as -> by by apply setting_unique.
    assert (f' = f) as -> by congruence.
    destruct (lookup (envName (key s))); [apply stored_from_store | by left].
  - left. destruct (lookup (envName (key s'))) as [v|]; [|done].
    destruct (store_raw_cases s' f' v Hs' Hp') as [Hc | (B & p & x & t & Hc & _ & Hfr & _)];
      rewrite Hc; [done | by eapply Hview].
Qed.

Lemma stored_from_env lookup l c :
  (forall s', s' ∈ l -> s' ∈ settings) ->
  stored_from view f (env_value lookup) c (fold_left (env_assign lookup) l c).
Proof.
  revert c. induction l as [|s' l IH]; intros c Hin; [by left |]. cbn [fold_left].
  assert (stored_from view f (env_value lookup) c (env_assign lookup c s')) as H1
    by (apply stored_from_env_assign, Hin; left).
  assert (stored_from view f (env_value lookup) (env_assign lookup c s')
            (fold_left (env_assign lookup) l (env_assign lookup c s'))) as H2
    by (apply IH; intros s0 H0; apply Hin; by right).
  destruct (stored_from_trans _ _ _ _ _ H1 H2) as [H3 | (r & c1 & c2 & Hr & H3)]; [by left |].
  right. exists r, c1, c2. rewrite elem_of_app in Hr. by destruct Hr.
Qed.

(** What reads only the field of [s] changes only when a value of [s] is
    stored. *)
Lemma value_origin root lookup environ c :
  stored_from view f (raw_values (key s) root lookup) c
    (fst (applyEnv lookup environ (fst (applyYAML root c)))).
Proof.
  rewrite applyEnv_config, applyYAML_config.
  apply (stored_from_trans _ _ c (fold_left assign (yaml_values root) c)); [apply stored_from_yaml |].
  by apply stored_from_env.
Qed.
End stored_from.

Lemma scalars_ok_load root lookup environ c :
  scalars_ok c -> scalars_ok (fst (applyEnv lookup environ (fst (applyYAML root c)))).
Proof.
  intros Hc. rewrite applyEnv_config, applyYAML_config.
  assert (scalars_ok (fold_left assign (yaml_values root) c)) as Hy.
  { generalize (yaml_values root) as l. intros l. revert c Hc.
    induction l as [|kv l IH]; intros c Hc; [done |]. apply IH.
    destruct (assign_cases c kv) as [-> | (s & _ & _ & _ & Hok & _)]; auto. }
  revert Hy. generalize (fold_left assign (yaml_values root) c) as c1.
  assert (forall l c1, (forall s, s ∈ l -> s ∈ settings) -> scalars_ok c1 ->
    scalars_ok (fold_left (env_assign lookup) l c1)) as Henv; [|intros c1; by apply Henv].
  induction l as [|s l IH]; intros c1 Hin H1; [done |]. apply IH; [intros s0 H0; apply Hin; by right |].
  unfold env_assign. destruct (parser s) as [f|] eqn:Hp; [|done]. destruct (lookup (envName (key s))) as [v|]; [|done].
  destruct (store_raw_cases s f v) as [-> | (B & p & x & t & -> & _ & _ & Hok)]; auto. apply Hin. left.
Qed.
End effective.

(** ** The checked configuration *)

Section checked.
Context `{HUL : UnicodeLower} `{HUQ : UnicodeQuote} `{HURL : UrlParse} `{HYAML : YamlParse}.

Lemma split_entries_spec {A B} (f : A -> option B) l :
  split_entries f l = (omap f l, List.filter (fun x => match f x with None => true | Some _ => false end) l).
Proof.
  unfold split_entries.
  assert (forall v d, fold_left (fun '(valid, dropped) x =>
      match f x with Some y => (valid ++ [y], dropped)%list | None => (valid, dropped ++ [x])%list end) l (v, d) =
    (v ++ omap f l, d ++ List.filter (fun x => match f x with None => true | Some _ => false end) l)%list) as H;
    [|by rewrite H].
  induction l as [|x l IH]; intros v d; cbn [fold_left omap list_omap List.filter].
  - by rewrite !app_nil_r.
  - destruct (f x); rewrite IH, <- app_assoc; done.
Qed.

(** An entry of the upstream list that the forwarder can tell apart by its
    prefix: a DoH URL, or a host and a port. *)
Definition upstream_ok (u : string) : Prop :=
  is_doh u = true \/
  (contains u "://" = false /\ exists host port, SplitHostPort u = Some (host, port) /\ host <> "" /\ port <> "").

(** What [normalizeDoHURL] asks of a URL. *)
Definition doh_url (raw u : string) : Prop :=
  exists p ip, url_parse raw = Some p /\ u = url_String p /\ u_Scheme p = "https" /\ u_User p = None /\
    u_Path p <> "" /\ u_Path p <> "/" /\ ParseIP (u_Hostname p) = Some ip.

Lemma normalizeDoHURL_Some raw u : normalizeDoHURL raw = Some u <-> doh_url raw u.
Proof.
  unfold normalizeDoHURL, doh_url. destruct (url_parse raw) as [p|]; [|naive_solver].
  destruct (String.eqb_spec (u_Scheme p) "https"), (u_User p) eqn:Hu; cbn [negb orb]; try naive_solver.
  destruct (String.eqb_spec (u_Path p) ""), (String.eqb_spec (u_Path p) "/"); cbn [orb]; try naive_solver.
  destruct (ParseIP (u_Hostname p)) as [ip|] eqn:Hip; [|naive_solver].
  split; [intros [= <-]; exists p, ip; split_and!; done | intros (p' & ip' & [= <-] & -> & _); done].
Qed.

Lemma filter_upstream_Some raw u :
  filter_upstream raw = Some u <->
  (contains raw "://" = true /\ doh_url raw u) \/
  (contains raw "://" = false /\ u = raw /\
   exists host port, SplitHostPort raw = Some (host, port) /\ host <> "" /\ port <> "").
Proof.
  unfold filter_upstream. destruct (contains raw "://").
  - rewrite normalizeDoHURL_Some. naive_solver.
  - destruct (SplitHostPort raw) as [[host port]|]; [|naive_solver].
    destruct (String.eqb_spec host ""), (String.eqb_spec port ""); cbn [orb]; naive_solver.
Qed.

Lemma filter_upstream_ok `{HLAWS : !UrlLaws} raw u : filter_upstream raw = Some u -> upstream_ok u.
Proof.
  rewrite filter_upstream_Some. intros [[_ (p & ip & Hp & -> & Hs & _ & _ & _ & Hip)] | (Hc & -> & Hh)];
    [left | by right]. unfold is_doh.
  pose proof (url_string_host raw p Hp) as Hpre. rewrite Hs in Hpre.
  assert (has_prefix "https://" (url_String p) = true) as ->; [|done]. apply Hpre; [done |].
  intros Hh. rewrite Hh in Hip. done.
Qed.

Lemma DefaultUpstreams_ok : Forall upstream_ok DefaultUpstreams.
Proof.
  unfold DefaultUpstreams. rewrite !Forall_cons.
  split_and!; [by left | by left | right | right | constructor];
    (split; [reflexivity | eexists _, _; split; [reflexivity | done]]).
Qed.

(** [filterLocalDomains]: the invalid entries are dropped, the others are kept
    once in their normal form. *)
Lemma filter_local_spec entries :
  NoDup (fst (filterLocalDomains entries)) /\
  (forall d, d ∈ fst (filterLocalDomains entries) <->
     exists raw, raw ∈ entries /\ d = normalizeLocal raw /\ validLocalDomain d = true) /\
  snd (filterLocalDomains entries) =
    List.filter (fun raw => negb (validLocalDomain (normalizeLocal raw))) entries.
Proof.
  unfold filterLocalDomains.
  assert (forall v b (seen : gset string), NoDup v -> (forall d, d ∈ v <-> d ∈ seen) ->
    let '(v', b', _) := fold_left filter_local_step entries (v, b, seen) in
    NoDup v' /\ (forall d, d ∈ v' <-> d ∈ v \/
       exists raw, raw ∈ entries /\ d = normalizeLocal raw /\ validLocalDomain d = true) /\
    b' = (b ++ List.filter (fun raw => negb (validLocalDomain (normalizeLocal raw))) entries)%list) as Hind.
  { induction entries as [|raw l IH]; intros v b seen Hnd Hseen.
    - cbn. rewrite app_nil_r. split_and!; [done | | done]. intros d. split; [auto |].
      intros [Hd | (raw & Hr%elem_of_nil & _)]; done.
    - cbn [fold_left filter_local_step List.filter].
      destruct (validLocalDomain (normalizeLocal raw)) eqn:Hv; cbn [negb].
      + destruct (mem _ seen) eqn:Hm.
        * apply mem_true in Hm. rewrite <- Hseen in Hm. specialize (IH v b seen Hnd Hseen).
          destruct (fold_left _ l _) as [[v' b'] s']. destruct IH as (H1 & H2 & H3).
          split_and!; [done | | done]. intros d. rewrite H2. setoid_rewrite elem_of_cons. naive_solver.
        * apply mem_false in Hm. rewrite <- Hseen in Hm.
          specialize (IH (v ++ [normalizeLocal raw])%list b ({[normalizeLocal raw]} ∪ seen)).
          destruct (fold_left _ l _) as [[v' b'] s']. destruct IH as (H1 & H2 & H3).
          { apply NoDup_app. split_and!; [done | by intros d Hd ->%list_elem_of_singleton | apply NoDup_singleton]. }
          { intros d. rewrite elem_of_app, list_elem_of_singleton, elem_of_union, elem_of_singleton, Hseen. tauto. }
          split_and!; [done | | done]. intros d. rewrite H2, elem_of_app, list_elem_of_singleton.
          setoid_rewrite elem_of_cons. naive_solver.
      + specialize (IH v (b ++ [raw])%list seen Hnd Hseen).
        destruct (fold_left _ l _) as [[v' b'] s']. destruct IH as (H1 & H2 & H3).
        split_and!; [done | | by rewrite H3, <- app_assoc]. intros d. rewrite H2.
        setoid_rewrite elem_of_cons. split; [naive_solver |].
        intros [Hd | (raw' & [->|Hr] & -> & Hv')]; [by left | congruence | right]. by exists raw'. }
  specialize (Hind [] [] ∅). destruct (fold_left _ entries _) as [[v b] s].
  destruct Hind as (H1 & H2 & H3); [constructor | intros d; by rewrite elem_of_nil, elem_of_empty |].
  cbn [fst snd]. split_and!; [done | | done]. intros d. rewrite H2, elem_of_nil. tauto.
Qed.

Lemma filter_allow_spec entries :
  filterAllowlist entries = (List.filter ValidDomain entries, List.filter (fun d => negb (ValidDomain d)) entries).
Proof.
  unfold filterAllowlist. rewrite split_entries_spec. f_equal.
  - induction entries as [|d l IH]; [done |]. cbn [omap list_omap List.filter].
    destruct (ValidDomain d); by rewrite IH.
  - apply filter_ext. intros d. by destruct (ValidDomain d).
Qed.

(** What a loaded configuration promises to the rest of the program. *)
Definition config_ok (load_pair : string -> string -> option string) (c : Config) : Prop :=
  scalars_ok c /\ isHostPort (Listen (c_DNS c)) = true /\ isHostPort (AdminListen (c_Admin c)) = true /\
  Upstreams (c_DNS c) <> [] /\ Forall upstream_ok (Upstreams (c_DNS c)) /\
  NoDup (LocalDomains (c_DNS c)) /\ Forall (fun d => validLocalDomain d = true) (LocalDomains (c_DNS c)) /\
  Forall (fun d => ValidDomain d = true) (Allowlist (c_Blocking c)) /\
  map_Forall (fun k _ => client_key_ok k = true) (ClientNames (c_QueryLog c)) /\
  (DoTListen (c_DNS c) = "" \/
   isHostPort (DoTListen (c_DNS c)) = true /\ load_pair (DoTCert (c_DNS c)) (DoTKey (c_DNS c)) = None).

Lemma check_upstreams_ok `{HLAWS : !UrlLaws} ups probs ups' :
  check_upstreams ups = (probs, inr ups') -> ups' <> [] /\ Forall upstream_ok ups'.
Proof.
  unfold check_upstreams. destruct ups as [|u l].
  - intros [= <- <-]. split; [done | apply DefaultUpstreams_ok].
  - unfold filterUpstreams. rewrite split_entries_spec.
    destruct (omap filter_upstream (u :: l)) as [|u' l'] eqn:Ho; [done |]. intros [= <- <-].
    split; [done |]. rewrite <- Ho. apply Forall_forall. intros x Hx.
    apply list_elem_of_omap in Hx as (raw & _ & Hr). by eapply filter_upstream_ok.
Qed.

Lemma check_lists_spec c probs c' :
  check_lists c = (probs, c') ->
  c' = store_ p_ClientNames (fst (filterClientNames (ClientNames (c_QueryLog c))))
         (store_ p_Allowlist (fst (filterAllowlist (Allowlist (c_Blocking c))))
           (store_ p_LocalDomains (fst (filterLocalDomains (LocalDomains (c_DNS c)))) c)).
Proof.
  unfold check_lists. destruct (filterLocalDomains _), (filterAllowlist _). cbn. by intros [= _ <-].
Qed.

Lemma check_dot_spec load_pair c probs c' :
  check_dot load_pair c = (probs, inr c') ->
  (c' = c /\ DoTListen (c_DNS c) = "") \/ (c' = store_ p_DoTListen "" c) \/
  (c' = c /\ isHostPort (DoTListen (c_DNS c)) = true /\ load_pair (DoTCert (c_DNS c)) (DoTKey (c_DNS c)) = None).
Proof.
  unfold check_dot, checkDoT. destruct (String.eqb_spec (DoTListen (c_DNS c)) ""); [intros [= _ <-]; auto |].
  destruct (isHostPort (DoTListen (c_DNS c))); cbn [negb]; [|intros [= _ <-]; auto].
  destruct (_ || _); [done |].
  destruct (load_pair _ _) eqn:Hl; [done |]. intros [= _ <-]. auto.
Qed.

(** A check that succeeds, step by step. *)
Lemma check_inv load_pair c probs c' :
  check load_pair c = (probs, inr c') ->
  exists probs1 c1 probs2 ups probs3 c3 probs4,
    isHostPort (Listen (c_DNS c)) = true /\ check_admin c = (probs1, c1) /\
    check_upstreams (Upstreams (c_DNS c1)) = (probs2, inr ups) /\
    check_lists (store_ p_Upstreams ups c1) = (probs3, c3) /\
    check_dot load_pair c3 = (probs4, inr c') /\
    probs = (probs1 ++ probs2 ++ probs3 ++ probs4)%list.
Proof.
  unfold check. destruct (isHostPort (Listen (c_DNS c))); cbn [negb]; [|done].
  destruct (check_admin c) as [probs1 c1]. destruct (check_upstreams _) as [probs2 [err|ups]] eqn:Hu; [done |].
  destruct (check_lists _) as [probs3 c3] eqn:Hl. destruct (check_dot _ c3) as [probs4 r] eqn:Hd.
  intros [= <- ->]. repeat (eapply ex_intro). split_and!; done.
Qed.

Lemma check_ok `{HLAWS : !UrlLaws} load_pair c probs c' :
  scalars_ok c -> check load_pair c = (probs, inr c') -> config_ok load_pair c'.
Proof.
  intros Hok (p1 & c1 & p2 & ups & p3 & c3 & p4 & Hlisten & Hadmin & Hups & Hlists & Hdot & _)%check_inv.
  assert (scalars_ok c1 /\ Listen (c_DNS c1) = Listen (c_DNS c) /\ isHostPort (AdminListen (c_Admin c1)) = true)
    as (Hok1 & Hl1 & Ha1).
  { unfold check_admin in Hadmin. destruct (isHostPort (AdminListen (c_Admin c))) eqn:Ha;
      injection Hadmin as _ <-; split_and!; done. }
  apply check_upstreams_ok in Hups as [Hne Hups]. apply check_lists_spec in Hlists.
  set (c0 := store_ p_Upstreams ups c1) in *.
  pose proof (filter_local_spec (LocalDomains (c_DNS c0))) as (Hnd & Hloc & _).
  assert (config_ok load_pair (store_ p_DoTListen "" c3)) as H3.
  { subst c3. unfold config_ok.
    split_and!; cbn -[filterLocalDomains filterAllowlist filterClientNames isHostPort]; try done.
    - by rewrite Hl1.
    - apply Forall_forall. intros d Hd. apply Hloc in Hd as (raw & _ & _ & Hv). done.
    - rewrite filter_allow_spec. apply Forall_forall. intros d Hd.
      apply list_elem_of_In, filter_In in Hd as [_ Hd]. done.
    - intros k x Hk. by apply map_lookup_filter_Some in Hk as [_ Hk].
    - by left. }
  unfold config_ok in H3 |- *. destruct H3 as (S1 & S2 & S3 & S4 & S5 & S6 & S7 & S8 & S9 & _).
  apply check_dot_spec in Hdot as [[-> Hd] | [-> | (-> & Hd & Hp)]]; split_and!; auto.
Qed.

End checked.

(** ** Privacy *)

Section privacy.
Context `{HUL : UnicodeLower} `{HUQ : UnicodeQuote} `{HURL : UrlParse} `{HYAML : YamlParse}.

(** What the check does not change. *)
Lemma check_keeps load_pair c probs c' :
  check load_pair c = (probs, inr c') ->
  Mode (c_QueryLog c') = Mode (c_QueryLog c) /\ Clients (c_QueryLog c') = Clients (c_QueryLog c) /\
  Database (c_QueryLog c') = Database (c_QueryLog c) /\ File (c_QueryLog c') = File (c_QueryLog c) /\
  RetentionDays (c_QueryLog c') = RetentionDays (c_QueryLog c) /\
  (AdminListen (c_Admin c') = AdminListen (c_Admin c) \/ AdminListen (c_Admin c') = defaultAdminListen) /\
  Pprof (c_Admin c') = Pprof (c_Admin c) /\ LocalPTR (c_DNS c') = LocalPTR (c_DNS c) /\
  CNAMEInspection (c_Blocking c') = CNAMEInspection (c_Blocking c).
Proof.
  intros (p1 & c1 & p2 & ups & p3 & c3 & p4 & _ & Hadmin & _ & Hlists & Hdot & _)%check_inv.
  apply check_lists_spec in Hlists. subst c3. unfold check_admin in Hadmin.
  apply check_dot_spec in Hdot as [[-> _] | [-> | (-> & _ & _)]];
    destruct (isHostPort (AdminListen (c_Admin c))); injection Hadmin as _ <-; cbn; split_and!; auto.
Qed.

(** The settings that decide what is recorded and what is exposed, each with
    its parser. *)
Definition privacy_table : list (string * scalar_parser) := [
  ("query_log.mode", setEnum p_Mode ModeNone [ModeNone; ModeBlocked; ModeAll]);
  ("query_log.clients", setEnum p_Clients ClientsDrop [ClientsDrop; ClientsSubnet; ClientsFull]);
  ("query_log.database", setOptional p_Database); ("query_log.file", setFile p_File);
  ("query_log.retention_days", setInt p_RetentionDays 0 defaultRetentionDays);
  ("admin.listen", setString p_AdminListen defaultAdminListen); ("admin.pprof", setBool p_Pprof false);
  ("dns.local_ptr", setBool p_LocalPTR true); ("blocking.cname_inspection", setBool p_CNAMEInspection true)].

Lemma privacy_settings k f :
  (k, f) ∈ privacy_table -> exists s, s ∈ settings /\ key s = k /\ parser s = Scalar f.
Proof.
  assert (Forall (fun ks => exists s, s ∈ settings /\ key s = fst ks /\ parser s = Scalar (snd ks)) privacy_table)
    as Hall.
  { repeat (apply Forall_cons; split; [cbn [fst snd];
      match goal with |- exists s, s ∈ settings /\ key s = ?k /\ _ =>
        destruct (byKey k) as [s|] eqn:Hb; [|discriminate Hb]; exists s;
        pose proof (byKey_Some _ _ Hb) as [Hs Hk]; split_and!; [done | done |];
        injection Hb as <-; reflexivity end |]).
    constructor. }
  rewrite Forall_forall in Hall. apply Hall.
Qed.

(** Some value says so. *)
Definition said (raws : list string) (Q : string -> Prop) : Prop := exists raw, raw ∈ raws /\ Q raw.

Definition says_true (raw : string) : Prop := to_lower (trim_space raw) ∈ ["true"; "yes"; "1"].
Definition says_false (raw : string) : Prop := to_lower (trim_space raw) ∈ ["false"; "no"; "0"].

Definition applied (root : Node) (lookup : string -> option string) (environ : list string) : Config :=
  fst (applyEnv lookup environ (fst (applyYAML root defaults))).

Lemma applied_origin {A} (p : ptr A) k f (Q : A -> string -> Prop) root lookup environ :
  (k, f) ∈ privacy_table ->
  (forall k' c c', frame k' c c' -> k' <> k -> load_ p c' = load_ p c) ->
  (forall raw c c', f raw c = inr c' -> load_ p c' = load_ p defaults \/ Q (load_ p c') raw) ->
  load_ p (applied root lookup environ) = load_ p defaults \/
  said (raw_values k root lookup) (Q (load_ p (applied root lookup environ))).
Proof.
  intros Hk Hview Hf. apply privacy_settings in Hk as (s & Hs & <- & Hp).
  destruct (value_origin (load_ p) s f Hs Hp Hview root lookup environ defaults)
    as [Ho | (raw & c1 & c2 & Hr & Hi & Ho)]; [by left |].
  unfold applied. rewrite Ho. destruct (Hf _ _ _ Hi) as [Hd|Hq]; [by left | right; by exists raw].
Qed.

Lemma bool_words v (l : list string) : existsb (fun a => (v =? a)%string) l = true -> v ∈ l.
Proof. intros (a & Ha & ->%String.eqb_eq)%existsb_elem. done. Qed.

Lemma setBool_inv p def raw c c' :
  setBool p def raw c = inr c' ->
  c' = store_ p def c \/ (says_true raw /\ c' = store_ p true c) \/ (says_false raw /\ c' = store_ p false c).
Proof.
  unfold setBool, says_true, says_false. destruct (raw =? "")%string; [intros [= <-]; auto |]. cbv zeta.
  destruct (existsb _ ["true"; _; _]) eqn:Ht; [intros [= <-]; auto using bool_words |].
  destruct (existsb _ ["false"; _; _]) eqn:Hf; [intros [= <-]; auto using bool_words | done].
Qed.

Local Ltac table := repeat (first [apply list_elem_of_here | apply list_elem_of_further]).
Local Ltac own_field := intros ? ? ? Hf Hne; unfold frame in Hf; destruct_and! Hf; cbn; auto.

Lemma applied_private root lookup environ :
  let c := applied root lookup environ in
  let raws k := raw_values k root lookup in
  (Mode (c_QueryLog c) = ModeNone \/ said (raws "query_log.mode") (eq (Mode (c_QueryLog c)))) /\
  (Clients (c_QueryLog c) = ClientsDrop \/ said (raws "query_log.clients") (eq (Clients (c_QueryLog c)))) /\
  (Database (c_QueryLog c) = "" \/ said (raws "query_log.database") (eq (Database (c_QueryLog c)))) /\
  (File (c_QueryLog c) = "" \/ said (raws "query_log.file") (fun raw => File (c_QueryLog c) = raw \/
     File (c_QueryLog c) = FileStdout /\ equal_fold raw FileStdout = true)) /\
  (RetentionDays (c_QueryLog c) = defaultRetentionDays \/ said (raws "query_log.retention_days")
     (fun raw => Atoi (trim_space raw) = Some (RetentionDays (c_QueryLog c)))) /\
  (AdminListen (c_Admin c) = defaultAdminListen \/ said (raws "admin.listen") (eq (AdminListen (c_Admin c)))) /\
  (Pprof (c_Admin c) = false \/ said (raws "admin.pprof") says_true) /\
  (LocalPTR (c_DNS c) = true \/ said (raws "dns.local_ptr") says_false) /\
  (CNAMEInspection (c_Blocking c) = true \/ said (raws "blocking.cname_inspection") says_false).
Proof.
  intros c raws. split_and!.
  - eapply (applied_origin p_Mode _ _ eq); [unfold privacy_table; table | own_field |].
    intros raw c0 c1. unfold setEnum. repeat case_match; intros [= <-]; auto.
  - eapply (applied_origin p_Clients _ _ eq); [unfold privacy_table; table | own_field |].
    intros raw c0 c1. unfold setEnum. repeat case_match; intros [= <-]; auto.
  - eapply (applied_origin p_Database _ _ eq); [unfold privacy_table; table | own_field |].
    intros raw c0 c1. unfold setOptional. repeat case_match; intros [= <-]; auto.
  - eapply (applied_origin p_File _ _ (fun v raw => v = raw \/ v = FileStdout /\ equal_fold raw FileStdout = true));
      [unfold privacy_table; table | own_field |].
    intros raw c0 c1. unfold setFile. repeat case_match; intros [= <-]; auto.
  - eapply (applied_origin p_RetentionDays _ _ (fun v raw => Atoi (trim_space raw) = Some v));
      [unfold privacy_table; table | own_field |].
    intros raw c0 c1. unfold setInt. repeat case_match; intros [= <-]; auto.
  - eapply (applied_origin p_AdminListen _ _ eq); [unfold privacy_table; table | own_field |].
    intros raw c0 c1. unfold setString. repeat case_match; intros [= <-]; auto.
  - eapply (applied_origin p_Pprof _ _ (fun _ => says_true)); [unfold privacy_table; table | own_field |].
    intros raw c0 c1 [-> | [[? ->] | [? ->]]]%setBool_inv; auto.
  - eapply (applied_origin p_LocalPTR _ _ (fun _ => says_false)); [unfold privacy_table; table | own_field |].
    intros raw c0 c1 [-> | [[? ->] | [? ->]]]%setBool_inv; auto.
  - eapply (applied_origin p_CNAMEInspection _ _ (fun _ => says_false)); [unfold privacy_table; table | own_field |].
    intros raw c0 c1 [-> | [[? ->] | [? ->]]]%setBool_inv; auto.
Qed.

(** C17. Nothing is recorded or exposed beyond the defaults without the operator's
    own word: each setting of the loaded configuration that decides what is
    recorded or who can see it has its private default, or its value stands in
    the document under its key, or in its environment variable. Unknown keys,
    renamed keys and values that are not valid never weaken it. *)
Theorem privacy_opt_in (data : string) (root : Node) (lookup : string -> option string)
    (environ : list string) (load_pair : string -> string -> option string)
    (probs : list Problem) (c : Config)
  (Hroot : yaml_unmarshal data = inr root)
  (Hload : load data lookup environ load_pair = (probs, inr c)) :
  let raws k := raw_values k root lookup in
  (Mode (c_QueryLog c) = ModeNone \/ said (raws "query_log.mode") (eq (Mode (c_QueryLog c)))) /\
  (Clients (c_QueryLog c) = ClientsDrop \/ said (raws "query_log.clients") (eq (Clients (c_QueryLog c)))) /\
  (Database (c_QueryLog c) = "" \/ said (raws "query_log.database") (eq (Database (c_QueryLog c)))) /\
  (File (c_QueryLog c) = "" \/ said (raws "query_log.file") (fun raw => File (c_QueryLog c) = raw \/
     File (c_QueryLog c) = FileStdout /\ equal_fold raw FileStdout = true)) /\
  (RetentionDays (c_QueryLog c) = defaultRetentionDays \/ said (raws "query_log.retention_days")
     (fun raw => Atoi (trim_space raw) = Some (RetentionDays (c_QueryLog c)))) /\
  (AdminListen (c_Admin c) = defaultAdminListen \/ said (raws "admin.listen") (eq (AdminListen (c_Admin c)))) /\
  (Pprof (c_Admin c) = false \/ said (raws "admin.pprof") says_true) /\
  (LocalPTR (c_DNS c) = true \/ said (raws "dns.local_ptr") says_false) /\
  (CNAMEInspection (c_Blocking c) = true \/ said (raws "blocking.cname_inspection") says_false).
Proof.
  intros raws. unfold load in Hload. rewrite Hroot in Hload.
  pose proof (applied_private root lookup environ) as Ha. unfold applied in Ha. cbv zeta in Ha.
  destruct (applyYAML root defaults) as [c1 p1]. cbn [fst] in Ha.
  destruct (applyEnv lookup environ c1) as [c2 p2]. cbn [fst] in Ha.
  destruct (check load_pair c2) as [p3 r] eqn:Hc. injection Hload as _ ->.
  apply check_keeps in Hc as (-> & -> & -> & -> & -> & Hadmin & -> & -> & ->).
  destruct Hadmin as [-> | ->]; [exact Ha |].
  destruct_and! Ha. split_and!; auto.
Qed.

(** A configuration with the privacy of the defaults. *)
Definition private (c : Config) : Prop :=
  let q := c_QueryLog c in
  Mode q <> ModeAll /\ Mode q <> ModeBlocked /\
  (Mode q <> ModeNone -> Clients q <> ClientsFull /\ Clients q <> ClientsSubnet /\ File q = "" /\
     (Database q <> "" -> RetentionDays q <> 0 /\ RetentionDays q <= 7)%Z) /\
  isLoopbackListen (AdminListen (c_Admin c)) = true /\ Pprof (c_Admin c) = false /\
  LocalPTR (c_DNS c) = true /\ (exists u, u ∈ Upstreams (c_DNS c) /\ is_doh u = true) /\
  CNAMEInspection (c_Blocking c) = true /\
  (forall u, u ∈ Lists (c_Blocking c) -> has_prefix "http://" (to_lower u) = false).

Lemma app_nil {A} (l k : list A) : (l ++ k)%list = [] <-> l = [] /\ k = [].
Proof. split; [apply app_eq_nil | by intros [-> ->]]. Qed.


(** The upstream filter keeps the order and drops exactly the malformed
    entries: a kept plain entry is unchanged and has a host and a port; a kept
    URL is an https URL with an IP address as its host, a path and no user
    info, in the normal form that [url.Parse] prints. *)
Theorem filter_upstreams_spec (ups : list string) :
  let '(valid, dropped) := filterUpstreams ups in
  valid = omap filter_upstream ups /\
  dropped = List.filter (fun u => match filter_upstream u with None => true | Some _ => false end) ups /\
  (length valid + length dropped = length ups)%nat /\
  forall u, u ∈ valid -> exists raw, raw ∈ ups /\
    ((contains raw "://" = true /\ doh_url raw u) \/
     (contains raw "://" = false /\ u = raw /\
      exists host port, SplitHostPort raw = Some (host, port) /\ host <> "" /\ port <> "")).
Proof.
  unfold filterUpstreams. rewrite split_entries_spec. split_and!; [done | done | |].
  - induction ups as [|u l IH]; [done |]. cbn [omap list_omap List.filter].
    destruct (filter_upstream u); cbn [length]; lia.
  - intros u (raw & Hraw & Hu)%list_elem_of_omap. exists raw. split; [done |]. by apply filter_upstream_Some.
Qed.
End privacy.

Module ConfigExamples.
#[local] Instance no_unicode : UnicodeLower := fun s => s.
#[local] Instance no_quote : UnicodeQuote := fun s => s.

Definition scalar (v : string) : Node := mkNode ScalarNode "!!str" v [].
Definition mapping (l : list Node) : Node := mkNode MappingNode "!!map" "" l.

(** A document with a typing error, a key of version 1 and a blocked-only log,
    and the parser that knows only it. *)
Definition doc : Node := mkNode DocumentNode "" "" [mapping [
  scalar "query_log"; mapping [scalar "mode"; scalar "blocked"; scalar "clients"; scalar "sbunet"];
  scalar "query_privacy"; scalar "full";
  scalar "dns"; mapping [scalar "local_domains"; mkNode SequenceNode "!!seq" "" [scalar "*.Box"; scalar "box."; scalar "-x"]]]].
#[local] Instance one_doc : YamlParse := fun s => if (s =? "doc")%string then inr doc else inl "syntax".

(** [url.Parse] on URLs without user info, port or query. *)
#[local] Instance simple_url : UrlParse := fun s =>
  match cut_str s "://" with
  | None => None
  | Some (scheme, rest) =>
      let '(host, path) := match cut_byte "/"%char rest with
                           | Some (h, p) => (h, "/" +:+ p) | None => (rest, "") end in
      Some (mkParsedURL (ascii_lower scheme) None host path "" (fun _ _ => ascii_lower scheme +:+ "://" +:+ host +:+ path))
  end.

#[local] Instance simple_laws : UrlLaws.
Proof.
  split. intros s p. unfold url_parse, simple_url, url_String. destruct (cut_str s "://") as [[scheme rest]|]; [|done].
  destruct (match cut_byte "/" rest with Some (h, q) => (h, "/" +:+ q) | None => (rest, "") end) as [host path].
  intros [= <-] _ _.
  change (has_prefix (ascii_lower scheme +:+ "://") (ascii_lower scheme +:+ ("://" +:+ (host +:+ path))) = true).
  rewrite <- string_app_assoc. apply has_prefix_refl.
Qed.

Definition env (k : string) : option string :=
  if (k =? "S_HOLE_QUERY_LOG_RETENTION_DAYS")%string then Some "30"
  else if (k =? "S_HOLE_STATS_INTERVAL")%string then Some "-5m" else None.
Definition no_pair : string -> string -> option string := fun _ _ => Some "no such file".
Definition loaded : list Problem * (string + Config) :=
  load "doc" env ["S_HOLE_QUERY_LOG_RETENTION_DAYS=30"; "S_HOLE_LISTEN=:54"] no_pair.
Definition conf : Config := match snd loaded with inr c => c | inl _ => defaults end.

Example loaded_conf :
  loaded = (fst loaded, inr conf) /\ map Key (fst loaded) =
    ["query_log.clients"; "query_privacy"; "S_HOLE_STATS_INTERVAL"; "S_HOLE_LISTEN"; "dns.local_domains"] /\
  Mode (c_QueryLog conf) = "blocked" /\ Clients (c_QueryLog conf) = "drop" /\
  RetentionDays (c_QueryLog conf) = 30%Z /\ StatsInterval conf = defaultStatsInterval /\
  LocalDomains (c_DNS conf) = ["box"].
Proof. vm_compute. done. Qed.


Lemma privacy_opt_in_witness :
  Mode (c_QueryLog conf) = ModeNone \/ said (raw_values "query_log.mode" doc env) (eq (Mode (c_QueryLog conf))).
Proof.
  apply (privacy_opt_in "doc" doc env ["S_HOLE_QUERY_LOG_RETENTION_DAYS=30"; "S_HOLE_LISTEN=:54"] no_pair (fst loaded) conf);
    vm_compute; reflexivity.
Defined.

Lemma setting_effective_witness :
  quoted p_Mode (applied doc env []) =
  quoted p_Mode (fold_left (store_raw (setEnum p_Mode ModeNone [ModeNone; ModeBlocked; ModeAll]))
    (raw_values "query_log.mode" doc env) defaults).
Proof.
  apply (setting_effective doc env [] defaults
    (mkSetting "query_log.mode" (Scalar (setEnum p_Mode ModeNone [ModeNone; ModeBlocked; ModeAll])) (quoted p_Mode))).
  - unfold settings. repeat (first [apply list_elem_of_here | apply list_elem_of_further]).
  - reflexivity.
Defined.


Example odd_upstreams :
  filterUpstreams ["HTTPS://9.9.9.9/dns-query"; "1.1.1.1"; ":53"; "https://dns.example/dns-query"; "[::1]:53"]
  = (["https://9.9.9.9/dns-query"; "[::1]:53"], ["1.1.1.1"; ":53"; "https://dns.example/dns-query"]).
Proof. vm_compute. reflexivity. Qed.
End ConfigExamples.
