(* ===== verification/ZeroFile.v ===== *)
(** * Overwriting a file with zeros (internal/querylog/zero.go)

    [ZeroFile] on a file system whose names other processes can change between
    any two calls: each call sees its own [FS]. The write is a list of
    operations on the disk, and a crash can happen after any of them: what it
    leaves is the synced content with any part of the writes since. *)

From stdpp Require Import base numbers list gmap strings.
From Stdlib Require Import ZArith Lia.
From S2P Require Import Prelude GoStrings GoConv.

Open Scope string_scope.

(** ** Files *)

Inductive fs_error :=
  | ErrNotExist
  | ErrRefused (text : string)
  | ErrSys (text : string).

#[export] Instance fs_error_eq_dec : EqDecision fs_error.
Proof. solve_decision. Defined.

Record inode := mkInode { i_regular : bool; i_links : Z; i_data : list Z }.

Inductive dirent := ToInode (id : Z) | Symlink (target : string).

Record FS := mkFS { fs_names : gmap string dirent; fs_inodes : gmap Z inode }.

(** An [os.FileInfo]. *)
Record FileInfo := mkFileInfo { fi_regular : bool; fi_id : Z; fi_size : Z; fi_links : Z }.

Definition SameFile (a b : FileInfo) : bool := (fi_id a =? fi_id b)%Z.

Definition inode_info (id : Z) (n : inode) : FileInfo :=
  mkFileInfo (i_regular n) id (lenZ (i_data n)) (i_links n).

(** [os.Lstat]: a symbolic link is not followed, and is not a regular file. *)
Definition Lstat (fs : FS) (path : string) : fs_error + FileInfo :=
  match fs_names fs !! path with
  | None => inl ErrNotExist
  | Some (Symlink _) => inr (mkFileInfo false (-1) 0 1)
  | Some (ToInode id) =>
      match fs_inodes fs !! id with
      | Some n => inr (inode_info id n)
      | None => inl ErrNotExist
      end
  end.

(** [os.OpenFile] for writing. [nofollow] is the O_NOFOLLOW of [openFlags],
    which Windows does not have; the kernel follows at most forty links. *)
Fixpoint resolve (fuel : nat) (nofollow : bool) (fs : FS) (path : string) : fs_error + Z :=
  match fs_names fs !! path with
  | None => inl ErrNotExist
  | Some (ToInode id) => inr id
  | Some (Symlink target) =>
      if nofollow then inl (ErrSys "too many levels of symbolic links")
      else match fuel with
           | O => inl (ErrSys "too many levels of symbolic links")
           | S fuel' => resolve fuel' nofollow fs target
           end
  end.

Definition OpenFile (nofollow : bool) (fs : FS) (path : string) (fault : option fs_error) : fs_error + Z :=
  match fault with
  | Some err => inl err
  | None => resolve 40 nofollow fs path
  end.

(** [f.Stat()] of an open file; an open file keeps its inode. *)
Definition Stat (fs : FS) (id : Z) (fault : option fs_error) : fs_error + FileInfo :=
  match fault, fs_inodes fs !! id with
  | Some err, _ => inl err
  | None, Some n => inr (inode_info id n)
  | None, None => inl (ErrSys "stale file handle")
  end.

(** ** The disk *)

Inductive disk_op := DWrite (off len : Z) | DSync.

(** What is surely on the disk, and the zero writes since the last sync. *)
Record disk := mkDisk { d_synced : list Z; d_pending : list (Z * Z) }.

Definition in_write (i : nat) (w : Z * Z) : bool :=
  (fst w <=? Z.of_nat i)%Z && (Z.of_nat i <? fst w + snd w)%Z.

(** Writing zeros over the bytes of the pending writes. *)
Definition zero_writes (ws : list (Z * Z)) (data : list Z) : list Z :=
  imap (fun i b => if existsb (in_write i) ws then 0%Z else b) data.

(** An operation that succeeds, and one that fails: a failed write may have
    written a part. *)
Definition disk_step (op : disk_op) (d : disk) : disk :=
  match op with
  | DWrite off len => mkDisk (d_synced d) (d_pending d ++ [(off, len)])%list
  | DSync => mkDisk (zero_writes (d_pending d) (d_synced d)) []
  end.

Definition disk_fail (op : disk_op) (d : disk) : disk :=
  match op with
  | DWrite off len => mkDisk (d_synced d) (d_pending d ++ [(off, len)])%list
  | DSync => d
  end.

(** What a reader finds after a crash: each byte is the synced one, or zero
    where a later write covers it. *)
Definition crash_content (d : disk) (r : list Z) : Prop :=
  length r = length (d_synced d) /\
  forall i b, r !! i = Some b ->
    d_synced d !! i = Some b \/ (b = 0%Z /\ existsb (in_write i) (d_pending d) = true).

(** The operations in order until one fails; the second result holds the disk
    before the first and after each. *)
Fixpoint run_ops (fault : nat -> option fs_error) (i : nat) (ops : list disk_op) (d : disk)
    : option fs_error * list disk :=
  match ops with
  | [] => (None, [d])
  | op :: ops' =>
      match fault i with
      | Some err => (Some err, [d; disk_fail op d])
      | None => let '(e, ds) := run_ops fault (S i) ops' (disk_step op d) in (e, d :: ds)
      end
  end.

(** ** ZeroFile *)

Definition zeroChunk : Z := 65536.
Definition zeroHead : Z := 32.

(** The loop over the chunks, from [off]. *)
Fixpoint chunk_ops (fuel : nat) (off size : Z) : list disk_op :=
  match fuel with
  | O => []
  | S fuel' =>
      if (off <? size)%Z
      then DWrite off (Z.min (size - off) zeroChunk) :: chunk_ops fuel' (off + zeroChunk) size
      else []
  end.

Definition chunk_fuel (size : Z) : nat := Z.to_nat (size / zeroChunk + 1).

Definition zero_ops (size : Z) : list disk_op :=
  let head := Z.min size zeroHead in
  ([DWrite 0 head; DSync] ++ chunk_ops (chunk_fuel size) head size ++ [DSync])%list.

(** What the system does in one call of [zeroFile]: the errors of its calls
    ([io_op] for the writes and syncs in order), and the file system that
    [Lstat], [OpenFile] and [Stat] see. *)
Record ZeroEnv := mkZeroEnv {
  z_lstat_fs : FS;
  z_open_fs : FS;
  z_stat_fs : FS;
  z_open : option fs_error;
  z_stat : option fs_error;
  z_links : option fs_error;
  z_op : nat -> option fs_error;
  z_close : option fs_error;
}.

Definition refused (path reason : string) : fs_error := ErrRefused (path +:+ ": " +:+ reason).

(** The file that was written: its inode and the states of its disk blocks. *)
Definition written : Type := Z * list disk.

(** [lfi] and [want] are the results of [Lstat] and of the caller. *)
Definition writeZeros (env : ZeroEnv) (id : Z) (path : string) (lfi : FileInfo) (want : option FileInfo)
    : option fs_error * option written :=
  match Stat (z_stat_fs env) id (z_stat env) with
  | inl err => (Some err, None)
  | inr fi =>
      if negb (fi_regular fi) || negb (SameFile fi lfi)
      then (Some (refused path "changed while it was opened; not overwritten"), None)
      else if match want with Some w => negb (SameFile fi w) | None => false end
      then (Some (refused path "is not the open query log file; not overwritten"), None)
      else match z_links env with
      | Some err => (Some err, None)
      | None =>
          if (1 <? fi_links fi)%Z
          then (Some (refused path ("has " +:+ Itoa (fi_links fi) +:+ " hard links; not overwritten")), None)
          else
            let data := match fs_inodes (z_stat_fs env) !! id with Some n => i_data n | None => [] end in
            let '(err, ds) := run_ops (z_op env) 0 (zero_ops (fi_size fi)) (mkDisk data []) in
            (err, Some (id, ds))
      end
  end.

Definition zeroFile (nofollow : bool) (env : ZeroEnv) (path : string) (want : option FileInfo)
    : option fs_error * option written :=
  match Lstat (z_lstat_fs env) path with
  | inl err => (Some err, None)
  | inr lfi =>
      if negb (fi_regular lfi) then (Some (refused path "not a regular file; not overwritten"), None)
      else match OpenFile nofollow (z_open_fs env) path (z_open env) with
      | inl err => (Some err, None)
      | inr id =>
          let '(err, w) := writeZeros env id path lfi want in
          (match err with None => z_close env | Some _ => err end, w)
      end
  end.

Definition ZeroFile (nofollow : bool) (env : ZeroEnv) (path : string) : option fs_error * option written :=
  zeroFile nofollow env path None.

(** [truncateFile]: the inode that was emptied. *)
Definition truncateFile (nofollow : bool) (fs_open fs_stat : FS) (faults : option fs_error * option fs_error * option fs_error)
    (path : string) (want : FileInfo) : option fs_error * option Z :=
  let '(f_open, f_stat, f_trunc) := faults in
  match OpenFile nofollow fs_open path f_open with
  | inl err => (Some err, None)
  | inr id =>
      match Stat fs_stat id f_stat with
      | inl err => (Some err, None)
      | inr fi =>
          if negb (SameFile fi want)
          then (Some (refused path "is not the open query log file; not emptied"), None)
          else match f_trunc with
               | Some err => (Some err, None)
               | None => (None, Some id)
               end
      end
  end.

(** ** Emptying the query log file (FileLogger.truncate) *)

Inductive purge_error :=
  | ErrStdoutNotPurgeable
  | ErrNotOverwritten (cause : fs_error)
  | PurgeFailed (cause : fs_error).

(** The open log file: its path and its inode. [None] is standard output. *)
Definition log_file : Type := option (string * Z).

(** What the calls of [truncate] meet: [f.Stat], the overwrite, [f.Truncate] and
    the second handle. *)
Record TruncEnv := mkTruncEnv {
  t_fs : FS;
  t_stat : option fs_error;
  t_zero : ZeroEnv;
  t_truncate : option fs_error;
  t_fs_open : FS;
  t_fs_stat : FS;
  t_second : option fs_error * option fs_error * option fs_error;
}.

Record truncated := mkTruncated {
  tr_err : option purge_error;
  tr_zeroed : option written;
  tr_emptied : option Z;
}.

Definition FileLogger_truncate_file (nofollow : bool) (env : TruncEnv) (f : log_file) : truncated :=
  match f with
  | None => mkTruncated (Some ErrStdoutNotPurgeable) None None
  | Some (path, id) =>
      let stat := Stat (t_fs env) id (t_stat env) in
      let '(zerr, w) := match stat with
                        | inl err => (Some err, None)
                        | inr fi => zeroFile nofollow (t_zero env) path (Some fi)
                        end in
      let finish emptied :=
        mkTruncated (match zerr with Some e => Some (ErrNotOverwritten e) | None => None end) w emptied in
      match t_truncate env with
      | None => finish (Some id)
      | Some err =>
          match stat with
          | inl _ => mkTruncated (Some (PurgeFailed err)) w None
          | inr fi =>
              match truncateFile nofollow (t_fs_open env) (t_fs_stat env) (t_second env) path fi with
              | (Some _, _) => mkTruncated (Some (PurgeFailed err)) w None
              | (None, emptied) => finish emptied
              end
          end
      end
  end.

(** ** The overwrite *)

Lemma zero_writes_lookup ws data i :
  zero_writes ws data !! i = (fun b => if existsb (in_write i) ws then 0%Z else b) <$> data !! i.
Proof. unfold zero_writes. apply list_lookup_imap. Qed.

Lemma zero_writes_length ws data : length (zero_writes ws data) = length data.
Proof. apply length_imap. Qed.

Lemma zero_writes_app ws ws' data : zero_writes ws' (zero_writes ws data) = zero_writes (ws ++ ws') data.
Proof.
  apply list_eq. intros i. rewrite !zero_writes_lookup. destruct (data !! i) as [b|]; [|done]. simpl.
  rewrite existsb_app. destruct (existsb (in_write i) ws), (existsb (in_write i) ws'); done.
Qed.

(** The header is zero, on the disk. *)
Definition head_synced (d : disk) : Prop :=
  forall i b, (Z.of_nat i < zeroHead)%Z -> d_synced d !! i = Some b -> b = 0%Z.

(** The original content, with writes to the header only. *)
Definition only_head (data : list Z) (d : disk) : Prop :=
  d_synced d = data /\ forall i, (zeroHead <= Z.of_nat i)%Z -> existsb (in_write i) (d_pending d) = false.

Lemma head_synced_step op d : head_synced d -> head_synced (disk_step op d).
Proof.
  intros Hd i b Hi. destruct op as [off len|]; cbn [disk_step d_synced]; [by apply Hd |].
  rewrite zero_writes_lookup. destruct (d_synced d !! i) as [b0|] eqn:Hb; [|done].
  specialize (Hd i b0 Hi Hb). intros [= <-]. by case_match.
Qed.

Lemma head_synced_fail op d : head_synced d -> head_synced (disk_fail op d).
Proof. by destruct op. Qed.

Lemma run_ops_head fault ops : forall i d, head_synced d -> Forall head_synced (snd (run_ops fault i ops d)).
Proof.
  induction ops as [|op ops IH]; intros i d Hd; cbn [run_ops]; [by constructor |].
  destruct (fault i).
  - cbn [snd]. rewrite !Forall_cons, Forall_nil. auto using head_synced_fail.
  - specialize (IH (S i) (disk_step op d) (head_synced_step op d Hd)).
    destruct (run_ops fault (S i) ops (disk_step op d)). by constructor.
Qed.

Definition head_write (size : Z) : Z * Z := (0%Z, Z.min size zeroHead).

Lemma head_write_only i (size : Z) : (zeroHead <= Z.of_nat i)%Z -> in_write i (head_write size) = false.
Proof. unfold in_write, head_write. cbn [fst snd]. intros Hi. lia. Qed.

Lemma head_write_covers i (data : list Z) :
  (Z.of_nat i < zeroHead)%Z -> (i < length data)%nat -> in_write i (head_write (lenZ data)) = true.
Proof. unfold in_write, head_write, lenZ. cbn [fst snd]. lia. Qed.

(** Every state of the overwrite has its header written only, or its header on
    the disk as zeros. *)
Lemma zero_ops_states fault data :
  Forall (fun d => only_head data d \/ head_synced d)
    (snd (run_ops fault 0 (zero_ops (lenZ data)) (mkDisk data []))).
Proof.
  unfold zero_ops. cbn [app run_ops disk_step disk_fail d_synced d_pending]. fold (head_write (lenZ data)).
  set (d0 := mkDisk data []). set (d1 := mkDisk data [head_write (lenZ data)]).
  assert (only_head data d0) as H0 by (split; [done | by intros]).
  assert (only_head data d1) as H1.
  { split; [done |]. intros i Hi. cbn [d1 d_pending existsb]. by rewrite head_write_only. }
  destruct (fault 0%nat); [cbn [snd]; rewrite !Forall_cons, Forall_nil; auto |].
  destruct (fault 1%nat); [cbn [snd]; rewrite !Forall_cons, Forall_nil; auto |].
  set (d2 := mkDisk (zero_writes [head_write (lenZ data)] data) []).
  assert (head_synced d2) as H2.
  { intros i b Hi. cbn [d2 d_synced]. rewrite zero_writes_lookup.
    destruct (data !! i) eqn:Hb; [|done]. cbn [existsb].
    rewrite head_write_covers; [by intros [= <-] | done | by eapply lookup_lt_Some]. }
  pose proof (run_ops_head fault (chunk_ops (chunk_fuel (lenZ data)) (Z.min (lenZ data) zeroHead) (lenZ data)
    ++ [DSync]) 2%nat d2 H2) as Hrest.
  destruct (run_ops fault 2%nat _ d2) as [e ds]. cbn [snd] in *.
  constructor; [by left |]. constructor; [by left |].
  eapply Forall_impl; [exact Hrest |]. by right.
Qed.

(** C5. Whenever the overwrite stops, by an error or a power loss, and whatever
    part of the writes since the last sync reached the disk: either every byte
    after the first 32 is still the original one, or the first 32 bytes, the
    header of a WAL, are zero. A WAL whose header is valid never holds a mix of
    original and zeroed frames. *)
Theorem zero_crash_safe (fault : nat -> option fs_error) (data r : list Z) (d : disk)
  (Hd : d ∈ snd (run_ops fault 0 (zero_ops (lenZ data)) (mkDisk data []))) (Hr : crash_content d r) :
  (forall i, (32 <= i)%nat -> r !! i = data !! i) \/
  (forall i b, (i < 32)%nat -> r !! i = Some b -> b = 0%Z).
Proof.
  pose proof (zero_ops_states fault data) as Hall. rewrite Forall_forall in Hall.
  destruct Hr as [Hlen Hr]. destruct (Hall d Hd) as [[Hsync Hp] | Hhead]; [left | right].
  - intros i Hi. rewrite <- Hsync. destruct (r !! i) as [b|] eqn:Hb.
    + destruct (Hr i b Hb) as [?|[_ Hw]]; [done |]. rewrite Hp in Hw; [done | unfold zeroHead; lia].
    + symmetry. apply lookup_ge_None. apply lookup_ge_None in Hb. lia.
  - intros i b Hi Hb. destruct (Hr i b Hb) as [Hs|[? _]]; [|done].
    by apply (Hhead i b); [unfold zeroHead; lia |].
Qed.

(** ** The overwrite reaches every byte *)

Lemma chunk_ops_covers fuel : forall off size i,
  (0 <= off)%Z -> (size <= off + Z.of_nat fuel * zeroChunk)%Z -> (off <= Z.of_nat i < size)%Z ->
  exists o l, DWrite o l ∈ chunk_ops fuel off size /\ in_write i (o, l) = true.
Proof.
  unfold zeroChunk. induction fuel as [|fuel IH]; intros off size i Ho Hs Hi; [lia |]. cbn [chunk_ops].
  unfold zeroChunk. destruct (Z.ltb_spec off size); [|lia].
  destruct (Z.ltb_spec (Z.of_nat i) (off + 65536)).
  - eexists _, _. split; [left |]. unfold in_write. cbn [fst snd]. lia.
  - destruct (IH (off + 65536)%Z size i) as (o & l & Hin & Hw); [lia | lia | lia |].
    exists o, l. split; [by right | done].
Qed.

Lemma chunk_fuel_enough size : (0 <= size)%Z -> (size <= Z.of_nat (chunk_fuel size) * zeroChunk)%Z.
Proof.
  unfold chunk_fuel, zeroChunk. intros Hs. pose proof (Z.mul_succ_div_gt size 65536 ltac:(lia)).
  pose proof (Z.div_pos size 65536 Hs ltac:(lia)). lia.
Qed.

(** Any larger fuel gives the same operations: the loop has ended. *)
Lemma chunk_ops_fuel fuel : forall k off size,
  (0 <= off)%Z -> (size <= off + Z.of_nat fuel * zeroChunk)%Z ->
  chunk_ops (fuel + k) off size = chunk_ops fuel off size.
Proof.
  unfold zeroChunk. induction fuel as [|fuel IH]; intros k off size Ho Hs.
  - destruct k as [|k]; [done |]. cbn [Nat.add chunk_ops]. destruct (Z.ltb_spec off size); [lia | done].
  - cbn [Nat.add chunk_ops]. destruct (off <? size)%Z; [|done]. f_equal. unfold zeroChunk. apply IH; lia.
Qed.

Lemma chunk_ops_writes fuel : forall off size op,
  op ∈ chunk_ops fuel off size -> exists o l, op = DWrite o l.
Proof.
  induction fuel as [|fuel IH]; intros off size op; cbn [chunk_ops]; [by intros ?%elem_of_nil |].
  destruct (off <? size)%Z; [|by intros ?%elem_of_nil].
  intros [->|Hop]%elem_of_cons; [by eexists _, _ | by eapply IH].
Qed.

(** The writes of a list of operations. *)
Definition writes_of (ops : list disk_op) : list (Z * Z) :=
  flat_map (fun op => match op with DWrite o l => [(o, l)] | DSync => [] end) ops.

Lemma last_cons_Some {A} (x y : A) l : last l = Some y -> last (x :: l) = Some y.
Proof. by destruct l. Qed.

Lemma run_writes_sync ops i d :
  (forall op, op ∈ ops -> exists o l, op = DWrite o l) ->
  let '(e, ds) := run_ops (fun _ => None) i (ops ++ [DSync]) d in
  e = None /\ last ds = Some (mkDisk (zero_writes (d_pending d ++ writes_of ops) (d_synced d)) []).
Proof.
  revert i d. induction ops as [|op ops IH]; intros i d Hops.
  - cbn. by rewrite app_nil_r.
  - destruct (Hops op) as (o & l & ->); [left |]. cbn [app run_ops].
    specialize (IH (S i) (disk_step (DWrite o l) d)). destruct (run_ops _ (S i) _ _) as [e ds].
    destruct IH as [-> Hl]; [by intros op Hop; apply Hops; right |]. split; [done |].
    apply last_cons_Some. rewrite Hl. cbn [disk_step d_pending d_synced writes_of flat_map]. by rewrite <- app_assoc.
Qed.

(** With no error the overwrite ends with every byte zero, synced to the disk,
    and the size of the file as it was. *)
Theorem zero_complete (data : list Z) :
  let '(e, ds) := run_ops (fun _ => None) 0 (zero_ops (lenZ data)) (mkDisk data []) in
  e = None /\ last ds = Some (mkDisk (replicate (length data) 0%Z) []).
Proof.
  unfold zero_ops. cbn [app run_ops disk_step d_synced d_pending]. fold (head_write (lenZ data)).
  set (ops := chunk_ops (chunk_fuel (lenZ data)) (Z.min (lenZ data) zeroHead) (lenZ data)).
  pose proof (run_writes_sync ops 2 (mkDisk (zero_writes [head_write (lenZ data)] data) [])) as Hrun.
  destruct (run_ops _ 2 _ _) as [e ds]. destruct Hrun as [-> Hl]; [apply chunk_ops_writes |].
  split; [done |]. do 2 apply last_cons_Some. rewrite Hl. cbn [d_pending d_synced app]. f_equal. rewrite zero_writes_app. f_equal.
  apply list_eq. intros i. rewrite zero_writes_lookup. destruct (data !! i) as [b|] eqn:Hb.
  - apply lookup_lt_Some in Hb. rewrite lookup_replicate_2 by done. cbn [fmap option_fmap option_map].
    f_equal. assert (existsb (in_write i) ([head_write (lenZ data)] ++ writes_of ops)%list = true) as ->; [|done].
    cbn [app existsb]. apply orb_true_iff. destruct (Z.ltb_spec (Z.of_nat i) zeroHead).
    + left. by apply head_write_covers.
    + right. pose proof (lenZ_nonneg data) as Hn. pose proof (chunk_fuel_enough (lenZ data) Hn) as Hf.
      destruct (chunk_ops_covers (chunk_fuel (lenZ data)) (Z.min (lenZ data) zeroHead) (lenZ data) i)
        as (o & l & Hin & Hw); [unfold lenZ, zeroHead; lia | unfold zeroHead in *; lia | unfold lenZ in *; lia |].
      apply existsb_exists. exists (o, l). split; [|done]. unfold writes_of. apply in_flat_map.
      exists (DWrite o l). split; [by apply list_elem_of_In | by left].
  - apply lookup_ge_None in Hb. symmetry. apply lookup_ge_None. rewrite length_replicate. done.
Qed.

(** ** Which file is overwritten *)

Lemma Lstat_regular fs path fi :
  Lstat fs path = inr fi -> fi_regular fi = true ->
  exists id n, fs_names fs !! path = Some (ToInode id) /\ fs_inodes fs !! id = Some n /\ fi = inode_info id n.
Proof.
  unfold Lstat. destruct (fs_names fs !! path) as [[id|t]|]; [| by intros [= <-] | done].
  destruct (fs_inodes fs !! id) as [n|] eqn:Hn; [|done]. intros [= <-] _. by exists id, n.
Qed.

Lemma Stat_inv fs id fault fi :
  Stat fs id fault = inr fi -> exists n, fs_inodes fs !! id = Some n /\ fi = inode_info id n.
Proof.
  unfold Stat. destruct fault; [done |]. destruct (fs_inodes fs !! id) as [n|]; [|done].
  intros [= <-]. by exists n.
Qed.

Lemma writeZeros_written env id path lfi want e id' ds :
  writeZeros env id path lfi want = (e, Some (id', ds)) ->
  id' = id /\ id = fi_id lfi /\ (forall w, want = Some w -> fi_id w = id) /\
  exists n, fs_inodes (z_stat_fs env) !! id = Some n /\ i_regular n = true /\ (i_links n <= 1)%Z /\
    run_ops (z_op env) 0 (zero_ops (lenZ (i_data n))) (mkDisk (i_data n) []) = (e, ds).
Proof.
  unfold writeZeros. destruct (Stat _ id (z_stat env)) as [|fi] eqn:Hs; [done |].
  apply Stat_inv in Hs as (n & Hn & ->). cbn [fi_regular inode_info].
  destruct (i_regular n) eqn:Hreg; cbn [negb orb]; [|done].
  unfold SameFile. cbn [fi_id inode_info]. destruct (Z.eqb_spec id (fi_id lfi)); cbn [negb]; [|done].
  destruct (match want with Some w => _ | None => false end) eqn:Hw; [done |].
  destruct (z_links env); [done |]. cbn [fi_links fi_size inode_info].
  destruct (Z.ltb_spec 1 (i_links n)); [done |]. rewrite Hn.
  destruct (run_ops _ 0 _ _) as [er dr] eqn:Hrun. intros [= <- <- <-]. split_and!; [done | done | |].
  - intros w ->. cbn in Hw. apply negb_false_iff, Z.eqb_eq in Hw. done.
  - exists n. split_and!; done.
Qed.

Lemma zeroFile_written nofollow env path want err id ds :
  zeroFile nofollow env path want = (err, Some (id, ds)) ->
  fs_names (z_lstat_fs env) !! path = Some (ToInode id) /\
  (forall w, want = Some w -> fi_id w = id) /\
  exists n e, fs_inodes (z_stat_fs env) !! id = Some n /\ i_regular n = true /\ (i_links n <= 1)%Z /\
    run_ops (z_op env) 0 (zero_ops (lenZ (i_data n))) (mkDisk (i_data n) []) = (e, ds) /\
    (err = None -> e = None).
Proof.
  unfold zeroFile. destruct (Lstat _ path) as [|lfi] eqn:Hl; [done |].
  destruct (fi_regular lfi) eqn:Hreg; cbn [negb]; [|done].
  destruct (Lstat_regular _ _ _ Hl Hreg) as (id0 & n0 & Hname & _ & ->).
  destruct (OpenFile _ _ _ _) as [|id1]; [done |].
  destruct (writeZeros env id1 path (inode_info id0 n0) want) as [e w] eqn:Hw. intros [= <- ->].
  apply writeZeros_written in Hw as (-> & -> & Hwant & n & Hn & Hr & Hlinks & Hrun).
  cbn [fi_id inode_info] in *. split_and!; [done | done |]. exists n, e. split_and!; try done. by destruct e.
Qed.

(** A call that writes nothing fails. *)
Lemma zeroFile_unwritten nofollow env path want err :
  zeroFile nofollow env path want = (err, None) -> err <> None.
Proof.
  unfold zeroFile. destruct (Lstat _ path) as [|lfi]; [by intros [= <-] |].
  destruct (negb _); [by intros [= <-] |]. destruct (OpenFile _ _ _ _) as [|id]; [by intros [= <-] |].
  destruct (writeZeros env id path lfi want) as [e w] eqn:Hw. intros [= <- ->]. unfold writeZeros in Hw.
  destruct (Stat _ _ _); [by injection Hw as <- |]. destruct (_ || _); [by injection Hw as <- |].
  destruct (match want with Some w => _ | None => false end); [by injection Hw as <- |].
  destruct (z_links env); [by injection Hw as <- |]. destruct (_ <? _)%Z; [by injection Hw as <- |].
  by destruct (run_ops _ _ _ _).
Qed.

(** [zeroFile] overwrites the file that its path named when it was called, and
    no other: not through a symbolic link, not a file that has another name,
    not a file that is not regular, not a file that took the name in between,
    and, when the caller names the open log file, only that one. A symbolic
    link is refused, also when the system call does not stop at one. A call
    that writes nothing fails, and a call that succeeds ran the whole
    overwrite. *)
Theorem zero_file_target (nofollow : bool) (env : ZeroEnv) (path : string) (want : option FileInfo) :
  let '(err, w) := zeroFile nofollow env path want in
  (forall target, fs_names (z_lstat_fs env) !! path = Some (Symlink target) ->
     w = None /\ exists text, err = Some (ErrRefused text)) /\
  match w with
  | None => err <> None
  | Some (id, ds) =>
      fs_names (z_lstat_fs env) !! path = Some (ToInode id) /\
      (forall w, want = Some w -> fi_id w = id) /\
      exists n e, fs_inodes (z_stat_fs env) !! id = Some n /\ i_regular n = true /\ (i_links n <= 1)%Z /\
        run_ops (z_op env) 0 (zero_ops (lenZ (i_data n))) (mkDisk (i_data n) []) = (e, ds) /\
        (err = None -> e = None)
  end.
Proof.
  assert (forall target, fs_names (z_lstat_fs env) !! path = Some (Symlink target) ->
    zeroFile nofollow env path want = (Some (refused path "not a regular file; not overwritten"), None)) as Hlink.
  { intros t Ht. unfold zeroFile, Lstat. by rewrite Ht. }
  destruct (zeroFile nofollow env path want) as [err w] eqn:Hz. split.
  - intros t Ht. injection (Hlink t Ht) as -> ->. split; [done | by eexists].
  - destruct w as [[id ds]|]; [by eapply zeroFile_written | by eapply zeroFile_unwritten].
Qed.

(** What the overwrite of the open log file did: it stopped before the file, or
    ran on the inode of the open file. *)
Definition overwrote (env : ZeroEnv) (id : Z) (z : option fs_error * option written) : Prop :=
  match snd z with
  | None => fst z <> None
  | Some (id', ds) => id' = id /\ exists n e, fs_inodes (z_stat_fs env) !! id = Some n /\
      run_ops (z_op env) 0 (zero_ops (lenZ (i_data n))) (mkDisk (i_data n) []) = (e, ds) /\
      (fst z = None -> e = None)
  end.

Lemma zero_overwrote nofollow env path id n0 :
  overwrote env id (zeroFile nofollow env path (Some (inode_info id n0))).
Proof.
  unfold overwrote. destruct (zeroFile _ _ _ _) as [err [[id' ds]|]] eqn:Hf; cbn [fst snd].
  - apply zeroFile_written in Hf as (_ & Hw & n & e & Hn & _ & _ & Hrun & He).
    specialize (Hw _ eq_refl). cbn in Hw. subst id'. split; [done |]. by exists n, e.
  - by eapply zeroFile_unwritten.
Qed.

(** A successful [truncateFile] emptied the file that the caller has open. *)
Lemma truncateFile_target nofollow fs1 fs2 faults path id n emptied :
  truncateFile nofollow fs1 fs2 faults path (inode_info id n) = (None, emptied) -> emptied = Some id.
Proof.
  unfold truncateFile. destruct faults as [[f1 f2] f3].
  destruct (OpenFile _ _ _ _) as [|id2]; [done |]. destruct (Stat _ id2 _) as [|fi2] eqn:Hs2; [done |].
  apply Stat_inv in Hs2 as (n2 & _ & ->). unfold SameFile. cbn [fi_id inode_info].
  destruct (Z.eqb_spec id2 id) as [->|]; cbn [negb]; [|done]. destruct f3; [done |]. by intros [= <-].
Qed.

(** The result of a purge of the log file [f]: see [log_file_purge]. *)
Definition truncate_post (env : ZeroEnv) (f : log_file) (r : truncated) : Prop :=
  (forall id ds, tr_zeroed r = Some (id, ds) -> exists path, f = Some (path, id)) /\
  (forall id, tr_emptied r = Some id -> exists path, f = Some (path, id)) /\
  (f = None -> tr_err r = Some ErrStdoutNotPurgeable) /\
  match tr_err r with
  | None => exists id n ds, tr_emptied r = Some id /\ tr_zeroed r = Some (id, ds) /\
      fs_inodes (z_stat_fs env) !! id = Some n /\
      run_ops (z_op env) 0 (zero_ops (lenZ (i_data n))) (mkDisk (i_data n) []) = (None, ds)
  | Some (ErrNotOverwritten _) => tr_emptied r <> None
  | Some _ => tr_emptied r = None
  end.

Lemma truncate_finish env path id zerr w :
  overwrote env id (zerr, w) ->
  truncate_post env (Some (path, id))
    (mkTruncated (match zerr with Some e => Some (ErrNotOverwritten e) | None => None end) w (Some id)).
Proof.
  intros Hz. unfold overwrote in Hz. cbn [fst snd] in Hz.
  unfold truncate_post. cbn [tr_zeroed tr_emptied tr_err]. split_and!.
  - intros id' ds ->. destruct Hz as [-> _]. by exists path.
  - intros id' [= <-]. by exists path.
  - done.
  - destruct zerr as [e|]; [done |]. destruct w as [[id' ds]|]; [|done].
    destruct Hz as (-> & n & e & Hn & Hrun & He). exists id, n, ds. rewrite He in Hrun by done. done.
Qed.

Lemma truncate_failed env path id zerr w err :
  overwrote env id (zerr, w) ->
  truncate_post env (Some (path, id)) (mkTruncated (Some (PurgeFailed err)) w None).
Proof.
  intros Hz. unfold truncate_post. cbn [tr_zeroed tr_emptied tr_err]. split_and!; try done.
  intros id' ds ->. destruct Hz as [-> _]. by exists path.
Qed.

(** The purge of the query log file touches the open log file only, through
    whichever handle. When it reports success, the file was overwritten
    completely and then emptied; when it reports that the file was not
    overwritten, the file was still emptied; on any other error it was not
    emptied. Standard output is never purged. *)
Theorem log_file_purge (nofollow : bool) (env : TruncEnv) (f : log_file) :
  let r := FileLogger_truncate_file nofollow env f in
  (forall id ds, tr_zeroed r = Some (id, ds) -> exists path, f = Some (path, id)) /\
  (forall id, tr_emptied r = Some id -> exists path, f = Some (path, id)) /\
  (f = None -> tr_err r = Some ErrStdoutNotPurgeable) /\
  match tr_err r with
  | None => exists id n ds, tr_emptied r = Some id /\ tr_zeroed r = Some (id, ds) /\
      fs_inodes (z_stat_fs (t_zero env)) !! id = Some n /\
      run_ops (z_op (t_zero env)) 0 (zero_ops (lenZ (i_data n))) (mkDisk (i_data n) []) = (None, ds)
  | Some (ErrNotOverwritten _) => tr_emptied r <> None
  | Some _ => tr_emptied r = None
  end.
Proof.
  intros r. change (truncate_post (t_zero env) f r). subst r. destruct f as [[path id]|]; [|done].
  unfold FileLogger_truncate_file. destruct (Stat (t_fs env) id (t_stat env)) as [e|fi] eqn:Hs.
  - assert (overwrote (t_zero env) id (Some e, None)) as Hz by done.
    destruct (t_truncate env) as [err|]; [by eapply truncate_failed | by apply (truncate_finish _ _ _ (Some e))].
  - apply Stat_inv in Hs as (n0 & _ & ->).
    pose proof (zero_overwrote nofollow (t_zero env) path id n0) as Hz.
    destruct (zeroFile _ _ _ _) as [zerr w].
    destruct (t_truncate env) as [err|]; [|by apply truncate_finish].
    destruct (truncateFile _ _ _ _ _ _) as [[e|] emptied] eqn:Ht; [by eapply truncate_failed |].
    apply truncateFile_target in Ht as ->. by apply truncate_finish.
Qed.

Module ZeroFileExamples.
Definition data : list Z := replicate 40 7%Z.
Definition mid : disk := mkDisk (zero_writes [(0%Z, 32%Z)] data) [(32%Z, 8%Z)].

(** A power loss in the middle of the second write. *)
Lemma zero_crash_safe_witness :
  (forall i, (32 <= i)%nat -> (replicate 32 0%Z ++ replicate 5 0%Z ++ replicate 3 7%Z)%list !! i = data !! i) \/
  (forall i b, (i < 32)%nat -> (replicate 32 0%Z ++ replicate 5 0%Z ++ replicate 3 7%Z)%list !! i = Some b -> b = 0%Z).
Proof.
  apply (zero_crash_safe (fun i => if (i =? 2)%nat then Some (ErrSys "no power") else None) data _ mid).
  - vm_compute. do 3 right. left.
  - split; [reflexivity |]. intros i b Hb.
    assert (i < 40)%nat as Hi by (apply lookup_lt_Some in Hb; exact Hb).
    do 40 (destruct i as [|i]; [vm_compute in Hb; injection Hb as <-; vm_compute; first [by left | by right] |]). lia.
Defined.

Definition one_file (regular : bool) (links : Z) : FS :=
  mkFS {[ "q.log" := ToInode 3%Z; "ln" := Symlink "q.log" ]} {[ 3%Z := mkInode regular links (replicate 3 9%Z) ]}.
Definition quiet (fs : FS) : ZeroEnv :=
  mkZeroEnv fs fs fs None None None (fun _ => None) None.

Example zero_run :
  snd (ZeroFile true (quiet (one_file true 1)) "q.log") =
    Some (3%Z, [mkDisk [9; 9; 9]%Z []; mkDisk [9; 9; 9]%Z [(0, 3)%Z]; mkDisk [0; 0; 0]%Z []; mkDisk [0; 0; 0]%Z []]) /\
  ZeroFile true (quiet (one_file true 2)) "q.log" =
    (Some (ErrRefused "q.log: has 2 hard links; not overwritten"), None) /\
  ZeroFile false (quiet (one_file true 1)) "ln" =
    (Some (ErrRefused "ln: not a regular file; not overwritten"), None) /\
  ZeroFile true (quiet (one_file true 1)) "none" = (Some ErrNotExist, None).
Proof. vm_compute. done. Qed.
End ZeroFileExamples.
