(* ===== verification/WipeWAL.v ===== *)
(** * Overwriting the write-ahead log (internal/querylog/db.go)

    [wipeWAL], the steps of a purge, and the prune, on the one connection of
    the query database. SQLite is a third-party package: its statements are a
    class of operations on a world [W], between which other processes may act,
    and its documented guarantees are laws. *)

From stdpp Require Import base numbers list gmap strings.
From Stdlib Require Import ZArith Lia.
From S2P Require Import Prelude GoStrings GoConv Redact ZeroFile.

Open Scope string_scope.

(** ** The connection *)

(** What the code asks of the connection: statements without a result, the
    checkpoint with its three columns, [PRAGMA data_version], and [ZeroFile]
    on the -wal file. *)
Class SqliteConn (W : Type) := {
  sql_exec : string -> W -> W * option error;
  wal_checkpoint_restart : W -> W * (error + (Z * Z * Z));
  data_version : W -> W * (error + Z);
  zero_wal : W -> W * option fs_error;
}.

(** What the code relies on: the SQLite documentation of WAL mode, of
    [data_version] and of [BEGIN IMMEDIATE].
    - [copied]: every frame of the WAL is in the database file;
    - [ver]: the data version that the connection sees, which grows whenever
      another connection commits;
    - [locked]: the connection holds the write lock. *)
Class SqliteLaws (W : Type) `{!SqliteConn W} := {
  copied : W -> Prop;
  ver : W -> Z;
  locked : W -> Prop;
  (** What another process can do between two statements. *)
  other : W -> W -> Prop;
  other_ver : forall w w', other w w' -> (ver w <= ver w')%Z;
  other_copied : forall w w', other w w' -> ver w' = ver w -> copied w -> copied w';
  other_locked : forall w w', other w w' -> locked w -> locked w' /\ ver w' = ver w;
  checkpoint_copied : forall w w' n,
    wal_checkpoint_restart w = (w', inr (0%Z, n, n)) -> copied w';
  data_version_reads : forall w w' v, data_version w = (w', inr v) ->
    v = ver w' /\ ver w' = ver w /\ (copied w -> copied w') /\ (locked w -> locked w');
  begin_locks : forall w w', sql_exec "BEGIN IMMEDIATE" w = (w', None) ->
    locked w' /\ ver w' = ver w /\ (copied w -> copied w');
}.

Definition errWALBusy : error := ErrText "another connection uses the query database".

(** [fmt.Errorf] with [errWALBusy] first. *)
Definition wal_busy (detail : string) : error := ErrWrap "" errWALBusy (": " +:+ detail).

Definition zero_error (e : fs_error) : option error :=
  match e with
  | ErrNotExist => None
  | ErrRefused text | ErrSys text => Some (ErrText text)
  end.

Section wipe.
Context {W : Type} `{!SqliteConn W}.

(** The effects of a wipe: the world at its end, its error, the world in which
    [ZeroFile] was called, and whether the truncating checkpoint was run. *)
Record wiped := mkWiped {
  wi_world : W;
  wi_err : option error;
  wi_zeroed : option W;
  wi_truncated : bool;
}.

(** [others i] is what other processes did before the [i]-th statement. *)
Definition wipeWAL (others : nat -> W -> W) (w : W) : wiped :=
  match wal_checkpoint_restart (others 0%nat w) with
  | (w, inl err) => mkWiped w (Some err) None false
  | (w, inr (busy, frames, copied)) =>
      if negb (busy =? 0)%Z || negb (frames =? copied)%Z
      then mkWiped w (Some (wal_busy ("checkpoint copied " +:+ Itoa copied +:+ " of " +:+ Itoa frames +:+ " frames"))) None false
      else match data_version (others 1%nat w) with
      | (w, inl err) => mkWiped w (Some err) None false
      | (w, inr before) =>
          match sql_exec "BEGIN IMMEDIATE" (others 2%nat w) with
          | (w, Some err) => mkWiped w (Some err) None false
          | (w, None) =>
              let '(w, r) := data_version (others 3%nat w) in
              let '(w, err, zeroed) :=
                match r with
                | inl err => (w, Some err, None)
                | inr after =>
                    if negb (after =? before)%Z
                    then (w, Some (wal_busy "another connection wrote after the checkpoint"), None)
                    else
                      let w := others 4%nat w in
                      let '(w', zerr) := zero_wal w in
                      (w', match zerr with Some e => zero_error e | None => None end, Some w)
                end in
              let '(w, rerr) := sql_exec "ROLLBACK" (others 5%nat w) in
              match (match err with None => rerr | Some _ => err end) with
              | Some err => mkWiped w (Some err) zeroed false
              | None =>
                  let '(w, err) := sql_exec "PRAGMA wal_checkpoint(TRUNCATE)" (others 6%nat w) in
                  mkWiped w err zeroed true
              end
          end
      end
  end.

(** [purgeAll]: the named steps run in order until one fails. The statements
    are numbered over all the steps, for [others]. *)
Definition exec_step (q : string) (others : nat -> W -> W) (w : W) : W * option error :=
  sql_exec q (others 0%nat w).

Definition wipe_step (others : nat -> W -> W) (w : W) : W * option error :=
  let r := wipeWAL others w in (wi_world r, wi_err r).

Definition purge_steps : list (string * ((nat -> W -> W) -> W -> W * option error)) := [
  ("DELETE FROM queries", exec_step "DELETE FROM queries");
  ("DELETE FROM sqlite_sequence", exec_step "DELETE FROM sqlite_sequence WHERE name = 'queries'");
  ("WAL overwrite", wipe_step);
  ("VACUUM", exec_step "VACUUM");
  ("WAL overwrite", wipe_step)
].

(** [others k] is what other processes did during the [k]-th step. *)
Fixpoint run_steps (others : nat -> nat -> W -> W) (k : nat)
    (steps : list (string * ((nat -> W -> W) -> W -> W * option error))) (w : W) : W * option error :=
  match steps with
  | [] => (w, None)
  | (name, run) :: steps' =>
      match run (others k) w with
      | (w, Some err) => (w, Some (ErrWrap (name +:+ ": ") err ""))
      | (w, None) => run_steps others (S k) steps' w
      end
  end.

Definition purgeAll (conn : option error) (others : nat -> nat -> W -> W) (w : W) : W * option error :=
  match conn with
  | Some err => (w, Some err)
  | None => run_steps others 0 purge_steps w
  end.

(** [DBLogger.prune] on the connection: the DELETE with the number of deleted
    rows, then the wipe when there were any. *)
Definition prune_wipe (conn : option error) (deleted : W -> W * (error + Z)) (others : nat -> W -> W) (w : W)
    : W * bool :=
  match conn with
  | Some _ => (w, false)
  | None =>
      match deleted w with
      | (w, inl _) => (w, false)
      | (w, inr n) => if (n =? 0)%Z then (w, false) else (wi_world (wipeWAL others w), true)
      end
  end.

(** [wipeWALOrWarn]: the error that [warnWipe] logs. *)
Definition wipeWALOrWarn (conn : option error) (others : nat -> W -> W) (w : W) : W * option error :=
  match conn with
  | Some err => (w, Some err)
  | None => let r := wipeWAL others w in (wi_world r, wi_err r)
  end.
End wipe.

(** ** The order of the wipe *)

Section wipe_lemmas.
Context {W : Type} `{HC : !SqliteConn W} `{HL : !SqliteLaws W}.


(** A purge runs its steps in order and stops at the first that fails, whose
    name is in the error; without an error every step was run. *)
Theorem purge_all_order (others : nat -> nat -> W -> W) (w : W) :
  match purgeAll None others w with
  | (_, None) => exists w1 w2 w3 w4 w5,
      exec_step "DELETE FROM queries" (others 0%nat) w = (w1, None) /\
      exec_step "DELETE FROM sqlite_sequence WHERE name = 'queries'" (others 1%nat) w1 = (w2, None) /\
      wipe_step (others 2%nat) w2 = (w3, None) /\ exec_step "VACUUM" (others 3%nat) w3 = (w4, None) /\
      wipe_step (others 4%nat) w4 = (w5, None)
  | (w', Some e) => exists k name run wk err,
      purge_steps !! k = Some (name, run) /\ e = ErrWrap (name +:+ ": ") err "" /\
      run (others k) wk = (w', Some err) /\ run_steps others 0 (take k purge_steps) w = (wk, None)
  end.
Proof.
  unfold purgeAll.
  assert (forall steps k w, match run_steps others k steps w with
    | (_, None) => True
    | (w', Some e) => exists j name run wk err, steps !! j = Some (name, run) /\
        e = ErrWrap (name +:+ ": ") err "" /\ run (others (k + j)%nat) wk = (w', Some err) /\
        run_steps others k (take j steps) w = (wk, None)
    end) as Hfail.
  { induction steps as [|[name run] steps IH]; intros k w0; [done |]. cbn [run_steps].
    destruct (run (others k) w0) as [w1 [err|]] eqn:Hr.
    - exists 0%nat, name, run, w0, err. rewrite Nat.add_0_r. done.
    - specialize (IH (S k) w1). destruct (run_steps others (S k) steps w1) as [w2 [e|]]; [|done].
      destruct IH as (j & name' & run' & wk & err & H1 & H2 & H3 & H4).
      exists (S j), name', run', wk, err. rewrite Nat.add_succ_r. split_and!; try done.
      cbn [take run_steps]. by rewrite Hr. }
  specialize (Hfail purge_steps 0%nat w).
  destruct (run_steps others 0 purge_steps w) as [w' [e|]] eqn:Hrun; [exact Hfail |].
  unfold purge_steps in Hrun. cbn [run_steps] in Hrun.
  destruct (exec_step _ (others 0%nat) w) as [w1 [?|]] eqn:H1; [done |].
  destruct (exec_step _ (others 1%nat) w1) as [w2 [?|]] eqn:H2; [done |].
  destruct (wipe_step (others 2%nat) w2) as [w3 [?|]] eqn:H3; [done |].
  destruct (exec_step _ (others 3%nat) w3) as [w4 [?|]] eqn:H4; [done |].
  destruct (wipe_step (others 4%nat) w4) as [w5 [?|]] eqn:H5; [done |].
  exists w1, w2, w3, w4, w5. done.
Qed.
End wipe_lemmas.

(** ** A database file with its WAL *)

Module WipeExamples.
(** The frames in the WAL and those already in the database file, the data
    version, the write lock, and the frames that an overwrite destroyed before
    they were in the database file. *)
Record world := mkWorld { frames : nat; in_db : nat; version : Z; lock : bool; lost : nat }.

#[local] Instance conn : SqliteConn world := {
  sql_exec q w :=
    if (q =? "BEGIN IMMEDIATE")%string then (mkWorld (frames w) (in_db w) (version w) true (lost w), None)
    else if (q =? "ROLLBACK")%string then (mkWorld (frames w) (in_db w) (version w) false (lost w), None)
    else (w, None);
  wal_checkpoint_restart w :=
    (mkWorld (frames w) (frames w) (version w) (lock w) (lost w), inr (0%Z, Z.of_nat (frames w), Z.of_nat (frames w)));
  data_version w := (w, inr (version w));
  zero_wal w := (mkWorld 0 0 (version w) (lock w) (lost w + (frames w - in_db w)), None);
}.

Definition commit (w : world) : world :=
  if lock w then w else mkWorld (S (frames w)) (in_db w) (version w + 1) (lock w) (lost w).

#[local, refine] Instance laws : SqliteLaws world := {
  copied w := frames w = in_db w;
  ver := version;
  locked w := lock w = true;
  other w w' := w' = w \/ w' = commit w;
  other_ver := _; other_copied := _; other_locked := _;
  checkpoint_copied := _; data_version_reads := _; begin_locks := _;
}.
Proof.
  - intros w w' [-> | ->]; unfold commit; [lia |]. destruct (lock w); simpl; lia.
  - intros w w' [-> | ->]; unfold commit; [done |]. destruct (lock w); simpl; [done | lia].
  - intros w w' [-> | ->] Hl; [done |]. unfold commit. by rewrite Hl.
  - intros w w' n [= <- _]. done.
  - intros w w' v [= -> ->]. done.
  - intros w w' [= <-]. done.
Defined.

(** A commit of another process before the checkpoint, or while the lock is
    asked for. *)
Definition writer_at (k : nat) : nat -> world -> world := fun i w => if (i =? k)%nat then commit w else w.


(** A commit between the checkpoint and the first reading of the data version
    is not seen: its frame is overwritten before it is in the database file,
    and the wipe reports success. *)
Example wipe_misses_commit :
  let r := wipeWAL (writer_at 1) (mkWorld 3 1 7 false 0) in
  wi_err r = None /\ wi_truncated r = true /\ lost (wi_world r) = 1%nat /\
  exists wz, wi_zeroed r = Some wz /\ ~ copied wz.
Proof. vm_compute. split_and!; try reflexivity. eexists. split; [reflexivity | discriminate]. Qed.

(** In every other window it is seen, or is safe. *)
Example wipe_sees_commit :
  map (fun k => lost (wi_world (wipeWAL (writer_at k) (mkWorld 3 1 7 false 0)))) [0; 2; 3; 4; 5; 6]%nat
  = [0; 0; 0; 0; 0; 0]%nat.
Proof. vm_compute. reflexivity. Qed.
End WipeExamples.
