(* ===== verification/StaleRows.v ===== *)
(** * The stored history (internal/querylog/db.go, logger.go)

    The migration of an older database, the check for rows that hold more than
    the current settings would write, the top blocked domains of the database,
    and the fan-out to both loggers. *)

From stdpp Require Import base numbers list gmap sets strings sorting.
From Stdlib Require Import Ascii ZArith Lia.
From S2P Require Import Prelude GoStrings GoConv GoNet Redact QueryLog QueryReads Timeline Stats.

Open Scope string_scope.

(** ** Migration *)

(** A queries table as the migration sees it: its columns, and of each row the
    text of the time and the domain. *)
Record table := mkTable { t_columns : list string; t_rows : list (string * string) }.

(** SQLite's [strftime] to UTC: [None] is NULL. *)
Class Strftime := strftime_utc : string -> option string.

(** [ensureColumn]: the ALTER runs only when the column is missing. *)
Definition ensureColumn (column : string) (t : table) : table :=
  if bool_decide (column ∈ t_columns t) then t else mkTable (t_columns t ++ [column])%list (t_rows t).

Definition migrated_columns : list string := ["cache_hit"; "rcode"; "synthesized"; "block_source"].

(** [ts NOT LIKE '%Z' AND strftime(...) IS NOT NULL]: LIKE ignores the case. *)
Definition ends_z (ts : string) : bool := has_suffix ts "Z" || has_suffix ts "z".

Definition utc_ts `{Strftime} (ts : string) : string :=
  if ends_z ts then ts else match strftime_utc ts with Some ts' => ts' | None => ts end.

(** SQLite's [lower] folds ASCII letters. *)
Definition migrate_row `{Strftime} (r : string * string) : string * string :=
  (utc_ts (fst r), if (snd r =? ascii_lower (snd r))%string then snd r else ascii_lower (snd r)).

Definition migrate `{Strftime} (t : table) : table :=
  let t := fold_left (fun t c => ensureColumn c t) migrated_columns t in
  mkTable (t_columns t) (map migrate_row (t_rows t)).

(** ** Rows that hold more than the settings would write *)

(** The conditions of the query, joined with OR. *)
Inductive stale_cond := StaleAll | StaleAllowed | StaleHasClient | StaleClientIn (clients : list string).

Definition stale_holds (r : QRecord) (c : stale_cond) : bool :=
  match c with
  | StaleAll => true
  | StaleAllowed => negb (RBlocked r)
  | StaleHasClient => negb (ClientIP r =? "")%string
  | StaleClientIn l => existsb (fun a => (ClientIP r =? a)%string) l
  end.

(** [unmaskedClients]: the distinct clients that masking would change. *)
Definition unmaskedClients (rows : list db_entry) : list string :=
  List.filter (fun c => negb (MaskClientIP c "subnet" =? c)%string)
    (List.filter (fun c => negb (c =? "")%string)
       (elements (list_to_set (C := gset string) (map (fun e => ClientIP (snd e)) rows)))).

Record StaleReport := mkStale {
  st_Rows : Z;
  st_Newest : option Z;
  st_Expires : option Z;
}.

Definition no_stale : StaleReport := mkStale 0 None None.

Definition stale_conds (logQueries clients : string) (rows : list db_entry) : list stale_cond :=
  ((if (logQueries =? "none")%string then [StaleAll]
    else if (logQueries =? "blocked")%string then [StaleAllowed] else []) ++
   (if (clients =? "drop")%string || (clients =? "")%string then [StaleHasClient]
    else if (clients =? "subnet")%string then
      match unmaskedClients rows with [] => [] | l => [StaleClientIn l] end
    else []))%list.

Definition is_stale (conds : list stale_cond) (e : db_entry) : bool := existsb (stale_holds (snd e)) conds.

(** [MAX(ts)] of some rows, in seconds. *)
Definition max_ts (rows : list db_entry) : option Z :=
  match map (fun e => rfc3339 (fst e)) rows with
  | [] => None
  | t :: l => Some (fold_left Z.max l t)
  end.

(** [StaleRows]; the errors are those of its two queries. A time is in seconds;
    the retention period wraps around as in [prune]. *)
Definition StaleRows (logQueries clients : string) (retentionDays : Z) (rows : list db_entry)
    (clients_err query_err : option error) : StaleReport * option error :=
  match (if (clients =? "subnet")%string then clients_err else None) with
  | Some err => (no_stale, Some err)
  | None =>
      match stale_conds logQueries clients rows with
      | [] => (no_stale, None)
      | conds =>
          match query_err with
          | Some err => (no_stale, Some err)
          | None =>
              let stale := List.filter (is_stale conds) rows in
              match max_ts stale with
              | None => (no_stale, None)
              | Some newest =>
                  (mkStale (lenZ stale) (Some newest)
                     (if (0 <? retentionDays)%Z
                      then Some (newest + Z.quot (wrap_s (wrap_s (wrap_s retentionDays * 24) * hour)) second)%Z else None),
                   None)
              end
          end
      end
  end.

(** ** The top blocked domains *)

(** [GROUP BY domain]. *)
Definition blocked_counts (rows : list db_entry) : gmap string Z :=
  fold_left (fun m e => if RBlocked (snd e) then tally_add m (Domain (snd e)) else m) rows ∅.

(** [ORDER BY cnt DESC, domain ASC LIMIT n]; a negative limit is none. *)
Definition TopBlocked (rows : list db_entry) (n : Z) : list Entry :=
  let l := merge_sort entry_le (map to_entry (map_to_list (blocked_counts rows))) in
  if (n <? 0)%Z then l else take (Z.to_nat n) l.

(** ** Both loggers *)

Inductive Logger :=
  | LFile (l : FileLogger)
  | LDB (d : DBLogger)
  | LMulti (loggers : list Logger).

(** [Log] of each kind, with the time as each writes it. *)
Fixpoint Logger_Log (l : Logger) (now : Z) (now_text : string) (rec : QRecord) : Logger :=
  match l with
  | LFile f => LFile (FileLogger_Log f now_text rec)
  | LDB d => LDB (DBLogger_Log d now rec)
  | LMulti ls => LMulti (map (fun l => Logger_Log l now now_text rec) ls)
  end.

(** ** Lemmas *)

Lemma ensureColumn_has c t : c ∈ t_columns (ensureColumn c t).
Proof.
  unfold ensureColumn. case_bool_decide; [done |]. simpl. apply elem_of_app. right. left.
Qed.

Lemma ensureColumn_keeps c t x : x ∈ t_columns t -> x ∈ t_columns (ensureColumn c t).
Proof. unfold ensureColumn. case_bool_decide; [done |]. simpl. intros ?. apply elem_of_app. by left. Qed.

Lemma ensureColumn_present c t : c ∈ t_columns t -> ensureColumn c t = t.
Proof. intros Hc. unfold ensureColumn. by rewrite bool_decide_eq_true_2. Qed.

Lemma ensure_all_has cols t c :
  c ∈ cols \/ c ∈ t_columns t -> c ∈ t_columns (fold_left (fun t c => ensureColumn c t) cols t).
Proof.
  revert t. induction cols as [|x cols IH]; intros t [Hc|Hc]; cbn [fold_left];
    [by apply elem_of_nil in Hc | done | |].
  - apply elem_of_cons in Hc as [->|Hc]; apply IH; [right; apply ensureColumn_has | by left].
  - apply IH. right. by apply ensureColumn_keeps.
Qed.

Lemma ensure_all_present cols t :
  (forall c, c ∈ cols -> c ∈ t_columns t) -> fold_left (fun t c => ensureColumn c t) cols t = t.
Proof.
  induction cols as [|c cols IH]; intros Hc; [done |]. cbn [fold_left].
  rewrite ensureColumn_present by (apply Hc; left). apply IH. intros x Hx. apply Hc. by right.
Qed.

Lemma ensure_all_rows cols t : t_rows (fold_left (fun t c => ensureColumn c t) cols t) = t_rows t.
Proof.
  revert t. induction cols as [|c cols IH]; intros t; [done |]. cbn [fold_left]. rewrite IH.
  unfold ensureColumn. by case_bool_decide.
Qed.

(** The migration gives the table every column of the current schema, once
    each when they were so before, keeps the rows and their number, and is
    idempotent: a migrated table is not changed again. The time of a row that
    SQLite cannot read stays as it is. *)
Theorem migrate_idempotent `{Strftime} (t : table)
  (Hutc : forall ts ts', strftime_utc ts = Some ts' -> ends_z ts' = true) :
  let t' := migrate t in
  (forall c, c ∈ migrated_columns \/ c ∈ t_columns t -> c ∈ t_columns t') /\
  length (t_rows t') = length (t_rows t) /\
  migrate t' = t' /\
  (forall i ts d, t_rows t !! i = Some (ts, d) -> strftime_utc ts = None ->
     t_rows t' !! i = Some (ts, ascii_lower d)).
Proof.
  assert (forall d, (if (d =? ascii_lower d)%string then d else ascii_lower d) = ascii_lower d) as Hlow.
  { intros d. by destruct (String.eqb_spec d (ascii_lower d)). }
  assert (forall ts, utc_ts (utc_ts ts) = utc_ts ts) as Hts.
  { intros ts. unfold utc_ts at 2 3. destruct (ends_z ts) eqn:He; [unfold utc_ts; by rewrite He |].
    destruct (strftime_utc ts) as [ts'|] eqn:Hs.
    - unfold utc_ts. by rewrite (Hutc ts ts' Hs).
    - unfold utc_ts. by rewrite He, Hs. }
  unfold migrate. cbn [t_columns t_rows]. split_and!.
  - intros c Hc. by apply ensure_all_has.
  - by rewrite length_map, ensure_all_rows.
  - rewrite ensure_all_present; [| intros c Hc; apply ensure_all_has; by left]. cbn [t_columns t_rows]. f_equal.
    rewrite map_map. apply map_ext. intros [ts d]. unfold migrate_row. cbn [fst snd].
    by rewrite Hts, !Hlow, ascii_lower_idem.
  - intros i ts d Hi Hs. rewrite ensure_all_rows, list_lookup_fmap, Hi. cbn [fmap option_fmap option_map].
    unfold migrate_row. cbn [fst snd]. rewrite Hlow. unfold utc_ts. rewrite Hs. by case_match.
Qed.

Lemma unmasked_spec rows c :
  existsb (fun a => (c =? a)%string) (unmaskedClients rows) = true <->
  (exists e, e ∈ rows /\ ClientIP (snd e) = c) /\ c <> "" /\ MaskClientIP c "subnet" <> c.
Proof.
  rewrite existsb_exists. unfold unmaskedClients. setoid_rewrite filter_In. setoid_rewrite filter_In.
  setoid_rewrite <- list_elem_of_In. setoid_rewrite elem_of_elements. setoid_rewrite elem_of_list_to_set.
  setoid_rewrite list_elem_of_fmap. setoid_rewrite negb_true_iff.
  setoid_rewrite String.eqb_neq. setoid_rewrite String.eqb_eq. naive_solver.
Qed.

(** C29. A stored row counts as stale exactly when the loggers, under the current
    settings, would not have written it as it is: the mode does not record
    such a query, or masking would change the client. *)
Theorem stale_rows_exact (logQueries clients : string) (retentionDays : Z) (rows : list db_entry)
  (Hclients : clients ∈ ["drop"; "subnet"; "full"]) :
  let '(rep, err) := StaleRows logQueries clients retentionDays rows None None in
  err = None /\
  st_Rows rep = lenZ (List.filter (fun e =>
    negb (log_wanted logQueries (RBlocked (snd e)) &&
          (MaskClientIP (ClientIP (snd e)) clients =? ClientIP (snd e))%string)) rows) /\
  (st_Newest rep = None <-> st_Rows rep = 0%Z).
Proof.
  set (wrong := fun e : Z * QRecord => negb (log_wanted logQueries (RBlocked (snd e)) &&
          (MaskClientIP (ClientIP (snd e)) clients =? ClientIP (snd e))%string)).
  assert (forall e, e ∈ rows -> is_stale (stale_conds logQueries clients rows) e = wrong e) as Hstale.
  { intros e He. unfold is_stale, stale_conds. rewrite existsb_app.
    assert (existsb (stale_holds (snd e)) (if (logQueries =? "none")%string then [StaleAll]
      else if (logQueries =? "blocked")%string then [StaleAllowed] else []) =
      negb (log_wanted logQueries (RBlocked (snd e)))) as ->.
    { unfold log_wanted. destruct (logQueries =? "none")%string; [done |].
      destruct (logQueries =? "blocked")%string; [|done]. cbn. by destruct (RBlocked (snd e)). }
    unfold wrong. rewrite negb_andb. f_equal.
    rewrite !elem_of_cons, elem_of_nil in Hclients.
    destruct Hclients as [-> | [-> | [-> | []]]]; cbn -[MaskClientIP unmaskedClients].
    - rewrite orb_false_r. unfold MaskClientIP. cbn. by destruct (ClientIP (snd e)).
    - pose proof (unmasked_spec rows (ClientIP (snd e))) as Hu.
      assert (existsb (stale_holds (snd e)) match unmaskedClients rows with
              | [] => [] | l => [StaleClientIn l] end =
              existsb (fun a => (ClientIP (snd e) =? a)%string) (unmaskedClients rows)) as ->.
      { destruct (unmaskedClients rows); [done |]. cbn [existsb stale_holds]. by rewrite orb_false_r. }
      destruct (String.eqb_spec (MaskClientIP (ClientIP (snd e)) "subnet") (ClientIP (snd e))) as [Hm|Hm]; cbn [negb].
      + apply not_true_iff_false. rewrite Hu. naive_solver.
      + apply Hu. split_and!; [by exists e | | done]. intros Hc. apply Hm. by rewrite Hc.
    - unfold MaskClientIP. cbn. by rewrite String.eqb_refl. }
  assert (List.filter (is_stale (stale_conds logQueries clients rows)) rows = List.filter wrong rows) as Hf.
  { apply filter_ext_in. intros e He. apply Hstale. by apply list_elem_of_In. }
  unfold StaleRows.
  assert ((if (clients =? "subnet")%string then @None error else None) = None) as -> by by case_match.
  destruct (stale_conds logQueries clients rows) as [|c l] eqn:Hc.
  - split_and!; [done | | done]. cbn [st_Rows no_stale]. rewrite <- Hf. symmetry. unfold lenZ.
    clear. induction rows as [|e rows IH]; [done |]. exact IH.
  - rewrite Hf. unfold max_ts. destruct (List.filter wrong rows) as [|e f]; [done |].
    cbn [map]. split_and!; [done | done |]. cbn [st_Rows st_Newest]. unfold lenZ. cbn [length].
    split; [done | lia].
Qed.

Lemma count_rows_snoc f e rows :
  count_rows f (rows ++ [e])%list = (count_rows f rows + (if f e then 1 else 0))%Z.
Proof.
  unfold count_rows. rewrite List.filter_app, lenZ_app. cbn [List.filter]. by destruct (f e).
Qed.

Definition blocked_rows (rows : list db_entry) (d : string) : Z :=
  count_rows (fun r => RBlocked (snd r) && (Domain (snd r) =? d)%string) rows.

Lemma blocked_counts_spec rows d :
  blocked_counts rows !! d = if (0 <? blocked_rows rows d)%Z then Some (blocked_rows rows d) else None.
Proof.
  induction rows as [|e rows IH] using rev_ind; [done |].
  assert (blocked_counts (rows ++ [e])%list =
    if RBlocked (snd e) then tally_add (blocked_counts rows) (Domain (snd e)) else blocked_counts rows) as ->
    by (unfold blocked_counts; by rewrite fold_left_app).
  assert (blocked_rows (rows ++ [e])%list d =
    blocked_rows rows d + (if RBlocked (snd e) && (Domain (snd e) =? d)%string then 1 else 0))%Z as ->
    by apply count_rows_snoc.
  assert (0 <= blocked_rows rows d)%Z as Hpos by apply lenZ_nonneg.
  destruct (RBlocked (snd e)); cbn [andb]; [|by rewrite Z.add_0_r].
  unfold tally_add. destruct (String.eqb_spec (Domain (snd e)) d) as [Hd|Hd]; [subst d |].
  - rewrite lookup_insert_eq, IH.
    destruct (Z.ltb_spec 0 (blocked_rows rows (Domain (snd e)))),
      (Z.ltb_spec 0 (blocked_rows rows (Domain (snd e)) + 1)); cbn [default]; f_equal; lia.
  - by rewrite lookup_insert_ne, Z.add_0_r.
Qed.

(** The top blocked domains: each listed domain with its number of blocked
    rows, most first, equal counts in order of the name, and no domain that is
    left out comes before a listed one. *)
Theorem top_blocked_spec (rows : list db_entry) (n : Z) :
  let top := TopBlocked rows n in
  StronglySorted entry_le top /\
  lenZ top = (if (n <? 0)%Z then Z.of_nat (size (blocked_counts rows))
              else Z.min n (Z.of_nat (size (blocked_counts rows)))) /\
  (forall e, e ∈ top -> e_Count e = blocked_rows rows (e_Name e) /\ (0 < e_Count e)%Z) /\
  (forall e d, e ∈ top -> (0 < blocked_rows rows d)%Z -> mkTop d (blocked_rows rows d) ∉ top ->
     entry_le e (mkTop d (blocked_rows rows d))).
Proof.
  unfold TopBlocked. fold (sorted_entries (map_to_list (blocked_counts rows))).
  destruct (sorted_entries_spec (blocked_counts rows) (map_to_list (blocked_counts rows))) as (Hs & Hlen & Hin);
    [apply iterates_refl |].
  set (l := sorted_entries _) in *.
  assert (exists k, (if (n <? 0)%Z then l else take (Z.to_nat n) l) = take k l /\
    lenZ (take k l) = (if (n <? 0)%Z then Z.of_nat (size (blocked_counts rows))
              else Z.min n (Z.of_nat (size (blocked_counts rows))))) as (k & -> & Htop).
  { unfold lenZ. destruct (Z.ltb_spec n 0);
      [exists (length l); rewrite firstn_all | exists (Z.to_nat n)]; (split; [done |]; rewrite ?length_take; lia). }
  split_and!; [| done | |].
  - rewrite <- (take_drop k l) in Hs. by apply StronglySorted_app in Hs as (_ & Hs & _).
  - intros [d v] He. assert (mkTop d v ∈ l) as Hl by (rewrite <- (take_drop k l); apply elem_of_app; by left).
    apply Hin in Hl. rewrite blocked_counts_spec in Hl. cbn [e_Name e_Count].
    destruct (Z.ltb_spec 0 (blocked_rows rows d)); [|done]. by injection Hl as <-.
  - intros e d He Hd Hn. eapply sorted_prefix; [done | done | | done].
    apply Hin. rewrite blocked_counts_spec. apply Z.ltb_lt in Hd. by rewrite Hd.
Qed.

Module StaleExamples.
#[local] Instance to_utc : Strftime := fun ts => if (ts =? "2024-05-01T02:00:00+02:00")%string then Some "2024-05-01T00:00:00Z" else None.

Lemma migrate_idempotent_witness :
  migrate (migrate (mkTable ["ts"; "domain"; "rcode"] [("2024-05-01T02:00:00+02:00", "A.Example"); ("bad", "x")]))
  = mkTable ["ts"; "domain"; "rcode"; "cache_hit"; "synthesized"; "block_source"]
      [("2024-05-01T00:00:00Z", "a.example"); ("bad", "x")].
Proof.
  destruct (migrate_idempotent (mkTable ["ts"; "domain"; "rcode"]
    [("2024-05-01T02:00:00+02:00", "A.Example"); ("bad", "x")])) as (_ & _ & Hm & _).
  - intros ts ts'. unfold strftime_utc, to_utc. case_match; [|done]. intros [= <-]. reflexivity.
  - etransitivity; [exact Hm |]. vm_compute. reflexivity.
Defined.

Definition row (c d : string) (b : bool) : db_entry := (5000000000%Z, mkRecord c d b false 0 false BlockedByName).

Lemma stale_rows_exact_witness :
  st_Rows (fst (StaleRows "blocked" "subnet" 7
    [row "192.168.1.0" "a" true; row "192.168.1.7" "a" true; row "" "b" false; row "fe80::1%e" "b" true] None None)) = 3%Z.
Proof.
  pose proof (stale_rows_exact "blocked" "subnet" 7
    [row "192.168.1.0" "a" true; row "192.168.1.7" "a" true; row "" "b" false; row "fe80::1%e" "b" true]) as Hs.
  destruct (StaleRows _ _ _ _ _ _) as [rep err]. destruct Hs as (_ & Hr & _).
  - right. left.
  - cbn [fst]. rewrite Hr. vm_compute. reflexivity.
Defined.
End StaleExamples.
