(* ===== verification/LogFiles.v ===== *)
(** * The files of the query log (internal/querylog/db.go, logger.go, cmd/s-hole/umask_unix.go)

    How the loggers open and close their files: who can read them, in which
    order a database is prepared, opened and initialised, and what an error
    leaves behind. The file system is a map of paths to permission bits; what
    its calls and SQLite answer is the record [OpenEnv]. What the loggers write
    is in [QueryLog], the overwriting of the write-ahead log in [WipeWAL]. *)

From stdpp Require Import base numbers list gmap strings.
From Stdlib Require Import ZArith Lia.
From S2P Require Import Prelude.
From S2P Require Import GoStrings.
From S2P Require Import GoConv.
From S2P Require Import StaleRows.

Open Scope string_scope.

(** ** Permissions *)

(** 0600, and the bits of the group and of the others. *)
Definition owner_only : Z := 384.
Definition others : Z := 63.

Definition private (mode : Z) : Prop := Z.land mode others = 0%Z.

Abbreviation Modes := (gmap string Z).

(** [restrictUmask]: 0077, on Windows the umask stays. *)
Definition restrictUmask (windows : bool) (umask : Z) : Z := if windows then umask else others.

(** ** Steps that can fail *)

(** The statements of a start: the pragmas, the schema, one added column, the
    two conversions of old rows. *)
Inductive stmt := SPragmas | SSchema | SColumn (name : string) | SConvertTs | SLowerDomain.

Inductive effect :=
  | EOpen (path : string)
  | EWarnMode (path err : string)
  | EConnect
  | EOneConnection
  | EExec (s : stmt)
  | EStdout
  | EWipe
  | EStartWriter
  | EStartPrune
  | EStopWriter
  | ECloseDB
  | ECloseFile.

(** What the calls answer: the error of opening a file, of closing it, of
    [Chmod] on a file that is there, of [sql.Open] and of a statement; the umask;
    the errors of the last closes. *)
Record OpenEnv := mkOpenEnv {
  oe_umask : Z;
  oe_open : string -> option string;
  oe_close : string -> option string;
  oe_chmod : string -> option string;
  oe_connect : option string;
  oe_exec : stmt -> option string;
  oe_db_close : option string;
}.

(** A step leaves effects and modes, and a value or the text of an error. *)
Definition Step (A : Type) : Type := Modes -> list effect * Modes * (string + A).

Definition ok {A} (x : A) : Step A := fun fs => ([], fs, inr x).
Definition fail_ {A} (e : string) : Step A := fun fs => ([], fs, inl e).
Definition did (e : effect) : Step unit := fun fs => ([e], fs, inr tt).

Definition and_then {A B} (m : Step A) (k : A -> Step B) : Step B := fun fs =>
  let '(l, fs, r) := m fs in
  match r with
  | inl e => (l, fs, inl e)
  | inr x => let '(l', fs, r) := k x fs in ((l ++ l')%list, fs, r)
  end.

Declare Scope step_scope.
Notation "'let!' x := m 'in' k" := (and_then m (fun x => k)) (at level 10, x pattern, m at level 100, k at level 200) : step_scope.
Notation "m ;> k" := (and_then m (fun _ => k)) (at level 60, right associativity) : step_scope.
Local Open Scope step_scope.

(** The error of a call, if any, with what the caller puts in front. *)
Definition check_err (err : option string) (wrap : string -> string) : Step unit :=
  match err with Some e => fail_ (wrap e) | None => ok tt end.

Section Open.
Variable env : OpenEnv.

(** [os.OpenFile] with [O_CREATE] and 0600: a new file gets the mode without the
    bits of the umask, an existing one keeps its own. *)
Definition open_file (path : string) : Step unit := fun fs =>
  match oe_open env path with
  | Some e => ([], fs, inl e)
  | None => ([EOpen path], match fs !! path with Some _ => fs | None => <[path := Z.ldiff owner_only (oe_umask env)]> fs end, inr tt)
  end.

(** [Chmod] to 0600, and the warning that a caller logs when it fails on a file
    that is there. *)
Definition tighten (path : string) : Step unit := fun fs =>
  match fs !! path with
  | None => ([], fs, inr tt)
  | Some _ =>
      match oe_chmod env path with
      | Some e => ([EWarnMode path e], fs, inr tt)
      | None => ([], <[path := owner_only]> fs, inr tt)
      end
  end.

Definition db_files (path : string) : list string := [path; path +:+ "-wal"; path +:+ "-shm"].

Fixpoint tighten_all (paths : list string) : Step unit :=
  match paths with [] => ok tt | p :: paths' => tighten p ;> tighten_all paths' end.

Definition preparePrivateDB (path : string) : Step unit :=
  open_file path ;> check_err (oe_close env path) id ;> tighten_all (db_files path).

(** SQLite creates a missing -wal or -shm file with the mode of the database. *)
Definition sqlite_files (path : string) : Step unit := fun fs =>
  match fs !! path with
  | None => ([], fs, inr tt)
  | Some m =>
      ([], fold_right (fun p fs => match fs !! p with Some _ => fs | None => <[p := m]> fs end) fs
             [path +:+ "-wal"; path +:+ "-shm"], inr tt)
  end.

(** A statement. On an error the caller closes the database, and puts the name
    of the step in front. *)
Definition exec_or_close (what : string) (s : stmt) : Step unit :=
  did (EExec s) ;>
  (match oe_exec env s with
   | Some e => did ECloseDB ;> fail_ (what +:+ ": " +:+ e)
   | None => ok tt
   end).

Fixpoint exec_all (l : list (string * stmt)) : Step unit :=
  match l with [] => ok tt | (what, s) :: l' => exec_or_close what s ;> exec_all l' end.

(** The statements of [migrate]. A column that is there is not added: its
    statement is then only the question. *)
Definition migrate_stmts : list stmt := (map SColumn migrated_columns ++ [SConvertTs; SLowerDomain])%list.

(** The statements of a start, each with the step that its error names. *)
Definition start_stmts : list (string * stmt) :=
  ("pragmas", SPragmas) :: ("schema", SSchema) :: map (fun s => ("migrate", s)) migrate_stmts.

Definition NewDBLogger (path : string) (flushInterval retentionDays : Z) : Step unit :=
  if (flushInterval <=? 0)%Z then fail_ ("flush interval must be positive, got " +:+ Duration_String flushInterval)
  else
    (fun fs => match preparePrivateDB path fs with
               | (l, fs, inl e) => (l, fs, inl ("create db: " +:+ e))
               | x => x
               end) ;>
    check_err (oe_connect env) (fun e => "open db: " +:+ e) ;>
    did EConnect ;>
    did EOneConnection ;>
    sqlite_files path ;>
    exec_all start_stmts ;>
    did EWipe ;>
    did EStartWriter ;>
    (if (0 <? retentionDays)%Z then did EStartPrune else ok tt).

Definition OpenPrivateFile (path : string) : Step unit := open_file path ;> tighten path.

(** [NewFileLogger]: the path of the file, empty for standard output. *)
Definition NewFileLogger (dest : string) : Step string :=
  if (dest =? "stdout")%string then did EStdout ;> did EStartWriter ;> ok ""
  else OpenPrivateFile dest ;> did EStartWriter ;> ok dest.

(** The two [Close]: the writer takes what is queued and ends, then the files are
    closed; standard output stays open. *)
Definition DBLogger_Close : Step unit :=
  did EStopWriter ;> did EWipe ;> did ECloseDB ;> check_err (oe_db_close env) id.

Definition FileLogger_Close (path : string) : Step unit :=
  did EStopWriter ;> (if (path =? "")%string then ok tt else did ECloseFile ;> check_err (oe_close env path) id).

(** ** Who can read the files *)

Lemma step_ok {A B} (m : Step A) (k : A -> Step B) fs l fs1 x :
  m fs = (l, fs1, inr x) -> and_then m k fs = ((l ++ fst (fst (k x fs1)))%list, snd (fst (k x fs1)), snd (k x fs1)).
Proof. unfold and_then. intros ->. by destruct (k x fs1) as [[? ?] ?]. Qed.

Lemma step_fails {A B} (m : Step A) (k : A -> Step B) fs l fs1 e :
  m fs = (l, fs1, inl e) -> and_then m k fs = (l, fs1, inl e).
Proof. unfold and_then. by intros ->. Qed.

Definition is_warn (e : effect) : Prop := exists p err, e = EWarnMode p err.

Lemma owner_only_private umask : private (Z.ldiff owner_only umask).
Proof.
  unfold private, owner_only, others. apply Z.bits_inj'. intros n Hn. rewrite Z.land_spec, Z.ldiff_spec, Z.bits_0.
  assert (Z.testbit 384 n && Z.testbit 63 n = false) as E by (rewrite <- Z.land_spec; apply Z.bits_0).
  destruct (Z.testbit 384 n), (Z.testbit 63 n); try done; by rewrite andb_false_r.
Qed.

Lemma tighten_spec path fs :
  exists warns fs', tighten path fs = (warns, fs', inr tt) /\ Forall is_warn warns /\
    (forall p, p <> path -> fs' !! p = fs !! p) /\
    (forall m, fs' !! path = Some m -> private m \/ (fs !! path = Some m /\ exists e, EWarnMode path e ∈ warns)) /\
    (fs' !! path = None -> fs !! path = None).
Proof.
  unfold tighten. destruct (fs !! path) eqn:E; [|exists [], fs; split_and!; [done | constructor | done | congruence | done]].
  destruct (oe_chmod env path) as [e|].
  - exists [EWarnMode path e], fs. split_and!; [done | apply Forall_singleton; by do 2 eexists | done | | congruence].
    intros m Hm. right. split; [congruence |]. exists e. by left.
  - exists [], (<[path := owner_only]> fs). split; [done |]. split; [constructor |]. split; [|split].
    + intros p Hp. by apply lookup_insert_ne, not_eq_sym.
    + intros m. rewrite lookup_insert_eq. intros [= <-]. left. done.
    + by rewrite lookup_insert_eq.
Qed.

Lemma tighten_all_spec paths fs :
  exists warns fs', tighten_all paths fs = (warns, fs', inr tt) /\ Forall is_warn warns /\
    (forall p, p ∉ paths -> fs' !! p = fs !! p) /\
    (forall p m, p ∈ paths -> fs' !! p = Some m -> private m \/ (fs !! p = Some m /\ exists e, EWarnMode p e ∈ warns)) /\
    (forall p, fs' !! p = None -> fs !! p = None).
Proof.
  revert fs. induction paths as [|q paths IH]; intros fs.
  { exists [], fs. split_and!; [done | constructor | done | by intros p m ?%elem_of_nil | done]. }
  destruct (tighten_spec q fs) as (w1 & fs1 & E1 & Hw1 & Hk1 & Hp1 & Hn1).
  destruct (IH fs1) as (w2 & fs2 & E2 & Hw2 & Hk2 & Hp2 & Hn2). exists (w1 ++ w2)%list, fs2. split_and!.
  - cbn [tighten_all]. rewrite (step_ok _ _ _ _ _ _ E1), E2. done.
  - by apply Forall_app_2.
  - intros p. rewrite not_elem_of_cons. intros [Hq Hp]. by rewrite Hk2, Hk1.
  - intros p m Hin Hm. destruct (decide (p ∈ paths)) as [Hp|Hp].
    + destruct (Hp2 p m Hp Hm) as [? | (Hm1 & e & He)]; [by left |]. destruct (decide (p = q)) as [->|Hq].
      * destruct (Hp1 m Hm1) as [? | (? & e' & He')]; [by left | right]. split; [done |]. exists e'. apply elem_of_app. by left.
      * right. rewrite <- (Hk1 p Hq). split; [done |]. exists e. apply elem_of_app. by right.
    + apply elem_of_cons in Hin as [-> | ?]; [|done]. rewrite Hk2 in Hm by done.
      destruct (Hp1 m Hm) as [? | (? & e & He)]; [by left | right]. split; [done |]. exists e. apply elem_of_app. by left.
  - intros p Hp%Hn2. destruct (decide (p = q)) as [->|Hq]; [by apply Hn1 | by rewrite <- Hk1].
Qed.

(** A file that is opened is new and private, or has the mode that it had. *)
Lemma open_file_spec path fs :
  (exists e, open_file path fs = ([], fs, inl e)) \/
  exists fs', open_file path fs = ([EOpen path], fs', inr tt) /\ (forall p, p <> path -> fs' !! p = fs !! p) /\
    exists m, fs' !! path = Some m /\ (fs !! path = Some m \/ fs !! path = None /\ private m).
Proof.
  unfold open_file. destruct (oe_open env path) as [e|]; [left; by exists e | right]. eexists. split; [done |].
  destruct (fs !! path) as [m|] eqn:E; [split; [done |]; exists m; by split; [|left] |].
  split; [intros p Hp; by apply lookup_insert_ne, not_eq_sym |]. eexists. split; [apply lookup_insert_eq |].
  right. split; [done | apply owner_only_private].
Qed.

Lemma exec_all_spec l fs :
  exec_all l fs = (map (fun x => EExec (snd x)) l, fs, inr tt) \/
  exists done_ e, exec_all l fs = ((map EExec done_ ++ [ECloseDB])%list, fs, inl e).
Proof.
  induction l as [|[what s] l IH]; [by left |]. cbn [exec_all]. unfold exec_or_close.
  destruct (oe_exec env s) as [e|] eqn:E.
  - right. exists [s], (what +:+ ": " +:+ e). done.
  - assert ((did (EExec s) ;> ok tt) fs = ([EExec s], fs, inr tt)) as Hs by done.
    rewrite (step_ok _ _ _ _ _ _ Hs). destruct IH as [-> | (d & e & ->)]; [by left | right; by exists (s :: d), e].
Qed.

(** After the preparation, a file of the database is private, or it was there
    with the mode that it has, and a warning names it. *)
Definition kept_warned (fs : Modes) (trace : list effect) (p : string) (m : Z) : Prop :=
  fs !! p = Some m /\ exists e, EWarnMode p e ∈ trace.

Lemma prepare_spec path fs :
  (exists l fs' e, preparePrivateDB path fs = (l, fs', inl e) /\ (forall p, p <> path -> fs' !! p = fs !! p) /\
     EConnect ∉ l /\ EStartWriter ∉ l) \/
  exists warns fs', preparePrivateDB path fs = ((EOpen path :: warns)%list, fs', inr tt) /\ Forall is_warn warns /\
    is_Some (fs' !! path) /\ (forall p, p ∉ db_files path -> fs' !! p = fs !! p) /\
    (forall p m, p ∈ db_files path -> fs' !! p = Some m -> private m \/ kept_warned fs warns p m) /\
    (forall p, fs' !! p = None -> fs !! p = None).
Proof.
  unfold preparePrivateDB. destruct (open_file_spec path fs) as [[e E] | (fs1 & E & Hk1 & m1 & Hm1 & Hnew)].
  { left. exists [], fs, e. rewrite (step_fails _ _ _ _ _ _ E). split_and!; [done | done | by intros ?%elem_of_nil..]. }
  rewrite (step_ok _ _ _ _ _ _ E). destruct (oe_close env path) as [e|]; cbn [check_err].
  { left. eexists _, fs1, e. split; [done |]. split; [done |].
    split; intros [?|?%elem_of_nil]%elem_of_cons; done. }
  destruct (tighten_all_spec (db_files path) fs1) as (warns & fs2 & E2 & Hw & Hk2 & Hp2 & Hnone). right.
  assert ((ok tt ;> tighten_all (db_files path)) fs1 = (warns, fs2, inr tt)) as Hall.
  { unfold ok, and_then. by rewrite E2. }
  cbv beta. rewrite Hall. clear Hall.
  exists warns, fs2. split; [done |]. split; [done |].
  split_and!.
  - destruct (fs2 !! path) eqn:E3; [done |]. apply Hnone in E3. congruence.
  - intros p Hp. rewrite Hk2 by done. apply Hk1. intros ->. apply Hp. by left.
  - intros p m Hin Hm. destruct (Hp2 p m Hin Hm) as [? | (Hm' & He)]; [by left |].
    destruct (decide (p = path)) as [->|Hne]; [|right; by rewrite Hk1 in Hm'].
    assert (m = m1) as -> by congruence. destruct Hnew as [? | [_ ?]]; [by right | by left].
  - intros p Hp. apply Hnone in Hp. destruct (decide (p = path)) as [->|]; [congruence | by rewrite <- Hk1].
Qed.

Lemma sqlite_files_spec path fs m0 :
  fs !! path = Some m0 ->
  exists fs', sqlite_files path fs = ([], fs', inr tt) /\
    (forall p, p ∉ db_files path -> fs' !! p = fs !! p) /\
    (forall p m, p ∈ db_files path -> fs' !! p = Some m -> fs !! p = Some m \/ (fs !! p = None /\ m = m0)).
Proof.
  intros Hm0. unfold sqlite_files. rewrite Hm0. eexists. split; [done |]. cbn [fold_right].
  set (wal := path +:+ "-wal"). set (shm := path +:+ "-shm").
  set (fs1 := match fs !! shm with Some _ => fs | None => <[shm := m0]> fs end).
  assert (forall p, (p <> shm -> fs1 !! p = fs !! p) /\
    (forall m, fs1 !! p = Some m -> fs !! p = Some m \/ (fs !! p = None /\ m = m0))) as H1.
  { intros p. unfold fs1. destruct (fs !! shm) eqn:E; [by split; [|left] |]. split; [intros; by apply lookup_insert_ne, not_eq_sym |].
    intros m. destruct (decide (p = shm)) as [->|Hp]; [rewrite lookup_insert_eq, E; intros [= <-]; by right |].
    rewrite lookup_insert_ne by (by apply not_eq_sym). by left. }
  clearbody fs1. split.
  - intros p Hp. unfold db_files in Hp. rewrite !not_elem_of_cons in Hp. destruct Hp as (_ & Hw & Hs & _).
    rewrite <- (proj1 (H1 p) Hs). destruct (fs1 !! wal); [done |]. by apply lookup_insert_ne, not_eq_sym.
  - intros p m _. destruct (fs1 !! wal) eqn:E; [apply H1 |]. destruct (decide (p = wal)) as [->|Hp].
    + rewrite lookup_insert_eq. intros [= <-]. right. split; [|done].
      destruct (fs !! wal) eqn:Ew; [|done]. destruct (decide (wal = shm)) as [Heq|Hne]; [|by rewrite (proj1 (H1 wal) Hne) in E; congruence].
      exfalso. unfold wal, shm in Heq. apply (inj (String.append path)) in Heq. done.
    + rewrite lookup_insert_ne by (by apply not_eq_sym). apply H1.
Qed.

(** The end of a start: the statements, and then the goroutines. *)
Lemma statements_spec retentionDays fs :
  let m := exec_all start_stmts ;> did EWipe ;> did EStartWriter ;>
           (if (0 <? retentionDays)%Z then did EStartPrune else ok tt) in
  m fs = ((map (fun x => EExec (snd x)) start_stmts ++ [EWipe; EStartWriter]
           ++ if (0 <? retentionDays)%Z then [EStartPrune] else [])%list, fs, inr tt) \/
  exists done_ e, m fs = ((map EExec done_ ++ [ECloseDB])%list, fs, inl e).
Proof.
  cbv zeta. destruct (exec_all_spec start_stmts fs) as [E | (d & e & E)].
  - left. rewrite (step_ok _ _ _ _ _ _ E). by destruct (0 <? retentionDays)%Z.
  - right. exists d, e. by rewrite (step_fails _ _ _ _ _ _ E).
Qed.

(** Who can read the files of the database once SQLite is open: a file is private,
    or it kept the mode that it had, or it is a new side file with the mode that
    the database kept; in the last two cases a warning was logged. *)
Definition db_private (path : string) (fs fs' : Modes) (trace : list effect) : Prop :=
  forall p m, p ∈ db_files path -> fs' !! p = Some m ->
    private m \/ kept_warned fs trace p m \/ (fs !! p = None /\ kept_warned fs trace path m).

Lemma kept_warned_more fs l l' p m : (forall e, e ∈ l -> e ∈ l') -> kept_warned fs l p m -> kept_warned fs l' p m.
Proof. intros Hl (Hm & e & He). split; [done |]. exists e. by apply Hl. Qed.

(** C25. The query history is the owner's alone. Before SQLite reads or writes
    anything, the database, its -wal and its -shm file are private, new or old,
    unless a permission that was there could not be changed, which a warning
    names; no other file changes. A start that succeeds has prepared the files,
    opened one connection, run every statement in order, overwritten a leftover
    write-ahead log, and only then started the writer and, for a positive
    retention, the pruning; one that fails has started no writer, and has
    closed the database if it was open. *)
Theorem query_log_private path flushInterval retentionDays fs :
  let '(trace, fs', r) := NewDBLogger path flushInterval retentionDays fs in
  (forall p, p ∉ db_files path -> fs' !! p = fs !! p) /\
  (EConnect ∈ trace -> db_private path fs fs' trace) /\
  match r with
  | inr _ => exists warns, Forall is_warn warns /\
      trace = (EOpen path :: warns ++ [EConnect; EOneConnection] ++ map (fun x => EExec (snd x)) start_stmts
               ++ [EWipe; EStartWriter] ++ if (0 <? retentionDays)%Z then [EStartPrune] else [])%list
  | inl _ => EStartWriter ∉ trace /\ (EConnect ∈ trace -> exists l, trace = (l ++ [ECloseDB])%list)
  end.
Proof.
  unfold NewDBLogger. destruct (flushInterval <=? 0)%Z.
  { split; [done |]. split; [by intros ?%elem_of_nil |]. split; [|intros ?%elem_of_nil; done]. by intros ?%elem_of_nil. }
  set (prep := fun fs => match preparePrivateDB path fs with (l, fs, inl e) => (l, fs, inl ("create db: " +:+ e)) | x => x end).
  destruct (prepare_spec path fs) as [(l & fs1 & e & E & Hk & Hc & Hw) | (warns & fs1 & E & Hw & [m0 Hm0] & Hk & Hp & Hn)].
  { assert (prep fs = (l, fs1, inl ("create db: " +:+ e))) as E1 by (unfold prep; by rewrite E).
    rewrite (step_fails _ _ _ _ _ _ E1). split; [intros p Hin; apply Hk; intros ->; apply Hin; by left |].
    by split. }
  assert (prep fs = ((EOpen path :: warns)%list, fs1, inr tt)) as E1 by (unfold prep; by rewrite E).
  rewrite (step_ok _ _ _ _ _ _ E1). cbv beta.
  assert (forall e, is_warn e -> e <> EConnect /\ e <> EStartWriter) as Hne by (by intros e (p & err & ->)).
  rewrite Forall_forall in Hw.
  destruct (oe_connect env) as [e|]; cbn [check_err fail_ fst snd and_then].
  { rewrite app_nil_r. split; [done |].
    assert (EConnect ∉ (EOpen path :: warns)%list) as Hc by (intros [?|[? _]%Hw%Hne]%elem_of_cons; done).
    split; [done |]. split; [|done]. intros [?|[_ ?]%Hw%Hne]%elem_of_cons; done. }
  destruct (sqlite_files_spec path fs1 m0 Hm0) as (fs2 & Eq & Hk2 & Hp2).
  set (tail := exec_all start_stmts ;> _) in *.
  assert ((ok tt ;> did EConnect ;> did EOneConnection ;> sqlite_files path ;> tail) fs1 =
    (([EConnect; EOneConnection] ++ fst (fst (tail fs2)))%list, snd (fst (tail fs2)), snd (tail fs2))) as Et.
  { unfold ok, did, and_then. rewrite Eq. by destruct (tail fs2) as [[? ?] ?]. }
  rewrite !Et. clear Et. cbn [fst snd].
  assert (forall t, (forall e, e ∈ warns -> e ∈ t) -> db_private path fs fs2 t) as Hpriv.
  { intros t Ht p m Hin Hm. destruct (Hp2 p m Hin Hm) as [Hm1 | [Hnone ->]].
    - destruct (Hp p m Hin Hm1) as [? | Hkw]; [by left | right; left; by eapply kept_warned_more].
    - destruct (Hp path m0 ltac:(by left) Hm0) as [? | Hkw]; [by left | right; right]. split; [by apply Hn | by eapply kept_warned_more]. }
  assert (forall p, p ∉ db_files path -> fs2 !! p = fs !! p) as Hk3 by (intros p Hin; by rewrite Hk2, Hk).
  destruct (statements_spec retentionDays fs2) as [Es | (d & e & Es)]; fold tail in Es; rewrite Es; cbn [fst snd];
    (split; [done |]); (split; [intros _; apply Hpriv; intros e0 He0; right; apply elem_of_app; by left |]).
  - exists warns. rewrite <- Forall_forall in Hw. by split.
  - split.
    + intros [[?|[_ ?]%Hw%Hne]%elem_of_cons | Hin]%elem_of_app; [done.. |].
      apply elem_of_cons in Hin as [? | [? | [(x & ? & _)%list_elem_of_fmap | Hl]%elem_of_app]%elem_of_cons]; try done.
      by apply list_elem_of_singleton in Hl.
    + intros _. exists (EOpen path :: warns ++ [EConnect; EOneConnection] ++ map EExec d)%list.
      cbn [app]. f_equal. rewrite <- app_assoc. done.
Qed.

(** The log file, in the same way; standard output is left as it is. *)
Lemma log_file_private dest fs :
  let '(trace, fs', r) := NewFileLogger dest fs in
  (forall p, p <> dest -> fs' !! p = fs !! p) /\
  (r = inr dest -> dest <> "stdout" -> forall m, fs' !! dest = Some m -> private m \/ kept_warned fs trace dest m) /\
  (EStartWriter ∈ trace <-> exists path, r = inr path).
Proof.
  unfold NewFileLogger. destruct (String.eqb_spec dest "stdout") as [->|Hne].
  { split; [done |]. split; [done |]. split; [by eexists | intros _; right; by left]. }
  unfold OpenPrivateFile. destruct (open_file_spec dest fs) as [[e E] | (fs1 & E & Hk1 & m1 & Hm1 & Hnew)].
  { rewrite (step_fails _ _ fs [] fs e); [|by rewrite (step_fails _ _ _ _ _ _ E)].
    split; [done |]. split; [done |]. split; [by intros ?%elem_of_nil | by intros [? ?]]. }
  destruct (tighten_spec dest fs1) as (warns & fs2 & E2 & Hw & Hk2 & Hp & _).
  rewrite (step_ok _ _ fs ([EOpen dest] ++ warns)%list fs2 tt); [|by rewrite (step_ok _ _ _ _ _ _ E), E2].
  cbn [fst snd did ok and_then app]. split; [intros p Hp'; by rewrite Hk2, Hk1 |]. split.
  - intros _ _ m Hm. destruct (Hp m Hm) as [? | (Hm' & e & He)]; [by left |].
    assert (m = m1) as -> by congruence. destruct Hnew as [Hfs | [_ ?]]; [right | by left].
    split; [done |]. exists e. right. apply elem_of_app. by left.
  - split; [by eexists |]. intros _. right. apply elem_of_app. right. by left.
Qed.
End Open.

(** ** Examples *)

Module LogFilesExamples.
Definition env0 (chmod : string -> option string) : OpenEnv :=
  mkOpenEnv 18 (fun _ => None) (fun _ => None) chmod None (fun _ => None) None.

(** A database of an older build, readable by everyone: it becomes private, and
    the side files that SQLite makes are private too. When its mode cannot be
    changed, it stays readable, with a warning. *)
Example old_database :
  let modes r := map (fun p => snd (fst r) !! p) (db_files "q.db") in
  modes (NewDBLogger (env0 (fun _ => None)) "q.db" 1 7 {["q.db" := 420%Z]}) = [Some 384; Some 384; Some 384]%Z /\
  modes (NewDBLogger (env0 (fun _ => Some "denied")) "q.db" 1 7 {["q.db" := 420%Z]}) = [Some 420; Some 420; Some 420]%Z.
Proof. vm_compute. done. Qed.

(** A schema that cannot be made closes the database and starts nothing. *)
Example schema_error :
  let env := mkOpenEnv 63 (fun _ => None) (fun _ => None) (fun _ => None) None
               (fun s => match s with SSchema => Some "disk full" | _ => None end) None in
  let '(trace, _, r) := NewDBLogger env "q.db" 1 0 ∅ in
  trace = [EOpen "q.db"; EConnect; EOneConnection; EExec SPragmas; EExec SSchema; ECloseDB] /\ r = inl "schema: disk full".
Proof. vm_compute. done. Qed.
End LogFilesExamples.
