(* ===== verification/Dot.v ===== *)
(** * The listeners: the DNS-over-TLS certificate, the connection limit, start
      and stop (internal/dnsserver/dot.go, server.go)

    [CertReloader] is the certificate in service with the record of the last
    reload; [tls.LoadX509KeyPair] and [x509.ParseCertificate] give the argument
    of each load. [limitListener] is a step function on the slots; the message
    library that serves a socket is an argument of [Shutdown]. *)

From stdpp Require Import base numbers list strings.
From Stdlib Require Import ZArith Lia.
From S2P Require Import Prelude GoStrings GoNet GoConv Redact.

Open Scope string_scope.
Open Scope list_scope.

(** ** The certificate *)

Definition maxDoTConns : Z := 256.
Definition maxTCPConns : Z := 256.
Definition tcpReadTimeout : Z := 2 * second.
Definition tcpIdleTimeout : Z := 8 * second.
Definition certExpiryWarnWindow : Z := 14 * 24 * hour.

Record Leaf := mkLeaf { DNSNames : list string; IPAddresses : list Addr; lf_NotAfter : Z }.

(** A [tls.Certificate]: its parsed leaf when the loader kept it, and what
    parsing its first block gives. *)
Record Certificate := mkCert { c_leaf : option Leaf; c_parse : error + Leaf }.

Record CertReloader := mkReloader {
  current : option (Certificate * Leaf);
  failures : Z;
  lastReload : Z;
  lastErr : string;
}.

Definition CertExpired : string := "expired".
Definition CertReloadFailed : string := "reload_failed".
Definition CertExpiring : string := "expiring".
Definition CertOK : string := "ok".

Record CertStatus := mkCertStatus {
  cs_Names : list string;
  cs_NotAfter : Z;
  cs_State : string;
  cs_LastReload : Z;
  cs_LastReloadError : string;
  cs_ReloadFailures : Z;
}.

Definition load_cert (pair : error + Certificate) (r : CertReloader) : CertReloader * option error :=
  match pair with
  | inl err => (r, Some (ErrWrap "loading DoT certificate: " err ""))
  | inr cert =>
      let leaf := match c_leaf cert with Some lf => inr lf | None => c_parse cert end in
      match leaf with
      | inl err => (r, Some (ErrWrap "parsing DoT certificate: " err ""))
      | inr lf => (mkReloader (Some (cert, lf)) (failures r) (lastReload r) (lastErr r), None)
      end
  end.

(** The [failures] counter wraps at 64 bits. *)
Definition Reload (now : Z) (pair : error + Certificate) (r : CertReloader) : CertReloader * option error :=
  let '(r, err) := load_cert pair r in
  let n := match err, current r with
           | Some _, Some _ => wrap 64 (failures r + 1)
           | _, _ => failures r
           end in
  (mkReloader (current r) n now (match err with Some e => err_text e | None => "" end), err).

Definition NewCertReloader (now : Z) (pair : error + Certificate) : CertReloader + error :=
  match Reload now pair (mkReloader None 0 0 "") with
  | (_, Some err) => inr err
  | (r, None) => inl r
  end.

Definition certState (notAfter : Z) (reloadFailed : bool) (now : Z) : string :=
  if negb (now <? notAfter)%Z then CertExpired
  else if reloadFailed then CertReloadFailed
  else if (time_sub notAfter now <? certExpiryWarnWindow)%Z then CertExpiring
  else CertOK.

(** [None] where the code dereferences the missing certificate of a reloader
    that [NewCertReloader] did not return. *)
Definition Status (r : CertReloader) (now : Z) : option CertStatus :=
  match current r with
  | None => None
  | Some (_, leaf) =>
      Some (mkCertStatus (DNSNames leaf ++ map addr_String (IPAddresses leaf)) (lf_NotAfter leaf)
              (certState (lf_NotAfter leaf) (negb (lastErr r =? "")) now)
              (lastReload r) (lastErr r) (failures r))
  end.

Definition GetCertificate (r : CertReloader) : option Certificate := fst <$> current r.

Definition NotAfter (r : CertReloader) : option Z := (fun c => lf_NotAfter (snd c)) <$> current r.

Definition expiryWarning (notAfter now : Z) : string * string :=
  let st := certState notAfter false now in
  if (st =? CertExpired)%string then
    ("DoT certificate expired",
     "clients that check the certificate reject it. Renew the certificate, then reload s-hole")
  else if (st =? CertExpiring)%string then
    ("DoT certificate expires soon",
     "the certificate expires within " +:+ Itoa (Z.quot certExpiryWarnWindow (24 * hour)) +:+
     " days. Renew it, then reload s-hole")
  else ("", "").

Definition ExpiryWarning (r : CertReloader) (now : Z) : option (string * string) :=
  (fun t => expiryWarning t now) <$> NotAfter r.

(** ** The limit on open connections

    [slots] is the number of filled slots of the channel, [accepting] the calls
    of [Accept] that hold a slot and wait for the inner listener, [conns] the
    connections handed out, [true] while their slot is not yet released. *)

Record limitListener := mkLimit {
  l_cap : Z;
  slots : Z;
  closed_ : bool;
  accepting : Z;
  conns : list bool;
}.

Definition newLimitListener (n : Z) : limitListener := mkLimit n 0 false 0 [].

Inductive limit_op :=
  | AcceptSlot                  (* Accept takes a slot *)
  | AcceptRefused               (* Accept sees the closed listener *)
  | AcceptConn                  (* the inner Accept returns a connection *)
  | AcceptError                 (* the inner Accept returns an error *)
  | ConnClose (i : nat)         (* Close of a connection *)
  | ListenerClose.

(** [None]: the operation waits (a full or an empty channel), or there is no
    call or connection it belongs to. *)
Definition release_slot (l : limitListener) : option limitListener :=
  if (slots l =? 0)%Z then None
  else Some (mkLimit (l_cap l) (slots l - 1) (closed_ l) (accepting l) (conns l)).

Definition set_accepting (n : Z) (l : limitListener) : limitListener :=
  mkLimit (l_cap l) (slots l) (closed_ l) n (conns l).

Definition limit_step (op : limit_op) (l : limitListener) : option limitListener :=
  match op with
  | AcceptSlot =>
      if (slots l <? l_cap l)%Z
      then Some (mkLimit (l_cap l) (slots l + 1) (closed_ l) (accepting l + 1) (conns l)) else None
  | AcceptRefused => if closed_ l then Some l else None
  | AcceptConn =>
      if (accepting l =? 0)%Z then None
      else Some (mkLimit (l_cap l) (slots l) (closed_ l) (accepting l - 1) (conns l ++ [true]))
  | AcceptError =>
      if (accepting l =? 0)%Z then None else set_accepting (accepting l - 1) <$> release_slot l
  | ConnClose i =>
      match conns l !! i with
      | None => None
      | Some false => Some l
      | Some true =>
          (fun l => mkLimit (l_cap l) (slots l) (closed_ l) (accepting l) (<[i := false]> (conns l)))
            <$> release_slot l
      end
  | ListenerClose => Some (mkLimit (l_cap l) (slots l) true (accepting l) (conns l))
  end.

Definition open_conns (l : limitListener) : Z := sum_by (fun b : bool => if b then 1 else 0)%Z (conns l).

Definition limit_reachable (n : Z) : limitListener -> Prop :=
  reachable (fun l => l = newLimitListener n) (fun l l' => exists op, limit_step op l = Some l').

(** ** Start and stop of the servers *)

(** The sockets of one server that are open: the packet socket and the
    listener ([None] when the server has none). *)
Record dns_Server := mkSrv { sv_Net : string; sv_PacketConn : option bool; sv_Listener : option bool }.

Record Server := mkServer { udp : dns_Server; tcp : dns_Server; dot_ : option dns_Server }.

(** [Listen]: the results of the two binds; [Some] of what stays open. *)
Definition Listen (udp_bind tcp_bind : option error) : error + limitListener :=
  match udp_bind with
  | Some err => inl (ErrWrap "dns: " err "")
  | None =>
      match tcp_bind with
      | Some err => inl (ErrWrap "dns: " err "")
      | None => inr (newLimitListener maxTCPConns)
      end
  end.

Definition ListenDoT (addr : string) (bind_ : option error) : error + limitListener :=
  match bind_ with
  | Some err => inl (ErrWrap ("dot: listen on " +:+ addr +:+ ": ") err "")
  | None => inr (newLimitListener maxDoTConns)
  end.

Definition NewServer : Server :=
  mkServer (mkSrv "udp" (Some true) None) (mkSrv "tcp" None (Some true)) None.

Definition EnableDoT (s : Server) : Server :=
  mkServer (udp s) (tcp s) (Some (mkSrv "tcp-tls" None (Some true))).

Definition servers (s : Server) : list dns_Server :=
  [udp s; tcp s] ++ match dot_ s with Some d => [d] | None => [] end.

Definition net_ErrClosed : error := ErrText "use of closed network connection".

Definition isClosedListener (err : error) : bool :=
  existsb (fun e => match e with ErrText t => (t =? "use of closed network connection")%string | _ => false end)
    (err_chain err).

(** What [serve] returns for what [ActivateAndServe] returned. *)
Definition serve (res : option error) : option error :=
  match res with
  | Some err => if negb (isClosedListener err) then Some err else None
  | None => None
  end.

(** The failures among some results. *)
Fixpoint some_errors (l : list (option error)) : list error :=
  match l with
  | [] => []
  | Some e :: l' => e :: some_errors l'
  | None :: l' => some_errors l'
  end.

(** [Start] reads the results in the order they arrive; [None] while it waits
    for more, otherwise what it returns, with the failures it leaves to the
    draining goroutine to log. *)
Fixpoint start_loop (remaining : nat) (arrived : list (option error))
  : option (option error * list error) :=
  match remaining with
  | O => Some (None, [])
  | S remaining' =>
      match arrived with
      | [] => None
      | Some err :: rest => Some (Some (ErrWrap "dns: " err ""), some_errors (take remaining' rest))
      | None :: rest => start_loop remaining' rest
      end
  end.

Definition Start (s : Server) (results : list (option error)) : option (option error * list error) :=
  start_loop (length (servers s)) (map serve results).

(** [Shutdown] of one server: the library's own shutdown, which reports "server
    not started" or closes what it serves, then both closes. The second value
    is the logged warning. *)
Definition shutdown_one (lib : dns_Server -> dns_Server * option error) (srv : dns_Server)
  : dns_Server * option error :=
  let '(srv, err) := lib srv in
  let srv := mkSrv (sv_Net srv) ((fun _ => false) <$> sv_PacketConn srv) (sv_Listener srv) in
  (mkSrv (sv_Net srv) (sv_PacketConn srv) ((fun _ => false) <$> sv_Listener srv), err).

Definition Shutdown (lib : dns_Server -> dns_Server * option error) (s : Server) : Server :=
  mkServer (fst (shutdown_one lib (udp s))) (fst (shutdown_one lib (tcp s)))
    ((fun d => fst (shutdown_one lib d)) <$> dot_ s).

Definition bound (srv : dns_Server) : Prop :=
  sv_PacketConn srv = Some true \/ sv_Listener srv = Some true.

(** ** The certificate in service *)

Definition good (pair : error + Certificate) : option Certificate :=
  match pair with
  | inr cert => match c_leaf cert, c_parse cert with
                | None, inl _ => None
                | _, _ => Some cert
                end
  | inl _ => None
  end.

Definition reload_run (r : CertReloader) (ops : list (Z * (error + Certificate))) : CertReloader :=
  fold_left (fun r op => fst (Reload (fst op) (snd op) r)) ops r.

Lemma load_cert_good pair r :
  load_cert pair r =
    match good pair with
    | Some cert => (mkReloader (current (fst (load_cert pair r))) (failures r) (lastReload r) (lastErr r), None)
    | None => (r, snd (load_cert pair r))
    end /\
  (snd (load_cert pair r) = None <-> good pair <> None) /\
  GetCertificate (fst (load_cert pair r)) =
    match good pair with Some cert => Some cert | None => GetCertificate r end.
Proof.
  unfold load_cert, good, GetCertificate. destruct pair as [e | cert]; simpl; [naive_solver |].
  destruct (c_leaf cert); simpl; [naive_solver |].
  destruct (c_parse cert); simpl; naive_solver.
Qed.

Lemma load_cert_text pair r e : snd (load_cert pair r) = Some e -> err_text e <> "".
Proof.
  unfold load_cert. destruct pair as [e' | cert]; [intros [= <-]; discriminate |].
  destruct (match c_leaf cert with Some lf => inr lf | None => c_parse cert end); [| discriminate].
  intros [= <-]; discriminate.
Qed.

Lemma Reload_spec now pair r r' err :
  GetCertificate r <> None -> Reload now pair r = (r', err) ->
  GetCertificate r' = match good pair with Some c => Some c | None => GetCertificate r end /\
  failures r' = match good pair with Some _ => failures r | None => wrap 64 (failures r + 1) end /\
  (lastErr r' = "" <-> good pair <> None) /\ lastReload r' = now.
Proof.
  intros Hr. unfold Reload. pose proof (load_cert_good pair r) as (Heq & Hiff & Hget).
  pose proof (load_cert_text pair r) as Ht.
  destruct (load_cert pair r) as [r1 e1]. simpl in *. intros [= <- <-].
  unfold GetCertificate in *. destruct (good pair) as [c |]; simpl.
  - assert (He : e1 = None) by (by apply Hiff). subst e1. injection Heq as Heq.
    split; [done |]. rewrite Heq. simpl. split; [done |]. split; [| done]. done.
  - destruct e1 as [e |]; [| by destruct (proj1 Hiff)]. injection Heq as ->.
    destruct (current r); [| done]. simpl in *.
    split; [done |]. split; [done |]. split; [| done]. split; [| done].
    intros Hc. exfalso. exact (Ht e eq_refl Hc).
Qed.

(** The certificate that the last successful load read. *)
Definition last_good (c0 : Certificate) (ops : list (Z * (error + Certificate))) : Certificate :=
  fold_left (fun c op => default c (good (snd op))) ops c0.

Definition bad_loads (ops : list (Z * (error + Certificate))) : Z :=
  lenZ (filter (fun op => good (snd op) = None) ops).

Lemma reload_run_spec ops : forall r c,
  GetCertificate r = Some c ->
  GetCertificate (reload_run r ops) = Some (last_good c ops) /\
  (failures (reload_run r ops) mod 2 ^ 64 = (failures r + bad_loads ops) mod 2 ^ 64)%Z.
Proof.
  induction ops as [| op ops IH]; intros r c Hc; simpl.
  { unfold bad_loads. simpl. by rewrite Z.add_0_r. }
  destruct (Reload (fst op) (snd op) r) as [r' err] eqn:HR.
  pose proof (Reload_spec _ _ _ _ _ ltac:(by rewrite Hc) HR) as (Hg & Hf & _).
  rewrite Hc in Hg. simpl.
  destruct (IH r' (default c (good (snd op)))) as [H1 H2].
  { rewrite Hg. by destruct (good (snd op)). }
  split; [exact H1 |]. rewrite H2, Hf. unfold bad_loads.
  rewrite filter_cons. case_decide as Hd; [rewrite Hd | destruct (good (snd op)); [done | done]].
  unfold lenZ, wrap. rewrite length_cons, Zplus_mod_idemp_l. f_equal. lia.
Qed.

Lemma NewCertReloader_current now pair r :
  NewCertReloader now pair = inl r -> exists c, good pair = Some c /\ GetCertificate r = Some c /\ failures r = 0%Z.
Proof.
  unfold NewCertReloader, Reload, load_cert, good, GetCertificate.
  destruct pair as [e | c]; simpl; [done |].
  destruct (c_leaf c) as [lf |]; simpl; [intros [= <-]; by exists c |].
  destruct (c_parse c) as [e | lf]; simpl; [done |]. intros [= <-]. by exists c.
Qed.

(** A certificate reload never takes the listener down. Once the reloader
    exists, after any sequence of reloads, good and bad, the handshake gets the
    certificate of the last load that succeeded, and the failure counter has
    counted each load that did not, modulo its 64 bits. *)
Theorem reload_keeps_certificate now pair r ops :
  NewCertReloader now pair = inl r ->
  exists c0, good pair = Some c0 /\
    GetCertificate (reload_run r ops) = Some (last_good c0 ops) /\
    (failures (reload_run r ops) mod 2 ^ 64 = bad_loads ops mod 2 ^ 64)%Z.
Proof.
  intros Hn. destruct (NewCertReloader_current _ _ _ Hn) as (c & Hg & Hc & H0).
  exists c. split; [done |]. destruct (reload_run_spec ops r c Hc) as [H1 H2].
  split; [done |]. by rewrite H2, H0.
Qed.

(** The state that the dashboard and the metrics report is the most severe that
    holds: expired at or after the end of validity, else a failed last reload,
    else less than 14 days left, else ok. *)
Theorem cert_status_state r now st :
  Status r now = Some st ->
  cs_State st =
    (if (cs_NotAfter st <=? now)%Z then "expired"
     else if decide (cs_LastReloadError st <> "") then "reload_failed"
     else if (cs_NotAfter st - now <? 14 * 24 * 3600 * 1000000000)%Z then "expiring"
     else "ok")%string.
Proof.
  unfold Status. destruct (current r) as [[c leaf] |]; [| done]. intros [= <-]. simpl.
  unfold certState. rewrite Z.leb_antisym.
  destruct (Z.ltb_spec now (lf_NotAfter leaf)); simpl; [| done].
  destruct (String.eqb_spec (lastErr r) "").
  - simpl. rewrite decide_False by auto. unfold time_sub.
    replace (sat64 (lf_NotAfter leaf - now) <? certExpiryWarnWindow)%Z
      with (lf_NotAfter leaf - now <? 14 * 24 * 3600 * 1000000000)%Z; [done |].
    apply eq_bool_prop_intro. rewrite !Is_true_true, !Z.ltb_lt.
    unfold sat64, min_int64, max_int64, certExpiryWarnWindow, hour, minute, second. lia.
  - simpl. by rewrite decide_True.
Qed.

(** ** The connection limit *)

Definition limit_inv (n : Z) (l : limitListener) : Prop :=
  l_cap l = n /\ (0 <= accepting l)%Z /\ slots l = (accepting l + open_conns l)%Z /\ (slots l <= Z.max 0 n)%Z.

Lemma bit_nonneg (b : bool) : (0 <= if b then 1 else 0)%Z.
Proof. destruct b; lia. Qed.

Lemma open_conns_nonneg l : (0 <= open_conns l)%Z.
Proof. apply sum_by_nonneg, bit_nonneg. Qed.

Lemma limit_inv_step n op l l' : limit_inv n l -> limit_step op l = Some l' -> limit_inv n l'.
Proof.
  intros (Hc & Ha & Hs & Hb). pose proof (open_conns_nonneg l) as Ho.
  destruct op as [| | | | i |]; simpl; unfold release_slot.
  - destruct (slots l <? l_cap l)%Z eqn:E; [| done]. intros [= <-]. breflect.
    unfold limit_inv, open_conns in *; simpl. lia.
  - destruct (closed_ l); [| done]. by intros [= <-].
  - destruct (accepting l =? 0)%Z eqn:E; [done |]. intros [= <-]. breflect.
    unfold limit_inv, open_conns in *; simpl. rewrite sum_by_app. simpl. lia.
  - destruct (accepting l =? 0)%Z eqn:E; [done |]. destruct (slots l =? 0)%Z eqn:E2; [done |].
    intros [= <-]. breflect. unfold limit_inv, open_conns in *; simpl. lia.
  - destruct (conns l !! i) as [[|] |] eqn:Hi; [| by intros [= <-] | done].
    destruct (slots l =? 0)%Z eqn:E2; [done |]. intros [= <-].
    unfold limit_inv, open_conns in *; simpl. rewrite (sum_by_insert _ _ _ _ false Hi). lia.
  - intros [= <-]. done.
Qed.

Lemma limit_reachable_inv n l : limit_reachable n l -> limit_inv n l.
Proof.
  apply reachable_invariant.
  - intros s ->. unfold limit_inv, open_conns. simpl. lia.
  - intros s s' Hi [op Hop]. exact (limit_inv_step n op s s' Hi Hop).
Qed.

(** However accepts, closes and errors interleave, at most the configured number
    of connections is open at a time; the first [Close] of a connection never
    waits and frees exactly one slot, a second one frees none, an accept that
    fails gives its slot back without waiting, and after the listener is closed
    every waiting accept can return. *)
Theorem limit_listener_bound n l :
  limit_reachable n l ->
  (open_conns l <= Z.max 0 n)%Z /\
  (forall i, conns l !! i = Some true ->
     exists l', limit_step (ConnClose i) l = Some l' /\ slots l' = (slots l - 1)%Z /\
       open_conns l' = (open_conns l - 1)%Z /\ limit_step (ConnClose i) l' = Some l') /\
  ((0 < accepting l)%Z -> exists l', limit_step AcceptError l = Some l' /\ slots l' = (slots l - 1)%Z) /\
  (exists l', limit_step ListenerClose l = Some l' /\ limit_step AcceptRefused l' = Some l').
Proof.
  intros Hr. destruct (limit_reachable_inv n l Hr) as (Hc & Ha & Hs & Hb).
  pose proof (open_conns_nonneg l) as Ho.
  split; [lia |]. split; [| split].
  - intros i Hi. pose proof (sum_by_lookup _ bit_nonneg _ _ _ Hi) as Hp.
    simpl. rewrite Hi. unfold release_slot.
    destruct (Z.eqb_spec (slots l) 0); [unfold open_conns in *; lia |].
    eexists. split; [reflexivity |]. simpl. split; [done |]. split.
    + unfold open_conns. simpl. rewrite (sum_by_insert _ _ _ _ false Hi). lia.
    + rewrite list_lookup_insert_eq by (by apply lookup_lt_Some with true). done.
  - intros Hpos. simpl. unfold release_slot.
    destruct (Z.eqb_spec (accepting l) 0); [lia |]. destruct (Z.eqb_spec (slots l) 0); [lia |].
    eexists. split; [reflexivity |]. done.
  - eexists. split; [reflexivity |]. done.
Qed.

(** ** The servers *)

Lemma start_loop_spec n arrived :
  (length arrived = n)%nat ->
  exists err log, start_loop n arrived = Some (err, log) /\
    (err = None <-> Forall (fun r => r = None) arrived) /\
    (forall e, err = Some e -> exists e', head (some_errors arrived) = Some e' /\ e = ErrWrap "dns: " e' "" /\
                                       log = tail (some_errors arrived)).
Proof.
  revert arrived. induction n as [| n IH]; intros [| [e |] rest]; try done; simpl; intros Hl.
  - exists None, []. split; [done |]. split; [| done]. split; [by constructor | done].
  - eexists _, _. split; [reflexivity |]. split.
    + split; [done |]. rewrite Forall_cons. by intros [? _].
    + intros e0 [= <-]. exists e. simpl. split; [done |]. split; [done |].
      rewrite take_ge by lia. done.
  - destruct (IH rest) as (err & log & He & Hi & Hf); [lia |]. exists err, log.
    split; [done |]. split; [| exact Hf]. rewrite Forall_cons, Hi. split; [done |]. by intros [_ ?].
Qed.

(** [Start] returns once every listener has reported: nil exactly when each of
    them stopped cleanly, a closed socket included, and otherwise the first
    failure to arrive, with every later one left to be logged. After
    [Shutdown] every socket is closed, also that of a server that had not
    started, whatever the message library did with it. *)
Theorem start_and_shutdown s results lib :
  (length results = length (servers s))%nat ->
  (forall srv, sv_Net (fst (lib srv)) = sv_Net srv) ->
  (exists err log, Start s results = Some (err, log) /\
     (err = None <-> Forall (fun r => serve r = None) results) /\
     (forall e, err = Some e ->
        exists e', head (some_errors (map serve results)) = Some e' /\ e = ErrWrap "dns: " e' "" /\
                   log = tail (some_errors (map serve results)))) /\
  map sv_Net (servers (Shutdown lib s)) = map sv_Net (servers s) /\
  Forall (fun srv => ~ bound srv) (servers (Shutdown lib s)).
Proof.
  intros Hl Hn. split; [| split].
  - destruct (start_loop_spec (length (servers s)) (map serve results)) as (err & log & H1 & H2 & H3);
      [by rewrite length_map |].
    exists err, log. split; [exact H1 |]. rewrite Forall_map in H2. split; [exact H2 |].
    exact H3.
  - assert (Hone : forall d, sv_Net (fst (shutdown_one lib d)) = sv_Net d).
    { intros d. rewrite <- (Hn d). unfold shutdown_one. by destruct (lib d). }
    unfold Shutdown, servers. simpl. rewrite !Hone. destruct (dot_ s); simpl; by rewrite ?Hone.
  - assert (Hone : forall d, ~ bound (fst (shutdown_one lib d))).
    { intros d. unfold shutdown_one, bound. destruct (lib d) as [srv err]. simpl.
      destruct (sv_PacketConn srv), (sv_Listener srv); simpl; intros [Hb | Hb]; discriminate Hb. }
    unfold Shutdown, servers. simpl. rewrite !Forall_cons.
    split; [apply Hone |]. split; [apply Hone |].
    destruct (dot_ s); simpl; [| constructor]. rewrite Forall_cons. split; [apply Hone | constructor].
Qed.

(** ** Examples *)

Module DotExamples.
Definition day : Z := 24 * hour.
Definition leaf (until : Z) : Leaf := mkLeaf ["dns.example.com"] [Addr4 3232235777] until.
Definition cert (until : Z) : Certificate := mkCert (Some (leaf until)) (inl (ErrText "unused")).
Definition bad : error + Certificate := inl (ErrText "no such file").
Definition ops : list (Z * (error + Certificate)) :=
  [((10 * day)%Z, bad); ((20 * day)%Z, inr (cert (200 * day))); ((30 * day)%Z, bad)].
Definition r0 : CertReloader := mkReloader (Some (cert (90 * day), leaf (90 * day))) 0 0 "".

Lemma reload_keeps_certificate_witness :
  NewCertReloader 0 (inr (cert (90 * day))) = inl r0 /\
  GetCertificate (reload_run r0 ops) = Some (cert (200 * day)) /\
  failures (reload_run r0 ops) = 2%Z.
Proof.
  destruct (reload_keeps_certificate 0 (inr (cert (90 * day))) r0 ops eq_refl) as (c0 & Hc & Hg & Hf).
  injection Hc as <-. split; [reflexivity |]. split; [exact Hg | reflexivity].
Defined.

Lemma cert_status_state_witness :
  exists st, Status (reload_run r0 ops) (40 * day) = Some st /\ cs_State st = "reload_failed".
Proof.
  eexists. split; [reflexivity |].
  rewrite (cert_status_state (reload_run r0 ops) (40 * day) _ eq_refl). reflexivity.
Defined.

Definition two_conns : limitListener := mkLimit 2 2 false 0 [true; true].

Lemma two_reachable : limit_reachable 2 two_conns.
Proof.
  apply (reachable_step _ _ (mkLimit 2 2 false 1 [true]) two_conns); [| by exists AcceptConn].
  apply (reachable_step _ _ (mkLimit 2 1 false 0 [true])); [| by exists AcceptSlot].
  apply (reachable_step _ _ (mkLimit 2 1 false 1 [])); [| by exists AcceptConn].
  apply (reachable_step _ _ (newLimitListener 2)); [| by exists AcceptSlot].
  by apply reachable_init.
Qed.

Lemma limit_listener_bound_witness :
  limit_reachable 2 two_conns /\ limit_step AcceptSlot two_conns = None /\
  (open_conns two_conns <= 2)%Z /\
  exists l', limit_step (ConnClose 0) two_conns = Some l' /\ limit_step AcceptSlot l' <> None.
Proof.
  split; [exact two_reachable |]. split; [reflexivity |].
  destruct (limit_listener_bound 2 two_conns two_reachable) as (Hb & Hc & _). split; [exact Hb |].
  destruct (Hc 0%nat eq_refl) as (l' & Hs & _). exists l'. split; [exact Hs |].
  injection Hs as <-. vm_compute. discriminate.
Defined.

Definition lib_not_started (srv : dns_Server) : dns_Server * option error :=
  (srv, Some (ErrText "dns: server not started")).

Lemma start_and_shutdown_witness :
  Start (EnableDoT NewServer) [None; Some net_ErrClosed; Some (ErrText "read failed")]
    = Some (Some (ErrWrap "dns: " (ErrText "read failed") ""), []) /\
  Forall (fun srv => ~ bound srv) (servers (Shutdown lib_not_started (EnableDoT NewServer))).
Proof.
  destruct (start_and_shutdown (EnableDoT NewServer) [None; Some net_ErrClosed; Some (ErrText "read failed")]
              lib_not_started eq_refl (fun _ => eq_refl)) as (_ & _ & H).
  split; [reflexivity | exact H].
Defined.
End DotExamples.
