(* ===== verification/Lifecycle.v ===== *)
(** * Reloads, start and shutdown (cmd/s-hole/main.go)

    The single-flight reload gate as a transition system: the callers, the
    goroutines it spawns, the wait group and the stop function interleave
    freely; each part that the code runs under the mutex is one step. Then the
    ordered teardown, with the reload gate, the DNS server and the main
    goroutine running beside it. *)

From stdpp Require Import base numbers list strings relations.
From Stdlib Require Import ZArith Lia.
From S2P Require Import Prelude GoStrings Redact Dot.

Open Scope list_scope.

(** ** The reload gate *)

(** A goroutine of the gate: spawned or before its next pass, in [work()],
    after it, and after the loop but before [wg.Done()]. *)
Inductive phase := Starting | Working | Checking | Leaving.

#[global] Instance phase_eq_dec : EqDecision phase.
Proof. solve_decision. Defined.

(** What happened, for the properties: the answer to each request, and the
    begin and end of each pass. *)
Inductive event :=
  | EvStarted | EvQueued | EvRefused
  | EvPassStart | EvPassEnd.

(** [gors] are the goroutines that run, [wg] the counter of the wait group,
    [events] the newest first. *)
Record Gate := mkGate {
  running : bool;
  queued : bool;
  closed : bool;
  cancelled : bool;
  wg : Z;
  gors : list phase;
  events : list event;
}.

Definition newReloadFn : Gate := mkGate false false false false 0 [] [].

Definition set_gors (l : list phase) (g : Gate) : Gate :=
  mkGate (running g) (queued g) (closed g) (cancelled g) (wg g) l (events g).

Definition emit (e : event) (g : Gate) : Gate :=
  mkGate (running g) (queued g) (closed g) (cancelled g) (wg g) (gors g) (e :: events g).

(** [reload], under the mutex. *)
Definition reload (g : Gate) : Gate * bool :=
  if closed g || cancelled g then (emit EvRefused g, false)
  else if running g then
    (emit EvQueued (mkGate (running g) true (closed g) (cancelled g) (wg g) (gors g) (events g)), false)
  else
    (emit EvStarted (mkGate true (queued g) (closed g) (cancelled g) (wg g + 1) (gors g ++ [Starting]) (events g)),
     true).

(** [stop], under the mutex. *)
Definition stop (g : Gate) : Gate :=
  mkGate (running g) (queued g) true (cancelled g) (wg g) (gors g) (events g).

(** The cancellation of the context. *)
Definition cancel (g : Gate) : Gate :=
  mkGate (running g) (queued g) (closed g) true (wg g) (gors g) (events g).

(** The check after a pass, under the mutex: whether the goroutine goes on. *)
Definition check_queue (g : Gate) : Gate * bool :=
  let again := queued g && negb (closed g) && negb (cancelled g) in
  (mkGate (if again then running g else false) false (closed g) (cancelled g) (wg g) (gors g) (events g), again).

(** One step of the goroutine [i]; [None] when there is none. *)
Definition gor_step (i : nat) (g : Gate) : option Gate :=
  match gors g !! i with
  | None => None
  | Some Starting => Some (emit EvPassStart (set_gors (<[i := Working]> (gors g)) g))
  | Some Working => Some (emit EvPassEnd (set_gors (<[i := Checking]> (gors g)) g))
  | Some Checking =>
      let '(g, again) := check_queue g in
      Some (set_gors (<[i := if again then Starting else Leaving]> (gors g)) g)
  | Some Leaving =>
      Some (mkGate (running g) (queued g) (closed g) (cancelled g) (wg g - 1) (delete i (gors g)) (events g))
  end.

Inductive gate_step : Gate -> Gate -> Prop :=
  | step_reload g : gate_step g (fst (reload g))
  | step_stop g : gate_step g (stop g)
  | step_cancel g : gate_step g (cancel g)
  | step_gor i g g' : gor_step i g = Some g' -> gate_step g g'.

Definition gate_reachable : Gate -> Prop := reachable (fun g => g = newReloadFn) gate_step.

Definition gate_open (g : Gate) : Prop := closed g = false /\ cancelled g = false.

(** ** One pass of a reload *)

(** [reloadWork]: what a pass does, in order, and what it logs of the
    certificate. *)
Inductive reload_act :=
  | ActCertFailed (text : string)
  | ActCertLoaded (expires : Z) (warning : string * string)
  | ActRefresh.

Definition reloadWork (now : Z) (pair : error + Certificate) (certs : option CertReloader)
  : option CertReloader * list reload_act :=
  match certs with
  | None => (None, [ActRefresh])
  | Some r =>
      let '(r, err) := Reload now pair r in
      match err with
      | Some e => (Some r, [ActCertFailed (err_text e); ActRefresh])
      | None => (Some r, [ActCertLoaded (default 0%Z (NotAfter r)) (default ("", "")%string (ExpiryWarning r now));
                          ActRefresh])
      end
  end.

(** ** Teardown *)

Inductive action :=
  | CancelTickers | LogStats | StopDNS | DrainHTTP | StopReloads | WaitReload
  | CloseCache | CloseFileLog | CloseDB.

(** [shutdown] with the actions that main wires into it; [waitForReload] is
    [stopReloads] and then the wait. *)
Definition shutdown : list action :=
  [CancelTickers; LogStats; StopDNS; DrainHTTP; StopReloads; WaitReload;
   CloseCache; CloseFileLog; CloseDB].

(** Where [blockUntilStopped] is: in its [select], waiting for [done] after a
    serve error, or returned with an exit code. *)
Inductive main_pc := Selecting | AfterError | Exited (code : Z).

(** The process: the gate, whether DNS queries run, what is open, whether the
    reload wait ran out of time, the actions left of the teardown ([None]:
    [doStop] was not called), whether the DNS server reported an error, and the
    main goroutine. *)
Record Process := mkProcess {
  gate : Gate;
  dns_live : bool;
  cache_open : bool;
  file_open : bool;
  db_open : bool;
  timed_out : bool;
  teardown : option (list action);
  serve_failed : bool;
  main_at : main_pc;
}.

Definition process_start : Process :=
  mkProcess newReloadFn true true true true false None false Selecting.

Definition set_gate (g : Gate) (p : Process) : Process :=
  mkProcess g (dns_live p) (cache_open p) (file_open p) (db_open p) (timed_out p) (teardown p)
    (serve_failed p) (main_at p).

Definition set_teardown (t : option (list action)) (p : Process) : Process :=
  mkProcess (gate p) (dns_live p) (cache_open p) (file_open p) (db_open p) (timed_out p) t
    (serve_failed p) (main_at p).

Definition set_main (m : main_pc) (p : Process) : Process :=
  mkProcess (gate p) (dns_live p) (cache_open p) (file_open p) (db_open p) (timed_out p) (teardown p)
    (serve_failed p) m.

(** [doStop]: the once guard lets only the first call start the teardown. *)
Definition doStop (p : Process) : Process :=
  match teardown p with
  | None => set_teardown (Some shutdown) p
  | Some _ => p
  end.

(** [waitWithDeadline] on a wait group with [n] goroutines, when the [select]
    takes the end of the context ([deadline]) or the end of the wait: whether
    it warns that the deadline passed; [None] while it waits. *)
Definition waitWithDeadline (deadline : bool) (n : Z) : option bool :=
  if deadline then Some true else if (n =? 0)%Z then Some false else None.

(** One action. *)
Definition do_action (deadline : bool) (a : action) (p : Process) : option Process :=
  let mk g dns ca fi db late :=
    mkProcess g dns ca fi db late (teardown p) (serve_failed p) (main_at p) in
  match a with
  | CancelTickers => Some (set_gate (cancel (gate p)) p)
  | LogStats | DrainHTTP => Some p
  | StopDNS => Some (mk (gate p) false (cache_open p) (file_open p) (db_open p) (timed_out p))
  | StopReloads => Some (set_gate (stop (gate p)) p)
  | WaitReload =>
      match waitWithDeadline deadline (wg (gate p)) with
      | Some false => Some p
      | Some true => Some (mk (gate p) (dns_live p) (cache_open p) (file_open p) (db_open p) true)
      | None => None
      end
  | CloseCache => Some (mk (gate p) (dns_live p) false (file_open p) (db_open p) (timed_out p))
  | CloseFileLog => Some (mk (gate p) (dns_live p) (cache_open p) false (db_open p) (timed_out p))
  | CloseDB => Some (mk (gate p) (dns_live p) (cache_open p) (file_open p) false (timed_out p))
  end.

Definition teardown_step (deadline : bool) (p : Process) : option Process :=
  match teardown p with
  | Some (a :: rest) => set_teardown (Some rest) <$> do_action deadline a p
  | _ => None
  end.

(** One step of [blockUntilStopped]: the [select] takes the serve error
    ([take_error]) or [done], whichever is ready. *)
Definition main_step (take_error : bool) (p : Process) : option Process :=
  match main_at p with
  | Selecting =>
      if take_error then (if serve_failed p then Some (set_main AfterError (doStop p)) else None)
      else match teardown p with
           | Some [] => Some (set_main (Exited 0) p)
           | _ => None
           end
  | AfterError => match teardown p with
                  | Some [] => Some (set_main (Exited 1) p)
                  | _ => None
                  end
  | Exited _ => None
  end.

Inductive process_step : Process -> Process -> Prop :=
  | step_gate p g : gate_step (gate p) g -> process_step p (set_gate g p)
  | step_signal p : process_step p (doStop p)
  | step_serve_error p :
      dns_live p = true ->
      process_step p (mkProcess (gate p) (dns_live p) (cache_open p) (file_open p) (db_open p) (timed_out p)
                        (teardown p) true (main_at p))
  | step_teardown d p p' : teardown_step d p = Some p' -> process_step p p'
  | step_main e p p' : main_step e p = Some p' -> process_step p p'.

Definition process_reachable : Process -> Prop := reachable (fun p => p = process_start) process_step.

(** ** The invariant of the gate *)

Definition is_active (p : phase) : Z := match p with Leaving => 0 | _ => 1 end.
Definition is_starting (p : phase) : Z := match p with Starting => 1 | _ => 0 end.
Definition is_working (p : phase) : Z := match p with Working => 1 | _ => 0 end.
Definition one {A} (_ : A) : Z := 1.

Definition starts_pass (e : event) : Z := match e with EvPassStart => 1 | _ => 0 end.
Definition ends_pass (e : event) : Z := match e with EvPassEnd => 1 | _ => 0 end.

(** The passes begun and ended so far. *)
Definition passes_begun (g : Gate) : Z := sum_by starts_pass (events g).
Definition passes_ended (g : Gate) : Z := sum_by ends_pass (events g).

(** Some accepted request has had no pass begin after it. *)
Fixpoint unserved (l : list event) : bool :=
  match l with
  | [] => false
  | EvPassStart :: _ => false
  | EvStarted :: _ | EvQueued :: _ => true
  | _ :: l' => unserved l'
  end.

Record gate_inv (g : Gate) : Prop := {
  inv_active : sum_by is_active (gors g) = (if running g then 1 else 0)%Z;
  inv_wg : wg g = sum_by one (gors g);
  inv_queued : queued g = true -> running g = true;
  inv_passes : (passes_begun g - passes_ended g = sum_by is_working (gors g))%Z;
  inv_served : gate_open g -> unserved (events g) = true ->
    queued g = true \/ (0 < sum_by is_starting (gors g))%Z;
}.

Lemma is_active_nonneg p : (0 <= is_active p)%Z.
Proof. destruct p; simpl; lia. Qed.
Lemma is_starting_nonneg p : (0 <= is_starting p)%Z.
Proof. destruct p; simpl; lia. Qed.
Lemma one_nonneg {A} (p : A) : (0 <= one p)%Z.
Proof. unfold one. lia. Qed.

#[local] Hint Resolve is_active_nonneg is_starting_nonneg one_nonneg : shole.

(** The sums after a step of the goroutine [i], from its phase before. *)
Ltac move_gor Hi :=
  repeat (rewrite ?(sum_by_insert _ _ _ _ _ Hi), ?(sum_by_delete _ _ _ _ Hi); simpl).

Lemma gate_inv_gor i g g' : gate_inv g -> gor_step i g = Some g' -> gate_inv g'.
Proof.
  intros [Ha Hw Hq Hp Hs]. unfold gor_step.
  pose proof (sum_by_nonneg is_starting is_starting_nonneg (gors g)) as Hn.
  destruct (gors g !! i) as [p |] eqn:Hi; [| done].
  pose proof (sum_by_lookup is_active is_active_nonneg _ _ _ Hi) as Hact.
  destruct p; simpl; intros [= <-]; constructor;
    unfold passes_begun, passes_ended, gate_open, one in *; simpl in *; move_gor Hi; try done; try lia.
  - intros Ho Hu. destruct (Hs Ho Hu); [by left | right; lia].
  - destruct (running g) eqn:Er; [| lia]. destruct (queued g && negb (closed g) && negb (cancelled g)); simpl; lia.
  - destruct (queued g && negb (closed g) && negb (cancelled g)); simpl; lia.
  - intros [Hc Hx] Hu. right. destruct (Hs (conj Hc Hx) Hu) as [Hqq | Hst].
    + rewrite Hqq, Hc, Hx. simpl. lia.
    + destruct (queued g && negb (closed g) && negb (cancelled g)); simpl; lia.
  - intros Ho Hu. destruct (Hs Ho Hu); [by left | right; lia].
Qed.

Lemma gate_inv_step g g' : gate_inv g -> gate_step g g' -> gate_inv g'.
Proof.
  intros Hinv Hstep. destruct Hstep as [g | g | g | i g g' Hi].
  - destruct Hinv as [Ha Hw Hq Hp Hs]. unfold reload.
    destruct (closed g || cancelled g) eqn:Eo; simpl; [| destruct (running g) eqn:Er; simpl].
    + constructor; simpl; try done.
    + constructor; simpl; try done. by left.
    + constructor; unfold passes_begun, passes_ended, one in *; simpl; rewrite ?sum_by_app; simpl;
        try done; try lia.
      intros _ _. right. pose proof (sum_by_nonneg is_starting is_starting_nonneg (gors g)). lia.
  - destruct Hinv as [Ha Hw Hq Hp Hs]. constructor; simpl; try done. by intros [? ?].
  - destruct Hinv as [Ha Hw Hq Hp Hs]. constructor; simpl; try done. by intros [? ?].
  - exact (gate_inv_gor i g g' Hinv Hi).
Qed.

Lemma gate_inv_reachable g : gate_reachable g -> gate_inv g.
Proof.
  apply reachable_invariant; [| intros; eapply gate_inv_step; eauto].
  intros s ->. constructor; simpl; try done.
Qed.

(** Only one pass runs at a time: whatever the timer, the API and the signal
    request, and however their calls interleave with the goroutines, the passes
    begun exceed the passes ended by at most one; at most one goroutine has not
    left its loop, exactly while [running] is set; and the wait group counts
    the goroutines. *)
Theorem reload_single_flight g :
  gate_reachable g ->
  (0 <= passes_begun g - passes_ended g <= 1)%Z /\
  sum_by is_active (gors g) = (if running g then 1 else 0)%Z /\
  wg g = lenZ (gors g).
Proof.
  intros Hr. destruct (gate_inv_reachable g Hr) as [Ha Hw Hq Hp Hs].
  assert (Hle : (0 <= sum_by is_working (gors g) <= sum_by is_active (gors g))%Z).
  { clear. induction (gors g) as [| p l IH]; simpl; [lia |]. destruct p; simpl; lia. }
  assert (Hlen : sum_by one (gors g) = lenZ (gors g)).
  { clear. unfold lenZ, one. induction (gors g) as [| p l IH]; simpl; lia. }
  split; [destruct (running g); lia |]. split; [done | by rewrite Hw].
Qed.

(** ** No request is lost *)

Definition gors_step (g g' : Gate) : Prop := exists i, gor_step i g = Some g'.

Definition cost (p : phase) : Z :=
  match p with Starting => 4 | Working => 3 | Checking => 2 | Leaving => 1 end.

(** An upper bound on the steps that the goroutines can still take. *)
Definition budget (g : Gate) : Z := (sum_by cost (gors g) + if queued g then 3 else 0)%Z.

Lemma cost_nonneg p : (0 <= cost p)%Z.
Proof. destruct p; simpl; lia. Qed.

Lemma budget_nonneg g : (0 <= budget g)%Z.
Proof. unfold budget. pose proof (sum_by_nonneg cost cost_nonneg (gors g)). destruct (queued g); lia. Qed.

Lemma budget_step g g' : gors_step g g' -> (budget g' < budget g)%Z.
Proof.
  intros [i Hi]. unfold gor_step in Hi. unfold budget.
  destruct (gors g !! i) as [p |] eqn:Hl; [| done].
  destruct p; simpl in Hi; injection Hi as <-; simpl; move_gor Hl; try lia.
  destruct (queued g && negb (closed g) && negb (cancelled g)) eqn:E; simpl.
  - breflect. destruct (queued g); [lia | naive_solver].
  - destruct (queued g); lia.
Qed.

Lemma budget_steps n g g' : nsteps gors_step n g g' -> (Z.of_nat n + budget g' <= budget g)%Z.
Proof.
  induction 1 as [| n g g1 g' Hs Hn IH]; [simpl; lia |].
  pose proof (budget_step _ _ Hs). lia.
Qed.

Lemma gors_step_gate g g' : gors_step g g' -> gate_step g g'.
Proof. intros [i Hi]. exact (step_gor i g g' Hi). Qed.

Lemma nsteps_gate_reachable n g g' : gate_reachable g -> nsteps gors_step n g g' -> gate_reachable g'.
Proof.
  intros Hr. induction 1 as [| n g g1 g' Hs Hn IH]; [done |].
  apply IH. eapply reachable_step; [exact Hr | by apply gors_step_gate].
Qed.

Lemma gors_step_open g g' : gors_step g g' -> gate_open g -> gate_open g'.
Proof.
  intros [i Hi]. unfold gor_step, gate_open in *.
  destruct (gors g !! i) as [[] |]; [..| done]; simpl in *; by injection Hi as <-.
Qed.

Lemma gors_stuck g : (forall g', ~ gors_step g g') -> gors g = [].
Proof.
  intros Hs. destruct (gors g) as [| p l] eqn:E; [done |]. exfalso.
  destruct (gor_step 0 g) as [g' |] eqn:Eg; [by apply (Hs g'); exists 0%nat |].
  unfold gor_step in Eg. rewrite E in Eg. simpl in Eg. destruct p; done.
Qed.

(** C4. No request is lost. From any reachable state, the goroutines take at most
    [budget] more steps by themselves, at most four each and three for a
    queued pass; and when none can move they have all left, the wait group is
    empty, a new request would start a pass at once, and, unless shutdown has
    started, every request accepted so far has had a pass begin after it. *)
Theorem reload_none_lost g n g' :
  gate_reachable g -> nsteps gors_step n g g' ->
  (Z.of_nat n <= budget g)%Z /\
  ((forall g'', ~ gors_step g' g'') ->
   gors g' = [] /\ wg g' = 0%Z /\ running g' = false /\
   (gate_open g -> unserved (events g') = false /\ snd (reload g') = true)).
Proof.
  intros Hr Hn. pose proof (budget_steps n g g' Hn). pose proof (budget_nonneg g').
  split; [lia |]. intros Hstuck. apply gors_stuck in Hstuck.
  destruct (gate_inv_reachable g' (nsteps_gate_reachable _ _ _ Hr Hn)) as [Ha Hw Hq Hp Hs].
  rewrite Hstuck in *. simpl in *.
  assert (Hrun : running g' = false) by (by destruct (running g')).
  split; [done |]. split; [done |]. split; [done |]. intros Ho.
  assert (Ho' : gate_open g').
  { clear - Ho Hn. induction Hn as [| n g g1 g' Hs Hn IH]; [done |].
    apply IH. exact (gors_step_open _ _ Hs Ho). }
  split.
  - destruct (unserved (events g')) eqn:Eu; [| done].
    destruct (Hs Ho' eq_refl) as [Hqq | Hl]; [| lia]. rewrite (Hq Hqq) in Hrun. done.
  - destruct Ho' as [Hc Hx]. unfold reload. by rewrite Hc, Hx, Hrun.
Qed.

(** ** After the gate has closed *)

Lemma closed_step g g' :
  gate_step g g' -> closed g = true ->
  closed g' = true /\ (wg g' <= wg g)%Z /\
  (passes_begun g' + sum_by is_starting (gors g') <= passes_begun g + sum_by is_starting (gors g))%Z.
Proof.
  intros Hs Hc. unfold passes_begun. destruct Hs as [g | g | g | i g g' Hi]; simpl; try (split_and!; done || lia).
  - unfold reload. rewrite Hc. simpl. split_and!; [done | lia | lia].
  - unfold gor_step in Hi. destruct (gors g !! i) as [p |] eqn:Hl; [| done].
    destruct p; simpl in Hi; injection Hi as <-; simpl; move_gor Hl; rewrite ?Hc, ?andb_false_r; simpl;
      split_and!; done || lia.
Qed.

(** Once the gate is closed no request starts or queues a pass: the wait group
    never grows again, so every [wg.Add] happened before the wait of shutdown,
    and at most one more pass begins, the one whose goroutine had already been
    spawned. *)
Theorem closed_gate_starts_nothing g g' :
  gate_reachable g -> closed g = true -> rtc gate_step g g' ->
  (wg g' <= wg g)%Z /\ snd (reload g') = false /\
  (passes_begun g' <= passes_begun g + 1)%Z.
Proof.
  intros Hr Hc Hrun.
  assert (H : closed g' = true /\ (wg g' <= wg g)%Z /\
    (passes_begun g' + sum_by is_starting (gors g') <= passes_begun g + sum_by is_starting (gors g))%Z).
  { clear Hr. induction Hrun as [| g g1 g' Hs Hrun IH]; [split_and!; done || lia |].
    destruct (closed_step _ _ Hs Hc) as (Hc1 & Hw & Hp). destruct (IH Hc1) as (? & ? & ?).
    split_and!; [done | lia | lia]. }
  destruct H as (Hc' & Hw & Hp). split; [exact Hw |]. split.
  { unfold reload. by rewrite Hc'. }
  destruct (gate_inv_reachable g Hr) as [Ha _ _ _ _].
  assert (Hle : (sum_by is_starting (gors g) <= sum_by is_active (gors g))%Z).
  { clear. induction (gors g) as [| p l IH]; simpl; [lia |]. destruct p; simpl; lia. }
  pose proof (sum_by_nonneg is_starting is_starting_nonneg (gors g')).
  destruct (running g); lia.
Qed.

(** ** The order of the teardown *)

(** The state that the teardown has reached after [k] of its actions. *)
Definition stage_inv (k : nat) (p : Process) : Prop :=
  dns_live p = (k <=? 2)%nat /\
  cache_open p = (k <=? 6)%nat /\ file_open p = (k <=? 7)%nat /\ db_open p = (k <=? 8)%nat /\
  ((4 < k)%nat -> closed (gate p) = true) /\
  ((5 < k)%nat -> timed_out p = true \/ wg (gate p) = 0%Z) /\
  ((k <= 5)%nat -> timed_out p = false).

Definition stage (p : Process) (k : nat) : Prop :=
  match teardown p with
  | None => k = 0%nat
  | Some rest => (k <= 9)%nat /\ rest = drop k shutdown
  end.

Definition process_inv (p : Process) : Prop :=
  gate_reachable (gate p) /\ (exists k, stage p k /\ stage_inv k p) /\
  match main_at p with
  | Selecting => True
  | AfterError => teardown p <> None /\ serve_failed p = true
  | Exited c => teardown p = Some [] /\ (c = 0%Z \/ (c = 1%Z /\ serve_failed p = true))
  end.

Lemma stage_inv_gate k p g :
  gate_reachable (gate p) -> gate_step (gate p) g -> stage_inv k p -> stage_inv k (set_gate g p).
Proof.
  intros Hr Hg (Hd & Hc & Hf & Hb & Hcl & Hw & Ht). unfold stage_inv. simpl. split_and!; try done.
  - intros Hk. exact (proj1 (closed_step _ _ Hg (Hcl Hk))).
  - intros Hk. destruct (Hw Hk) as [? | H0]; [by left | right].
    destruct (closed_step _ _ Hg (Hcl ltac:(lia))) as (_ & Hle & _).
    destruct (gate_inv_reachable g (reachable_step _ _ _ _ Hr Hg)) as [_ Hwg _ _ _].
    pose proof (sum_by_nonneg one one_nonneg (gors g)). lia.
Qed.

Lemma stage_step k a rest d p p' :
  gate_reachable (gate p) -> (k <= 9)%nat -> a :: rest = drop k shutdown -> stage_inv k p -> do_action d a p = Some p' ->
  stage_inv (S k) p' /\ gate_reachable (gate p') /\ rest = drop (S k) shutdown /\ (S k <= 9)%nat /\
  main_at p' = main_at p /\ serve_failed p' = serve_failed p.
Proof.
  intros Hr Hk Hdrop (Hd & Hc & Hf & Hb & Hcl & Hw & Ht) Ha. unfold do_action, waitWithDeadline in Ha.
  do 10 (destruct k as [| k]; [simpl in Hdrop; simplify_eq/=;
    try (destruct d; simplify_eq/=); try (destruct (wg (gate p) =? 0)%Z eqn:Hwg; simplify_eq/=); unfold stage_inv; simpl in *; breflect;
    split_and!; try done; try (intros; lia); try (intros; by auto with lia); try (by left); try (by right);
    try (eapply reachable_step; [exact Hr | constructor]) |]).
  lia.
Qed.

Lemma stage_doStop p k : stage p k -> stage (doStop p) k.
Proof. unfold stage, doStop. destruct (teardown p) eqn:E; simpl; [by rewrite E |]. intros ->. split; [lia | done]. Qed.

Lemma stage_inv_same k p p' :
  gate p' = gate p -> dns_live p' = dns_live p -> cache_open p' = cache_open p -> file_open p' = file_open p ->
  db_open p' = db_open p -> timed_out p' = timed_out p -> stage_inv k p -> stage_inv k p'.
Proof. unfold stage_inv. by intros -> -> -> -> -> ->. Qed.

Lemma process_inv_step p p' : process_inv p -> process_step p p' -> process_inv p'.
Proof.
  intros (Hr & (k & Hk & Hs) & Hm) Hstep.
  destruct Hstep as [p g Hg | p | p Hlive | d p p' Ht | e p p' He].
  - split; [exact (reachable_step _ _ _ _ Hr Hg) |]. split; [| exact Hm].
    exists k. split; [exact Hk | by apply stage_inv_gate].
  - split; [unfold doStop; by destruct (teardown p) |]. split.
    + exists k. split; [by apply stage_doStop |]. unfold doStop.
      destruct (teardown p); [done | by eapply stage_inv_same, Hs].
    + unfold doStop. destruct (teardown p) eqn:E; [by destruct (main_at p); rewrite ?E |].
      simpl. destruct (main_at p); naive_solver.
  - split; [exact Hr |]. split; [exists k; split; [exact Hk | by eapply stage_inv_same, Hs] |].
    simpl. destruct (main_at p); naive_solver.
  - unfold teardown_step in Ht. destruct (teardown p) as [[| a rest] |] eqn:E; try done.
    destruct (do_action d a p) as [p1 |] eqn:Ea; [| done]. injection Ht as <-.
    unfold stage in Hk. rewrite E in Hk. destruct Hk as [Hle Hd].
    destruct (stage_step k a rest d p p1 Hr Hle Hd Hs Ea) as (Hs1 & Hr1 & Hd1 & Hle1 & Hm1 & Hf1).
    split; [exact Hr1 |]. split; [exists (S k); split; [by split | exact Hs1] |].
    simpl. rewrite Hm1, Hf1. destruct (main_at p); [done | naive_solver | naive_solver].
  - unfold main_step in He. destruct (main_at p) eqn:Em; [destruct e | | done].
    + destruct (serve_failed p) eqn:Ef; [| done]. injection He as <-.
      split; [unfold doStop; by destruct (teardown p) |]. split.
      * exists k. split; [exact (stage_doStop p k Hk) |]. eapply stage_inv_same, Hs; unfold doStop; by destruct (teardown p).
      * simpl. unfold doStop. destruct (teardown p) eqn:E; simpl; rewrite ?E; done.
    + destruct (teardown p) as [[|] |] eqn:E; try done. injection He as <-.
      split; [exact Hr |]. split; [exists k; split; [exact Hk | by eapply stage_inv_same, Hs] |]. simpl. auto.
    + destruct (teardown p) as [[|] |] eqn:E; try done. injection He as <-.
      split; [exact Hr |]. split; [exists k; split; [exact Hk | by eapply stage_inv_same, Hs] |].
      simpl. destruct Hm. auto.
Qed.

Lemma process_inv_reachable p : process_reachable p -> process_inv p.
Proof.
  apply reachable_invariant; [| intros; eapply process_inv_step; eauto].
  intros s ->. split; [by apply reachable_init |]. split; [| done].
  exists 0%nat. split; [done |]. unfold stage_inv. simpl. split_and!; done || (intros; lia).
Qed.

(** When the teardown has ended, everything is closed. *)
Lemma teardown_done p :
  process_reachable p -> teardown p = Some [] ->
  dns_live p = false /\ cache_open p = false /\ file_open p = false /\ db_open p = false.
Proof.
  intros Hp Hdone. destruct (process_inv_reachable p Hp) as (_ & (k & Hk & Hd & Hc & Hf & Hb & _) & _).
  unfold stage in Hk. rewrite Hdone in Hk. destruct Hk as [Hle Hdrop].
  assert (k = 9%nat) as ->.
  { do 9 (destruct k as [| k]; [simpl in Hdrop; discriminate |]). lia. }
  by rewrite Hd, Hc, Hf, Hb.
Qed.

(** C7. The teardown is safe in every interleaving with queries, reloads, signals
    and a failing DNS server. While DNS queries run, the cache, the query log
    file and the database are open. Once the first of them is closed, the
    reload gate is closed, and no reload runs or can start again, unless the
    reload wait ran out of its time. The process exits only after every action
    has been done, and with code 1 only after the DNS server failed. *)
Theorem shutdown_safe p :
  process_reachable p ->
  (dns_live p = true -> cache_open p = true /\ file_open p = true /\ db_open p = true) /\
  (cache_open p && file_open p && db_open p = false ->
     closed (gate p) = true /\
     (timed_out p = true \/ forall g, rtc gate_step (gate p) g -> wg g = 0%Z /\ gors g = [])) /\
  (forall code, main_at p = Exited code ->
     teardown p = Some [] /\ dns_live p = false /\ cache_open p = false /\ file_open p = false /\
     db_open p = false /\ (code = 0%Z \/ (code = 1%Z /\ serve_failed p = true))).
Proof.
  intros Hp. destruct (process_inv_reachable p Hp) as (Hr & (k & Hk & Hd & Hc & Hf & Hb & Hcl & Hw & Ht) & Hm).
  split; [| split].
  - intros Hlive. rewrite Hd in Hlive. breflect. rewrite Hc, Hf, Hb, !Nat.leb_le. lia.
  - intros Hclosed.
    assert (Hk6 : (6 < k)%nat).
    { destruct (Nat.leb_spec k 6) as [Hle |]; [| done]. rewrite Hc, Hf, Hb in Hclosed.
      rewrite !(proj2 (Nat.leb_le _ _)) in Hclosed by lia. done. }
    specialize (Hcl ltac:(lia)). split; [done |].
    destruct (Hw ltac:(lia)) as [? | H0]; [by left | right]. intros g Hrun.
    assert (Hg : gate_reachable g) by (eapply reachable_rtc; [exact Hr | exact Hrun]).
    destruct (closed_gate_starts_nothing _ _ Hr Hcl Hrun) as (Hle & _).
    destruct (reload_single_flight g Hg) as (_ & _ & Hwg).
    pose proof (lenZ_nonneg (gors g)). unfold lenZ in *. split; [lia |].
    apply length_zero_iff_nil. lia.
  - intros code Hmain. rewrite Hmain in Hm. destruct Hm as [Hdone Hcode].
    destruct (teardown_done p Hp Hdone) as (-> & -> & -> & ->). split_and!; done || exact Hcode.
Qed.

(** Shutdown always finishes: once a signal, the service manager or a DNS
    failure has called [doStop], the actions left can be done one after the
    other, at most nine, each without waiting for anything but the reload wait
    and its deadline, and then the main goroutine returns. *)
Theorem shutdown_finishes p :
  process_reachable p -> teardown p <> None -> (forall c, main_at p <> Exited c) ->
  exists n p' p'' e code, (n <= 9)%nat /\ nsteps (fun a b => teardown_step true a = Some b) n p p' /\
    main_step e p' = Some p'' /\ main_at p'' = Exited code.
Proof.
  intros Hp Ht Hm. destruct (process_inv_reachable p Hp) as (_ & (k & Hk & _) & _).
  unfold stage in Hk. destruct (teardown p) as [rest |] eqn:E; [| done]. destruct Hk as [Hle Hdrop].
  assert (Hn : (length rest <= 9)%nat) by (rewrite Hdrop, length_drop; simpl; lia).
  clear Hdrop Hle Hp.
  assert (Hrun : exists p', nsteps (fun a b => teardown_step true a = Some b) (length rest) p p' /\
            teardown p' = Some [] /\ main_at p' = main_at p).
  { clear Hm Hn Ht. revert p E. induction rest as [| a rest IH]; intros p E.
    - exists p. split; [constructor | done].
    - assert (Ha : exists p1, do_action true a p = Some p1 /\ main_at p1 = main_at p).
      { destruct a; simpl; eexists; (split; [reflexivity | done]). }
      destruct Ha as (p1 & Ha & Hma).
      destruct (IH (set_teardown (Some rest) p1) eq_refl) as (p' & Hs & He & Hmm).
      exists p'. split; [| by rewrite Hmm].
      econstructor; [| exact Hs]. unfold teardown_step. rewrite E, Ha. done. }
  destruct Hrun as (p' & Hs & He & Hmm).
  destruct (main_at p) eqn:Em; [| | by destruct (Hm code)].
  - exists (length rest), p', (set_main (Exited 0) p'), false, 0%Z.
    split; [done |]. split; [done |]. unfold main_step. rewrite Hmm, He. done.
  - exists (length rest), p', (set_main (Exited 1) p'), false, 1%Z.
    split; [done |]. split; [done |]. unfold main_step. rewrite Hmm, He. done.
Qed.

(** ** One pass *)

(** A pass always refreshes the blocklists, after the certificate and whether
    or not the certificate loads, and a failed load keeps the certificate in
    service. *)
Lemma reload_work_refreshes now pair certs :
  exists acts, snd (reloadWork now pair certs) = acts ++ [ActRefresh] /\
    (forall r, certs = Some r -> GetCertificate r <> None -> good pair = None ->
       exists r' text, fst (reloadWork now pair certs) = Some r' /\ GetCertificate r' = GetCertificate r /\
         acts = [ActCertFailed text]).
Proof.
  unfold reloadWork. destruct certs as [r |]; [| by exists []].
  destruct (Reload now pair r) as [r' err] eqn:HR.
  destruct err as [e |]; simpl.
  - exists [ActCertFailed (err_text e)]. split; [done |]. intros r0 [= <-] Hc Hg.
    destruct (Reload_spec _ _ _ _ _ Hc HR) as (Hget & _). rewrite Hg in Hget. by exists r', (err_text e).
  - eexists [_]. split; [done |]. intros r0 [= <-] Hc Hg. exfalso.
    destruct (Reload_spec _ _ _ _ _ Hc HR) as (_ & _ & Hl & _).
    unfold Reload in HR. pose proof (load_cert_good pair r) as (_ & Hiff & _).
    destruct (load_cert pair r) as [r1 e1]. simpl in *. injection HR as _ ->.
    by apply (proj1 Hiff eq_refl).
Qed.

(** ** Examples *)

Module LifecycleExamples.
(** A request during a pass, its follow-up pass, and a stop. *)
Definition g1 : Gate := fst (reload newReloadFn).
Definition g2 : Gate := default g1 (gor_step 0 g1).
Definition g3 : Gate := fst (reload g2).

Lemma g3_reachable : gate_reachable g3.
Proof.
  apply (reachable_step _ _ g2); [| apply step_reload].
  apply (reachable_step _ _ g1); [| by apply (step_gor 0)].
  apply (reachable_step _ _ newReloadFn); [by apply reachable_init | apply step_reload].
Qed.

Lemma reload_single_flight_witness :
  gate_reachable g3 /\ passes_begun g3 = 1%Z /\ (0 <= passes_begun g3 - passes_ended g3 <= 1)%Z.
Proof.
  split; [exact g3_reachable |]. split; [reflexivity |].
  exact (proj1 (reload_single_flight g3 g3_reachable)).
Defined.

(** The goroutine alone, until it has left: the queued request gets a second
    pass. *)
Fixpoint run_first (n : nat) (g : Gate) : Gate :=
  match n with
  | O => g
  | S n' => match gor_step 0 g with Some g' => run_first n' g' | None => g end
  end.

Lemma run_first_steps n g : (forall k, (k < n)%nat -> gor_step 0 (run_first k g) <> None) ->
  nsteps gors_step n g (run_first n g).
Proof.
  revert g. induction n as [| n IH]; intros g H; [constructor |]. simpl.
  destruct (gor_step 0 g) as [g' |] eqn:E; [| by destruct (H 0%nat ltac:(lia))].
  econstructor; [by exists 0%nat |]. apply IH. intros k Hk. pose proof (H (S k) ltac:(lia)) as H'.
  simpl in H'. by rewrite E in H'.
Qed.

Lemma reload_none_lost_witness :
  gate_reachable g3 /\ unserved (events g3) = true /\
  unserved (events (run_first 6 g3)) = false /\ passes_begun (run_first 6 g3) = 2%Z.
Proof.
  split; [exact g3_reachable |]. split; [reflexivity |].
  assert (Hn : nsteps gors_step 6 g3 (run_first 6 g3)).
  { apply run_first_steps. intros k Hk. do 6 (destruct k as [| k]; [vm_compute; discriminate |]). lia. }
  destruct (reload_none_lost g3 6 (run_first 6 g3) g3_reachable Hn) as [_ H].
  destruct H as (_ & _ & _ & H); [intros g'' [i Hi]; vm_compute in Hi; discriminate |].
  split; [exact (proj1 (H (conj eq_refl eq_refl))) | reflexivity].
Defined.

Lemma closed_gate_starts_nothing_witness :
  closed (stop g3) = true /\ snd (reload (run_first 2 (stop g3))) = false /\
  (passes_begun (run_first 2 (stop g3)) <= passes_begun (stop g3) + 1)%Z.
Proof.
  assert (Hr : gate_reachable (stop g3)) by (apply (reachable_step _ _ g3); [exact g3_reachable | apply step_stop]).
  assert (Hrun : rtc gate_step (stop g3) (run_first 2 (stop g3))).
  { eapply rtc_l; [by apply (step_gor 0) |]. eapply rtc_l; [by apply (step_gor 0) |]. apply rtc_refl. }
  split; [reflexivity |].
  destruct (closed_gate_starts_nothing (stop g3) (run_first 2 (stop g3)) Hr eq_refl Hrun) as (_ & H1 & H2).
  split; [exact H1 | exact H2].
Defined.

(** A signal, then the whole teardown, with no reload running. *)
Fixpoint teardown_run (n : nat) (p : Process) : Process :=
  match n with
  | O => p
  | S n' => match teardown_step false p with Some p' => teardown_run n' p' | None => p end
  end.

Definition stopped : Process := teardown_run 9 (doStop process_start).

Lemma teardown_run_reachable n p : process_reachable p -> process_reachable (teardown_run n p).
Proof.
  revert p. induction n as [| n IH]; intros p Hp; [done |]. simpl.
  destruct (teardown_step false p) as [p' |] eqn:E; [| done].
  apply IH. eapply reachable_step; [exact Hp | by eapply step_teardown].
Qed.

Lemma stopped_reachable : process_reachable stopped.
Proof.
  apply teardown_run_reachable. eapply reachable_step; [by apply reachable_init | apply step_signal].
Qed.

Lemma shutdown_safe_witness :
  process_reachable (set_main (Exited 0) stopped) /\ closed (gate (set_main (Exited 0) stopped)) = true /\
  db_open (set_main (Exited 0) stopped) = false.
Proof.
  assert (Hp : process_reachable (set_main (Exited 0) stopped)).
  { eapply reachable_step; [exact stopped_reachable | by apply (step_main false)]. }
  split; [exact Hp |].
  destruct (shutdown_safe (set_main (Exited 0) stopped) Hp) as (_ & H2 & H3).
  split; [exact (proj1 (H2 eq_refl)) |]. destruct (H3 0%Z eq_refl) as (_ & _ & _ & _ & Hdb & _). exact Hdb.
Defined.

Lemma shutdown_finishes_witness :
  teardown (doStop process_start) <> None /\
  exists n p' p'' e code, (n <= 9)%nat /\
    nsteps (fun a b => teardown_step true a = Some b) n (doStop process_start) p' /\
    main_step e p' = Some p'' /\ main_at p'' = Exited code.
Proof.
  split; [discriminate |].
  apply (shutdown_finishes (doStop process_start)).
  - eapply reachable_step; [by apply reachable_init | apply step_signal].
  - discriminate.
  - intros c. discriminate.
Defined.
End LifecycleExamples.
