(* ===== verification/ErrorLog.v ===== *)
(** * The error log of the admin server (internal/api/errorlog.go)

    net/http writes lines that name the client. [redactAddrs] replaces every
    address in them, [errorLogWriter_Write] turns a line into one record. The
    panics of the source's slice expression are [None]. *)

From stdpp Require Import base numbers list strings.
From Stdlib Require Import Ascii ZArith Lia.
From S2P Require Import Prelude.
From S2P Require Import GoStrings.
From S2P Require Import GoRegexp.
From S2P Require Import GoNet.

Open Scope string_scope.

(** ** The pattern *)

Definition is_hex (c : ascii) : bool := is_digit c || in_byte_range "a" "f" c || in_byte_range "A" "F" c.

(** [[0-9A-Fa-f:.]] and [[0-9A-Fa-f.]]. *)
Definition is_hexdot (c : ascii) : bool := is_hex c || Ascii.eqb c dot.
Definition is_hexcolon (c : ascii) : bool := is_hexdot c || Ascii.eqb c ":"%char.

(** Tab, line feed, form feed, carriage return, space. *)
Definition is_blank (c : ascii) : bool :=
  byte_is 9 c || byte_is 10 c || byte_is 12 c || byte_is 13 c || byte_is 32 c.

(** [[^\]\s]]. *)
Definition is_zone_in_brackets (c : ascii) : bool := negb (Ascii.eqb c "]"%char || is_blank c).

(** [[0-9A-Za-z_.-]]. *)
Definition is_zone (c : ascii) : bool := is_word c || Ascii.eqb c dot || Ascii.eqb c "-"%char.

(** [(?::\d+)?]. *)
Definition opt_port : regexp := ROpt (RSeq (RByte ":") (RSome is_digit)).

Definition addr_bracketed : regexp :=
  RSeq (RByte "[") (RSeq (RSome is_hexcolon)
    (RSeq (ROpt (RSeq (RByte "%") (RSome is_zone_in_brackets))) (RSeq (RByte "]") opt_port))).

Definition dotted_field : regexp := RSeq (RByte dot) (RUpTo3 is_digit).

Definition addr_dotted : regexp :=
  RSeq RBoundary (RSeq (RUpTo3 is_digit)
    (RSeq (RSeq dotted_field (RSeq dotted_field dotted_field)) (RSeq opt_port RBoundary))).

Definition addr_bare6 : regexp :=
  RSeq (RMany is_hex) (RSeq (RByte ":") (RSeq (RMany is_hexcolon) (RSeq (RByte ":")
    (RSeq (RMany is_hexdot) (ROpt (RSeq (RByte "%") (RSome is_zone))))))).

Definition addrPattern : regexp := RAlt addr_bracketed (RAlt addr_dotted addr_bare6).

(** ** The replacement *)

Definition isAddr (s : string) : bool := match ParseAddr s with Some _ => true | None => false end.

(** [strings.Count(s, ":")]. *)
Fixpoint count_byte (c : ascii) (s : string) : nat :=
  match s with "" => 0 | String d s' => (if Ascii.eqb c d then 1 else 0) + count_byte c s' end%nat.

Definition CutPrefix (s p : string) : option string :=
  if has_prefix p s then Some (drop_bytes (String.length p) s) else None.
Definition CutSuffix (s x : string) : option string :=
  if has_suffix s x then Some (take_bytes (String.length s - String.length x) s) else None.

(** The last case of the replacement: the match without the colon [pre] before
    it and the colon [post] after it. *)
Definition try_cut (m : string) (cut : string * string) : option string :=
  let '(pre, post) := cut in
  match CutPrefix m pre with
  | None => None
  | Some a => match CutSuffix a post with
              | None => None
              | Some addr => if isAddr addr then Some (pre +:+ "client" +:+ post) else None
              end
  end.

Fixpoint first_Some {A B} (f : A -> option B) (l : list A) : option B :=
  match l with [] => None | x :: l' => match f x with Some y => Some y | None => first_Some f l' end end.

Definition redact_match (m : string) : option string :=
  if has_prefix "[" m then
    match cut_byte "]"%char m with
    | None => None    (* m[1:-1] *)
    | Some (u, _) => Some (if isAddr (drop_bytes 1 u) then "client" else m)
    end
  else if (count_byte ":" m <=? 1)%nat then
    let host := match cut_byte ":"%char m with Some (u, _) => u | None => m end in
    Some (if isAddr host then "client" else m)
  else Some (default m (first_Some (try_cut m) [("", ""); ("", ":"); (":", ""); (":", ":")])).

Definition redactAddrs (s : string) : option string := ReplaceAllStringFunc addrPattern redact_match s.

(** ** The writer *)

(** [strings.TrimRight(s, "\n")]. *)
Fixpoint trim_newlines (s : string) : string :=
  match s with
  | "" => ""
  | String c s' => match trim_newlines s' with
                   | "" => if Ascii.eqb c newline then "" else String c ""
                   | t => String c t
                   end
  end.

(** A record of the api logger at ERROR: [detail], and [stack] when there is
    one. *)
Record ErrorRecord := mkErrorRecord { er_detail : string; er_stack : option string }.

(** [errorLogWriter.Write]: the record, and the number of bytes it reports. *)
Definition errorLogWriter_Write (p : string) : option (ErrorRecord * Z) :=
  match redactAddrs (trim_newlines p) with
  | None => None
  | Some text =>
      let '(msg, stack) := match cut_byte newline text with Some (u, v) => (u, v) | None => (text, "") end in
      Some (mkErrorRecord msg (if (stack =? "")%string then None else Some stack), slen p)
  end.

(** ** Examples *)

Example redact_forms :
  map redactAddrs
    ["http: panic serving 192.168.1.20:57082: boom"; "http: panic serving [fe80::1%eth0]:5678: boom";
     "bad peer ::ffff:192.168.1.20"; "dial 2001:db8::1: connection refused"; "bad peer from:2001:db8::1";
     "peers 192.168.1.20 and 2001:db8::2"; "peer=10.1.2.3,"; "(192.168.1.20)"]
  = map Some
    ["http: panic serving client: boom"; "http: panic serving client: boom"; "bad peer client";
     "dial client: connection refused"; "bad peer from:client"; "peers client and client"; "peer=client,"; "(client)"].
Proof. vm_compute. reflexivity. Qed.

Example redact_keeps :
  let l := ["at 12:34:56"; "at 12:34:56.789"; "in server.go:1908"; "ptr 0xc000123456 +0x1a5";
            "mac 00:1a:2b:3c:4d:5e"; "version 1.2.3"; "ratio 3:2"; "key=value: ok"] in
  map redactAddrs l = map Some l.
Proof. vm_compute. reflexivity. Qed.

(** An address right after a time of day is taken for one word with it, which is
    not an address, and stays. *)
Example glued_kept : redactAddrs "12:34:192.168.1.20 gone" = Some "12:34:192.168.1.20 gone".
Proof. vm_compute. reflexivity. Qed.

(** ** The replacement never panics *)

Lemma ends_bracketed_close w s w' rest :
  (w', rest) ∈ ends addr_bracketed (w, s) -> exists u x, s = u +:+ String "]" (x +:+ rest).
Proof.
  unfold addr_bracketed.
  intros ([w1 s1] & H1%ends_suffix & H2)%ends_seq. apply ends_seq in H2 as ([w2 s2] & H2%ends_suffix & H3).
  apply ends_seq in H3 as ([w3 s3] & H3%ends_suffix & H4).
  apply ends_seq in H4 as ([w4 s4] & H4 & H5%ends_suffix).
  destruct H1 as [m1 H1], H2 as [m2 H2], H3 as [m3 H3], H5 as [m5 H5]. cbn [snd] in *. subst.
  cbn [ends RByte snd] in H4. destruct s3 as [|c s3]; [by apply elem_of_nil in H4 |].
  destruct (Ascii.eqb_spec "]" c) as [<-|]; [|by apply elem_of_nil in H4].
  apply list_elem_of_singleton in H4. injection H4 as -> <-.
  exists (m1 +:+ m2 +:+ m3), m5. by rewrite !string_app_assoc.
Qed.

Lemma ends_dotted_none w c s : is_digit c = false -> ends addr_dotted (w, String c s) = [].
Proof.
  intros Hc. apply ends_seq_stuck. intros q Hq. cbn [ends] in Hq.
  destruct (at_boundary _); [|by apply elem_of_nil in Hq]. apply list_elem_of_singleton in Hq as ->.
  apply ends_seq_none, ends_seq_none. by apply ends_class_none.
Qed.

Lemma ends_bare6_none w c s : is_hexcolon c = false -> ends addr_bare6 (w, String c s) = [].
Proof.
  unfold is_hexcolon, is_hexdot. rewrite !orb_false_iff. intros [[Hh _] Hc]. apply ends_seq_stuck. intros q Hq.
  cbn [ends fst snd many_ends] in Hq. rewrite Hh in Hq. apply list_elem_of_singleton in Hq as ->.
  apply ends_seq_none, ends_class_none. simpl. destruct (Ascii.eqb_spec ":" c) as [<-|]; [|done].
  by vm_compute in Hc.
Qed.

Lemma cut_byte_inside c u v : exists a b, cut_byte c (u +:+ String c v) = Some (a, b).
Proof.
  destruct (cut_byte c (u +:+ String c v)) as [[a b]|] eqn:H; [by exists a, b |].
  apply cut_byte_None in H. exfalso. apply H. by exists u, v.
Qed.

Lemma redact_match_total w s w' rest :
  first_end addrPattern (w, s) = Some (w', rest) -> exists t, redact_match (matched s rest) = Some t.
Proof.
  intros He. apply first_end_suffix in He as [He Hs]. unfold redact_match.
  destruct (has_prefix "[" (matched s rest)) eqn:Hp; [|destruct (_ <=? _)%nat; eexists; reflexivity].
  apply has_prefix_spec in Hp as [m Hm]. rewrite Hm in Hs |- *. rewrite Hs in He.
  change (("[" +:+ m) +:+ rest) with (String "[" (m +:+ rest)) in He.
  apply ends_alt in He as [He | [He|He]%ends_alt].
  - apply ends_bracketed_close in He as (u & x & Hu).
    assert ("[" +:+ m = u +:+ String "]" x) as ->.
    { assert (("[" +:+ m) +:+ rest = (u +:+ String "]" x) +:+ rest) as Heq by (rewrite (string_app_assoc u); exact Hu).
      pose proof (matched_app ("[" +:+ m) rest) as H1. pose proof (matched_app (u +:+ String "]" x) rest) as H2.
      congruence. }
    destruct (cut_byte_inside "]" u x) as (a & b & ->). by eexists.
  - rewrite ends_dotted_none in He by reflexivity. by apply elem_of_nil in He.
  - rewrite ends_bare6_none in He by reflexivity. by apply elem_of_nil in He.
Qed.

Lemma redactAddrs_total s : exists t, redactAddrs s = Some t.
Proof. apply replace_from_total. intros. by eapply redact_match_total. Qed.

(** ** Text without an address stays *)

Lemma first_Some_cases {A B} (f : A -> option B) l :
  match first_Some f l with Some y => exists x, x ∈ l /\ f x = Some y | None => True end.
Proof.
  induction l as [|x l IH]; simpl; [done |]. destruct (f x) as [y|] eqn:Hx; [exists x; by split; [left |] |].
  destruct (first_Some f l); [|done]. destruct IH as (x' & H1 & H2). exists x'. split; [by right | done].
Qed.

Lemma CutPrefix_spec s p a : CutPrefix s p = Some a -> s = p +:+ a.
Proof.
  unfold CutPrefix. destruct (has_prefix p s) eqn:H; [|done]. apply has_prefix_spec in H as [r ->].
  intros [= <-]. by rewrite drop_bytes_app.
Qed.

Lemma CutSuffix_spec s x a : CutSuffix s x = Some a -> s = a +:+ x.
Proof.
  unfold CutSuffix. destruct (has_suffix s x) eqn:H; [|done]. apply has_suffix_spec in H as [r ->].
  intros [= <-]. rewrite string_length_app. replace (_ - _)%nat with (String.length r) by lia. by rewrite take_bytes_app.
Qed.

(** What the replacement can return: the match, [client], or an address of the
    match turned into [client], with the text around it kept. *)
Lemma redact_match_cases m t :
  redact_match m = Some t -> t = m \/ exists a ip b, m = a +:+ ip +:+ b /\ isAddr ip = true /\
    (t = "client" \/ t = a +:+ "client" +:+ b).
Proof.
  unfold redact_match. destruct (has_prefix "[" m) eqn:Hp.
  - apply has_prefix_spec in Hp as [r ->].
    destruct (cut_byte _ _) as [[u v]|] eqn:Hc; [|done]. apply cut_byte_Some in Hc as [Hc _].
    destruct u as [|c u]; [by injection Hc |]. injection Hc as <- ->. cbn [drop_bytes].
    destruct (isAddr u) eqn:Ha; intros [= <-]; [|by left]. right. exists "[", u, (String "]" v). auto.
  - destruct (_ <=? _)%nat.
    + destruct (cut_byte _ _) as [[u v]|] eqn:Hc.
      * apply cut_byte_Some in Hc as [-> _]. destruct (isAddr u) eqn:Ha; intros [= <-]; [|by left].
        right. exists "", u, (String ":" v). auto.
      * destruct (isAddr m) eqn:Ha; intros [= <-]; [|by left]. right. exists "", m, "".
        rewrite string_app_nil_r. auto.
    + pose proof (first_Some_cases (try_cut m) [("", ""); ("", ":"); (":", ""); (":", ":")]) as H.
      destruct (first_Some _ _) as [y|]; intros [= <-]; [|by left]. right.
      destruct H as ([pre post] & _ & Hy). unfold try_cut in Hy.
      destruct (CutPrefix m pre) as [a|] eqn:Ha; [|done]. apply CutPrefix_spec in Ha as ->.
      destruct (CutSuffix a post) as [ip|] eqn:Hip; [|done]. apply CutSuffix_spec in Hip as ->.
      destruct (isAddr ip) eqn:Hi; [|done]. injection Hy as <-. exists pre, ip, post. auto.
Qed.

(** The text of a line is kept, byte for byte, except where an address is, and
    the replacement never panics. *)
Lemma redactAddrs_kept s :
  (forall a ip b, s = a +:+ ip +:+ b -> isAddr ip = false) -> redactAddrs s = Some s.
Proof.
  intros Hs. destruct (redactAddrs_total s) as [t Ht]. rewrite Ht. f_equal. symmetry.
  revert Ht. apply (replace_from_rel _ _ eq); [done | by intros ??? -> | by intros ???? -> -> |].
  intros a m b -> t' [-> | (a' & ip & b' & -> & Hi & _)]%redact_match_cases; [done |].
  rewrite (Hs (a +:+ a') ip (b' +:+ b)) in Hi; [done |]. by rewrite !string_app_assoc.
Qed.

(** No replacement adds a line break. *)
Lemma redactAddrs_no_newline s t : no_byte newline s -> redactAddrs s = Some t -> no_byte newline t.
Proof.
  intros Hs Ht. revert t Ht Hs. refine (replace_from_rel _ _ (fun s t => no_byte newline s -> no_byte newline t) _ _ _ _ _ _).
  - done.
  - intros c x y Hxy. rewrite !no_byte_cons. tauto.
  - intros m y x x' Hm Hx. rewrite !no_byte_app. tauto.
  - intros a m b -> y [-> | (a' & ip & b' & -> & _ & [-> | ->])]%redact_match_cases; [done | |].
    + intros _. by apply no_byte_bool.
    + rewrite !no_byte_app. intros (H1 & _ & H2). split_and!; [done | by apply no_byte_bool | done].
Qed.

(** ** The text of an address *)

Lemma string_forallb_app f a b : string_forallb f (a +:+ b) = string_forallb f a && string_forallb f b.
Proof. induction a as [|c a IH]; [done |]. simpl. by rewrite IH, andb_assoc. Qed.

Lemma count_byte_app c a b : count_byte c (a +:+ b) = (count_byte c a + count_byte c b)%nat.
Proof. induction a as [|d a IH]; [done |]. simpl. rewrite IH. lia. Qed.

Lemma count_byte_none c s : no_byte c s -> count_byte c s = 0%nat.
Proof.
  induction s as [|d s IH]; [done |]. rewrite no_byte_cons. intros [Hd Hs]. simpl. rewrite IH by done.
  by destruct (Ascii.eqb_spec c d).
Qed.

(** A byte test implies another: by computation over all bytes. *)
Lemma byte_impl (f g : ascii -> bool) :
  forallb (fun c => implb (f c) (g c)) all_bytes = true -> forall c, f c = true -> g c = true.
Proof. intros H c Hf. pose proof (byte_ind_bool _ H c) as Hi. simpl in Hi. by rewrite Hf in Hi. Qed.

Lemma digits_hexcolon s : string_forallb is_digit s = true -> string_forallb is_hexcolon s = true.
Proof. apply string_forallb_impl, byte_impl. vm_compute. reflexivity. Qed.

Lemma no_byte_class (f : ascii -> bool) c s : f c = false -> string_forallb f s = true -> no_byte c s.
Proof.
  intros Hc Hs. apply no_byte_bool. revert Hs. apply string_forallb_impl. intros d Hd.
  apply negb_true_iff, Ascii.eqb_neq. intros ->. congruence.
Qed.

(** The four fields of a dotted address. *)
Definition is_field (x : string) : Prop :=
  string_forallb is_digit x = true /\ x <> "" /\ (String.length x <= 3)%nat.

Lemma parse_octet_field x v : parse_octet x = Some v -> is_field x.
Proof.
  unfold parse_octet, is_field. destruct (String.eqb_spec x ""); [done |]. cbn [orb].
  destruct (string_forallb is_digit x); cbn [negb]; [|done].
  destruct (has_prefix "0" x && negb (x =? "0")%string); [done |].
  destruct (Z.ltb_spec 3 (slen x)); [done |]. unfold slen in *. intros _. split_and!; [done | done | lia].
Qed.

Lemma split_byte_rejoin c s : s = join (String c "") (split_byte c s).
Proof.
  induction s as [|d s IH]; [done |]. simpl. destruct (Ascii.eqb_spec d c) as [->|].
  - destruct (split_byte c s) eqn:E; [|by rewrite IH].
    exfalso. destruct s as [|e s]; [done |]. simpl in E. destruct (Ascii.eqb e c); [done |]. by destruct (split_byte c s).
  - destruct (split_byte c s) as [|l [|l2 ls]] eqn:E; rewrite IH; done.
Qed.

Definition dotted (s : string) : Prop :=
  exists x1 x2 x3 x4, s = x1 +:+ String dot (x2 +:+ String dot (x3 +:+ String dot x4)) /\
    is_field x1 /\ is_field x2 /\ is_field x3 /\ is_field x4.

Lemma parse_ipv4_dotted s a : parse_ipv4 s = Some a -> dotted s.
Proof.
  unfold parse_ipv4. intros H. pose proof (split_byte_rejoin dot s) as Hs.
  destruct (split_byte dot s) as [|x1 [|x2 [|x3 [|x4 [|x5 l]]]]]; simpl in H;
    try done; repeat (match type of H with context [parse_octet ?x] => destruct (parse_octet x) eqn:? end; try done).
  simpl in Hs. exists x1, x2, x3, x4. split; [done |]. by split_and!; eapply parse_octet_field.
Qed.

Lemma dotted_chars s : dotted s -> string_forallb is_hexdot s = true.
Proof.
  assert (forall x, is_field x -> string_forallb is_hexdot x = true) as Hf.
  { intros x (Hx & _). revert Hx. apply string_forallb_impl, byte_impl. vm_compute. reflexivity. }
  intros (x1 & x2 & x3 & x4 & -> & H1 & H2 & H3 & H4).
  rewrite string_forallb_app. simpl. rewrite string_forallb_app. simpl. rewrite string_forallb_app. simpl.
  by rewrite !Hf.
Qed.

Lemma scan_hex_spec s acc n v k rest :
  scan_hex s acc n = Some (v, k, rest) -> exists u, s = u +:+ rest /\ string_forallb is_hex u = true /\ starts is_hex rest = false.
Proof.
  revert acc n. induction s as [|c s IH]; intros acc n; cbn [scan_hex].
  - intros [= _ _ <-]. by exists "".
  - assert (hex_val c = None -> is_hex c = false) as Hn.
    { unfold hex_val, is_hex. destruct (is_digit c); [done |].
      destruct (in_byte_range "a" "f" c); [done |]. by destruct (in_byte_range "A" "F" c). }
    assert (forall x, hex_val c = Some x -> is_hex c = true) as Hy.
    { intros x. unfold hex_val, is_hex. destruct (is_digit c); [done |].
      destruct (in_byte_range "a" "f" c); [done |]. by destruct (in_byte_range "A" "F" c). }
    destruct (hex_val c) as [x|].
    + destruct (3 <? n)%nat; [done |]. intros (u & -> & Hu & Hr)%IH. exists (String c u).
      simpl. by rewrite (Hy x).
    + intros [= _ _ <-]. exists "". simpl. auto.
Qed.

Lemma hex_hexcolon s : string_forallb is_hex s = true -> string_forallb is_hexcolon s = true.
Proof. apply string_forallb_impl, byte_impl. vm_compute. reflexivity. Qed.

Lemma hexdot_hexcolon s : string_forallb is_hexdot s = true -> string_forallb is_hexcolon s = true.
Proof. apply string_forallb_impl, byte_impl. vm_compute. reflexivity. Qed.

Lemma has_prefix_cons c s : has_prefix (String c "") s = true -> exists r, s = String c r.
Proof. intros [r ->]%has_prefix_spec. by exists r. Qed.

(** What the loop of the IPv6 parser takes: hex digits, colons and dots; and the
    colons it passes are as many as the groups need. *)
Lemma parse6_loop_text fuel s gs e gs' e' :
  parse6_loop fuel s gs e = Some (gs', e', "") ->
  string_forallb is_hexcolon s = true /\
  (e <> None \/ (2 <= count_byte ":" s)%nat \/ (e' = None /\ (length gs' <= length gs + count_byte ":" s + 2)%nat)).
Proof.
  revert s gs e. induction fuel as [|fuel IH]; intros s gs e; cbn [parse6_loop].
  { intros [= <- <- ->]. simpl. split; [done |]. destruct e; [by left |]. right; right. split; [done | lia]. }
  destruct (scan_hex s 0 0) as [[[acc [|k]] rest]|] eqn:Hs; [done | | done].
  apply scan_hex_spec in Hs as (u & -> & Hu & _).
  rewrite string_forallb_app, (hex_hexcolon u), count_byte_app by done. cbn [andb].
  destruct (has_prefix "." rest) eqn:Hdot.
  - destruct (match e with Some _ => _ | None => _ end) eqn:He1; [done |].
    destruct (6 <? length gs)%nat; [done |].
    destruct (parse_ipv4 (u +:+ rest)) as [v|] eqn:H4; [|done]. intros [= <- <-].
    apply parse_ipv4_dotted, dotted_chars, hexdot_hexcolon in H4.
    rewrite string_forallb_app, (hex_hexcolon u) in H4 by done. split; [done |].
    destruct e; [by left |]. right; right. split; [done |]. rewrite length_app. simpl. lia.
  - destruct rest as [|c rest'].
    { intros [= <- <-]. split; [done |]. destruct e; [by left |]. right; right. rewrite length_app. simpl. split; [done | lia]. }
    destruct (Ascii.eqb_spec c ":") as [->|]; [|done]. cbn [negb orb].
    destruct (rest' =? "")%string; [done |]. destruct rest' as [|c' rest'']; [done |].
    destruct (Ascii.eqb_spec c' ":") as [->|].
    + destruct e as [|]; [done |]. destruct (String.eqb_spec rest'' "") as [->|].
      * intros [= <- <-]. split; [done |]. right; left. simpl. lia.
      * intros [Hc _]%IH. split; [exact Hc |]. right; left. simpl. lia.
    + intros [Hc Hn]%IH. split; [exact Hc |]. rewrite length_app in Hn. cbn [count_byte length] in Hn |- *.
      rewrite Ascii.eqb_refl. destruct Hn as [Hn|[Hn|[-> Hn]]]; [by left | right; left; lia | right; right; split; [done | lia]].
Qed.

(** An IPv6 address without a zone: hex digits, colons and dots, at least two
    colons. *)
Definition ipv6_text (s : string) : Prop :=
  string_forallb is_hexcolon s = true /\ (2 <= count_byte ":" s)%nat.

Lemma parse_ipv6_text s ip :
  parse_ipv6 s = Some ip ->
  exists base, ipv6_text base /\ (s = base \/ exists z, z <> "" /\ s = base +:+ String "%" z).
Proof.
  unfold parse_ipv6.
  assert (forall s z, (let '(s, ellipsis) := if has_prefix "::" s then (drop_bytes 2 s, Some 0%nat) else (s, None) in
    if (s =? "")%string && bool_decide (ellipsis = Some 0%nat) then Some (Addr6 0 z)
    else match parse6_loop 8 s [] ellipsis with
    | Some (gs, e, "") => (fun a => Addr6 a z) <$> expand6 gs e
    | _ => None
    end) = Some ip -> ipv6_text s) as Hbase.
  { intros s0 z. destruct (has_prefix "::" s0) eqn:Hp.
    - apply has_prefix_spec in Hp as [r ->]. change (drop_bytes 2 ("::" +:+ r)) with r.
      unfold ipv6_text. rewrite string_forallb_app, count_byte_app.
      destruct (String.eqb_spec r "") as [->|]; [intros _; vm_compute; auto |]. cbn [andb].
      destruct (parse6_loop 8 r [] _) as [[[gs e] [|]]|] eqn:Hl; [|done..].
      apply parse6_loop_text in Hl as [-> _]. intros _. split; [done |]. simpl. lia.
    - rewrite andb_false_r. destruct (parse6_loop 8 s0 [] None) as [[[gs e] [|]]|] eqn:Hl; [|done..].
      apply parse6_loop_text in Hl as [Hc [Hn | [Hn | [-> Hn]]]]; [done | intros _; by split |].
      unfold expand6. destruct (Nat.eqb_spec (length gs) 8); [|done]. intros _. split; [done |]. simpl in Hn. lia. }
  destruct (cut_byte "%" s) as [[base z]|] eqn:Hc.
  - apply cut_byte_Some in Hc as [-> _]. destruct (String.eqb_spec z ""); [done |].
    intros H. exists base. split; [by eapply Hbase | right; by exists z].
  - intros H. exists s. split; [by eapply Hbase | by left].
Qed.

(** ** Where the pattern matches *)

Lemma first_mark_hex c s : is_hex c = true -> first_mark (String c s) = first_mark s.
Proof.
  intros Hc. cbn [first_mark]. assert (Ascii.eqb c dot || Ascii.eqb c ":" || Ascii.eqb c "%" = false) as ->; [|done].
  apply negb_true_iff. revert c Hc. apply byte_impl. vm_compute. reflexivity.
Qed.

(** An optional port: [p] is the port that the text after an address has. *)
Definition port_part (p rest : string) : Prop :=
  (p = "" /\ match rest with String c r => c = ":"%char -> starts is_digit r = false | "" => True end) \/
  (exists d, p = String ":" d /\ string_forallb is_digit d = true /\ d <> "" /\ starts is_digit rest = false).

Lemma first_opt_port w p rest :
  port_part p rest -> first_end opt_port (w, p +:+ rest) = Some (last_word w p, rest).
Proof.
  intros [[-> Hr] | (d & -> & Hd & Hn & Hr)].
  - apply first_opt_none. change ("" +:+ rest) with rest. destruct rest as [|c r]; [done |].
    destruct (decide (c = ":"%char)) as [->|Hc].
    + apply ends_seq_stuck. intros q Hq. simpl in Hq. apply list_elem_of_singleton in Hq as ->.
      apply ends_seq_none. by apply ends_class_none, Hr.
    + apply ends_seq_none, ends_class_none. cbn [starts]. by apply Ascii.eqb_neq, not_eq_sym.
  - apply first_opt. eapply first_seq; [apply first_byte |].
    exact (first_some is_digit (is_word ":") d rest Hd Hn Hr).
Qed.

Lemma digits_last_word w x : string_forallb is_digit x = true -> x <> "" -> last_word w x = true.
Proof. apply last_word_all, byte_impl. vm_compute. reflexivity. Qed.

Lemma port_last_word p rest : port_part p rest -> last_word true p = true.
Proof. intros [[-> _] | (d & -> & Hd & Hn & _)]; [done | exact (digits_last_word _ d Hd Hn)]. Qed.

Lemma starts_digit_word s : starts is_word s = false -> starts is_digit s = false.
Proof.
  destruct s as [|c s]; [done |]. simpl. intros Hc. destruct (is_digit c) eqn:Hd; [|done].
  unfold is_word in Hc. by rewrite Hd in Hc.
Qed.

Lemma first_field w x rest :
  is_field x -> starts is_digit rest = false -> first_end (RUpTo3 is_digit) (w, x +:+ rest) = Some (true, rest).
Proof. intros (Hx & Hn & Hl) Hr. rewrite first_upto3 by done. by rewrite digits_last_word. Qed.

Lemma first_dotted_field w x rest :
  is_field x -> starts is_digit rest = false -> first_end dotted_field (w, String dot (x +:+ rest)) = Some (true, rest).
Proof. intros Hx Hr. eapply first_seq; [apply first_byte |]. by apply first_field. Qed.

Lemma field_boundary x rest : is_field x -> at_boundary (false, x +:+ rest) = true.
Proof.
  intros (Hx & Hn & _). destruct x as [|c x]; [done |]. simpl in Hx. apply andb_true_iff in Hx as [Hc _].
  unfold at_boundary, is_word. simpl. by rewrite Hc.
Qed.

(** A dotted address with or without a port, up to the end of the word. *)
Lemma first_dotted s p rest :
  dotted s -> port_part p rest -> starts is_word rest = false ->
  first_end addr_dotted (false, s +:+ p +:+ rest) = Some (true, rest).
Proof.
  intros (x1 & x2 & x3 & x4 & -> & H1 & H2 & H3 & H4) Hp Hw.
  assert (starts is_digit (p +:+ rest) = false) as Hpr.
  { destruct Hp as [[-> _] | (d & -> & _)]; [by apply starts_digit_word | done]. }
  rewrite string_app_assoc. cbn [String.append]. rewrite string_app_assoc. cbn [String.append].
  rewrite string_app_assoc. cbn [String.append].
  eapply first_seq; [apply first_boundary, field_boundary; done |].
  eapply first_seq; [by apply first_field |].
  eapply first_seq; [eapply first_seq; [by apply first_dotted_field |]; eapply first_seq; by apply first_dotted_field |].
  pose proof (first_opt_port true p rest Hp) as Ho. rewrite (port_last_word _ _ Hp) in Ho.
  eapply first_seq; [exact Ho |]. apply first_boundary.
  unfold at_boundary. cbn [fst snd]. destruct rest; [done |]. simpl in Hw. by rewrite Hw.
Qed.

(** A text in brackets, with or without a zone and a port. *)
Lemma first_bracketed w base zone p rest :
  string_forallb is_hexcolon base = true -> base <> "" ->
  (zone = "" \/ exists z, zone = String "%" z /\ z <> "" /\ string_forallb is_zone_in_brackets z = true) ->
  port_part p rest ->
  exists w', first_end addr_bracketed (w, String "[" (base +:+ zone +:+ String "]" (p +:+ rest))) = Some (w', rest).
Proof.
  intros Hb Hn Hz Hp. eexists. unfold addr_bracketed.
  eapply first_seq; [apply first_byte |]. eapply first_seq.
  { apply first_some; [done | done |]. by destruct Hz as [-> | (z & -> & _)]. }
  eapply first_seq.
  { instantiate (1 := (last_word (last_word (is_word "[") base) zone, String "]" (p +:+ rest))).
    destruct Hz as [-> | (z & -> & Hzn & Hz)].
    - apply first_opt_none, ends_seq_none. by apply ends_class_none.
    - apply first_opt. eapply first_seq; [apply first_byte |].
      exact (first_some is_zone_in_brackets _ z (String "]" (p +:+ rest)) Hz Hzn eq_refl). }
  eapply first_seq; [apply first_byte |]. by apply first_opt_port.
Qed.

(** An IPv6 address is cut at its first and its last colon. *)
Lemma cut_last_colon s : (1 <= count_byte ":" s)%nat -> exists u v, s = u +:+ String ":" v /\ no_byte ":" v.
Proof.
  induction s as [|c s IH]; cbn [count_byte]; [lia |]. intros Hc. destruct (decide (1 <= count_byte ":" s)%nat) as [H|H].
  - destruct (IH H) as (u & v & -> & Hv). by exists (String c u), v.
  - destruct (Ascii.eqb_spec ":" c) as [<-|]; [|lia]. exists "", s. split; [done |].
    clear IH Hc. induction s as [|d s IH]; [apply no_byte_nil |]. cbn [count_byte] in H.
    destruct (Ascii.eqb_spec ":" d); [lia |]. apply no_byte_cons. split; [congruence | apply IH; lia].
Qed.

Lemma cut_first_colon s :
  string_forallb is_hexcolon s = true -> first_mark s = Some ":"%char ->
  exists h t, s = h +:+ String ":" t /\ string_forallb is_hex h = true.
Proof.
  induction s as [|c s IH]; [done |]. cbn [string_forallb]. rewrite andb_true_iff. intros [Hc Hs] Hm.
  destruct (is_hex c) eqn:Hh.
  - rewrite first_mark_hex in Hm by done. destruct (IH Hs Hm) as (h & t & -> & Hx).
    exists (String c h), t. simpl. by rewrite Hh.
  - exists "", s. split; [|done]. unfold is_hexcolon, is_hexdot in Hc. rewrite Hh in Hc. cbn [orb] in Hc.
    
    destruct (Ascii.eqb_spec c dot) as [->|]; [by cbn in Hm |]. cbn [orb] in Hc. by apply Ascii.eqb_eq in Hc as ->.
Qed.

(** An IPv6 address, and the zone behind it. *)
Lemma first_bare6 w s zone rest :
  string_forallb is_hexcolon s = true -> (2 <= count_byte ":" s)%nat -> first_mark s = Some ":"%char ->
  (zone = "" /\ starts is_hexcolon rest = false /\ starts (Ascii.eqb "%") rest = false \/
   exists z, zone = String "%" z /\ z <> "" /\ string_forallb is_zone z = true /\ starts is_zone rest = false) ->
  exists w', first_end addr_bare6 (w, s +:+ zone +:+ rest) = Some (w', rest).
Proof.
  intros Hs Hn Hm Hz. destruct (cut_first_colon s Hs Hm) as (h & t & -> & Hh).
  rewrite string_forallb_app in Hs. apply andb_true_iff in Hs as [_ Hs]. cbn [string_forallb] in Hs.
  apply andb_true_iff in Hs as [_ Hs]. rewrite count_byte_app in Hn. cbn [count_byte] in Hn.
  rewrite (count_byte_none ":" h (no_byte_class is_hex ":" h eq_refl Hh)), Ascii.eqb_refl in Hn.
  destruct (cut_last_colon t) as (u & v & -> & Hv); [lia |].
  rewrite string_forallb_app in Hs. apply andb_true_iff in Hs as [Hu Hs]. cbn [string_forallb] in Hs.
  apply andb_true_iff in Hs as [_ Hs].
  assert (starts is_hexcolon (zone +:+ rest) = false) as Hzr by (by destruct Hz as [(-> & ? & _) | (z & -> & _)]).
  assert (forall x y, (x +:+ String ":" y) +:+ zone +:+ rest = x +:+ String ":" (y +:+ zone +:+ rest)) as Happ
    by (intros; by rewrite string_app_assoc).
  assert (forall w, exists w', first_end (ROpt (RSeq (RByte "%") (RSome is_zone))) (w, zone +:+ rest) = Some (w', rest)) as Hopt.
  { intros w0. destruct Hz as [(-> & _ & Hp) | (z & -> & Hzn & Hz & Hr)]; eexists.
    - apply first_opt_none, ends_seq_none. by apply ends_class_none.
    - apply first_opt. eapply first_seq; [apply first_byte |].
      exact (first_some is_zone _ z rest Hz Hzn Hr). }
  destruct (Hopt (last_word (is_word ":") v)) as [w' Hw']. exists w'.
  rewrite !Happ. eapply first_seq; [by apply first_many |]. eapply first_seq; [apply first_byte |].
  apply first_many_last; [done.. |]. eapply first_seq.
  { apply first_many.
    - revert Hs Hv. rewrite no_byte_bool. clear. induction v as [|c v IH]; [done |]. simpl.
      rewrite !andb_true_iff. intros [Hc Hs] [Hd Hv]. split; [|by apply IH].
      unfold is_hexcolon in Hc. apply negb_true_iff in Hd. by rewrite Hd, orb_false_r in Hc.
    - destruct (zone +:+ rest) as [|c r]; [done |]. simpl in *. unfold is_hexcolon in Hzr.
      by apply orb_false_iff in Hzr as [-> _]. }
  exact Hw'.
Qed.

(** ** An address before a colon of the text *)

Lemma scan_hex_colon s acc n v k rest :
  scan_hex s acc n = Some (v, k, rest) -> scan_hex (s +:+ ":") acc n = Some (v, k, rest +:+ ":").
Proof.
  revert acc n. induction s as [|c s IH]; intros acc n; cbn [scan_hex String.append].
  - by intros [= -> -> <-].
  - destruct (hex_val c); [destruct (3 <? n)%nat; [done | apply IH] |]. by intros [= -> -> <-].
Qed.

Lemma parse_ipv4_colon s : parse_ipv4 (s +:+ ":") = None.
Proof.
  destruct (parse_ipv4 (s +:+ ":")) as [v|] eqn:H; [|done]. apply parse_ipv4_dotted, dotted_chars in H.
  rewrite string_forallb_app, andb_true_iff in H. by destruct H.
Qed.

Lemma has_prefix_dot_colon rest : has_prefix "." (rest +:+ ":") = has_prefix "." rest.
Proof. by destruct rest. Qed.

Lemma parse6_loop_colon fuel s gs e l e1 :
  parse6_loop fuel s gs e = Some (l, e1, "") -> forall l' e', parse6_loop fuel (s +:+ ":") gs e <> Some (l', e', "").
Proof.
  revert s gs e. induction fuel as [|fuel IH]; intros s gs e; cbn [parse6_loop].
  { by intros [= _ _ ->]. }
  destruct (scan_hex s 0 0) as [[[acc [|k]] rest]|] eqn:Hs; [done | | done].
  rewrite (scan_hex_colon _ _ _ _ _ _ Hs), has_prefix_dot_colon, parse_ipv4_colon.
  destruct (has_prefix "." rest).
  { intros _ l' e'. destruct (match e with Some _ => _ | None => _ end); [done |]. by destruct (6 <? length gs)%nat. }
  destruct rest as [|c rest']; [done |]. cbn [String.append].
  destruct (Ascii.eqb c ":"); cbn [negb orb]; [|done].
  destruct rest' as [|c' rest'']; [done |]. cbn [String.append].
  change (String c' rest'' =? "")%string with false. change (String c' (rest'' +:+ ":") =? "")%string with false. cbv iota.
  destruct (Ascii.eqb c' ":"); [|apply IH].
  destruct e as [|]; [done |]. destruct (String.eqb_spec rest'' "") as [->|Hn].
  - intros _ l' e'. destruct fuel; cbn; done.
  - intros H. destruct (String.eqb_spec (rest'' +:+ ":") ""); [by destruct rest'' | by apply IH].
Qed.

Lemma first_mark_app a b : first_mark (a +:+ b) = match first_mark a with Some c => Some c | None => first_mark b end.
Proof. induction a as [|c a IH]; [done |]. cbn [String.append first_mark]. by destruct (_ || _). Qed.

Lemma first_mark_None a : first_mark a = None -> count_byte ":" a = 0%nat.
Proof.
  induction a as [|c a IH]; [done |]. cbn [first_mark count_byte]. destruct (Ascii.eqb_spec ":" c) as [<-|]; [done |].
  destruct (_ || _); [done |]. intros H. by rewrite IH.
Qed.

(** An IPv6 address without a zone, followed by a colon, is no address. *)
Lemma isAddr_colon s : ipv6_text s -> isAddr s = true -> isAddr (s +:+ ":") = false.
Proof.
  unfold isAddr, ParseAddr. intros [Hc Hn] H. rewrite first_mark_app.
  destruct (first_mark s) as [c|] eqn:Hm; [|done]. rewrite parse_ipv4_colon. simpl (_ <$> None).
  destruct (Ascii.eqb c dot); [done |]. destruct (Ascii.eqb c ":"); [|done].
  assert (forall t, string_forallb is_hexcolon t = true -> cut_byte "%" t = None) as Hcut.
  { intros t Ht. apply cut_byte_None. by eapply (no_byte_class is_hexcolon). }
  unfold parse_ipv6 in *. rewrite Hcut in H by done. rewrite Hcut by (by rewrite string_forallb_app, Hc).
  destruct (has_prefix "::" s) eqn:Hp.
  - apply has_prefix_spec in Hp as [r ->]. change (has_prefix "::" (("::" +:+ r) +:+ ":")) with true.
    change (drop_bytes 2 (("::" +:+ r) +:+ ":")) with (r +:+ ":"). change (drop_bytes 2 ("::" +:+ r)) with r in H.
    cbn [has_prefix] in *. destruct (String.eqb_spec (r +:+ ":") ""); [by destruct r |]. cbn [andb].
    destruct (String.eqb_spec r "") as [->|]; [reflexivity |]. cbn [andb] in H.
    destruct (parse6_loop 8 r [] (Some 0%nat)) as [[[l e] [|]]|] eqn:Hl; [|done..].
    destruct (parse6_loop 8 (r +:+ ":") [] (Some 0%nat)) as [[[l' e'] [|]]|] eqn:Hl'; [|done..].
    by destruct (parse6_loop_colon _ _ _ _ _ _ Hl l' e').
  - destruct (has_prefix "::" (s +:+ ":")) eqn:Hp'.
    { destruct s as [|a [|b s]]; [simpl in Hn; lia | cbn [count_byte] in Hn; destruct (Ascii.eqb ":" a); lia |]. simpl in Hp, Hp'. congruence. }
    rewrite andb_false_r in *.
    destruct (parse6_loop 8 s [] None) as [[[l e] [|]]|] eqn:Hl; [|done..].
    destruct (parse6_loop 8 (s +:+ ":") [] None) as [[[l' e'] [|]]|] eqn:Hl'; [|done..].
    by destruct (parse6_loop_colon _ _ _ _ _ _ Hl l' e').
Qed.

(** ** Every form of an address is replaced *)

(** The zone of an address text, empty when there is none. *)
Definition zone_text (h : string) : string := match cut_byte "%" h with Some (_, z) => z | None => "" end.

(** A port behind an address, or none. *)
Definition port_text (p : string) : Prop := p = "" \/ exists d, p = String ":" d /\ string_forallb is_digit d = true /\ d <> "".

(** The forms in which net/http and Go errors print an address: with a port or
    without one, in brackets or bare. *)
Inductive address_form : string -> Prop :=
  | form_dotted h a p : ParseAddr h = Some (Addr4 a) -> port_text p -> address_form (h +:+ p)
  | form_bracketed h p :
      isAddr h = true -> string_forallb is_zone_in_brackets (zone_text h) = true -> port_text p ->
      address_form (String "[" (h +:+ String "]" p))
  | form_bare h a z :
      ParseAddr h = Some (Addr6 a z) -> string_forallb is_zone (zone_text h) = true -> address_form h.

Lemma isAddr_shape h :
  isAddr h = true ->
  (dotted h /\ first_mark h = Some dot) \/
  (exists base, ipv6_text base /\ first_mark base = Some ":"%char /\
     ((h = base /\ zone_text h = "") \/ exists z, h = base +:+ String "%" z /\ z <> "" /\ zone_text h = z)).
Proof.
  unfold isAddr, ParseAddr. destruct (first_mark h) as [c|] eqn:Hm; [|done].
  destruct (Ascii.eqb_spec c dot) as [->|].
  { destruct (parse_ipv4 h) as [a|] eqn:H4; [|done]. left. split; [by eapply parse_ipv4_dotted | done]. }
  destruct (Ascii.eqb_spec c ":") as [->|]; [|done].
  destruct (parse_ipv6 h) as [ip|] eqn:H6; [|done]. intros _. right.
  apply parse_ipv6_text in H6 as (base & Ht & Hb).
  assert (no_byte "%" base) as Hno by (eapply (no_byte_class is_hexcolon); [done | apply Ht]).
  exists base. split; [done |]. destruct Hb as [-> | (z & Hz & ->)].
  - split; [done |]. left. split; [done |]. unfold zone_text. apply cut_byte_None in Hno. by rewrite Hno.
  - split.
    + rewrite first_mark_app in Hm. destruct (first_mark base) eqn:Hbm; [done |].
      apply first_mark_None in Hbm. destruct Ht. lia.
    + right. exists z. split_and!; [done | done |]. unfold zone_text. by rewrite cut_byte_app.
Qed.

Lemma isAddr_dotted h a : ParseAddr h = Some (Addr4 a) -> dotted h.
Proof.
  unfold ParseAddr. destruct (first_mark h); [|done]. destruct (Ascii.eqb _ dot).
  - destruct (parse_ipv4 h) eqn:H; [|done]. intros _. by eapply parse_ipv4_dotted.
  - destruct (Ascii.eqb _ ":"); [|done]. unfold parse_ipv6.
    destruct (match cut_byte _ _ with Some _ => _ | None => _ end) as [[s z] bad]. destruct bad; [done |].
    destruct (if has_prefix _ _ then _ else _) as [s' e]. destruct (_ && _); [done |].
    destruct (parse6_loop _ _ _ _) as [[[gs e'] [|]]|]; try done. by destruct (expand6 gs e').
Qed.

Lemma port_text_part p rest : port_text p -> rest = "" \/ rest = ":" -> port_part p rest.
Proof.
  intros [-> | (d & -> & Hd & Hn)] Hr; [left | right; exists d; split_and!; try done; by destruct Hr as [-> | ->]].
  split; [done |]. by destruct Hr as [-> | ->].
Qed.

(** A text that the pattern takes whole, before the end or a colon. *)
Lemma redact_taken A rest w' :
  A <> "" -> rest = "" \/ rest = ":" -> first_end addrPattern (false, A +:+ rest) = Some (w', rest) ->
  redact_match A = Some "client" -> redactAddrs (A +:+ rest) = Some ("client" +:+ rest).
Proof.
  intros Hn Hr Hf Ht. unfold redactAddrs, ReplaceAllStringFunc. rewrite (replace_match _ _ _ _ _ _ _ Hn Hf Ht).
  by destruct Hr as [-> | ->], (last_word false A).
Qed.

Lemma ends_bracketed_none w s : starts (Ascii.eqb "[") s = false -> ends addr_bracketed (w, s) = [].
Proof. intros Hs. apply ends_seq_none. by apply ends_class_none. Qed.

Lemma has_prefix_bracket s : has_prefix "[" s = starts (Ascii.eqb "[") s.
Proof. destruct s as [|c s]; [done |]. cbn [has_prefix starts]. by rewrite andb_true_r. Qed.

Lemma hexcolon_no_bracket s rest : string_forallb is_hexcolon s = true -> s <> "" -> starts (Ascii.eqb "[") (s +:+ rest) = false.
Proof.
  destruct s as [|c s]; [done |]. cbn [string_forallb starts String.append]. rewrite andb_true_iff. intros [Hc _] _.
  destruct (Ascii.eqb_spec "[" c) as [<-|]; done.
Qed.

Lemma dotted_nonempty h : dotted h -> h <> "".
Proof. intros (x1 & x2 & x3 & x4 & -> & (_ & H & _) & _). by destruct x1. Qed.

(** The dotted alternative does not match where a colon comes before a dot. *)
Lemma ends_dotted_colon w s : first_mark s = Some ":"%char -> ends addr_dotted (w, s) = [].
Proof.
  intros Hm. apply ends_seq_stuck. intros q Hq. cbn [ends] in Hq. destruct (at_boundary _); [|by apply elem_of_nil in Hq].
  apply list_elem_of_singleton in Hq as ->. apply ends_seq_stuck. intros [w2 s2] Hq.
  assert (first_mark s2 = Some ":"%char) as H2.
  { apply (ends_upto3_rest _ (fun s => first_mark s = Some ":"%char) _ _) in Hq; [done | | done].
    intros c x Hc. rewrite first_mark_hex; [done |]. unfold is_hex. by rewrite Hc. }
  apply ends_seq_none, ends_seq_none, ends_seq_none, ends_class_none.
  destruct s2 as [|c s2]; [done |]. cbn [starts]. destruct (Ascii.eqb_spec dot c) as [<-|]; done.
Qed.

Lemma hidden_dotted h a p rest :
  ParseAddr h = Some (Addr4 a) -> port_text p -> rest = "" \/ rest = ":" ->
  redactAddrs ((h +:+ p) +:+ rest) = Some ("client" +:+ rest).
Proof.
  intros Ha Hp Hr. pose proof (isAddr_dotted _ _ Ha) as Hd. pose proof (dotted_chars _ Hd) as Hc.
  pose proof (dotted_nonempty _ Hd) as Hn.
  apply (redact_taken _ _ true); [by destruct h | done | |].
  - unfold addrPattern. rewrite string_app_assoc, first_alt_r.
    + apply first_alt_l. apply first_dotted; [done | by apply port_text_part | by destruct Hr as [-> | ->]].
    + apply ends_bracketed_none. by apply hexcolon_no_bracket; [apply hexdot_hexcolon |].
  - unfold redact_match. rewrite has_prefix_bracket, hexcolon_no_bracket by (try apply hexdot_hexcolon; done).
    assert (no_byte ":" h) as Hno by by eapply (no_byte_class is_hexdot).
    assert (isAddr h = true) as Hi by (unfold isAddr; by rewrite Ha).
    rewrite count_byte_app, (count_byte_none ":" h) by done.
    destruct Hp as [-> | (d & -> & Hdd & _)].
    + rewrite string_app_nil_r. simpl. apply cut_byte_None in Hno. rewrite Hno. by rewrite Hi.
    + cbn [count_byte]. rewrite (count_byte_none ":" d) by by eapply (no_byte_class is_digit).
      rewrite Ascii.eqb_refl. simpl. rewrite cut_byte_app by done. by rewrite Hi.
Qed.

Lemma hexcolon_no_close s : string_forallb is_hexcolon s = true -> no_byte "]" s.
Proof. by apply no_byte_class. Qed.

Lemma hidden_bracketed h p rest :
  isAddr h = true -> string_forallb is_zone_in_brackets (zone_text h) = true -> port_text p -> rest = "" \/ rest = ":" ->
  redactAddrs (String "[" (h +:+ String "]" p) +:+ rest) = Some ("client" +:+ rest).
Proof.
  intros Ha Hz Hp Hr.
  assert (exists base zone, h = base +:+ zone /\ string_forallb is_hexcolon base = true /\ base <> "" /\ no_byte "]" zone /\
    (zone = "" \/ exists z, zone = String "%" z /\ z <> "" /\ string_forallb is_zone_in_brackets z = true))
    as (base & zone & -> & Hb & Hbn & Hno & Hzone).
  { destruct (isAddr_shape _ Ha) as [[Hd _] | (base & [Hb Hc] & _ & Hcase)].
    - exists h, "". rewrite string_app_nil_r. split_and!; [done | by apply hexdot_hexcolon, dotted_chars | by apply dotted_nonempty | apply no_byte_nil | by left].
    - assert (base <> "") as Hne by (intros ->; simpl in Hc; lia).
      destruct Hcase as [[-> _] | (z & -> & Hzn & Hzt)].
      + exists base, "". rewrite string_app_nil_r. split_and!; [done.. | apply no_byte_nil | by left].
      + rewrite Hzt in Hz. exists base, (String "%" z). split_and!; [done.. | | right; by exists z].
        apply no_byte_cons. split; [done |]. by eapply (no_byte_class is_zone_in_brackets). }
  destruct (first_bracketed false base zone p rest) as [w' Hf]; [done.. | by apply port_text_part |].
  apply (redact_taken _ _ w'); [done | done | |].
  - unfold addrPattern. apply first_alt_l.
    assert (String "[" ((base +:+ zone) +:+ String "]" p) +:+ rest
      = String "[" (base +:+ zone +:+ String "]" (p +:+ rest))) as -> by (cbn [String.append]; by rewrite !string_app_assoc).
    exact Hf.
  - unfold redact_match. change (has_prefix "[" (String "[" ((base +:+ zone) +:+ String "]" p))) with true. cbv iota.
    change (String "[" ((base +:+ zone) +:+ String "]" p)) with ((String "[" (base +:+ zone)) +:+ String "]" p).
    rewrite cut_byte_app.
    + change (drop_bytes 1 (String "[" (base +:+ zone))) with (base +:+ zone). by rewrite Ha.
    + apply no_byte_cons. split; [done |]. apply no_byte_app. split; [by apply hexcolon_no_close | done].
Qed.

(** What the pattern takes from a text that starts as an IPv6 address does. *)
Lemma first_addr6 s zone rest :
  string_forallb is_hexcolon s = true -> (2 <= count_byte ":" s)%nat -> first_mark s = Some ":"%char ->
  (zone = "" /\ starts is_hexcolon rest = false /\ starts (Ascii.eqb "%") rest = false \/
   exists z, zone = String "%" z /\ z <> "" /\ string_forallb is_zone z = true /\ starts is_zone rest = false) ->
  exists w', first_end addrPattern (false, s +:+ zone +:+ rest) = Some (w', rest).
Proof.
  intros Hs Hn Hm Hz. unfold addrPattern. rewrite first_alt_r, first_alt_r.
  - by apply first_bare6.
  - apply ends_dotted_colon. by rewrite first_mark_app, Hm.
  - apply ends_bracketed_none, hexcolon_no_bracket; [done |]. intros ->. simpl in Hn. lia.
Qed.

Lemma redact_bare6 m t :
  starts (Ascii.eqb "[") m = false -> (2 <= count_byte ":" m)%nat ->
  first_Some (try_cut m) [("", ""); ("", ":"); (":", ""); (":", ":")] = Some t -> redact_match m = Some t.
Proof.
  intros Hb Hn Ht. unfold redact_match. rewrite has_prefix_bracket, Hb.
  destruct (Nat.leb_spec (count_byte ":" m) 1); [lia |]. by rewrite Ht.
Qed.

Lemma try_cut_whole m : isAddr m = true -> try_cut m ("", "") = Some "client".
Proof.
  intros Hm. unfold try_cut, CutPrefix, CutSuffix. cbn [has_prefix String.length drop_bytes].
  assert (has_suffix m "" = true) as -> by (apply has_suffix_spec; exists m; by rewrite string_app_nil_r).
  rewrite Nat.sub_0_r. pose proof (take_bytes_app m "") as Ht. rewrite string_app_nil_r in Ht. by rewrite Ht, Hm.
Qed.

Lemma try_cut_after s : isAddr s = true -> try_cut (s +:+ ":") ("", ":") = Some "client:".
Proof.
  intros Hs. unfold try_cut, CutPrefix, CutSuffix. cbn [has_prefix String.length drop_bytes].
  assert (has_suffix (s +:+ ":") ":" = true) as -> by (apply has_suffix_spec; by exists s).
  rewrite string_length_app. replace (_ - _)%nat with (String.length s) by (simpl; lia). by rewrite take_bytes_app, Hs.
Qed.

Lemma try_cut_whole_none s : isAddr (s +:+ ":") = false -> try_cut (s +:+ ":") ("", "") = None.
Proof.
  intros Hs. unfold try_cut. destruct (CutPrefix (s +:+ ":") "") as [a|] eqn:Ha; [|done].
  apply CutPrefix_spec in Ha as Ha'. change ("" +:+ a) with a in Ha'. subst a.
  destruct (CutSuffix (s +:+ ":") "") as [b|] eqn:Hb; [|done]. apply CutSuffix_spec in Hb.
  rewrite string_app_nil_r in Hb. subst b. by rewrite Hs.
Qed.

Lemma hidden_bare h rest :
  isAddr h = true -> ~ dotted h -> string_forallb is_zone (zone_text h) = true -> rest = "" \/ rest = ":" ->
  redactAddrs (h +:+ rest) = Some ("client" +:+ rest).
Proof.
  intros Ha Hnd Hz Hr. destruct (isAddr_shape _ Ha) as [[Hd _] | (base & [Hb Hc] & Hm & Hcase)]; [done |].
  assert (base <> "") as Hne by (intros ->; simpl in Hc; lia).
  destruct Hcase as [[-> _] | (z & -> & Hzn & Hzt)].
  - destruct Hr as [-> | ->].
    + destruct (first_addr6 base "" "" Hb Hc Hm) as [w' Hw]; [by left |].
      apply (redact_taken _ _ w'); [done | by left | exact Hw |].
      apply redact_bare6; [| done | cbn [first_Some]; by rewrite try_cut_whole].
      pose proof (hexcolon_no_bracket base "" Hb Hne) as H. by rewrite string_app_nil_r in H.
    + destruct (first_addr6 (base +:+ ":") "" "") as [w' Hw];
        [by rewrite string_forallb_app, Hb | rewrite count_byte_app; lia | by rewrite first_mark_app, Hm | by left |].
      change ("" +:+ "") with "" in Hw.
      assert (redact_match (base +:+ ":") = Some "client:") as Ht.
      { apply redact_bare6; [by apply hexcolon_no_bracket | rewrite count_byte_app; lia |]. cbn [first_Some].
        rewrite try_cut_whole_none by (by apply isAddr_colon). by rewrite try_cut_after. }
      unfold redactAddrs, ReplaceAllStringFunc. rewrite <- (string_app_nil_r (base +:+ ":")).
      erewrite replace_match; [| by destruct base | exact Hw | exact Ht]. done.
  - rewrite Hzt in Hz.
    destruct (first_addr6 base (String "%" z) rest Hb Hc Hm) as [w' Hw].
    { right. exists z. split_and!; try done. by destruct Hr as [-> | ->]. }
    apply (redact_taken _ _ w'); [by destruct base | done | by rewrite string_app_assoc |].
    apply redact_bare6; [by apply hexcolon_no_bracket | rewrite count_byte_app; lia |]. cbn [first_Some]. by rewrite try_cut_whole.
Qed.

Lemma ParseAddr6_not_dotted h a z : ParseAddr h = Some (Addr6 a z) -> ~ dotted h.
Proof.
  intros H Hd. assert (isAddr h = true) as Ha by (unfold isAddr; by rewrite H).
  unfold ParseAddr in H. destruct Hd as (x1 & x2 & x3 & x4 & -> & (H1 & _) & _).
  rewrite first_mark_digits in H by done. rewrite Ascii.eqb_refl in H. by destruct (parse_ipv4 _).
Qed.

Lemma address_hidden A rest :
  address_form A -> rest = "" \/ rest = ":" -> redactAddrs (A +:+ rest) = Some ("client" +:+ rest).
Proof.
  intros [h a p Ha Hp | h p Ha Hz Hp | h a z Ha Hz] Hr.
  - by eapply hidden_dotted.
  - by apply hidden_bracketed.
  - apply hidden_bare; [unfold isAddr; by rewrite Ha | by eapply ParseAddr6_not_dotted | done | done].
Qed.

(** ** The record of a line *)

Lemma redact_space u v a b :
  redactAddrs u = Some a -> redactAddrs v = Some b -> redactAddrs (u +:+ String " " v) = Some (a +:+ String " " b).
Proof.
  unfold redactAddrs. intros Hu Hv. rewrite replace_split by reflexivity. by rewrite Hu, Hv.
Qed.

Lemma redact_newline u v a b :
  redactAddrs u = Some a -> redactAddrs v = Some b ->
  redactAddrs (u +:+ String newline v) = Some (a +:+ String newline b).
Proof.
  unfold redactAddrs. intros Hu Hv. rewrite replace_split by reflexivity. by rewrite Hu, Hv.
Qed.

(** C38. The lines net/http writes about a client, [<text> <address>: <text>]
    with a stack trace behind them, become one record in which [client] stands
    for the address, whatever its form: dotted, IPv6 in brackets or bare, with
    a zone, with a port or without. The text around the address and the stack
    go through the same replacement on their own, the stack has its own
    attribute, and the writer reports every byte as written. *)
Theorem error_line_hides_client p pre A msg stack :
  address_form A -> no_byte newline pre -> no_byte newline msg ->
  trim_newlines p = pre +:+ " " +:+ A +:+ ": " +:+ msg +:+ String newline stack ->
  exists pre' msg' stack',
    redactAddrs pre = Some pre' /\ redactAddrs msg = Some msg' /\ redactAddrs stack = Some stack' /\
    errorLogWriter_Write p =
      Some (mkErrorRecord (pre' +:+ " client: " +:+ msg') (if (stack' =? "")%string then None else Some stack'), slen p).
Proof.
  intros HA Hpre Hmsg Hp. destruct (redactAddrs_total pre) as [pre' Hpre'], (redactAddrs_total msg) as [msg' Hmsg'],
    (redactAddrs_total stack) as [stack' Hstack']. exists pre', msg', stack'. split_and!; [done.. |].
  pose proof (address_hidden A ":" HA ltac:(by right)) as Hd.
  pose proof (redact_newline _ _ _ _ (redact_space _ _ _ _ Hpre' (redact_space _ _ _ _ Hd Hmsg')) Hstack') as Hall.
  unfold errorLogWriter_Write. rewrite Hp.
  replace (pre +:+ " " +:+ A +:+ ": " +:+ msg +:+ String newline stack)
    with ((pre +:+ String " " ((A +:+ ":") +:+ String " " msg)) +:+ String newline stack)
    by (rewrite !string_app_assoc; cbn [String.append]; by rewrite !string_app_assoc).
  rewrite Hall, cut_byte_app; [done |].
  rewrite no_byte_app, no_byte_cons. split_and!; [exact (redactAddrs_no_newline _ _ Hpre Hpre') | done |].
  apply no_byte_app. split; [apply no_byte_bool; reflexivity |]. apply no_byte_cons. split; [done |].
  exact (redactAddrs_no_newline _ _ Hmsg Hmsg').
Qed.

(** The replacement never panics, also on text that a client chose, and it
    changes nothing but addresses: a text in which no part parses as an address
    is logged byte for byte. *)
Theorem error_text_kept s :
  (exists t, redactAddrs s = Some t) /\
  ((forall a ip b, s = a +:+ ip +:+ b -> isAddr ip = false) -> redactAddrs s = Some s).
Proof. split; [apply redactAddrs_total | apply redactAddrs_kept]. Qed.

Module ErrorLogExamples.
Definition panic_line : string :=
  "http: panic serving [fe80::1%eth0]:5678: boom" +:+ String newline ("goroutine 42 [running]:" +:+ String newline "").

Lemma error_line_hides_client_witness :
  exists pre' msg' stack',
    redactAddrs "http: panic serving" = Some pre' /\ redactAddrs "boom" = Some msg' /\
    redactAddrs "goroutine 42 [running]:" = Some stack' /\
    errorLogWriter_Write panic_line =
      Some (mkErrorRecord (pre' +:+ " client: " +:+ msg') (if (stack' =? "")%string then None else Some stack'), slen panic_line).
Proof.
  apply (error_line_hides_client panic_line "http: panic serving" "[fe80::1%eth0]:5678" "boom" "goroutine 42 [running]:").
  - apply (form_bracketed "fe80::1%eth0" ":5678"); [reflexivity | reflexivity |].
    right. exists "5678". split; [reflexivity |]. split; [reflexivity | discriminate].
  - apply no_byte_bool. reflexivity.
  - apply no_byte_bool. reflexivity.
  - reflexivity.
Defined.

Lemma error_text_kept_witness : redactAddrs "EOF" = Some "EOF".
Proof.
  apply (proj2 (error_text_kept "EOF")). intros a ip b H. unfold isAddr.
  assert (first_mark "EOF" = None) as Hm by reflexivity. rewrite H, !first_mark_app in Hm.
  unfold ParseAddr. by destruct (first_mark a), (first_mark ip).
Defined.
End ErrorLogExamples.
