(* ===== verification/Logging.v ===== *)
(** * The log handlers (internal/logging/logging.go, internal/service/eventlog.go)

    The three handlers that s-hole writes for Go's [slog], over the handlers of
    the standard library. A standard handler is its writer, its format, its
    [ReplaceAttr] function and the attributes and groups added to it; how a list
    of fields is written as one line is the class [SlogFormat]. The functions
    that the source stores in [lateHandler] are the operations that they replay.
    A handler that asks for the default handler and is the default handler never
    ends, so [Handle] has fuel. *)

From stdpp Require Import base numbers list strings.
From Stdlib Require Import Ascii ZArith Lia.
From S2P Require Import Prelude.
From S2P Require Import GoStrings.
From S2P Require Import ErrorLog.

Open Scope string_scope.

(** ** Records *)

Definition LevelInfo : Z := 0.
Definition LevelWarn : Z := 4.
Definition LevelError : Z := 8.

Definition TimeKey : string := "time".
Definition LevelKey : string := "level".
Definition MessageKey : string := "msg".

Record attr := mkAttr { a_key : string; a_value : string }.

#[export] Instance attr_eq_dec : EqDecision attr.
Proof. solve_decision. Defined.

(** [r_time] is the value of the time field; it is absent in a record without a
    time. *)
Record record := mkRecord { r_time : option string; r_level : Z; r_msg : string; r_attrs : list attr }.

(** The text of a level, and the line that a standard handler writes for fields,
    each with the groups it is in: JSON or text, with a line break at the end. *)
Class SlogFormat := mkFormat {
  level_text : Z -> string;
  format_line : bool -> list (list string * attr) -> string;
}.

(** ** Handlers *)

Inductive op := WithAttrs (l : list attr) | WithGroup (name : string).

(** [HandlerOptions.ReplaceAttr]: [None] for the empty attribute, which is left
    out. *)
Definition replace_attr : Type := list string -> attr -> option attr.

Inductive writer := ToStdout | ToStdoutAfter (prefix : string) | ToBuffer.

(** [HStandard] is [TextHandler] and [JSONHandler], at level INFO as everywhere
    in the source. *)
Inductive handler :=
  | HStandard (w : writer) (json : bool) (replace : replace_attr) (ops : list op)
  | HLate (ops : list op)
  | HJournal (debug info warn error : handler)
  | HEventLog (inner : handler).

Definition keep_attr : replace_attr := fun _ a => Some a.

Definition dropTime : replace_attr := fun groups a =>
  if (length groups =? 0)%nat && (a_key a =? TimeKey)%string then None else Some a.

Definition dropTimeLevel : replace_attr := fun groups a =>
  if (length groups =? 0)%nat && ((a_key a =? TimeKey)%string || (a_key a =? LevelKey)%string) then None else Some a.

Definition For (pkg : string) : handler := HLate [WithAttrs [mkAttr "pkg" pkg]].

Definition priorities : string * string * string * string := ("<7>", "<6>", "<4>", "<3>").

Definition NewStdoutHandler (json journal : bool) : handler :=
  if negb journal then HStandard ToStdout json keep_attr []
  else
    let replace := if json then keep_attr else dropTime in
    let sub prefix := HStandard (ToStdoutAfter prefix) json replace [] in
    let '(p0, p1, p2, p3) := priorities in HJournal (sub p0) (sub p1) (sub p2) (sub p3).

Definition newEventLogHandler : handler := HEventLog (HStandard ToBuffer false dropTimeLevel []).

(** [WithAttrs] and [WithGroup]. *)
Fixpoint apply_op (o : op) (h : handler) : handler :=
  match h with
  | HStandard w json replace ops => HStandard w json replace (ops ++ [o])
  | HLate ops => HLate (ops ++ [o])
  | HJournal h0 h1 h2 h3 => HJournal (apply_op o h0) (apply_op o h1) (apply_op o h2) (apply_op o h3)
  | HEventLog inner => HEventLog (apply_op o inner)
  end.

Definition replay (ops : list op) (h : handler) : handler := fold_left (fun h o => apply_op o h) ops h.

(** [journalHandler.pick]. *)
Definition pick (l : Z) (h0 h1 h2 h3 : handler) : handler :=
  if (l <? LevelInfo)%Z then h0 else if (l <? LevelWarn)%Z then h1 else if (l <? LevelError)%Z then h2 else h3.

(** ** Logging a record *)

Inductive severity := Info | Warning | Error.

(** The default handler, the lines that reached stdout, the buffer that the
    event log handlers share, the events, and whether the next write to stdout
    and to the event log fails. *)
Record World := mkWorld {
  default_handler : handler;
  stdout : list string;
  buffer : string;
  events : list (severity * string);
  stdout_fails : bool;
  events_fail : bool;
}.

Definition SetDefault (h : handler) (w : World) : World :=
  mkWorld h (stdout w) (buffer w) (events w) (stdout_fails w) (events_fail w).

Definition write_stdout (line : string) (w : World) : World * bool :=
  if stdout_fails w then (w, false)
  else (mkWorld (default_handler w) (stdout w ++ [line]) (buffer w) (events w) false (events_fail w), true).

Definition set_buffer (b : string) (w : World) : World :=
  mkWorld (default_handler w) (stdout w) b (events w) (stdout_fails w) (events_fail w).

Definition write_event (s : severity) (msg : string) (w : World) : World * bool :=
  if events_fail w then (w, false)
  else (mkWorld (default_handler w) (stdout w) (buffer w) (events w ++ [(s, msg)]) (stdout_fails w) false, true).

(** [prefixWriter.Write]: the prefix and the line in one write. *)
Definition prefixWriter_Write (prefix b : string) (w : World) : World * (Z * bool) :=
  let '(w', ok) := write_stdout (prefix +:+ b) w in (w', (if ok then slen b else 0%Z, ok)).

(** The fields of the operations, and the groups that are open after them. *)
Fixpoint op_fields (groups : list string) (ops : list op) : list (list string * attr) * list string :=
  match ops with
  | [] => ([], groups)
  | WithAttrs l :: ops' =>
      let '(fs, g) := op_fields groups ops' in ((map (fun a => (groups, a)) l ++ fs)%list, g)
  | WithGroup name :: ops' => op_fields (if (name =? "")%string then groups else groups ++ [name])%list ops'
  end.

Section Slog.
Context `{SlogFormat}.

(** The fields of a record: the time, the level and the message, what was added
    to the handler, and the attributes of the record. *)
Definition record_fields (ops : list op) (r : record) : list (list string * attr) :=
  let '(fs, groups) := op_fields [] ops in
  (match r_time r with Some t => [([], mkAttr TimeKey t)] | None => [] end
   ++ [([], mkAttr LevelKey (level_text (r_level r))); ([], mkAttr MessageKey (r_msg r))]
   ++ fs ++ map (fun a => (groups, a)) (r_attrs r))%list.

Definition replaced (replace : replace_attr) (fs : list (list string * attr)) : list (list string * attr) :=
  omap (fun ga => (fun a => (fst ga, a)) <$> replace (fst ga) (snd ga)) fs.

(** [Enabled]. *)
Fixpoint Enabled (fuel : nat) (w : World) (h : handler) (l : Z) : option bool :=
  match fuel with
  | O => None
  | S fuel' =>
      match h with
      | HStandard _ _ _ _ => Some (LevelInfo <=? l)%Z
      | HLate _ => Enabled fuel' w (default_handler w) l
      | HJournal h0 h1 h2 h3 => Enabled fuel' w (pick l h0 h1 h2 h3) l
      | HEventLog inner => Enabled fuel' w inner l
      end
  end.

(** [Handle]: the world after it, and whether it returned no error. *)
Fixpoint Handle (fuel : nat) (h : handler) (r : record) (w : World) : option (World * bool) :=
  match fuel with
  | O => None
  | S fuel' =>
      match h with
      | HStandard dst json replace ops =>
          let line := format_line json (replaced replace (record_fields ops r)) in
          Some match dst with
               | ToStdout => write_stdout line w
               | ToStdoutAfter prefix => let '(w', (_, ok)) := prefixWriter_Write prefix line w in (w', ok)
               | ToBuffer => (set_buffer (buffer w +:+ line) w, true)
               end
      | HLate ops => Handle fuel' (replay ops (default_handler w)) r w
      | HJournal h0 h1 h2 h3 => Handle fuel' (pick (r_level r) h0 h1 h2 h3) r w
      | HEventLog inner =>
          match Handle fuel' inner r (set_buffer "" w) with
          | None => None
          | Some (w', false) => Some (w', false)
          | Some (w', true) =>
              let msg := trim_newlines (buffer w') in
              Some (if (LevelError <=? r_level r)%Z then write_event Error msg w'
                    else if (LevelWarn <=? r_level r)%Z then write_event Warning msg w'
                    else write_event Info msg w')
          end
      end
  end.

(** [Logger.log]: a record that is not enabled is dropped, an error of the
    handler is ignored. *)
Definition Log (fuel : nat) (h : handler) (r : record) (w : World) : option World :=
  match Enabled fuel w h (r_level r) with
  | None => None
  | Some false => Some w
  | Some true => fst <$> Handle fuel h r w
  end.
End Slog.

(** The logger of a package, with what [With] and [WithGroup] added. *)
Definition package_logger (pkg : string) (ops : list op) : handler := replay ops (For pkg).

(** [streamMatches] in journal_unix.go: [JOURNAL_STREAM], and the device and
    inode of stdout when it can be read. *)
Definition streamMatches (env : string) (stat : option (N * N)) : bool :=
  if (env =? "")%string then false
  else match stat with
       | None => false
       | Some (dev, ino) => (env =? itoa dev +:+ ":" +:+ itoa ino)%string
       end.

(** [NewEventLogHandler] with the error of opening the source of the event log;
    a build for another system always fails. *)
Definition NewEventLogHandler (windows : bool) (open_error : option string) : string + handler :=
  if windows then match open_error with Some e => inl e | None => inr newEventLogHandler end
  else inl "service management is only supported on Windows. Use systemd on Linux".

(** What [setupLogger] looks at: the build, whether the service manager launched
    the process, the error of opening the event log, [S_HOLE_LOG_FORMAT],
    [JOURNAL_STREAM], and the device and inode of stdout. *)
Record LogEnv := mkLogEnv {
  le_windows : bool;
  le_service : bool;
  le_open : option string;
  le_format : string;
  le_journal : string;
  le_stat : option (N * N);
}.

Definition StdoutIsJournal (env : LogEnv) : bool := streamMatches (le_journal env) (le_stat env).

Definition stdout_handler (env : LogEnv) : handler := NewStdoutHandler (le_format env =? "json")%string (StdoutIsJournal env).

(** [setupLogger]. *)
Definition setupLogger (env : LogEnv) (w : World) : World :=
  if le_service env then
    match NewEventLogHandler (le_windows env) (le_open env) with
    | inr h => SetDefault h w
    | inl _ => SetDefault (stdout_handler env) w
    end
  else SetDefault (stdout_handler env) w.

(** ** The handlers under what was added to a logger *)

Lemma replay_standard dst json rep ops ops' :
  replay ops' (HStandard dst json rep ops) = HStandard dst json rep (ops ++ ops').
Proof.
  unfold replay. revert ops. induction ops' as [|o ops' IH]; intros ops; [by rewrite app_nil_r |].
  simpl. by rewrite IH, <- app_assoc.
Qed.

Lemma replay_late ops ops' : replay ops' (HLate ops) = HLate (ops ++ ops').
Proof.
  unfold replay. revert ops. induction ops' as [|o ops' IH]; intros ops; [by rewrite app_nil_r |].
  simpl. by rewrite IH, <- app_assoc.
Qed.

Lemma replay_journal h0 h1 h2 h3 ops :
  replay ops (HJournal h0 h1 h2 h3) = HJournal (replay ops h0) (replay ops h1) (replay ops h2) (replay ops h3).
Proof. unfold replay. revert h0 h1 h2 h3. induction ops as [|o ops IH]; intros; [done |]. simpl. by rewrite IH. Qed.

Lemma replay_event inner ops : replay ops (HEventLog inner) = HEventLog (replay ops inner).
Proof. unfold replay. revert inner. induction ops as [|o ops IH]; intros; [done |]. simpl. by rewrite IH. Qed.

(** What a logger of a package adds to the default handler. *)
Definition added (pkg : string) (ops : list op) : list op := WithAttrs [mkAttr "pkg" pkg] :: ops.

Lemma package_logger_late pkg ops : package_logger pkg ops = HLate (added pkg ops).
Proof. apply replay_late. Qed.

Section Lines.
Context `{SlogFormat}.

(** The fields of a record, with the package in front of what the logger adds. *)
Lemma record_fields_added pkg ops r :
  record_fields (added pkg ops) r =
    (match r_time r with Some t => [([], mkAttr TimeKey t)] | None => [] end
     ++ [([], mkAttr LevelKey (level_text (r_level r))); ([], mkAttr MessageKey (r_msg r)); ([], mkAttr "pkg" pkg)]
     ++ fst (op_fields [] ops) ++ map (fun a => (snd (op_fields [] ops), a)) (r_attrs r))%list.
Proof. unfold record_fields, added. simpl. by destruct (op_fields [] ops). Qed.

(** What [ReplaceAttr] leaves is what is not a field of that key outside any
    group. *)
Lemma replaced_elem (drop : string -> bool) fs groups a :
  (groups, a) ∈ replaced (fun g a => if (length g =? 0)%nat && drop (a_key a) then None else Some a) fs <->
  (groups, a) ∈ fs /\ (groups = [] -> drop (a_key a) = false).
Proof.
  unfold replaced. rewrite list_elem_of_omap. split.
  - intros ([g b] & Hin & Hf). simpl in Hf. destruct (_ && _) eqn:Hd; [done |]. injection Hf as <- <-.
    split; [done |]. intros ->. simpl in Hd. done.
  - intros [Hin Hd]. exists (groups, a). split; [done |]. simpl.
    destruct groups as [|g gs]; simpl; [|done]. by rewrite Hd.
Qed.

(** The line of a record: its fields as the stdout handler writes them, and in
    the journal the priority of its level in front. *)
Definition stdout_line (json journal : bool) (ops : list op) (r : record) : string :=
  (if journal then
     if (r_level r <? LevelWarn)%Z then "<6>" else if (r_level r <? LevelError)%Z then "<4>" else "<3>"
   else "")
  +:+ format_line json (replaced (if journal && negb json then dropTime else keep_attr) (record_fields ops r)).

Definition add_stdout (line : string) (w : World) : World :=
  mkWorld (default_handler w) (stdout w ++ [line]) (buffer w) (events w) (stdout_fails w) (events_fail w).

Lemma log_stdout fuel json journal pkg ops r w :
  (3 <= fuel)%nat -> default_handler w = NewStdoutHandler json journal ->
  Log fuel (package_logger pkg ops) r w =
    Some (if (LevelInfo <=? r_level r)%Z && negb (stdout_fails w)
          then add_stdout (stdout_line json journal (added pkg ops) r) w else w).
Proof.
  intros Hf Hw. destruct fuel as [|[|[|fuel]]]; [lia.. |].
  rewrite package_logger_late. unfold Log. cbn [Enabled Handle]. rewrite Hw.
  unfold NewStdoutHandler. destruct journal; cbn [negb].
  - cbn [priorities]. rewrite replay_journal, !replay_standard. cbn [Enabled app]. unfold pick.
    destruct (Z.ltb_spec (r_level r) LevelInfo), (Z.leb_spec LevelInfo (r_level r)); try lia; cbn [andb].
    { reflexivity. }
    destruct (r_level r <? LevelWarn)%Z eqn:E1, (r_level r <? LevelError)%Z eqn:E2; cbn [Enabled Handle];
      unfold stdout_line, prefixWriter_Write, write_stdout; rewrite ?E1, ?E2;
      destruct (Z.leb_spec LevelInfo (r_level r)); try lia; destruct json, (stdout_fails w) eqn:Ew;
      cbn [andb negb fmap option_fmap option_map fst app]; unfold add_stdout; rewrite ?Ew; reflexivity.
  - rewrite replay_standard. cbn [Enabled Handle app]. destruct (LevelInfo <=? r_level r)%Z; cbn [andb]; [|done].
    unfold write_stdout, stdout_line. cbn [andb fmap option_fmap option_map].
    destruct (stdout_fails w) eqn:Ew; cbn; unfold add_stdout; by rewrite ?Ew.
Qed.

(** A record of any package logger, whatever [With] and [WithGroup] added to
    it and whenever it was made, reaches the stdout handler that is the default
    when it is logged, as one write: the line with its fields, the package
    among them outside any group, and in the journal the priority of its level
    directly in front of the line. A record below INFO and a record whose write
    fails leave nothing. In the journal a text line has no time field, a JSON
    line keeps it. *)
Theorem stdout_line_exact fuel json journal pkg ops r w :
  (3 <= fuel)%nat -> default_handler w = NewStdoutHandler json journal ->
  Log fuel (package_logger pkg ops) r w =
    Some (if (LevelInfo <=? r_level r)%Z && negb (stdout_fails w)
          then add_stdout (stdout_line json journal (added pkg ops) r) w else w) /\
  ([], mkAttr "pkg" pkg) ∈ record_fields (added pkg ops) r /\
  (forall groups a, (groups, a) ∈ replaced dropTime (record_fields (added pkg ops) r) <->
     (groups, a) ∈ record_fields (added pkg ops) r /\ (groups = [] -> a_key a <> TimeKey)).
Proof.
  intros Hf Hw. split; [by apply log_stdout | split].
  - rewrite record_fields_added, !elem_of_app. right. left. do 2 right. left.
  - intros groups a. unfold dropTime. rewrite (replaced_elem (fun k => (k =? TimeKey)%string)).
    by rewrite String.eqb_neq.
Qed.

(** The severity of an event. *)
Definition event_severity (l : Z) : severity :=
  if (LevelError <=? l)%Z then Error else if (LevelWarn <=? l)%Z then Warning else Info.

(** The text of a record for the event log. *)
Definition event_text (ops : list op) (r : record) : string :=
  trim_newlines (format_line false (replaced dropTimeLevel (record_fields ops r))).

Lemma log_event fuel pkg ops r w :
  (3 <= fuel)%nat -> default_handler w = newEventLogHandler ->
  exists w', Log fuel (package_logger pkg ops) r w = Some w' /\ stdout w' = stdout w /\
    events w' = (events w ++
      if (LevelInfo <=? r_level r)%Z && negb (events_fail w)
      then [(event_severity (r_level r), event_text (added pkg ops) r)] else [])%list.
Proof.
  intros Hf Hw. destruct fuel as [|[|[|fuel]]]; [lia.. |].
  rewrite package_logger_late. unfold Log. cbn [Enabled Handle]. rewrite Hw.
  unfold newEventLogHandler. rewrite replay_event, replay_standard. cbn [Enabled Handle app].
  destruct (LevelInfo <=? r_level r)%Z; cbn [andb]; [|exists w; by rewrite app_nil_r].
  cbn [buffer set_buffer String.append]. unfold write_event, event_severity, event_text. cbn [events_fail set_buffer].
  destruct (events_fail w) eqn:Ew, (LevelError <=? r_level r)%Z, (LevelWarn <=? r_level r)%Z;
    eexists; (split; [reflexivity |]); cbn; rewrite ?app_nil_r; done.
Qed.

(** The event log gets one event for each record at INFO or above, with the
    severity of its level and the text of that record alone, whatever the
    shared buffer held; the text has no time and no level outside a group. *)
Theorem event_log_exact fuel pkg ops r w :
  (3 <= fuel)%nat -> default_handler w = newEventLogHandler ->
  (exists w', Log fuel (package_logger pkg ops) r w = Some w' /\ stdout w' = stdout w /\
    events w' = (events w ++
      if (LevelInfo <=? r_level r)%Z && negb (events_fail w)
      then [(event_severity (r_level r), event_text (added pkg ops) r)] else [])%list) /\
  (forall groups a, (groups, a) ∈ replaced dropTimeLevel (record_fields (added pkg ops) r) <->
     (groups, a) ∈ record_fields (added pkg ops) r /\ (groups = [] -> a_key a <> TimeKey /\ a_key a <> LevelKey)).
Proof.
  intros Hf Hw. split; [by apply log_event |]. intros groups a. unfold dropTimeLevel.
  rewrite (replaced_elem (fun k => (k =? TimeKey)%string || (k =? LevelKey)%string)).
  by rewrite orb_false_iff, !String.eqb_neq.
Qed.


(** A logger of a package as the default handler looks itself up without end. *)
Lemma late_default_diverges fuel pkg ops pkg' ops' r w :
  default_handler w = package_logger pkg' ops' -> Log fuel (package_logger pkg ops) r w = None.
Proof.
  intros Hw. rewrite !package_logger_late in *. unfold Log.
  assert (forall l, Enabled fuel w (HLate l) (r_level r) = None) as ->; [|done].
  induction fuel as [|fuel IH]; intros l; [done |]. cbn [Enabled]. rewrite Hw. apply IH.
Qed.
End Lines.

Module LoggingExamples.
(** A format for the examples: [key=value] and a line break. *)
#[local] Instance plain : SlogFormat :=
  mkFormat (fun l => if (l <? 4)%Z then "INFO" else if (l <? 8)%Z then "WARN" else "ERROR")
    (fun _ fs => join " " (map (fun ga => join "." (fst ga ++ [a_key (snd ga)]) +:+ "=" +:+ a_value (snd ga)) fs)
                 +:+ String newline "").

Definition world0 (h : handler) : World := mkWorld h [] "stale" [] false false.
Definition rec0 : record := mkRecord (Some "12:00") 4 "boom" [mkAttr "url" "x"].

Lemma stdout_line_exact_witness :
  Log 3 (package_logger "api" [WithGroup "req"]) rec0 (world0 (NewStdoutHandler false true)) =
    Some (add_stdout ("<4>level=WARN msg=boom pkg=api req.url=x" +:+ String newline "")
           (world0 (NewStdoutHandler false true))).
Proof.
  exact (proj1 (stdout_line_exact 3 false true "api" [WithGroup "req"] rec0 (world0 (NewStdoutHandler false true))
    (le_n 3) eq_refl)).
Defined.

Lemma event_log_exact_witness :
  exists w', Log 3 (package_logger "api" []) rec0 (world0 newEventLogHandler) = Some w' /\
    stdout w' = [] /\ events w' = [(Warning, "msg=boom pkg=api url=x")].
Proof.
  exact (proj1 (event_log_exact 3 "api" [] rec0 (world0 newEventLogHandler) (le_n 3) eq_refl)).
Defined.
End LoggingExamples.
