(* ===== verification/ClientNames.v ===== *)
(** * Labels for clients (internal/api/clientnames.go)

    The labeler that joins the configured names to the stored, already masked,
    client values. The order in which Go walks the configured map is an argument
    of the constructor. *)

From stdpp Require Import base numbers list gmap strings sorting.
From Stdlib Require Import Ascii ZArith Lia.
From S2P Require Import Prelude GoStrings GoNet QueryLog.

Open Scope string_scope.
Open Scope list_scope.

(** ** Networks *)

(** A [*net.IPNet] of [net.ParseCIDR]: the address and the ones of the mask. *)
Definition IPNet : Type := Addr * Z.

(** [networkNumberAndMask]: the network in the form that [Contains] compares,
    an IPv4 one also for a prefix inside ::ffff:0:0/96. *)
Definition network_number (n : IPNet) : IPNet :=
  match n with
  | (Addr6 a _, bits) =>
      let m := mask_bits 128 a bits in
      if v4_mapped m then (Addr4 (wrap 32 m), (bits - 96)%Z) else (Addr6 m "", bits)
  | n => n
  end.

Definition IPNet_Contains (n : IPNet) (ip : Addr) : bool :=
  let '(net_, bits) := network_number n in
  match net_, Unmap ip with
  | Addr4 a, Addr4 b => same_top 32 a b bits
  | Addr6 a _, Addr6 b _ => same_top 128 a b bits
  | _, _ => false
  end.

(** ** The labeler *)

Record cidrLabel := mkCidr { cl_net : IPNet; cl_label : string }.

Record clientLabeler := mkLabeler { exact : gmap string string; cidrs : list cidrLabel }.

Definition ones (c : cidrLabel) : Z := snd (cl_net c).

Definition more_specific (a b : cidrLabel) : Prop := (ones b <= ones a)%Z.

#[global] Instance more_specific_dec a b : Decision (more_specific a b).
Proof. unfold more_specific. apply _. Defined.

#[global] Instance more_specific_total : Total more_specific.
Proof. intros a b. unfold more_specific. lia. Qed.

#[global] Instance more_specific_trans : Transitive more_specific.
Proof. intros a b c. unfold more_specific. lia. Qed.

Definition add_key (l : clientLabeler) (kv : string * string) : clientLabeler :=
  match ParseIP (fst kv) with
  | Some _ => mkLabeler (<[fst kv := snd kv]> (exact l)) (cidrs l)
  | None =>
      match ParseCIDR (fst kv) with
      | Some n => mkLabeler (exact l) (cidrs l ++ [mkCidr n (snd kv)])
      | None => l
      end
  end.

(** [order] lists the entries of the map in the order that the loop meets
    them. *)
Definition newClientLabeler (order : list (string * string)) : clientLabeler :=
  let l := fold_left add_key order (mkLabeler ∅ []) in
  mkLabeler (exact l) (merge_sort more_specific (cidrs l)).

Definition cidr_label (ip : Addr) (l : list cidrLabel) : string :=
  default "" (cl_label <$> List.find (fun c => IPNet_Contains (cl_net c) ip) l).

(** [None] is a nil labeler. *)
Definition label (l : option clientLabeler) (stored : string) : string :=
  match l with
  | None => ""
  | Some l =>
      if (stored =? "")%string then ""
      else match exact l !! stored with
           | Some lbl => lbl
           | None => match ParseIP stored with
                     | None => ""
                     | Some ip => cidr_label ip (cidrs l)
                     end
           end
  end.

(** ** What the constructor keeps *)

Definition cidr_entry (kv : string * string) (c : cidrLabel) : Prop :=
  ParseIP (fst kv) = None /\ ParseCIDR (fst kv) = Some (cl_net c) /\ cl_label c = snd kv.

Lemma add_keys_spec order l :
  NoDup (order.*1) -> (forall k v, (k, v) ∈ order -> exact l !! k = None) ->
  (forall k v, exact (fold_left add_key order l) !! k = Some v <->
     exact l !! k = Some v \/ ((k, v) ∈ order /\ ParseIP k <> None)) /\
  (forall c, c ∈ cidrs (fold_left add_key order l) <->
     c ∈ cidrs l \/ exists kv, kv ∈ order /\ cidr_entry kv c).
Proof.
  revert l. induction order as [| [k0 v0] order IH]; intros l Hnd Hfresh; simpl.
  { split; [intros k v | intros c]; split; intros H; try (by left); destruct H as [? | H]; try done;
      [destruct H as [H _] | destruct H as (kv & H & _)]; by apply not_elem_of_nil in H. }
  apply NoDup_cons in Hnd as [Hni Hnd].
  assert (Hother : forall k v, (k, v) ∈ order -> k <> k0).
  { intros k v Hin ->. apply Hni. apply list_elem_of_fmap. by exists (k0, v). }
  assert (Hstep : forall k v, (k, v) ∈ order -> exact (add_key l (k0, v0)) !! k = None).
  { intros k v Hin. unfold add_key. simpl. pose proof (Hother k v Hin).
    destruct (ParseIP k0); [simpl; rewrite lookup_insert_ne by auto | destruct (ParseCIDR k0)];
      simpl; eapply Hfresh; right; exact Hin. }
  destruct (IH (add_key l (k0, v0)) Hnd Hstep) as [IHe IHc].
  split.
  - intros k v. rewrite IHe. unfold add_key. simpl. rewrite elem_of_cons.
    destruct (ParseIP k0) as [ip |] eqn:Hip; simpl.
    + destruct (decide (k = k0)) as [-> | Hne].
      * rewrite lookup_insert_eq. pose proof (Hfresh k0 v0 ltac:(left)) as Hn. rewrite Hn.
        split; [intros [[= ->] | [Hin _]] | intros [Hx | [[[= ->] | Hin] Hp]]].
        -- right. split; [by left | by rewrite Hip].
        -- by destruct (Hother k0 v Hin).
        -- done.
        -- by left.
        -- by destruct (Hother k0 v Hin).
      * rewrite lookup_insert_ne by auto.
        split; [intros [Hx | [Hin Hp]] | intros [Hx | [[[= -> ->] | Hin] Hp]]]; auto; by destruct Hne.
    + assert (Hsame : exact (match ParseCIDR k0 with Some n => mkLabeler (exact l) (cidrs l ++ [mkCidr n v0]) | None => l end)
                      = exact l) by (by destruct (ParseCIDR k0)).
      rewrite Hsame. split; [intros [Hx | [Hin Hp]] | intros [Hx | [[[= -> ->] | Hin] Hp]]]; auto; by destruct Hp.
  - intros c. rewrite IHc. unfold add_key. simpl. split.
    + intros [Hc | (kv & Hin & He)]; [| right; exists kv; split; [by right | done]].
      destruct (ParseIP k0) eqn:Hip; [by left |]. destruct (ParseCIDR k0) as [n |] eqn:Hn; [| by left].
      simpl in Hc. apply elem_of_app in Hc as [Hc | Hc]; [by left |].
      apply list_elem_of_singleton in Hc as ->. right. exists (k0, v0). split; [by left | done].
    + intros [Hc | (kv & Hin & He)].
      * left. destruct (ParseIP k0); [done |]. destruct (ParseCIDR k0); [| done]. apply elem_of_app. by left.
      * apply elem_of_cons in Hin as [-> | Hin]; [left | right; by exists kv].
        destruct He as (H1 & H2 & H3). simpl in *. rewrite H1, H2. apply elem_of_app. right.
        apply list_elem_of_singleton. destruct c; simpl in *. by subst.
Qed.

Lemma find_first_specific (l : list cidrLabel) ip c :
  StronglySorted more_specific l ->
  List.find (fun c => IPNet_Contains (cl_net c) ip) l = Some c ->
  c ∈ l /\ IPNet_Contains (cl_net c) ip = true /\
  forall c', c' ∈ l -> IPNet_Contains (cl_net c') ip = true -> (ones c' <= ones c)%Z.
Proof.
  induction l as [| x l IH]; intros Hs Hf; [done |]. simpl in Hf.
  inversion Hs as [| ? ? Hs' Hall]; subst.
  destruct (IPNet_Contains (cl_net x) ip) eqn:E.
  - injection Hf as <-. split; [by left |]. split; [done |].
    intros c' Hin Hc'. apply elem_of_cons in Hin as [-> | Hin]; [lia |].
    rewrite Forall_forall in Hall. exact (Hall _ Hin).
  - destruct (IH Hs' Hf) as (Hin & Hc & Hmax). split; [by right |]. split; [done |].
    intros c' Hin' Hc'. apply elem_of_cons in Hin' as [-> | Hin']; [congruence |]. by apply Hmax.
Qed.

Lemma find_none (l : list cidrLabel) ip :
  List.find (fun c => IPNet_Contains (cl_net c) ip) l = None ->
  forall c, c ∈ l -> IPNet_Contains (cl_net c) ip = false.
Proof.
  intros Hf c Hin. apply (List.find_none _ _ Hf). by apply list_elem_of_In.
Qed.

Section label.
Context (m : gmap string string) (order : list (string * string)) (Hord : order ≡ₚ map_to_list m).

Lemma order_spec k v : (k, v) ∈ order <-> m !! k = Some v.
Proof. by rewrite Hord, elem_of_map_to_list. Qed.

Lemma labeler_spec :
  (forall k v, exact (newClientLabeler order) !! k = Some v <-> m !! k = Some v /\ ParseIP k <> None) /\
  (forall c, c ∈ cidrs (newClientLabeler order) <->
     exists k, m !! k = Some (cl_label c) /\ ParseIP k = None /\ ParseCIDR k = Some (cl_net c)) /\
  StronglySorted more_specific (cidrs (newClientLabeler order)).
Proof.
  destruct (add_keys_spec order (mkLabeler ∅ [])) as [He Hc].
  { rewrite Hord. apply NoDup_fst_map_to_list. }
  { intros k v _. apply lookup_empty. }
  split; [| split].
  - intros k v. simpl. rewrite He. simpl. rewrite lookup_empty, order_spec. naive_solver.
  - intros c. simpl. rewrite merge_sort_Permutation, Hc. split.
    + intros [Hn | ([k v] & Hin & H1 & H2 & H3)]; [by apply not_elem_of_nil in Hn |].
      exists k. simpl in *. rewrite H3. split; [by apply order_spec | done].
    + intros (k & Hk & H1 & H2). right. exists (k, cl_label c). split; [by apply order_spec | done].
  - simpl. apply (StronglySorted_merge_sort _).
Qed.

(** The label of a stored client value, whatever order the map is walked in.
    The empty value of the "drop" setting has none. A value that is itself a
    configured address has the label of that entry. Any other address has the
    label of a configured network that contains it and that no other such
    network is more specific than, and none when no network contains it. A value
    that is not an address has no label. *)
Theorem label_spec stored :
  let lbl := label (Some (newClientLabeler order)) stored in
  (stored = "" -> lbl = "") /\
  (forall v, stored <> "" -> m !! stored = Some v -> ParseIP stored <> None -> lbl = v) /\
  (ParseIP stored = None -> lbl = "") /\
  (forall ip, ParseIP stored = Some ip -> m !! stored = None ->
     (exists k n v, m !! k = Some v /\ ParseIP k = None /\ ParseCIDR k = Some n /\ IPNet_Contains n ip = true /\
        lbl = v /\
        (forall k' n' v', m !! k' = Some v' -> ParseIP k' = None -> ParseCIDR k' = Some n' ->
           IPNet_Contains n' ip = true -> (snd n' <= snd n)%Z)) \/
     (lbl = "" /\ forall k n v, m !! k = Some v -> ParseIP k = None -> ParseCIDR k = Some n -> IPNet_Contains n ip = false)).
Proof.
  destruct labeler_spec as (He & Hc & Hs). unfold label. split; [| split; [| split]].
  - by intros ->.
  - intros v Hne Hm Hp. apply String.eqb_neq in Hne. rewrite Hne.
    by rewrite (proj2 (He stored v) (conj Hm Hp)).
  - intros Hp. destruct (stored =? "")%string; [done |].
    destruct (exact (newClientLabeler order) !! stored) eqn:E; [| by rewrite Hp].
    by apply He in E as [_ ?].
  - intros ip Hip Hm.
    assert (stored <> "") as Hne by (intros ->; by vm_compute in Hip).
    apply String.eqb_neq in Hne. rewrite Hne, Hip.
    destruct (exact (newClientLabeler order) !! stored) eqn:E; [apply He in E as [? _]; congruence |].
    unfold cidr_label. destruct (List.find _ _) as [c |] eqn:Hf; simpl.
    + left. destruct (find_first_specific _ _ _ Hs Hf) as (Hin & Hcon & Hmax).
      apply Hc in Hin as (k & Hk & H1 & H2). exists k, (cl_net c), (cl_label c). split_and!; try done.
      intros k' n' v' Hk' H1' H2' Hcon'.
      apply (Hmax (mkCidr n' v')); [| done]. apply Hc. by exists k'.
    + right. split; [done |]. intros k n v Hk H1 H2.
      apply (find_none _ _ Hf (mkCidr n v)). apply Hc. by exists k.
Qed.
End label.

(** ** Examples *)

Module ClientNamesExamples.
Definition names : gmap string string :=
  {["192.168.1.0/24" := "home"; "192.168.0.0/16" := "site"; "192.168.1.7" := "printer"; "2001:DB8::1" := "router"]}.

Lemma label_spec_witness :
  map (label (Some (newClientLabeler (map_to_list names)))) ["192.168.1.7"; "192.168.1.9"; "192.168.9.1"; "10.0.0.1"; ""]
    = ["printer"; "home"; "site"; ""; ""] /\
  label (Some (newClientLabeler (map_to_list names))) "" = "".
Proof.
  split; [vm_compute; reflexivity |].
  exact (proj1 (label_spec names (map_to_list names) (reflexivity _) "") eq_refl).
Defined.

(** An IPv6 key that is not in the canonical form is a valid key, and the address
    it names has no label: the exact keys are compared as texts. *)
Lemma uncanonical_key_never_matches :
  ParseIP "2001:DB8::1" = ParseIP "2001:db8::1" /\
  MaskClientIP "2001:db8::1" "full" = "2001:db8::1" /\
  label (Some (newClientLabeler (map_to_list names))) "2001:db8::1" = "".
Proof. split_and!; vm_compute; reflexivity. Qed.
End ClientNamesExamples.
