(* ===== verification/AdminSecurity.v ===== *)
(** * Who may use the admin server (internal/api/security.go, purge.go)

    The request as the checks see it, the Host check, the Fetch Metadata check,
    the cross-origin check of net/http, the test for a request from this
    machine, and the wrapper that runs them in front of every route and sets
    the security headers. The parsing of a media type, of a JSON body and of
    an Origin header are classes. *)

From stdpp Require Import base numbers list gmap strings.
From Stdlib Require Import Ascii ZArith Lia.
From S2P Require Import Prelude GoStrings GoNet.

Open Scope string_scope.
Open Scope list_scope.

(** ** Requests and replies *)

(** [r_header] and [r_query] give the first value of a header field or query
    parameter, "" when it is absent. *)
Record Request := mkRequest {
  r_Method : string;
  r_Host : string;
  r_RemoteAddr : string;
  r_Path : string;
  r_header : string -> string;
  r_query : string -> string;
  r_Body : string;
}.

(** [mime.ParseMediaType]: the media type, [None] for an error. *)
Class MediaType := parse_media_type : string -> option string.

(** [url.Parse] of an Origin header, then its Host. *)
Class OriginHost := origin_host : string -> option string.

(** The decoding of the two request bodies; the text may be cut off. *)
Class BodyDecoder := {
  decode_domain : string -> option string;
  decode_confirm : string -> option bool;
}.

Abbreviation headers := (gmap string string) (only parsing).

Definition securityHeaders : headers :=
  {["Cache-Control" := "no-store"; "X-Content-Type-Options" := "nosniff";
    "Referrer-Policy" := "no-referrer"; "X-Frame-Options" := "DENY";
    "Cross-Origin-Resource-Policy" := "same-origin";
    "Content-Security-Policy" :=
      "default-src 'self'; script-src 'self'; style-src 'self' 'unsafe-inline'; img-src 'self' data:; connect-src 'self'; object-src 'none'; base-uri 'none'; form-action 'self'; frame-ancestors 'none'"]}.

Definition StatusOK : Z := 200.
Definition StatusBadRequest : Z := 400.
Definition StatusForbidden : Z := 403.
Definition StatusConflict : Z := 409.
Definition StatusUnsupportedMediaType : Z := 415.
Definition StatusMisdirectedRequest : Z := 421.
Definition StatusTooManyRequests : Z := 429.
Definition StatusInternalServerError : Z := 500.
Definition StatusServiceUnavailable : Z := 503.

(** A reply: its status, its headers, and a body of the routes or a text. *)
Record Reply (B : Type) := mkReply { rp_status : Z; rp_headers : headers; rp_body : string + B }.
Arguments mkReply {_}.
Arguments rp_status {_}.
Arguments rp_headers {_}.
Arguments rp_body {_}.

(** [http.Error]. *)
Definition error_headers (h : headers) : headers :=
  <["Content-Type" := "text/plain; charset=utf-8"]>
    (<["X-Content-Type-Options" := "nosniff"]> (delete "Content-Length" h)).

Definition Error {B} (h : headers) (text : string) (code : Z) : Reply B :=
  mkReply code (error_headers h) (inl text).

(** ** The names of this machine *)

Section security.
Context `{UnicodeLower}.

(** [name] is what [os.Hostname] gives, [None] for an error. *)
Definition localHostnames (name : option string) : list string :=
  match name with
  | None => []
  | Some name =>
      if (name =? "")%string then []
      else
        let name := to_lower (trim_suffix name ".") in
        let short := match cut_byte dot name with Some (u, _) => u | None => name end in
        [name] ++ (if (short =? name)%string then [] else [short]) ++ [short +:+ ".local"]
  end.

Fixpoint trim_left_set (p : ascii -> bool) (s : string) : string :=
  match s with
  | "" => ""
  | String c s' => if p c then trim_left_set p s' else s
  end.

Fixpoint trim_right_set (p : ascii -> bool) (s : string) : string :=
  match s with
  | "" => ""
  | String c s' =>
      let t := trim_right_set p s' in
      if p c && (t =? "")%string then "" else String c t
  end.

(** [strings.Trim(s, "[]")]. *)
Definition is_bracket (c : ascii) : bool := Ascii.eqb c "["%char || Ascii.eqb c "]"%char.
Definition trim_brackets (s : string) : string := trim_right_set is_bracket (trim_left_set is_bracket s).

(** The host of a Host header, without port, brackets and trailing dot. *)
Definition host_name (hostHeader : string) : string :=
  let host := match SplitHostPort hostHeader with Some (h, _) => h | None => hostHeader end in
  trim_suffix (trim_brackets host) ".".

Definition hostAllowed (hostnames : list string) (hostHeader : string) : bool :=
  let host := host_name hostHeader in
  if (host =? "")%string then true
  else match ParseAddr host with
       | Some _ => true
       | None =>
           let host := to_lower host in
           if (host =? "localhost")%string then true
           else existsb (fun n => (host =? n)%string) hostnames
       end.

Definition hostHint (hostnames : list string) (r : Request) : string :=
  let port := match SplitHostPort (r_Host r) with Some (_, p) => ":" +:+ p | None => "" end in
  "s-hole answers only requests addressed to its IP address or to localhost" +:+
  match last hostnames with
  | Some local_ => ", or to this machine's name. Open the dashboard as http://" +:+ local_ +:+ port +:+ " or by IP address"
  | None => ". Open the dashboard by IP address"
  end.

Definition fetchAllowed (r : Request) : bool :=
  let site := r_header r "Sec-Fetch-Site" in
  if (site =? "")%string || (site =? "same-origin")%string || (site =? "none")%string then true
  else (r_Method r =? "GET")%string && (r_Path r =? "/")%string &&
       (r_header r "Sec-Fetch-Mode" =? "navigate")%string &&
       (r_header r "Sec-Fetch-Dest" =? "document")%string.

(** [http.CrossOriginProtection] with no exempt path and no trusted origin. *)
Definition crossOriginOK `{OriginHost} (r : Request) : bool :=
  if (r_Method r =? "GET")%string || (r_Method r =? "HEAD")%string || (r_Method r =? "OPTIONS")%string then true
  else
    let site := r_header r "Sec-Fetch-Site" in
    if (site =? "same-origin")%string || (site =? "none")%string then true
    else if negb (site =? "")%string then false
    else
      let origin := r_header r "Origin" in
      if (origin =? "")%string then true
      else match origin_host origin with
           | Some h => (h =? r_Host r)%string
           | None => false
           end.

Definition isJSON `{MediaType} (r : Request) : bool :=
  match parse_media_type (r_header r "Content-Type") with
  | Some mt => (mt =? "application/json")%string
  | None => false
  end.

(** ** A request from this machine *)

(** [own] is what [net.InterfaceAddrs] gives, [None] for an error; an entry
    that is not an IP network does not count. *)
Definition fromThisMachine (own : option (list (option Addr))) (remoteAddr : string) : bool :=
  let host := match SplitHostPort remoteAddr with Some (h, _) => h | None => remoteAddr end in
  match ParseAddr host with
  | None => false
  | Some ip =>
      let ip := WithoutZone (Unmap ip) in
      if IsLoopback ip then true
      else match own with
           | None => false
           | Some addrs =>
               existsb (fun a => match a with
                                 | Some a => bool_decide (Unmap a = ip)
                                 | None => false
                                 end) addrs
           end
  end.

(** ** The wrapper *)

Definition cross_site_text : string :=
  "s-hole refused a cross-site request: the dashboard accepts changes only from its own page".
Definition other_site_text : string :=
  "s-hole refused a request from another site. Open the dashboard directly: type its address or use a bookmark".

(** [secure]: the headers first, then the three checks, then the routes. *)
Definition secure `{OriginHost} {S B} (hostnames : list string)
    (next : headers -> Request -> S -> Reply B * S) (r : Request) (s : S) : Reply B * S :=
  let h := securityHeaders in
  if negb (hostAllowed hostnames (r_Host r)) then
    (Error h (hostHint hostnames r) StatusMisdirectedRequest, s)
  else if negb (fetchAllowed r) then (Error h other_site_text StatusForbidden, s)
  else if negb (crossOriginOK r) then (Error h cross_site_text StatusForbidden, s)
  else next h r s.
End security.

(** [noStoreWriter]: the file server's headers at its status line, with
    Cache-Control set again. *)
Definition keepNoStore (h : headers) : headers :=
  <["Cache-Control" := default "" (securityHeaders !! "Cache-Control")]> h.

(** ** What the checks decide *)

Section checks.
Context `{UnicodeLower}.

Lemma hostAllowed_spec hostnames hostHeader :
  hostAllowed hostnames hostHeader = true <->
  host_name hostHeader = "" \/ is_Some (ParseAddr (host_name hostHeader)) \/
  to_lower (host_name hostHeader) = "localhost" \/ to_lower (host_name hostHeader) ∈ hostnames.
Proof.
  unfold hostAllowed. set (h := host_name hostHeader).
  destruct (String.eqb_spec h "") as [E | Hne]; [by split; auto |].
  destruct (ParseAddr h) eqn:Ep; [split; [right; left; by eexists | done] |].
  destruct (String.eqb_spec (to_lower h) "localhost") as [E | Hnl]; [by split; auto |].
  rewrite existsb_elem. split.
  - intros (n & Hn & E). apply String.eqb_eq in E. right. right. right. by rewrite E.
  - intros [? | [[? ?] | [? | Hin]]]; try done. exists (to_lower h). split; [done | apply String.eqb_refl].
Qed.

(** The names a request may be addressed to: the hostname of the machine, its
    first label, and that label under ".local"; all in lower case. *)
Lemma localHostnames_spec name n :
  n ∈ localHostnames (Some name) ->
  let full := to_lower (trim_suffix name ".") in
  n = full \/ (exists rest, full = n +:+ String dot rest) \/
  n = match cut_byte dot full with Some (u, _) => u | None => full end +:+ ".local".
Proof.
  unfold localHostnames. destruct (String.eqb_spec name ""); [by intros ?%not_elem_of_nil |].
  intros Hin. apply elem_of_cons in Hin as [-> | Hin]; [by left |].
  apply elem_of_app in Hin as [Hin | Hin].
  - destruct (cut_byte dot (to_lower (trim_suffix name "."))) as [[u v] |] eqn:E.
    + apply cut_byte_Some in E. destruct (String.eqb_spec u (to_lower (trim_suffix name "."))).
      * by apply not_elem_of_nil in Hin.
      * apply list_elem_of_singleton in Hin as ->. right. left. exists v. tauto.
    + rewrite String.eqb_refl in Hin. by apply not_elem_of_nil in Hin.
  - apply list_elem_of_singleton in Hin as ->. by right; right.
Qed.

Context `{OriginHost}.

(** A page of another site in the operator's browser changes nothing and reads
    nothing. A request that reaches the routes is addressed to an IP address,
    to localhost or to this machine's own names, so DNS rebinding under any
    other name stops here; it is not marked as sent by another site, unless it
    is the top-level navigation to the page itself; and one that may change
    state was not sent by another origin. Otherwise the reply is a 421 or 403
    and the state of the server is as before. *)
Lemma secure_spec {S B} hostnames (next : headers -> Request -> S -> Reply B * S) (r : Request) (s : S) :
  (hostAllowed hostnames (r_Host r) = true /\ fetchAllowed r = true /\ crossOriginOK r = true /\
   secure hostnames next r s = next securityHeaders r s) \/
  (exists code text, secure hostnames next r s = (Error securityHeaders text code, s) /\
     ((code = StatusMisdirectedRequest /\ hostAllowed hostnames (r_Host r) = false) \/
      (code = StatusForbidden /\ hostAllowed hostnames (r_Host r) = true /\
       (fetchAllowed r = false \/ crossOriginOK r = false)))).
Proof.
  unfold secure.
  destruct (hostAllowed hostnames (r_Host r)) eqn:Eh; simpl; [| right; eexists _, _; split; [done | by left]].
  destruct (fetchAllowed r) eqn:Ef; simpl; [| right; eexists _, _; split; [done | right; auto]].
  destruct (crossOriginOK r) eqn:Ec; simpl; [by left | right; eexists _, _; split; [done | right; auto]].
Qed.

Lemma error_headers_secure h : securityHeaders ⊆ h -> securityHeaders ⊆ error_headers h.
Proof.
  intros Hs. apply map_subseteq_spec. intros k v Hk. unfold error_headers.
  assert (Hkeys : k ∈ dom securityHeaders) by (by apply elem_of_dom_2 with v).
  assert (Hf : forallb (fun k => (negb (k =? "Content-Type") && negb (k =? "Content-Length"))%string) (elements (dom securityHeaders)) = true)
    by (vm_compute; reflexivity).
  rewrite forallb_elem in Hf. specialize (Hf k (proj2 (elem_of_elements _ _) Hkeys)). breflect.
  rewrite (lookup_insert_ne _ "Content-Type") by auto.
  destruct (decide (k = "X-Content-Type-Options")) as [-> | Hne].
  - rewrite lookup_insert_eq. by vm_compute in Hk.
  - rewrite lookup_insert_ne, lookup_delete_ne by auto. by apply (proj1 (map_subseteq_spec _ _) Hs).
Qed.

(** What a marked request from another page can still do: only open the
    dashboard page. *)
Lemma fetchAllowed_cross_site r :
  fetchAllowed r = true -> r_header r "Sec-Fetch-Site" ∉ [""; "same-origin"; "none"] ->
  r_Method r = "GET" /\ r_Path r = "/".
Proof.
  unfold fetchAllowed. intros Hf Hn. rewrite !not_elem_of_cons in Hn. destruct Hn as (H1 & H2 & H3 & _).
  apply String.eqb_neq in H1, H2, H3. rewrite H1, H2, H3 in Hf. cbn [orb] in Hf. breflect.
  by split.
Qed.

(** A rebinding page is refused: its requests carry its own name. *)
Lemma rebinding_refused {S B} hostnames (next : headers -> Request -> S -> Reply B * S) r s :
  host_name (r_Host r) <> "" -> ParseAddr (host_name (r_Host r)) = None ->
  to_lower (host_name (r_Host r)) <> "localhost" -> to_lower (host_name (r_Host r)) ∉ hostnames ->
  rp_status (fst (secure hostnames next r s)) = StatusMisdirectedRequest /\ snd (secure hostnames next r s) = s.
Proof.
  intros H1 H2 H3 H4. unfold secure.
  destruct (hostAllowed hostnames (r_Host r)) eqn:E; [| done].
  apply hostAllowed_spec in E as [? | [[? ?] | [? | ?]]]; try done. congruence.
Qed.
End checks.

(** A request counts as sent from this machine exactly when its address, with
    any port, zone and IPv4-in-IPv6 form removed, is a loopback address or one
    of the addresses of the interfaces. *)
Theorem from_this_machine_spec own remoteAddr :
  fromThisMachine own remoteAddr = true <->
  exists ip, ParseAddr (match SplitHostPort remoteAddr with Some (h, _) => h | None => remoteAddr end) = Some ip /\
    (IsLoopback (WithoutZone (Unmap ip)) = true \/
     exists addrs a, own = Some addrs /\ Some a ∈ addrs /\ Unmap a = WithoutZone (Unmap ip)).
Proof.
  unfold fromThisMachine.
  destruct (ParseAddr _) as [ip |]; [| split; [done | by intros (? & ? & _)]].
  destruct (IsLoopback (WithoutZone (Unmap ip))) eqn:El.
  { split; [intros _; exists ip; auto | done]. }
  split.
  - destruct own as [addrs |]; [| done]. rewrite existsb_elem. intros ([a |] & Hin & Ha); [| done].
    apply bool_decide_eq_true in Ha. exists ip. split; [done |]. right. by exists addrs, a.
  - intros (ip' & [= <-] & [Hl | (addrs & a & -> & Hin & Ha)]); [congruence |].
    apply existsb_elem. exists (Some a). split; [done |]. by apply bool_decide_eq_true.
Qed.

(** ** Examples *)

Module SecurityExamples.
#[local] Instance no_unicode : UnicodeLower := fun s => s.
#[local] Instance no_origin : OriginHost := fun _ => None.

Definition req (method host path site origin : string) : Request :=
  mkRequest method host "192.168.1.5:1234" path
    (fun k => if (k =? "Sec-Fetch-Site")%string then site else if (k =? "Origin")%string then origin else "")
    (fun _ => "") "".

Definition names : list string := localHostnames (Some "Pi.home.").

Example machine_names : names = ["pi.home"; "pi"; "pi.local"].
Proof. reflexivity. Qed.

Example hosts :
  map (hostAllowed names) ["192.168.1.2:8080"; "[::1]:8080"; "localhost"; "PI.local:8080"; ""; "attacker.example"; "pi.example"]
  = [true; true; true; true; true; false; false].
Proof. vm_compute. reflexivity. Qed.

Definition count_route (h : headers) (r : Request) (n : nat) : Reply unit * nat :=
  (mkReply StatusOK h (inr tt), S n).

Example rebinding : snd (secure names count_route (req "POST" "attacker.example" "/api/allowlist" "" "") 0%nat) = 0%nat.
Proof. vm_compute. reflexivity. Qed.

Example cross_site_post :
  rp_status (fst (secure names count_route (req "POST" "127.0.0.1:8080" "/api/allowlist" "" "https://attacker.example") 0%nat))
  = StatusForbidden.
Proof. vm_compute. reflexivity. Qed.

Example from_link : fetchAllowed (req "GET" "127.0.0.1:8080" "/api/queries" "cross-site" "") = false.
Proof. reflexivity. Qed.

Example this_machine :
  map (fromThisMachine (Some [Some (Addr4 3232235778); None])) ["127.0.0.1:5"; "[::1]:5"; "192.168.1.2:77"; "[::ffff:192.168.1.2]:9"; "192.168.1.3:77"]
  = [true; true; true; true; false].
Proof. vm_compute. reflexivity. Qed.
End SecurityExamples.
