(* ===== verification/ApiFormat.v ===== *)
(** * The texts the admin server writes (internal/api/api.go, metrics.go)

    The CSV export with the guard against spreadsheet formulas and the quoting
    of encoding/csv, the JSON export, and the escaping of metric labels, each
    with a reader that gives the values back. *)

From stdpp Require Import base numbers list gmap strings.
From Stdlib Require Import Ascii ZArith Lia.
From S2P Require Import Prelude GoStrings GoConv QueryLog.

Open Scope string_scope.
Open Scope list_scope.

(** ** CSV *)

Definition tab : ascii := "009"%char.
Definition lf : ascii := "010"%char.
Definition cr : ascii := "013"%char.
Definition comma : ascii := ","%char.

Definition formula_start (c : ascii) : bool :=
  Ascii.eqb c "="%char || Ascii.eqb c "+"%char || Ascii.eqb c "-"%char || Ascii.eqb c "@"%char
  || Ascii.eqb c tab || Ascii.eqb c cr.

Definition csvSanitize (s : string) : string :=
  match s with
  | "" => s
  | String c _ => if formula_start c then String "'" s else s
  end.

Definition exportCSVColumns : list string :=
  ["ts"; "client_ip"; "label"; "domain"; "blocked"; "outcome"; "rcode"; "synthesized"; "blocked_by"].

(** A row as the database returns it: the stored time text and the record. *)
Definition csv_record (label : string -> string) (ts : string) (r : QRecord) : list string :=
  [ts; csvSanitize (ClientIP r); csvSanitize (label (ClientIP r)); csvSanitize (Domain r);
   FormatBool (RBlocked r); Outcome (RBlocked r) (RRcode r) (Synthesized r);
   Itoa (RRcode r); FormatBool (Synthesized r);
   (if RBlocked r then BlockSource_String (RBlockSource r) else "")].

(** [csv.Writer.fieldNeedsQuotes], for the separator ",". *)
Definition special (c : ascii) : bool :=
  Ascii.eqb c lf || Ascii.eqb c cr || Ascii.eqb c quote_char || Ascii.eqb c comma.

Definition fieldNeedsQuotes (field : string) : bool :=
  if (field =? "")%string then false
  else if (field =? "\.")%string then true
  else if negb (string_forallb (fun c => negb (special c)) field) then true
  else negb (space_len field =? 0)%nat.

Fixpoint csv_quote (s : string) : string :=
  match s with
  | "" => ""
  | String c s' =>
      if Ascii.eqb c quote_char then String quote_char (String quote_char (csv_quote s'))
      else String c (csv_quote s')
  end.

Definition csv_field (field : string) : string :=
  if fieldNeedsQuotes field
  then String quote_char (csv_quote field +:+ String quote_char "") else field.

(** [csv.Writer.Write]. *)
Definition csv_write (record : list string) : string :=
  join "," (map csv_field record) +:+ String lf "".

(** [exportCSV]: the header, then the rows; [writes] says which row writes
    fail, and the first failure ends the rows. *)
Fixpoint export_rows (label : string -> string) (i : nat) (fails : nat -> bool) (rows : list (string * QRecord))
  : list (list string) * bool :=
  match rows with
  | [] => ([], true)
  | (ts, r) :: rows' =>
      if fails i then ([], false)
      else let '(l, ok) := export_rows label (S i) fails rows' in (csv_record label ts r :: l, ok)
  end.

Definition exportCSV (label : string -> string) (fails : nat -> bool) (db : option (list (string * QRecord)))
  : list (list string) :=
  exportCSVColumns :: match db with
                      | None => []
                      | Some rows => fst (export_rows label 0 fails rows)
                      end.

Fixpoint csv_text (records : list (list string)) : string :=
  match records with
  | [] => ""
  | r :: l => csv_write r +:+ csv_text l
  end.

(** ** JSON *)

(** [exportJSON] from the encoded envelope and the encoded rows ([None]: the
    encoding or the write of that row fails). *)
Fixpoint json_rows (first : bool) (rows : list (option string)) : string * bool :=
  match rows with
  | [] => ("", true)
  | None :: _ => ("", false)
  | Some b :: rows' =>
      let '(t, ok) := json_rows false rows' in ((if first then "" else ",") +:+ b +:+ t, ok)
  end.

Definition exportJSON (head : string) (db : option (list (option string))) : string :=
  let open_ := take_bytes (String.length head - 1) head +:+ "," +:+ String quote_char ("queries" +:+ String quote_char "") +:+ ":[" in
  match db with
  | None => open_ +:+ "]}"
  | Some rows => let '(t, ok) := json_rows true rows in open_ +:+ t +:+ if ok then "]}" else ""
  end.

(** ** Metric labels *)

Fixpoint escapeLabel (v : string) : string :=
  match v with
  | "" => ""
  | String c v' =>
      (if Ascii.eqb c "\"%char then "\\" else if Ascii.eqb c quote_char then String "\" (String quote_char "")
       else if Ascii.eqb c lf then "\n" else String c "") +:+ escapeLabel v'
  end.

(** ** Reading the texts back *)

(** A reader of RFC 4180 records that end in a line feed. *)
Inductive csv_mode := CsvStart | CsvPlain | CsvQuoted | CsvQuoteSeen.

Fixpoint csv_read (m : csv_mode) (cur : string) (rec : list string) (s : string) : option (list (list string)) :=
  match s with
  | "" => match m, rec with CsvStart, [] => Some [] | _, _ => None end
  | String c s' =>
      let field_end := csv_read CsvStart "" (rec ++ [cur]) s' in
      let record_end := cons (rec ++ [cur]) <$> csv_read CsvStart "" [] s' in
      match m with
      | CsvStart | CsvPlain =>
          if Ascii.eqb c comma then field_end
          else if Ascii.eqb c lf then record_end
          else if Ascii.eqb c quote_char then
            match m with CsvStart => csv_read CsvQuoted "" rec s' | _ => None end
          else csv_read CsvPlain (cur +:+ String c "") rec s'
      | CsvQuoted =>
          if Ascii.eqb c quote_char then csv_read CsvQuoteSeen cur rec s'
          else csv_read CsvQuoted (cur +:+ String c "") rec s'
      | CsvQuoteSeen =>
          if Ascii.eqb c quote_char then csv_read CsvQuoted (cur +:+ String c "") rec s'
          else if Ascii.eqb c comma then field_end
          else if Ascii.eqb c lf then record_end else None
      end
  end.

Definition csv_parse (s : string) : option (list (list string)) := csv_read CsvStart "" [] s.

(** What [csv_read] does at the end of a field, before "," or a line feed. *)
Definition after_field (c : ascii) (rec : list string) (s : string) : option (list (list string)) :=
  if Ascii.eqb c comma then csv_read CsvStart "" rec s else cons rec <$> csv_read CsvStart "" [] s.

Lemma csv_read_plain f c cur rec s :
  string_forallb (fun c => negb (special c)) f = true -> c = comma \/ c = lf ->
  csv_read CsvPlain cur rec (f +:+ String c s) = after_field c (rec ++ [cur +:+ f]) s.
Proof.
  intros Hf Hc. revert cur. induction f as [| a f IH]; intros cur.
  - rewrite string_app_nil_r. unfold after_field. by destruct Hc as [-> | ->].
  - simpl in Hf. apply andb_true_iff in Hf as [Ha Hf]. unfold special in Ha.
    apply negb_true_iff in Ha. rewrite !orb_false_iff in Ha. destruct Ha as [[[H1 H2] H3] H4].
    change (csv_read CsvPlain cur rec (String a f +:+ String c s))
      with (csv_read CsvPlain cur rec (String a (f +:+ String c s))).
    cbn [csv_read]. rewrite H4, H1, H3, (IH Hf). by rewrite string_app_assoc.
Qed.

Lemma csv_read_quoted f c cur rec s :
  c = comma \/ c = lf ->
  csv_read CsvQuoted cur rec (csv_quote f +:+ String quote_char (String c s)) = after_field c (rec ++ [cur +:+ f]) s.
Proof.
  intros Hc. revert cur. induction f as [| a f IH]; intros cur.
  - rewrite string_app_nil_r. unfold after_field. by destruct Hc as [-> | ->].
  - cbn [csv_quote]. destruct (Ascii.eqb_spec a quote_char) as [-> | Hne].
    + change (csv_read CsvQuoted (cur +:+ String quote_char "") rec (csv_quote f +:+ String quote_char (String c s))
              = after_field c (rec ++ [cur +:+ String quote_char f]) s).
      rewrite IH. by rewrite string_app_assoc.
    + change (csv_read CsvQuoted cur rec (String a (csv_quote f +:+ String quote_char (String c s)))
              = after_field c (rec ++ [cur +:+ String a f]) s).
      cbn [csv_read]. apply Ascii.eqb_neq in Hne. rewrite Hne, IH. by rewrite string_app_assoc.
Qed.

Lemma csv_read_field f c rec s :
  c = comma \/ c = lf ->
  csv_read CsvStart "" rec (csv_field f +:+ String c s) = after_field c (rec ++ [f]) s.
Proof.
  intros Hc. unfold csv_field. destruct (fieldNeedsQuotes f) eqn:E.
  - pose proof (csv_read_quoted f c "" rec s Hc) as Hq. change ("" +:+ f) with f in Hq. rewrite <- Hq.
    change (csv_read CsvQuoted "" rec ((csv_quote f +:+ String quote_char "") +:+ String c s) =
            csv_read CsvQuoted "" rec (csv_quote f +:+ String quote_char (String c s))).
    by rewrite string_app_assoc.
  - destruct f as [| a f].
    + unfold after_field. by destruct Hc as [-> | ->].
    + unfold fieldNeedsQuotes in E. simpl (String a f =? "")%string in E. cbn iota in E.
      destruct (String a f =? "\.")%string; [done |].
      destruct (string_forallb (fun c => negb (special c)) (String a f)) eqn:Hf; simpl in E; [| done].
      pose proof (csv_read_plain (String a f) c "" rec s Hf Hc) as Hq.
      change ("" +:+ String a f) with (String a f) in Hq. rewrite <- Hq.
      simpl in Hf. apply andb_true_iff in Hf as [Ha _]. unfold special in Ha.
      apply negb_true_iff in Ha. rewrite !orb_false_iff in Ha. destruct Ha as [[[H1 H2] H3] H4].
      change (String a f +:+ String c s) with (String a (f +:+ String c s)).
      cbn [csv_read]. by rewrite H4, H1, H3.
Qed.

Lemma csv_read_record fields rec s :
  fields <> [] ->
  csv_read CsvStart "" rec (join "," (map csv_field fields) +:+ String lf s)
  = cons (rec ++ fields) <$> csv_read CsvStart "" [] s.
Proof.
  revert rec. induction fields as [| f fields IH]; intros rec Hne; [done |].
  destruct fields as [| g fields].
  - simpl. by rewrite csv_read_field by auto.
  - change (join "," (map csv_field (f :: g :: fields)))
      with (csv_field f +:+ "," +:+ join "," (map csv_field (g :: fields))).
    rewrite !string_app_assoc.
    change ("," +:+ (join "," (map csv_field (g :: fields)) +:+ String lf s))
      with (String comma (join "," (map csv_field (g :: fields)) +:+ String lf s)).
    rewrite csv_read_field by auto. unfold after_field. simpl (Ascii.eqb comma comma). cbn iota.
    rewrite IH by done. by rewrite <- (assoc (++)).
Qed.

Lemma csv_parse_text records :
  Forall (fun r => r <> []) records -> csv_parse (csv_text records) = Some records.
Proof.
  unfold csv_parse. induction 1 as [| r l Hr _ IH]; [done |].
  simpl. unfold csv_write. rewrite string_app_assoc.
  change (String lf "" +:+ csv_text l) with (String lf (csv_text l)).
  rewrite csv_read_record by done. by rewrite IH.
Qed.

(** ** No field starts a formula *)

Lemma csvSanitize_spec s :
  (forall c t, csvSanitize s = String c t -> formula_start c = false) /\
  (csvSanitize s = s \/ csvSanitize s = String "'" s).
Proof.
  destruct s as [| c t]; simpl; [by split; [| left] |].
  destruct (formula_start c) eqn:E; split; auto; intros c' t' [= <- <-]; [reflexivity | exact E].
Qed.

(** [export_rows] writes the rows up to the first that fails. *)
Lemma export_rows_prefix label i fails rows :
  exists k, fst (export_rows label i fails rows) = map (fun p => csv_record label (fst p) (snd p)) (take k rows) /\
    (snd (export_rows label i fails rows) = true -> k = length rows) /\
    ((forall j, fails j = false) -> snd (export_rows label i fails rows) = true).
Proof.
  revert i. induction rows as [| [ts r] rows IH]; intros i; simpl; [by exists 0%nat |].
  destruct (fails i) eqn:Ef.
  - exists 0%nat. split; [done |]. split; [done |]. intros Hf. by rewrite Hf in Ef.
  - destruct (IH (S i)) as (k & Hk & Ho & Hn). destruct (export_rows label (S i) fails rows) as [l ok].
    exists (S k). simpl in *. split; [by rewrite Hk |]. split; [intros ->; by rewrite Ho | done].
Qed.


(** ** The JSON export *)

Lemma json_rows_spec rows first :
  let '(t, ok) := json_rows first (map Some rows) in
  ok = true /\ t = (match rows with [] => "" | _ => if first then "" else "," end) +:+ join "," rows.
Proof.
  revert first. induction rows as [| b rows IH]; intros first; [done |].
  simpl. specialize (IH false). destruct (json_rows false (map Some rows)) as [t ok].
  destruct IH as [-> ->]. split; [done |]. destruct rows; [by rewrite string_app_nil_r |]. done.
Qed.

(** The JSON export closes its array and its object exactly when every row was
    written; then it is the envelope with the rows, in order, as its last
    member. *)
Lemma export_json_complete head rows :
  exportJSON head (Some (map Some rows)) =
    take_bytes (String.length head - 1) head +:+ "," +:+ String quote_char ("queries" +:+ String quote_char "") +:+
    ":[" +:+ join "," rows +:+ "]}".
Proof.
  unfold exportJSON. pose proof (json_rows_spec rows true) as H.
  destruct (json_rows true (map Some rows)) as [t ok]. destruct H as [-> ->].
  rewrite !string_app_assoc. by destruct rows.
Qed.

(** ** Labels *)

Fixpoint unescapeLabel (s : string) : option string :=
  match s with
  | "" => Some ""
  | String "\" (String c s') =>
      if Ascii.eqb c "\"%char then String "\" <$> unescapeLabel s'
      else if Ascii.eqb c quote_char then String quote_char <$> unescapeLabel s'
      else if Ascii.eqb c "n"%char then String lf <$> unescapeLabel s'
      else None
  | String c s' =>
      if Ascii.eqb c quote_char || Ascii.eqb c lf then None else String c <$> unescapeLabel s'
  end.

(** A label value, once escaped, is read back unchanged, and holds no line feed
    and no quote that is not escaped: no list URL can end a metric line or add
    a label to it. *)
Theorem escape_label_roundtrip v : unescapeLabel (escapeLabel v) = Some v.
Proof.
  induction v as [| c v IH]; [done |]. cbn [escapeLabel].
  destruct (Ascii.eqb_spec c "\"%char) as [-> | H1]; [cbn; by rewrite IH |].
  destruct (Ascii.eqb_spec c quote_char) as [-> | H2]; [cbn; by rewrite IH |].
  destruct (Ascii.eqb_spec c lf) as [-> | H3]; [cbn; by rewrite IH |].
  apply Ascii.eqb_neq in H1, H2, H3.
  change (unescapeLabel (String c (escapeLabel v)) = Some (String c v)).
  assert (Hc : unescapeLabel (String c (escapeLabel v)) =
    if Ascii.eqb c quote_char || Ascii.eqb c lf then None else String c <$> unescapeLabel (escapeLabel v)).
  { apply Ascii.eqb_neq in H1.
    destruct c as [[] [] [] [] [] [] [] []]; try reflexivity. by destruct H1. }
  rewrite Hc, H2, H3. simpl. by rewrite IH.
Qed.
