(* ===== verification/Metrics.v ===== *)
(** * The metrics page (internal/api/metrics.go)

    [handleMetrics] and [writeRuntimeGauges]: the families in the order in which
    they are printed, each with its HELP and TYPE line and its samples, and the
    text they make. A function that main did not wire is [None], as the nil
    field of the server; a map is the list of its entries in the order of the
    loop. The reader at the end is one of the text format 0.0.4. *)

From stdpp Require Import base numbers list gmap strings.
From Stdlib Require Import Ascii ZArith Lia.
From S2P Require Import Prelude GoStrings GoConv GoUrl Blocklist Stats Redact ApiFormat.

Open Scope string_scope.

(** What a scrape reads besides the counters and the store: the transport
    failures of each upstream, the expiry of the certificate and the failed
    reloads, the misses, the size and the dropped entries of the cache, the
    dropped entries of the query database, four more counters, and the runtime
    samples (those of kind uint64). The cache is an interface value: [None] is
    the nil interface, and [Some None] an interface that holds a nil pointer,
    which is not nil and whose methods panic. *)
Record MetricFns := mkMetricFns {
  mf_upstreamFailures : option (list (string * Z));
  mf_dot : option (Z * Z);
  mf_cache : option (option (Z * Z * Z));
  mf_db : option Z;
  mf_refused : option Z;
  mf_forwardLimited : option Z;
  mf_plaintext : option Z;
  mf_fileDropped : option Z;
  mf_runtime : string -> option Z;
}.

(** One metric: its name, its HELP text, its type, and its samples, each with
    at most one label. *)
Record Family := mkFamily {
  fm_name : string;
  fm_help : string;
  fm_kind : string;
  fm_samples : list (option (string * string) * Z);
}.

(** Three calls of [fmt.Fprint] for a metric without labels. *)
Definition single (name help kind : string) (v : Z) : Family := mkFamily name help kind [(None, v)].
Definition counter_ (name help : string) (v : Z) : Family := single name help "counter" v.
Definition gauge_ (name help : string) (v : Z) : Family := single name help "gauge" v.

(** [if f != nil { ... }]. *)
Definition when_set {A} (f : option A) (print : A -> list Family) : list Family :=
  match f with Some v => print v | None => [] end.

Definition metricGoroutines : string := "/sched/goroutines:goroutines".
Definition metricHeapObjects : string := "/memory/classes/heap/objects:bytes".
Definition metricHeapUnused : string := "/memory/classes/heap/unused:bytes".

Definition writeRuntimeGauges (vals : string -> option Z) : list Family :=
  (when_set (vals metricGoroutines) (fun n =>
     [gauge_ "shole_goroutines" "Current number of goroutines." n])
   ++ when_set (vals metricHeapObjects) (fun n =>
     [gauge_ "shole_memory_alloc_bytes" "Bytes of allocated heap objects (live and not-yet-freed)." n])
   ++ match vals metricHeapObjects, vals metricHeapUnused with
      | Some objects, Some unused =>
          [gauge_ "shole_memory_heap_inuse_bytes" "Bytes in in-use heap spans (allocated objects plus span fragmentation)."
             (wrap 64 (objects + unused))]
      | _, _ => []
      end)%list.

Section metrics.
Context `{UrlParse}.

Definition upstream_sample (p : string * Z) : option (string * string) * Z :=
  (Some ("upstream", Redact.URL (fst p)), snd p).

Definition source_sample (v : SourceStatus -> Z) (src : SourceStatus) : option (string * string) * Z :=
  (Some ("url", Redact.URL (src_URL src)), v src).

(** The families of [handleMetrics] before the ones of the cache, for the
    snapshot [snap]. *)
Definition families_before (snap : Summary) (f : MetricFns) : list Family :=
  ([counter_ "shole_queries_total" "Total DNS queries handled." (TotalQueries snap);
    counter_ "shole_blocked_total" "Total DNS queries that matched a blocklist." (BlockedCount snap);
    counter_ "shole_cname_blocked_total" "Total DNS queries blocked because a CNAME target in the answer matched a blocklist (a subset of shole_blocked_total)." (CNAMEBlockedCount snap);
    counter_ "shole_local_ptr_total" "Total PTR queries for private reverse zones and the LAN's own IPv6 prefix answered locally with NXDOMAIN." (LocalPTRCount snap);
    counter_ "shole_local_names_total" "Total queries for local-only names answered here and never forwarded (localhost, .onion, .invalid, .alt, or a LAN name with no LAN upstream)." (LocalNameCount snap);
    counter_ "shole_cache_hits_total" "Total DNS responses served from the in-memory cache." (CacheHits snap);
    counter_ "shole_forward_failures_total" "Total DNS queries s-hole could not resolve (every upstream failed or the forward limit was reached, so it synthesized a SERVFAIL)." (ForwardFailures snap);
    counter_ "shole_upstream_errors_total" "Total failure rcodes (SERVFAIL/REFUSED) relayed from a live upstream." (UpstreamErrors snap)]
   ++ when_set (mf_upstreamFailures f) (fun failures =>
        if (0 <? lenZ failures)%Z
        then [mkFamily "shole_upstream_transport_failures_total" "Per-upstream cumulative transport failures (no usable answer: a timeout, a refused connection, a reply that does not match the query, or for a DoH upstream a non-200 status, a redirect, or an unparsable body) seen by the forward cooldown tracker." "counter"
                (map upstream_sample failures)]
        else [])
   ++ when_set (mf_dot f) (fun '(notAfter, reloadFailures) =>
        [gauge_ "shole_dot_certificate_expiry_timestamp_seconds" "Unix time when the DNS-over-TLS certificate being served expires." (notAfter / second);
         counter_ "shole_dot_certificate_reload_failures_total" "Reloads whose certificate files did not load; the listener kept the previous certificate." reloadFailures]))%list.

Definition cache_families (v : Z * Z * Z) : list Family :=
  let '(misses, size, dropped) := v in
  [counter_ "shole_cache_misses_total" "DNS cache misses (sent upstream, or refused at the forward limit)." misses;
   gauge_ "shole_cache_size" "Current number of entries in the DNS response cache." size;
   counter_ "shole_cache_dropped_total" "DNS cache entries dropped because the cache was full of unexpired entries." dropped].

Definition families_after (store : Store) (f : MetricFns) : list Family :=
  ([gauge_ "shole_blocklist_size" "Current number of domains in the block set." (Len store)]
   ++ (if (0 <? lenZ (Sources store))%Z
       then [mkFamily "shole_blocklist_source_size" "Domains contributed by one blocklist source (pre-dedup)." "gauge"
               (map (source_sample src_Count) (Sources store));
             mkFamily "shole_blocklist_source_stale" "Whether a blocklist source is serving stale or no data (1) or fresh data (0)." "gauge"
               (map (source_sample (fun src => if src_Stale src then 1 else 0)%Z) (Sources store))]
       else [])
   ++ [gauge_ "shole_allowlist_size" "Current number of domains in the runtime allowlist." (AllowlistLen store)]
   ++ when_set (mf_db f) (fun n =>
        [counter_ "shole_query_log_dropped_total" "Query log entries dropped because the writer queue was full." n])
   ++ when_set (mf_refused f) (fun n =>
        [counter_ "shole_refused_total" "Queries refused because they came from outside the LAN." n])
   ++ when_set (mf_forwardLimited f) (fun n =>
        [counter_ "shole_forward_limited_total" "Queries answered SERVFAIL at once because the limit of queries waiting for an upstream was reached." n])
   ++ when_set (mf_plaintext f) (fun n =>
        [counter_ "shole_upstream_plaintext_fallback_total" "Queries sent to a plain upstream because every DoH upstream had failed." n])
   ++ when_set (mf_fileDropped f) (fun n =>
        [counter_ "shole_query_log_file_dropped_total" "Query log lines dropped because the file or standard-output writer fell behind." n])
   ++ writeRuntimeGauges (mf_runtime f))%list.

(** [handleMetrics]: what it prints, and whether it panics. *)
Definition handleMetrics_families (snap : Summary) (store : Store) (f : MetricFns) : list Family * bool :=
  match mf_cache f with
  | None => (families_before snap f ++ families_after store f, false)
  | Some (Some v) => (families_before snap f ++ cache_families v ++ families_after store f, false)
  | Some None => (families_before snap f, true)
  end%list.
End metrics.

(** ** The text *)

Inductive line :=
  | Help (name text : string)
  | Type_ (name kind : string)
  | Sample (name : string) (label : option (string * string)) (v : Z).

Definition family_lines (m : Family) : list line :=
  Help (fm_name m) (fm_help m) :: Type_ (fm_name m) (fm_kind m)
    :: map (fun s => Sample (fm_name m) (fst s) (snd s)) (fm_samples m).

Definition label_text (label : option (string * string)) : string :=
  match label with
  | None => ""
  | Some (k, v) => "{" +:+ k +:+ "=" +:+ String quote_char (escapeLabel v +:+ String quote_char "}")
  end.

Definition line_text (l : line) : string :=
  match l with
  | Help name text => "# HELP " +:+ name +:+ " " +:+ text
  | Type_ name kind => "# TYPE " +:+ name +:+ " " +:+ kind
  | Sample name label v => name +:+ label_text label +:+ " " +:+ Itoa v
  end.

Fixpoint lines_text (ls : list string) : string :=
  match ls with [] => "" | l :: ls' => l +:+ String lf (lines_text ls') end.

Definition metrics_text (ms : list Family) : string := lines_text (map line_text (flat_map family_lines ms)).

(** ** A reader of the text *)

Definition name_char (c : ascii) : bool := is_lower c || is_digit c || Ascii.eqb c "_"%char.

Fixpoint cut_name (s : string) : string * string :=
  match s with
  | "" => ("", "")
  | String c s' => if name_char c then let '(n, r) := cut_name s' in (String c n, r) else ("", s)
  end.

(** The text before the first quote that no backslash escapes. *)
Fixpoint cut_quoted (s : string) : option (string * string) :=
  match s with
  | "" => None
  | String c s' =>
      if Ascii.eqb c quote_char then Some ("", s')
      else if Ascii.eqb c "\"%char then
        match s' with
        | "" => None
        | String d s'' => '(v, r) ← cut_quoted s''; Some (String c (String d v), r)
        end
      else '(v, r) ← cut_quoted s'; Some (String c v, r)
  end.

Definition read_int (s : string) : option Z :=
  let '(neg, digits) := cut_sign s in
  if negb (all_digits digits) then None
  else let v := Z.of_N (atoi_acc 0 digits) in Some (if neg then (- v)%Z else v).

Definition read_label (s : string) : option (option (string * string) * string) :=
  if has_prefix "{" s then
    let '(k, r) := cut_name (drop_bytes 1 s) in
    if has_prefix ("=" +:+ String quote_char "") r then
      '(raw, r) ← cut_quoted (drop_bytes 2 r);
      v ← unescapeLabel raw;
      if has_prefix "}" r then Some (Some (k, v), drop_bytes 1 r) else None
    else None
  else Some (None, s).

Definition read_comment (mk : string -> string -> line) (s : string) : option line :=
  let '(n, r) := cut_name s in
  if has_prefix " " r then Some (mk n (drop_bytes 1 r)) else None.

Definition read_line (s : string) : option line :=
  if has_prefix "# HELP " s then read_comment Help (drop_bytes 7 s)
  else if has_prefix "# TYPE " s then read_comment Type_ (drop_bytes 7 s)
  else
    let '(n, r) := cut_name s in
    '(label, r) ← read_label r;
    if has_prefix " " r then v ← read_int (drop_bytes 1 r); Some (Sample n label v) else None.

(** Every line ends in a line feed. *)
Fixpoint read_lines (ls : list string) : option (list line) :=
  match ls with
  | [] => None
  | [last] => if (last =? "")%string then Some [] else None
  | l :: ls' => x ← read_line l; xs ← read_lines ls'; Some (x :: xs)
  end.

Definition read_metrics (text : string) : option (list line) := read_lines (split_byte lf text).

(** The series of a page: two samples of one name and one label are one
    series, which a monitor refuses to read twice. *)
Definition series (ms : list Family) : list (string * option (string * string)) :=
  flat_map (fun m => map (fun s => (fm_name m, fst s)) (fm_samples m)) ms.

(** ** Reading the lines back *)

Definition name_ok (n : string) : bool := negb (n =? "")%string && string_forallb name_char n.
Definition no_lf (s : string) : bool := string_forallb (fun c => negb (Ascii.eqb c lf)) s.
Definition label_ok (label : option (string * string)) : bool :=
  match label with Some (k, _) => name_ok k | None => true end.

Definition line_ok (l : line) : bool :=
  match l with
  | Help n t | Type_ n t => name_ok n && no_lf t
  | Sample n label _ => name_ok n && label_ok label
  end.

Definition family_ok (m : Family) : bool :=
  name_ok (fm_name m) && no_lf (fm_help m) && no_lf (fm_kind m) && forallb (fun s => label_ok (fst s)) (fm_samples m).

Definition name_end (r : string) : Prop := match r with "" => True | String c _ => name_char c = false end.

Lemma cut_name_app n r : string_forallb name_char n = true -> name_end r -> cut_name (n +:+ r) = (n, r).
Proof.
  intros Hn Hr. induction n as [| c n IH]; simpl in *.
  - destruct r as [| d r]; [done |]. simpl in *. by rewrite Hr.
  - apply andb_true_iff in Hn as [Hc Hn]. by rewrite Hc, IH.
Qed.

Lemma cut_quoted_escape v r : cut_quoted (escapeLabel v +:+ String quote_char r) = Some (escapeLabel v, r).
Proof.
  induction v as [| c v IH]; [done |]. cbn [escapeLabel].
  destruct (Ascii.eqb_spec c "\"%char) as [-> | H1]; [cbn; by rewrite IH |].
  destruct (Ascii.eqb_spec c quote_char) as [-> | H2]; [cbn; by rewrite IH |].
  destruct (Ascii.eqb_spec c lf) as [-> | H3]; [cbn; by rewrite IH |].
  apply Ascii.eqb_neq in H1, H2. cbn [String.app cut_quoted]. rewrite H2, H1. by rewrite IH.
Qed.

Lemma escapeLabel_no_lf v : no_byte lf (escapeLabel v).
Proof.
  apply no_byte_bool. induction v as [| c v IH]; [done |]. cbn [escapeLabel].
  destruct (Ascii.eqb_spec c "\"%char) as [-> | H1]; [exact IH |].
  destruct (Ascii.eqb_spec c quote_char) as [-> | H2]; [exact IH |].
  destruct (Ascii.eqb_spec c lf) as [-> | H3]; [exact IH |].
  cbn. apply Ascii.eqb_neq in H3. by rewrite H3.
Qed.

Lemma itoa_not_empty n : itoa n <> "".
Proof.
  intros E. pose proof (atoi_itoa n) as H. rewrite E in H. simpl in H. subst n. by vm_compute in E.
Qed.

Lemma itoa_all_digits n : all_digits (itoa n) = true.
Proof. unfold all_digits. rewrite itoa_digits. by rewrite (proj2 (String.eqb_neq _ _) (itoa_not_empty n)). Qed.

Lemma cut_sign_itoa n : cut_sign (itoa n) = (false, itoa n).
Proof.
  pose proof (itoa_digits n) as H. destruct (itoa n) as [| c s]; [done |]. simpl in H.
  apply andb_true_iff in H as [H _]. unfold cut_sign.
  destruct (Ascii.eqb_spec c "-"%char) as [-> | _]; [done |].
  by destruct (Ascii.eqb_spec c "+"%char) as [-> | _].
Qed.

Lemma read_int_Itoa v : read_int (Itoa v) = Some v.
Proof.
  unfold read_int, Itoa. destruct (Z.ltb_spec v 0) as [Hv | Hv].
  - change (cut_sign ("-" +:+ itoa (Z.to_N (- v)))) with (true, itoa (Z.to_N (- v))).
    cbv beta iota. rewrite itoa_all_digits. simpl. rewrite atoi_itoa. f_equal. lia.
  - rewrite cut_sign_itoa, itoa_all_digits. simpl. rewrite atoi_itoa. f_equal. lia.
Qed.

Lemma Itoa_no_lf v : no_byte lf (Itoa v).
Proof.
  unfold Itoa. destruct (v <? 0)%Z; [| by apply itoa_no_byte].
  apply no_byte_app. split; [apply no_byte_bool; reflexivity | by apply itoa_no_byte].
Qed.

Lemma name_ok_no_lf n : name_ok n = true -> no_byte lf n.
Proof.
  intros H. apply andb_true_iff in H as [_ H]. apply no_byte_bool. revert H. apply string_forallb_impl.
  intros c Hc. destruct (Ascii.eqb_spec c lf) as [-> | _]; [by vm_compute in Hc | done].
Qed.

Lemma name_ok_first n : name_ok n = true -> exists c n', n = String c n' /\ name_char c = true.
Proof. destruct n as [| c n']; [done |]. unfold name_ok. simpl. intros H. apply andb_true_iff in H as [H _]. eauto. Qed.

Lemma line_text_no_lf l : line_ok l = true -> no_byte lf (line_text l).
Proof.
  assert (Hc : forall s, string_forallb (fun a => negb (Ascii.eqb a lf)) s = true -> no_byte lf s)
    by (intros; by apply no_byte_bool).
  destruct l as [n t | n t | n label v]; cbn [line_text line_ok]; intros H; apply andb_true_iff in H as [Hn H];
    apply name_ok_no_lf in Hn.
  1, 2: rewrite !no_byte_app; repeat split; try done; apply Hc; done.
  rewrite !no_byte_app. split; [done |]. split; [| split; [by apply Hc | apply Itoa_no_lf]].
  destruct label as [[k w] |]; [| apply no_byte_nil]. apply name_ok_no_lf in H.
  unfold label_text. repeat (rewrite no_byte_app || rewrite no_byte_cons).
  split_and!; try done; try apply no_byte_nil. apply escapeLabel_no_lf.
Qed.

Lemma split_lines_text ls : Forall (no_byte lf) ls -> split_byte lf (lines_text ls) = (ls ++ [""])%list.
Proof.
  induction 1 as [| l ls Hl _ IH]; [done |]. cbn [lines_text app]. rewrite <- IH. clear IH.
  apply no_byte_bool in Hl. induction l as [| c l IH]; [done |].
  simpl in *. apply andb_true_iff in Hl as [Hc Hl]. apply negb_true_iff in Hc. rewrite Hc.
  by rewrite IH.
Qed.

Lemma read_name n r (Hn : name_ok n = true) (Hr : name_end r) : cut_name (n +:+ r) = (n, r).
Proof. apply cut_name_app; [| done]. by apply andb_true_iff in Hn as [_ Hn]. Qed.

Lemma read_label_text label r :
  label_ok label = true -> has_prefix "{" r = false -> read_label (label_text label +:+ r) = Some (label, r).
Proof.
  intros Hl Hr. unfold read_label. destruct label as [[k v] |]; cbn [label_text].
  - rewrite !string_app_assoc. cbn [String.app has_prefix drop_bytes].
    rewrite read_name; [| done | done]. simpl.
    rewrite string_app_assoc. cbn [String.app]. rewrite cut_quoted_escape. simpl. rewrite escape_label_roundtrip.
    done.
  - change ("" +:+ r) with r. by rewrite Hr.
Qed.

Lemma read_line_text l : line_ok l = true -> read_line (line_text l) = Some l.
Proof.
  destruct l as [n t | n t | n label v]; cbn [line_ok]; intros H; apply andb_true_iff in H as [Hn H].
  1, 2: unfold read_line, line_text, read_comment; cbn [String.app has_prefix drop_bytes];
    rewrite read_name by done; done.
  destruct (name_ok_first n Hn) as (c & n' & E & Hc).
  unfold read_line. cbn [line_text].
  assert (Hd : forall p, has_prefix (String "#" p) (n +:+ label_text label +:+ " " +:+ Itoa v) = false).
  { intros p. rewrite E. simpl. destruct (decide (c = "#"%char)) as [-> | Hne]; [by vm_compute in Hc |].
    by destruct c as [[] [] [] [] [] [] [] []]. }
  rewrite !Hd, read_name; [| done | by destruct label as [[] |]].
  rewrite read_label_text by done. simpl. by rewrite read_int_Itoa.
Qed.

Lemma read_lines_text ls :
  Forall (fun l => line_ok l = true) ls -> read_lines (map line_text ls ++ [""])%list = Some ls.
Proof.
  induction 1 as [| l ls Hl _ IH]; [done |].
  assert (Hne : (map line_text ls ++ [""])%list <> []) by (by destruct ls).
  cbn [map app]. rewrite (eq_refl : read_lines (line_text l :: (map line_text ls ++ [""])%list) =
    match (map line_text ls ++ [""])%list with
    | [] => if (line_text l =? "")%string then Some [] else None
    | _ => x ← read_line (line_text l); xs ← read_lines (map line_text ls ++ [""])%list; Some (x :: xs)
    end).
  destruct (map line_text ls ++ [""])%list; [done |]. rewrite read_line_text by done. simpl in *. by rewrite IH.
Qed.

Lemma family_lines_ok m : family_ok m = true -> Forall (fun l => line_ok l = true) (family_lines m).
Proof.
  unfold family_ok. intros H. apply andb_true_iff in H as [H Hs]. apply andb_true_iff in H as [H Hk].
  apply andb_true_iff in H as [Hn Hh]. rewrite forallb_elem in Hs.
  unfold family_lines. repeat constructor; simpl; [by rewrite Hn, Hh | by rewrite Hn, Hk |].
  apply Forall_forall. intros l Hl. apply list_elem_of_fmap in Hl as (s & -> & Hin).
  simpl. rewrite Hn. simpl. auto.
Qed.

Lemma read_metrics_text ms : forallb family_ok ms = true -> read_metrics (metrics_text ms) = Some (flat_map family_lines ms).
Proof.
  intros H. unfold read_metrics, metrics_text.
  assert (Hok : Forall (fun l => line_ok l = true) (flat_map family_lines ms)).
  { rewrite forallb_elem in H. apply Forall_forall. intros l Hl. apply list_elem_of_In, in_flat_map in Hl as (m & Hm & Hl).
    apply list_elem_of_In in Hm, Hl. apply H in Hm. apply family_lines_ok in Hm. by eapply Forall_forall in Hm. }
  rewrite split_lines_text; [by apply read_lines_text |].
  apply Forall_forall. intros s Hs. apply list_elem_of_fmap in Hs as (l & -> & Hl).
  apply line_text_no_lf. by eapply Forall_forall in Hok.
Qed.

(** ** The page of s-hole *)

Section page.
Context `{UrlParse}.

(** What is printed. *)
Definition printed (snap : Summary) (store : Store) (f : MetricFns) : list Family :=
  fst (handleMetrics_families snap store f).

Lemma printed_forall (P : Family -> Prop) snap store f :
  Forall P (families_before snap f) -> (forall v, Forall P (cache_families v)) -> Forall P (families_after store f) ->
  Forall P (printed snap store f).
Proof.
  intros Hb Hc Ha. unfold printed, handleMetrics_families. destruct (mf_cache f) as [[v |] |]; cbn [fst];
    [apply Forall_app_2; [exact Hb | by apply Forall_app_2] | exact Hb | by apply Forall_app_2].
Qed.

Lemma families_ok snap store f : forallb family_ok (printed snap store f) = true.
Proof.
  assert (Hm : forall A (g : A -> option (string * string) * Z) l,
    (forall x, label_ok (fst (g x)) = true) -> forallb (fun s => label_ok (fst s)) (map g l) = true).
  { intros A g l Hg. induction l; simpl; [done | by rewrite Hg]. }
  apply forallb_elem, Forall_forall.
  apply printed_forall; [| intros [[? ?] ?] |]; unfold families_before, cache_families, families_after, writeRuntimeGauges;
    repeat apply Forall_app_2;
    try (match goal with |- Forall _ (when_set ?o _) => destruct o as [x |] end);
    cbn [when_set]; repeat case_match; repeat apply List.Forall_cons; try apply List.Forall_nil;
    apply andb_true_iff; split; try reflexivity; by apply Hm.
Qed.

(** Every name that the page can have, in its order and by its groups. *)
Definition name_groups : list (list string) :=
  [["shole_queries_total"; "shole_blocked_total"; "shole_cname_blocked_total"; "shole_local_ptr_total";
    "shole_local_names_total"; "shole_cache_hits_total"; "shole_forward_failures_total"; "shole_upstream_errors_total"];
   ["shole_upstream_transport_failures_total"];
   ["shole_dot_certificate_expiry_timestamp_seconds"; "shole_dot_certificate_reload_failures_total"];
   ["shole_cache_misses_total"; "shole_cache_size"; "shole_cache_dropped_total"];
   ["shole_blocklist_size"]; ["shole_blocklist_source_size"; "shole_blocklist_source_stale"];
   ["shole_allowlist_size"]; ["shole_query_log_dropped_total"]; ["shole_refused_total"]; ["shole_forward_limited_total"];
   ["shole_upstream_plaintext_fallback_total"]; ["shole_query_log_file_dropped_total"];
   ["shole_goroutines"]; ["shole_memory_alloc_bytes"]; ["shole_memory_heap_inuse_bytes"]].

Lemma names_sublist snap store f : map fm_name (printed snap store f) `sublist_of` concat name_groups.
Proof.
  assert (Hb : map fm_name (families_before snap f) `sublist_of` concat (take 3 name_groups)).
  { unfold families_before. rewrite !map_app. unfold name_groups. cbn [concat take].
    rewrite app_nil_r. repeat apply sublist_app; try reflexivity;
    try (match goal with |- sublist (map _ (when_set ?o _)) _ => destruct o as [x |]; [| apply sublist_nil_l] end);
    cbn [when_set]; repeat case_match; simpl; try reflexivity; apply sublist_nil_l. }
  assert (Ha : map fm_name (families_after store f) `sublist_of` concat (drop 4 name_groups)).
  { unfold families_after, writeRuntimeGauges. rewrite !map_app. unfold name_groups. cbn [concat drop].
    repeat apply sublist_app; try reflexivity;
    try (match goal with |- sublist (map _ (when_set ?o _)) _ => destruct o as [x |]; [| apply sublist_nil_l] end);
    cbn [when_set]; repeat case_match; simpl; try reflexivity; apply sublist_nil_l. }
  assert (E : concat name_groups = (concat (take 3 name_groups) ++ nth 3 name_groups [] ++ concat (drop 4 name_groups))%list)
    by reflexivity.
  rewrite E. unfold printed, handleMetrics_families. destruct (mf_cache f) as [[[[x y] z] |] |]; cbn [fst];
    rewrite ?map_app.
  - repeat apply sublist_app; done.
  - rewrite <- (app_nil_r (map _ _)). apply sublist_app; [done | apply sublist_nil_l].
  - apply sublist_app; [done |]. by apply sublist_inserts_l.
Qed.

Lemma names_unique snap store f : NoDup (map fm_name (printed snap store f)).
Proof.
  eapply sublist_NoDup; [| apply names_sublist]. apply (bool_decide_unpack _). vm_compute. exact I.
Qed.

(** The labels of the samples of one family. *)
Definition labels (m : Family) : list (option (string * string)) := map fst (fm_samples m).

Lemma series_cons m ms : series (m :: ms) = (map (pair (fm_name m)) (labels m) ++ series ms)%list.
Proof. unfold series, labels. simpl. by rewrite map_map. Qed.

Lemma series_names ms p : p ∈ series ms -> fst p ∈ map fm_name ms.
Proof.
  unfold series. rewrite list_elem_of_In, in_flat_map. intros (m & Hm & Hp). apply list_elem_of_In in Hm, Hp.
  apply list_elem_of_fmap in Hp as (s & -> & _). apply list_elem_of_fmap. eauto.
Qed.

Lemma series_unique ms :
  NoDup (map fm_name ms) -> (NoDup (series ms) <-> Forall (fun m => NoDup (labels m)) ms).
Proof.
  induction ms as [| m ms IH]; intros Hn; [split; [constructor | intros; constructor] |].
  simpl in Hn. apply NoDup_cons in Hn as [Hm Hn]. rewrite series_cons, NoDup_app, Forall_cons, IH by done.
  assert (HN : NoDup (map (pair (fm_name m)) (labels m)) <-> NoDup (labels m)).
  { split; [apply NoDup_fmap_1 | apply NoDup_fmap_2]. intros a b E. by injection E. }
  rewrite HN. split; [tauto |]. intros [H1 H2]. split; [done | split; [| done]].
  intros p Hp Hq. apply series_names in Hq. apply list_elem_of_fmap in Hp as (l & -> & _). done.
Qed.
(** What holds of every family without labels, of the upstream failures and of
    the two metrics of the sources holds of every family of the page. *)
Lemma families_forall (P : Family -> Prop) snap store f :
  (forall n h k v, P (single n h k v)) ->
  (forall n h k, P (mkFamily n h k (map upstream_sample (default [] (mf_upstreamFailures f))))) ->
  (forall n h k v, P (mkFamily n h k (map (source_sample v) (Sources store)))) ->
  Forall P (printed snap store f).
Proof.
  intros Hs Hu Hl. apply printed_forall; [| intros [[? ?] ?] |];
    unfold families_before, cache_families, families_after, writeRuntimeGauges;
    repeat apply Forall_app_2;
    try (match goal with |- Forall _ (when_set ?o _) => destruct o end);
    cbn [when_set]; repeat case_match; repeat apply List.Forall_cons;
    try apply Hs; try apply Hl; try apply Hu; apply List.Forall_nil.
Qed.

Lemma labels_map {A} n h k (g : A -> option (string * string) * Z) l :
  labels (mkFamily n h k (map g l)) = map (fun x => fst (g x)) l.
Proof. unfold labels. simpl. by rewrite map_map. Qed.

Lemma NoDup_labels {A} (key : string) (u : A -> string) (l : list A) :
  NoDup (map (fun x => Some (key, u x)) l) <-> NoDup (map u l).
Proof.
  rewrite <- (map_map u (fun v => Some (key, v))). split; [apply NoDup_fmap_1 |].
  apply NoDup_fmap_2. intros a b E. by injection E.
Qed.

Lemma lenZ_pos {A} (l : list A) : l <> [] -> (0 <? lenZ l)%Z = true.
Proof. intros Hl. apply Z.ltb_lt. unfold lenZ. destruct l; [done | simpl; lia]. Qed.

Lemma printed_before snap store f m : m ∈ families_before snap f -> m ∈ printed snap store f.
Proof.
  intros Hm. unfold printed, handleMetrics_families. destruct (mf_cache f) as [[v |] |]; cbn [fst]; [| done |];
    apply elem_of_app; by left.
Qed.

Lemma printed_after snap store f m :
  mf_cache f <> Some None -> m ∈ families_after store f -> m ∈ printed snap store f.
Proof.
  intros Hc Hm. unfold printed, handleMetrics_families.
  destruct (mf_cache f) as [[v |] |] eqn:E; cbn [fst]; [| done |];
    [do 2 (apply elem_of_app; right) | apply elem_of_app; right]; exact Hm.
Qed.

Lemma upstreams_shown snap store f :
  default [] (mf_upstreamFailures f) <> [] ->
  exists n h k, mkFamily n h k (map upstream_sample (default [] (mf_upstreamFailures f))) ∈ printed snap store f.
Proof.
  intros Hne. do 3 eexists. apply printed_before. unfold families_before.
  apply elem_of_app. right. apply elem_of_app. left.
  destruct (mf_upstreamFailures f) as [l |]; [| done]. cbn [when_set default] in *. simpl in Hne.
  rewrite lenZ_pos by done. by left.
Qed.

Lemma sources_shown snap store f :
  mf_cache f <> Some None -> Sources store <> [] ->
  exists n h k v, mkFamily n h k (map (source_sample v) (Sources store)) ∈ printed snap store f.
Proof.
  intros Hc Hne. do 4 eexists. apply printed_after; [done |]. unfold families_after. rewrite lenZ_pos by done.
  apply elem_of_app. right. apply elem_of_app. left. by left.
Qed.

(** C21. The page can be read back, whatever the list URLs and the upstreams
    contain: a reader gets exactly the families that were printed, in order,
    each with its HELP, its type and its samples, and every value as it was. No
    metric occurs twice. The only labels are the upstreams and the list URLs, as
    [redact.URL] shows them, and never a name or a client. The handler prints
    everything, except that it panics when the cache is an interface that holds
    a nil pointer; and then no series occurs twice if and only if no two
    upstreams with failures and no two lists are shown alike. *)
Theorem metrics_page snap store f :
  let '(ms, panicked) := handleMetrics_families snap store f in
  let upstreams := map (fun p => Redact.URL (fst p)) (default [] (mf_upstreamFailures f)) in
  let lists := map (fun src => Redact.URL (src_URL src)) (Sources store) in
  read_metrics (metrics_text ms) = Some (flat_map family_lines ms) /\
  NoDup (map fm_name ms) /\
  Forall (fun m => forall k v, Some (k, v) ∈ labels m ->
            (k = "upstream" /\ v ∈ upstreams) \/ (k = "url" /\ v ∈ lists)) ms /\
  (panicked = true <-> mf_cache f = Some None) /\
  (panicked = false -> (NoDup (series ms) <-> NoDup upstreams /\ NoDup lists)).
Proof.
  destruct (handleMetrics_families snap store f) as [ms panicked] eqn:E.
  assert (Hp : panicked = true <-> mf_cache f = Some None).
  { unfold handleMetrics_families in E. destruct (mf_cache f) as [[v |] |]; injection E as _ <-; done. }
  replace ms with (printed snap store f) by (unfold printed; by rewrite E). clear E ms.
  intros upstreams lists. split_and!; [apply read_metrics_text, families_ok | apply names_unique | | exact Hp |].
  - apply families_forall.
    + intros n h kd v k w Hin. by apply list_elem_of_singleton in Hin.
    + intros n h kd k v Hin. rewrite labels_map in Hin. apply list_elem_of_fmap in Hin as (p & [= -> ->] & Hin).
      left. split; [done |]. apply list_elem_of_fmap. eauto.
    + intros n h kd g k v Hin. rewrite labels_map in Hin. apply list_elem_of_fmap in Hin as (p & [= -> ->] & Hin).
      right. split; [done |]. apply list_elem_of_fmap. eauto.
  - intros ->. rewrite series_unique by apply names_unique. split.
    + intros Hall. rewrite Forall_forall in Hall. split.
      * destruct (decide (default [] (mf_upstreamFailures f) = [])) as [E | Hne].
        { unfold upstreams. rewrite E. constructor. }
        destruct (upstreams_shown snap store f Hne) as (n & hp & k & Hin). apply Hall in Hin.
        rewrite labels_map in Hin. exact (proj1 (NoDup_labels _ _ _) Hin).
      * destruct (decide (Sources store = [])) as [E | Hne].
        { unfold lists. rewrite E. constructor. }
        assert (Hc : mf_cache f <> Some None) by (intros Hc; apply Hp in Hc; done).
        destruct (sources_shown snap store f Hc Hne) as (n & hp & k & v & Hin). apply Hall in Hin.
        rewrite labels_map in Hin. exact (proj1 (NoDup_labels _ _ _) Hin).
    + intros [Hu Hl]. apply families_forall; intros; [apply NoDup_singleton | |];
        rewrite labels_map; by apply NoDup_labels.
Qed.
End page.

(** ** Examples *)

Module MetricsExamples.
(** [url.Parse] on URLs without user info, cut at the query. *)
#[local] Instance query_url : UrlParse := fun s =>
  let '(base, query) := match cut_byte "?"%char s with Some p => p | None => (s, "") end in
  Some (mkParsedURL "https" None base "" query (fun _ q => base +:+ "?" +:+ q)).

Definition store : Store :=
  mkStore {["ads.example"]} ∅ ∅ (Some [mkSource "https://lists.example/get?id=1" 10 None false;
                                       mkSource "https://lists.example/get?id=2" 20 None true]).

Definition fns : MetricFns :=
  mkMetricFns (Some [("9.9.9.9:53", 3%Z)]) None (Some (Some (5, 6, 7)%Z)) None (Some 1%Z) None None None
    (fun k => if (k =? metricGoroutines)%string then Some 12%Z else None).

Definition snap : Summary := Snapshot_summary (fun c => match c with CTotal => 9 | CBlocked => 4 | _ => 0 end)%Z.

Example page_end :
  drop 20 (default [] (read_metrics (metrics_text (printed snap store fns)))) <> [] /\
  last (flat_map family_lines (printed snap store fns)) = Some (Sample "shole_goroutines" None 12) /\
  Some (Sample "shole_upstream_transport_failures_total" (Some ("upstream", "9.9.9.9:53")) 3)
    = flat_map family_lines (printed snap store fns) !! 26%nat.
Proof. vm_compute. split_and!; done. Qed.

(** Two lists of one server that differ only in their query are one series, with
    two values on one page. *)
Example lists_shown_alike :
  series (printed snap store fns) !! 13%nat
    = Some ("shole_blocklist_source_size", Some ("url", "https://lists.example/get?redacted")) /\
  series (printed snap store fns) !! 14%nat
    = series (printed snap store fns) !! 13%nat.
Proof. vm_compute. done. Qed.
End MetricsExamples.
