(* ===== verification/Api.v ===== *)
(** * The admin API (internal/api/api.go, purge.go)

    The routes as functions from a request and the state of the server to a
    reply and the new state, in the order of their guards, behind the checks of
    AdminSecurity. Bodies are the values before the JSON encoding. The clock,
    the interface addresses, the iteration orders of the tally maps and the
    errors of the database are the [Env] of a request; the file server and the
    profiler of the standard library are classes. *)

From stdpp Require Import base numbers list gmap strings.
From Stdlib Require Import Ascii ZArith Lia.
From Stdlib Require Import Floats.SpecFloat.
From S2P Require Import Prelude GoStrings GoConv GoUrl GoNet Blocklist Loader Timeline Stats QueryLog QueryReads StaleRows ClientNames Redact Lifecycle AdminSecurity ApiFormat Metrics.

Open Scope string_scope.
Open Scope list_scope.

(** ** Parameters *)

Definition maxRequestBytes : Z := 64 * 1024.
Definition maxConcurrentExports : Z := 2.
Definition defaultQueriesLimit : Z := 50.
Definition maxQueriesLimit : Z := 1000.
Definition maxAllowlistEntries : Z := 1000.

Definition parseLimit (r : Request) : Z :=
  match Atoi (r_query r "limit") with
  | Some n => if (n <=? 0)%Z then defaultQueriesLimit else Z.min n maxQueriesLimit
  | None => defaultQueriesLimit
  end.

Definition parseQueryFilter (r : Request) : QueryFilter :=
  let b := r_query r "blocked" in
  let o := r_query r "outcome" in
  mkFilter (trim_space (r_query r "domain")) (trim_space (r_query r "client"))
    (if (b =? "true")%string then Some true else if (b =? "false")%string then Some false else None)
    (if (o =? "unresolved")%string then "unresolved"
     else if (o =? "upstream-error")%string || (o =? "upstream_error")%string then "upstream-error" else "").

(** The limit of an export; 0 is all rows. *)
Definition export_limit (r : Request) : Z :=
  match Atoi (r_query r "limit") with
  | Some n => if (0 <? n)%Z then n else 0
  | None => 0
  end.

Definition defaultHistoryWindow : Z := 24 * hour.
Definition defaultHistoryBucket : Z := hour.
Definition minHistoryBucket : Z := Prelude.minute.
Definition maxHistoryWindow : Z := 30 * 24 * hour.
Definition maxHistoryBuckets : Z := 1000.

(** The product with a day wraps at 64 bits. *)
Definition parseFlexDuration (s : string) : option Z :=
  if has_suffix s "d" then (fun n => wrap_s (wrap_s (n * 24) * hour)) <$> Atoi (trim_suffix s "d")
  else ParseDuration s.

Definition parseDurationParam (r : Request) (name : string) (def : Z) : Z :=
  let v := r_query r name in
  if (v =? "")%string then def
  else match parseFlexDuration v with
       | Some d => if (d <=? 0)%Z then def else d
       | None => def
       end.

Definition clamp_history (window bucket : Z) : Z * Z :=
  let window := if (maxHistoryWindow <? window)%Z then maxHistoryWindow else window in
  let window := if (window <? minHistoryBucket)%Z then minHistoryBucket else window in
  let bucket := if (bucket <? minHistoryBucket)%Z then minHistoryBucket else bucket in
  let bucket := if (window <? bucket)%Z then window else bucket in
  let bucket :=
    if (maxHistoryBuckets <? Z.quot window bucket)%Z
    then (Z.quot (Z.quot window second + maxHistoryBuckets - 1) maxHistoryBuckets * second)%Z else bucket in
  (window, bucket).

Definition parseHistoryParams (r : Request) : Z * Z :=
  clamp_history (parseDurationParam r "window" defaultHistoryWindow)
    (parseDurationParam r "bucket" defaultHistoryBucket).

Definition secondLevelLabels : list string := ["co"; "com"; "org"; "net"; "gov"; "ac"; "edu"].

Definition publicSuffixLike `{UnicodeLower} (domain : string) : bool :=
  match cut_byte dot (to_lower (trim_suffix domain ".")) with
  | Some (first, rest) => negb (contains rest ".") && existsb (fun l => (first =? l)%string) secondLevelLabels
  | None => false
  end.

(** ** The server and its state *)

Record PrivacyInfo := mkPrivacy {
  pv_Mode : string;
  pv_Clients : string;
  pv_Database : bool;
  pv_File : string;
  pv_RetentionDays : Z;
}.

Record DoTStatus := mkDoT {
  dt_Listen : string;
  dt_Names : list string;
  dt_NotAfter : Z;
  dt_State : string;
  dt_LastReload : option Z;
  dt_LastReloadError : string;
  dt_ReloadFailures : Z;
}.

Record PurgeStep := mkStep { ps_What : string; ps_Result : string; ps_Failed : bool }.

Definition PurgeReport : Type := list PurgeStep.

Definition report_Failed (rep : PurgeReport) : bool := existsb ps_Failed rep.

(** What a request can change: the blocklist store, the counters, the database
    logger ([None]: off), the reload gate, the exports that run, the audit
    lines. *)
Record ApiState := mkApi {
  a_store : Store;
  a_counter : Counter;
  a_db : option DBLogger;
  a_gate : Gate;
  a_exports : Z;
  a_audit : list (string * list (string * string));
}.

Definition set_store (st : Store) (s : ApiState) : ApiState :=
  mkApi st (a_counter s) (a_db s) (a_gate s) (a_exports s) (a_audit s).

Definition add_audit (line : string * list (string * string)) (s : ApiState) : ApiState :=
  mkApi (a_store s) (a_counter s) (a_db s) (a_gate s) (a_exports s) (a_audit s ++ [line]).

Definition set_apigate (g : Gate) (s : ApiState) : ApiState :=
  mkApi (a_store s) (a_counter s) (a_db s) g (a_exports s) (a_audit s).

Definition set_exports (n : Z) (s : ApiState) : ApiState :=
  mkApi (a_store s) (a_counter s) (a_db s) (a_gate s) n (a_audit s).

(** What main wires into the server: a nil function is [None]. *)
Record Server := mkServer {
  sv_hostnames : list string;
  sv_privacy : PrivacyInfo;
  sv_labeler : option clientLabeler;
  sv_warnings : option (list string);
  sv_dotStatus : option DoTStatus;
  sv_purgeFn : option (ApiState -> ApiState * PurgeReport);
  sv_pprof : bool;
  sv_metrics : MetricFns;
}.

Record Env := mkEnv {
  e_now : Z;
  e_own : option (list (option Addr));
  e_domains : list (string * Z);
  e_clients : list (string * Z);
  e_read_error : bool;
  e_row_fails : nat -> bool;
}.

Definition privacyInfo (sv : Server) : PrivacyInfo :=
  let p := sv_privacy sv in
  let or v d := if (v =? "")%string then d else v in
  mkPrivacy (or (pv_Mode p) "none") (or (pv_Clients p) "drop") (pv_Database p) (or (pv_File p) "off")
    (pv_RetentionDays p).

(** ** The construction of the server

    A function that main wires is the value that it returns when a request is
    answered. *)

Definition set_metrics (f : MetricFns -> MetricFns) (sv : Server) : Server :=
  mkServer (sv_hostnames sv) (sv_privacy sv) (sv_labeler sv) (sv_warnings sv) (sv_dotStatus sv) (sv_purgeFn sv)
    (sv_pprof sv) (f (sv_metrics sv)).

(** [New]: the cache in its interface, the names of this machine, the runtime
    samples; everything else is unset. *)
Definition New `{UnicodeLower} (hostname : option string) (dnsCache : option (option (Z * Z * Z))) (runtime : string -> option Z) : Server :=
  mkServer (localHostnames hostname) (mkPrivacy "" "" false "" 0) None None None None false
    (mkMetricFns None None dnsCache None None None None None runtime).

Definition EnablePprof (on : bool) (sv : Server) : Server :=
  mkServer (sv_hostnames sv) (sv_privacy sv) (sv_labeler sv) (sv_warnings sv) (sv_dotStatus sv) (sv_purgeFn sv)
    on (sv_metrics sv).

Definition SetPrivacy (p : PrivacyInfo) (sv : Server) : Server :=
  mkServer (sv_hostnames sv) p (sv_labeler sv) (sv_warnings sv) (sv_dotStatus sv) (sv_purgeFn sv) (sv_pprof sv)
    (sv_metrics sv).

Definition SetWarnings (l : list string) (sv : Server) : Server :=
  mkServer (sv_hostnames sv) (sv_privacy sv) (sv_labeler sv) (Some l) (sv_dotStatus sv) (sv_purgeFn sv) (sv_pprof sv)
    (sv_metrics sv).

(** The map in the order in which it is ranged over. *)
Definition SetClientNames (names : list (string * string)) (sv : Server) : Server :=
  mkServer (sv_hostnames sv) (sv_privacy sv) (Some (newClientLabeler names)) (sv_warnings sv) (sv_dotStatus sv)
    (sv_purgeFn sv) (sv_pprof sv) (sv_metrics sv).

Definition SetDoTStatus (st : option DoTStatus) (sv : Server) : Server :=
  mkServer (sv_hostnames sv) (sv_privacy sv) (sv_labeler sv) (sv_warnings sv) st (sv_purgeFn sv) (sv_pprof sv)
    (sv_metrics sv).

Definition SetPurge (fn : ApiState -> ApiState * PurgeReport) (sv : Server) : Server :=
  mkServer (sv_hostnames sv) (sv_privacy sv) (sv_labeler sv) (sv_warnings sv) (sv_dotStatus sv) (Some fn) (sv_pprof sv)
    (sv_metrics sv).

Definition SetUpstreamTransportFailures (l : list (string * Z)) : Server -> Server := set_metrics (fun m =>
  mkMetricFns (Some l) (mf_dot m) (mf_cache m) (mf_db m) (mf_refused m) (mf_forwardLimited m) (mf_plaintext m)
    (mf_fileDropped m) (mf_runtime m)).

Definition SetRefusedQueries (n : Z) : Server -> Server := set_metrics (fun m =>
  mkMetricFns (mf_upstreamFailures m) (mf_dot m) (mf_cache m) (mf_db m) (Some n) (mf_forwardLimited m) (mf_plaintext m)
    (mf_fileDropped m) (mf_runtime m)).

Definition SetForwardLimited (n : Z) : Server -> Server := set_metrics (fun m =>
  mkMetricFns (mf_upstreamFailures m) (mf_dot m) (mf_cache m) (mf_db m) (mf_refused m) (Some n) (mf_plaintext m)
    (mf_fileDropped m) (mf_runtime m)).

Definition SetPlaintextFallbacks (n : Z) : Server -> Server := set_metrics (fun m =>
  mkMetricFns (mf_upstreamFailures m) (mf_dot m) (mf_cache m) (mf_db m) (mf_refused m) (mf_forwardLimited m) (Some n)
    (mf_fileDropped m) (mf_runtime m)).

Definition SetFileLogDropped (n : Z) : Server -> Server := set_metrics (fun m =>
  mkMetricFns (mf_upstreamFailures m) (mf_dot m) (mf_cache m) (mf_db m) (mf_refused m) (mf_forwardLimited m)
    (mf_plaintext m) (Some n) (mf_runtime m)).

(** ** Bodies *)

Record clientEntry := mkClient { ce_Name : string; ce_Count : Z; ce_Label : string }.

Record dotResponse := mkDotResponse {
  dr_Enabled : bool;
  dr_Listen : string;
  dr_Names : list string;
  dr_NotAfter : option Z;
  dr_ExpiresInDays : option Z;
  dr_State : string;
  dr_LastReload : option Z;
  dr_LastReloadError : string;
}.

Record statsResponse := mkStats {
  sr_Summary : Summary;
  sr_BlocklistSize : Z;
  sr_TopDomains : list Entry;
  sr_TopClients : list clientEntry;
  sr_Sources : list SourceStatus;
  sr_Privacy : PrivacyInfo;
  sr_Warnings : list string;
  sr_DoT : dotResponse;
}.

Record queryRow := mkRow { qr_Entry : db_entry; qr_Label : string; qr_Outcome : string }.

Inductive Body :=
  | BStats (b : statsResponse)
  | BExplain (b : Explanation)
  | BQueries (rows : list queryRow)
  | BExport (format : string) (clients mode : string) (records : list (list string))
  | BTopBlocked (l : list Entry)
  | BHistory (window bucket : Z) (source logging : string) (series : list TimelineBucket + list Bucket)
  | BAllowlist (l : list string)
  | BDomain (domain status : string)
  | BReload (status : string)
  | BPurge (rep : PurgeReport)
  | BText (text : string)
  | BAborted (sent : string)
  | BProfile (path : string).

(** [BAborted]: the handler panicked after it had written [sent], and the
    server closed the connection.

    [http.FileServer] of the embedded files: the status, the headers it leaves
    at its status line, and the body. *)
Class FileServer := file_server : headers -> Request -> Z * headers * string.

(** ** Durations in days *)

Definition f64_add : spec_float -> spec_float -> spec_float := SFadd 53 1024.

(** [math.Floor] and the conversion to an integer, of a finite value. *)
Definition f64_floor (x : spec_float) : Z :=
  match x with
  | S754_finite s m e =>
      let n := if s then (- Z.pos m)%Z else Z.pos m in
      if (0 <=? e)%Z then Z.shiftl n e else Z.shiftr n (- e)
  | _ => 0
  end.

(** [d.Hours() / 24], rounded down. *)
Definition days_left (d : Z) : Z :=
  f64_floor (f64_div (f64_add (f64_of_Z (Z.quot d hour))
                        (f64_div (f64_of_Z (Z.rem d hour)) (f64_of_Z (60 * 60 * 1000000000))))
               (f64_of_Z 24)).

Definition dotSummary (sv : Server) (now : Z) : dotResponse :=
  match sv_dotStatus sv with
  | None => mkDotResponse false "" [] None None "" None ""
  | Some st =>
      mkDotResponse true (dt_Listen st) (dt_Names st) (Some (dt_NotAfter st))
        (Some (days_left (time_sub (dt_NotAfter st) now))) (dt_State st) (dt_LastReload st) (dt_LastReloadError st)
  end.

Definition redactSources `{UrlParse} (l : list SourceStatus) : list SourceStatus :=
  map (fun src => mkSource (Redact.URL (src_URL src)) (src_Count src) (src_LastRefresh src) (src_Stale src)) l.

(** ** The audit line *)

Definition clientIP (r : Request) : string :=
  match SplitHostPort (r_RemoteAddr r) with Some (h, _) => h | None => r_RemoteAddr r end.

Definition auditAttrs (sv : Server) (r : Request) (domain : string) : list (string * string) :=
  let attrs := [("domain", domain)] in
  if negb (pv_Mode (sv_privacy sv) =? "all")%string && negb (pv_Mode (sv_privacy sv) =? "blocked")%string
  then attrs
  else
    let client := MaskClientIP (clientIP r) (pv_Clients (sv_privacy sv)) in
    if (client =? "")%string then attrs else attrs ++ [("client", client)].

(** ** Routes *)

Section routes.
Context {HU : UnicodeLower} {HP : UrlParse} {HQ : UnicodeQuote} {HL : SqlLike} {HM : MediaType} {HD : BodyDecoder} {HF : FileServer}.
Context (sv : Server) (env : Env).

Definition route_fun : Type := headers -> Request -> ApiState -> Reply Body * ApiState.

Definition writeJSON (h : headers) (code : Z) (b : Body) : Reply Body :=
  mkReply code (<["Content-Type" := "application/json"]> h) (inr b).

Definition text_headers (h : headers) : headers := <["Content-Type" := "text/plain; charset=utf-8"]> h.

(** The body as the decoder may read it. *)
Definition body_prefix (r : Request) : string := take_bytes (Z.to_nat maxRequestBytes) (r_Body r).

Definition handleStats : route_fun := fun h r s =>
  let clients := topN (e_clients env) 10 in
  (writeJSON h StatusOK (BStats (mkStats
     (Snapshot_summary (vals (a_counter s))) (Len (a_store s)) (topN (e_domains env) 10)
     (map (fun e => mkClient (e_Name e) (e_Count e) (label (sv_labeler sv) (e_Name e))) clients)
     (redactSources (Sources (a_store s))) (privacyInfo sv)
     (default [] (sv_warnings sv)) (dotSummary sv (e_now env)))), s).

(** [None] of [Explain] does not occur: its fuel is enough. *)
Definition handleCheck : route_fun := fun h r s =>
  let domain := r_query r "domain" in
  if negb (ValidDomain domain) then (Error h "invalid or missing domain" StatusBadRequest, s)
  else (writeJSON h StatusOK (BExplain (default (mkExplanation domain "" "" "" []) (Explain (a_store s) domain))), s).

Definition query_row (e : db_entry) : queryRow :=
  let r := snd e in
  mkRow e (label (sv_labeler sv) (ClientIP r)) (Outcome (RBlocked r) (RRcode r) (Synthesized r)).

Definition handleQueries : route_fun := fun h r s =>
  match a_db s with
  | None => (writeJSON h StatusOK (BQueries []), s)
  | Some db =>
      if e_read_error env then (Error h "internal error" StatusInternalServerError, s)
      else (writeJSON h StatusOK
              (BQueries (map query_row (Search (db_rows db) (parseQueryFilter r) (parseLimit r)))), s)
  end.

(** The rows of an export, with the text of the stored time. *)
Definition export_records (ts_text : Z -> string) (s : ApiState) (r : Request) : list (list string) :=
  exportCSV (label (sv_labeler sv)) (e_row_fails env)
    ((fun db => map (fun e => (ts_text (fst e), snd e))
                  (Export (db_rows db) (parseQueryFilter r) (export_limit r))) <$> a_db s).

(** An export begins with the semaphore and ends with its release. *)
Definition export_begin (s : ApiState) : option ApiState :=
  if (a_exports s <? maxConcurrentExports)%Z then Some (set_exports (a_exports s + 1) s) else None.

Definition export_end (s : ApiState) : ApiState := set_exports (a_exports s - 1) s.

Definition handleQueriesExport (ts_text : Z -> string) (stamp : string) : route_fun := fun h r s =>
  let format := r_query r "format" in
  let format := if (format =? "")%string then "csv" else format in
  if negb (format =? "csv")%string && negb (format =? "json")%string
  then (Error h ("invalid format: expected " +:+ Quote "csv" +:+ " or " +:+ Quote "json") StatusBadRequest, s)
  else match export_begin s with
       | None => (Error (<["Retry-After" := "5"]> h) "too many concurrent exports in progress" StatusTooManyRequests, s)
       | Some s =>
           let clients := pv_Clients (privacyInfo sv) in
           let mode := match a_db s with Some db => db_mode db | None => "off" end in
           let h := <["Content-Disposition" := "attachment; filename=" +:+ Quote ("s-hole-queries-" +:+ clients +:+ "-" +:+ stamp +:+ "." +:+ format)]> h in
           let h := <["X-Shole-Query-Log-Clients" := clients]> h in
           let h := <["X-Shole-Query-Log-Mode" := mode]> h in
           let h := <["Content-Type" := if (format =? "csv")%string then "text/csv; charset=utf-8" else "application/json"]> h in
           (mkReply StatusOK h (inr (BExport format clients mode (export_records ts_text s r))), export_end s)
       end.

Definition handleTopBlocked : route_fun := fun h r s =>
  match a_db s with
  | None => (writeJSON h StatusOK (BTopBlocked []), s)
  | Some db =>
      if e_read_error env then (Error h "internal error" StatusInternalServerError, s)
      else (writeJSON h StatusOK (BTopBlocked (TopBlocked (db_rows db) (parseLimit r))), s)
  end.

(** The series from memory: the window is cut to a day. *)
Definition memory_params (window bucket : Z) : Z * Z :=
  let window := if (TimelineWindow <? window)%Z then TimelineWindow else window in
  (window, if (window <? bucket)%Z then window else bucket).

Definition handleHistory : route_fun := fun h r s =>
  let '(window, bucket) := parseHistoryParams r in
  let stored := match a_db s with Some db => negb (db_mode db =? "none")%string | None => false end in
  let memory :=
    let '(window, bucket) := memory_params window bucket in
    (writeJSON h StatusOK (BHistory (Z.quot window second) (Z.quot bucket second) "memory"
       (GraphMode (a_counter s)) (inl (Timeline (graph (a_counter s)) window bucket (e_now env)))), s) in
  if (window <=? TimelineWindow)%Z || negb stored then memory
  else match a_db s with
       | None => memory
       | Some db =>
           if e_read_error env then (Error h "internal error" StatusInternalServerError, s)
           else (writeJSON h StatusOK (BHistory (Z.quot window second) (Z.quot bucket second) "database" (db_mode db)
                   (inr (default [] (History (db_rows db) (e_now env) window bucket)))), s)
       end.

Definition handleAllowlistList : route_fun := fun h r s =>
  (writeJSON h StatusOK (BAllowlist (sort_strings (GetAllowlist (a_store s)))), s).

Definition invalid_domain_text : string :=
  "invalid domain (max 253 chars, must contain a dot, alphanumerics/hyphen/underscore only, no empty label, no label that starts or ends with a hyphen)".

Definition public_suffix_text (domain : string) : string :=
  "s-hole refused " +:+ Quote domain +:+ ": it looks like a public suffix, so the entry would unblock every site under it. Add the site's own name, for example example."
  +:+ to_lower (trim_suffix domain ".").

Definition full_text (domain : string) : string :=
  "s-hole refused " +:+ Quote domain +:+ ": the allowlist is full: it holds " +:+ Itoa maxAllowlistEntries +:+
  " entries added through the dashboard or the API. Remove an entry first, or add the domain to blocking.allowlist in the config file and restart s-hole".

Definition handleAllowlistAdd : route_fun := fun h r s =>
  if negb (isJSON r) then (Error h "Content-Type must be application/json" StatusUnsupportedMediaType, s)
  else match decode_domain (body_prefix r) with
       | None => (Error h ("invalid body: expected {" +:+ Quote "domain" +:+ ":" +:+ Quote "..." +:+ "}") StatusBadRequest, s)
       | Some d =>
           let domain := trim_space d in
           if (domain =? "")%string
           then (Error h ("invalid body: expected {" +:+ Quote "domain" +:+ ":" +:+ Quote "..." +:+ "}") StatusBadRequest, s)
           else if negb (ValidDomain domain) then (Error h invalid_domain_text StatusBadRequest, s)
           else if publicSuffixLike domain then (Error h (public_suffix_text domain) StatusBadRequest, s)
           else
             let '(ok, st) := AddToAllowlistLimited (a_store s) domain maxAllowlistEntries in
             let s := set_store st s in
             if negb ok then (Error h (full_text domain) StatusConflict, s)
             else (writeJSON h StatusOK (BDomain domain "allowlisted"),
                   add_audit ("allowlist entry added", auditAttrs sv r domain) s)
       end.

Definition handleAllowlistRemove : route_fun := fun h r s =>
  let domain := trim_space (r_query r "domain") in
  if (domain =? "")%string then (Error h "missing ?domain= query parameter" StatusBadRequest, s)
  else (writeJSON h StatusOK (BDomain domain "removed"),
        add_audit ("allowlist entry removed", auditAttrs sv r domain)
          (set_store (RemoveFromAllowlist (a_store s) domain) s)).

Definition handleReload : route_fun := fun h r s =>
  let '(g, started) := reload (a_gate s) in
  (writeJSON h StatusOK (BReload (if started then "reload triggered" else "reload queued")), set_apigate g s).

Definition not_here_text : string :=
  "the query history can be deleted only from the s-hole host: open the dashboard there, or run `s-hole -purge` (in Docker: docker exec <container> s-hole -purge)".

Definition handlePurge : route_fun := fun h r s =>
  if negb (fromThisMachine (e_own env) (r_RemoteAddr r)) then (Error h not_here_text StatusForbidden, s)
  else if negb (isJSON r) then (Error h "Content-Type must be application/json" StatusUnsupportedMediaType, s)
  else match decode_confirm (body_prefix r) with
       | Some true =>
           match sv_purgeFn sv with
           | None => (Error h "purge is not available" StatusServiceUnavailable, s)
           | Some purge =>
               let '(s, rep) := purge s in
               (writeJSON h (if report_Failed rep then StatusInternalServerError else StatusOK) (BPurge rep), s)
           end
       | _ => (Error h ("invalid body: expected {" +:+ Quote "confirm" +:+ ": true}") StatusBadRequest, s)
       end.

Definition handleHealth : route_fun := fun h r s =>
  (mkReply StatusOK (text_headers h) (inr (BText "ok")), s).

Definition handleReady : route_fun := fun h r s =>
  if (Len (a_store s) =? 0)%Z then (mkReply StatusServiceUnavailable (text_headers h) (inr (BText "blocklist empty")), s)
  else (mkReply StatusOK (text_headers h) (inr (BText "ok")), s).

(** The functions of the page that the state and the DoT status give, over the
    ones that main wires. *)
Definition metric_fns (s : ApiState) : MetricFns :=
  let m := sv_metrics sv in
  mkMetricFns (mf_upstreamFailures m) ((fun st => (dt_NotAfter st, dt_ReloadFailures st)) <$> sv_dotStatus sv)
    (mf_cache m) (db_dropped <$> a_db s) (mf_refused m) (mf_forwardLimited m) (mf_plaintext m) (mf_fileDropped m)
    (mf_runtime m).

Definition handleMetrics : route_fun := fun h r s =>
  let '(ms, panicked) := handleMetrics_families (Snapshot_summary (vals (a_counter s))) (a_store s) (metric_fns s) in
  (mkReply StatusOK (<["Content-Type" := "text/plain; version=0.0.4; charset=utf-8"]> h)
     (inr (if panicked then BAborted (metrics_text ms) else BText (metrics_text ms))), s).

Definition handleStatic : route_fun := fun h r s =>
  let '(code, h, body) := file_server h r in
  (mkReply code (keepNoStore h) (inr (BText body)), s).

Definition handleProfile : route_fun := fun h r s => (mkReply StatusOK h (inr (BProfile (r_Path r))), s).

(** The patterns of the mux: a GET pattern also serves HEAD, and "/" serves
    every request that no other pattern matches. *)
Definition get_like (r : Request) : bool := (r_Method r =? "GET")%string || (r_Method r =? "HEAD")%string.

Definition pprof_route (r : Request) : bool :=
  (get_like r && has_prefix "/debug/pprof/" (r_Path r)) ||
  ((r_Method r =? "POST")%string && (r_Path r =? "/debug/pprof/symbol")%string).

Definition handler (ts_text : Z -> string) (stamp : string) : route_fun := fun h r s =>
  let get p := get_like r && (r_Path r =? p)%string in
  let exactly m p := (r_Method r =? m)%string && (r_Path r =? p)%string in
  if get "/api/stats" then handleStats h r s
  else if get "/api/check" then handleCheck h r s
  else if get "/api/queries" then handleQueries h r s
  else if get "/api/queries/export" then handleQueriesExport ts_text stamp h r s
  else if get "/api/top-blocked" then handleTopBlocked h r s
  else if get "/api/history" then handleHistory h r s
  else if get "/api/allowlist" then handleAllowlistList h r s
  else if exactly "POST" "/api/allowlist" then handleAllowlistAdd h r s
  else if exactly "DELETE" "/api/allowlist" then handleAllowlistRemove h r s
  else if exactly "POST" "/api/reload" then handleReload h r s
  else if exactly "POST" "/api/purge" then handlePurge h r s
  else if get "/healthz" then handleHealth h r s
  else if get "/readyz" then handleReady h r s
  else if get "/metrics" then handleMetrics h r s
  else if sv_pprof sv && pprof_route r then handleProfile h r s
  else handleStatic h r s.

Definition serve `{HO : OriginHost} (ts_text : Z -> string) (stamp : string) (r : Request) (s : ApiState)
  : Reply Body * ApiState :=
  secure (sv_hostnames sv) (handler ts_text stamp) r s.
End routes.

(** ** The history parameters *)

Lemma clamp_history_bounds window bucket :
  let '(w, b) := clamp_history window bucket in
  (minHistoryBucket <= w <= maxHistoryWindow)%Z /\ (minHistoryBucket <= b <= w)%Z /\
  (Z.quot w b <= maxHistoryBuckets)%Z.
Proof.
  unfold clamp_history. set (w1 := if (maxHistoryWindow <? window)%Z then maxHistoryWindow else window).
  set (w := if (w1 <? minHistoryBucket)%Z then minHistoryBucket else w1).
  set (b1 := if (bucket <? minHistoryBucket)%Z then minHistoryBucket else bucket).
  set (b := if (w <? b1)%Z then w else b1).
  assert (Hc : minHistoryBucket = 60000000000%Z /\ maxHistoryWindow = 2592000000000000%Z /\ second = 1000000000%Z) by done.
  destruct Hc as (Hm & HM & Hsec).
  assert (Hw : (minHistoryBucket <= w <= maxHistoryWindow)%Z).
  { unfold w, w1. repeat case_match; breflect; lia. }
  assert (Hb : (minHistoryBucket <= b <= w)%Z).
  { unfold b, b1. repeat case_match; breflect; lia. }
  clearbody w b. clear w1 b1. rewrite Hm, HM in *.
  destruct (maxHistoryBuckets <? Z.quot w b)%Z eqn:E; breflect; [| lia].
  unfold maxHistoryBuckets in *. rewrite Hsec in *.
  rewrite Z.quot_div_nonneg in E by lia.
  pose proof (Z.mul_div_le w b ltac:(lia)) as Hq.
  rewrite (Z.quot_div_nonneg w) by lia.
  set (ws := (w / 1000000000)%Z).
  assert (Hws : (1000000000 * ws <= w < 1000000000 * ws + 1000000000)%Z).
  { pose proof (Z.mul_div_le w 1000000000 ltac:(lia)). pose proof (Z.mul_succ_div_gt w 1000000000 ltac:(lia)). lia. }
  assert (Hws0 : (60060 <= ws)%Z) by nia.
  rewrite (Z.quot_div_nonneg (ws + 1000 - 1)) by lia.
  set (q := ((ws + 1000 - 1) / 1000)%Z).
  assert (Hqq : (1000 * q <= ws + 999 < 1000 * q + 1000)%Z).
  { pose proof (Z.mul_div_le (ws + 1000 - 1) 1000 ltac:(lia)).
    pose proof (Z.mul_succ_div_gt (ws + 1000 - 1) 1000 ltac:(lia)). lia. }
  split; [done |]. split; [lia |].
  rewrite Z.quot_div_nonneg by lia.
  assert (w / (q * 1000000000) < 1001)%Z by (apply Z.div_lt_upper_bound; lia). lia.
Qed.

Lemma timeline_loop_at_most fuel t start bm lastStart nowMin :
  (length (timeline_loop fuel t start bm lastStart nowMin) <= fuel)%nat.
Proof.
  revert start. induction fuel as [| fuel IH]; intros start; simpl; [lia |].
  destruct (start <=? lastStart)%Z; simpl; [pose proof (IH (start + bm)%Z); lia | lia].
Qed.

Lemma Timeline_length t window bucket now : (length (Timeline.Timeline t window bucket now) <= 1440)%nat.
Proof.
  unfold Timeline.Timeline. etransitivity; [apply timeline_loop_at_most |].
  unfold bucket_number. set (w := Z.quot (Z.min window TimelineWindow) Prelude.minute).
  assert (Hw : (w <= 1440)%Z).
  { unfold w. change 1440%Z with (Z.quot TimelineWindow Prelude.minute). apply Z.quot_le_mono; [done | lia]. }
  assert (Hb : (1 <= bucket_minutes bucket)%Z) by (unfold bucket_minutes; lia).
  destruct (Z.le_gt_cases 0 w) as [H0 | H0].
  - rewrite Z.quot_div_nonneg by lia.
    assert (w / bucket_minutes bucket <= w)%Z by (apply Z.div_le_upper_bound; nia). lia.
  - assert (Z.quot w (bucket_minutes bucket) <= 0)%Z; [| lia].
    rewrite <- (Z.opp_involutive w), Z.quot_opp_l by lia. rewrite Z.quot_div_nonneg by lia.
    pose proof (Z.div_pos (- w) (bucket_minutes bucket) ltac:(lia) ltac:(lia)). lia.
Qed.

Section api.
Context {HU : UnicodeLower} {HP : UrlParse} {HQ : UnicodeQuote} {HL : SqlLike} {HM : MediaType} {HD : BodyDecoder} {HF : FileServer}.
Context (sv : Server) (env : Env).


(** ** The allowlist *)

(** The conditions under which [POST /api/allowlist] accepts a request. *)
Definition accepts (r : Request) (s : ApiState) (domain : string) : Prop :=
  isJSON r = true /\ (exists d, decode_domain (body_prefix r) = Some d /\ domain = trim_space d) /\
  domain <> "" /\ ValidDomain domain = true /\ publicSuffixLike domain = false /\
  (normalize domain ∈ allowlist (a_store s) \/ (Z.of_nat (size (runtime (a_store s))) < maxAllowlistEntries)%Z).

(** An addition is accepted exactly when the body is JSON with a valid name that
    does not look like a public suffix and there is room for it; it then
    exempts the name and every name under it, keeps the entries of the API
    within 1,000, and leaves the one audit line. Every other request is
    answered with 400, 409 or 415 and leaves the state as it was. *)
Theorem allowlist_add_spec h r s :
  let '(rep, s') := handleAllowlistAdd sv h r s in
  (rp_status rep = StatusOK /\
   exists domain, accepts r s domain /\ rp_body rep = inr (BDomain domain "allowlisted") /\
     (forall sub, under (normalize sub) (normalize domain) -> IsBlocked (a_store s') sub = Some false) /\
     (Z.of_nat (size (runtime (a_store s))) <= maxAllowlistEntries ->
      Z.of_nat (size (runtime (a_store s'))) <= maxAllowlistEntries)%Z /\
     a_audit s' = a_audit s ++ [("allowlist entry added", auditAttrs sv r domain)]) \/
  (rp_status rep ∈ [StatusBadRequest; StatusConflict; StatusUnsupportedMediaType] /\ s' = s /\
   forall domain, ~ accepts r s domain).
Proof.
  unfold handleAllowlistAdd, accepts.
  destruct (isJSON r) eqn:Ej; simpl; [| right; split; [set_solver | split; [done | by intros ? [? _]]]].
  destruct (decode_domain (body_prefix r)) as [d |] eqn:Ed; simpl;
    [| right; split; [set_solver | split; [done | by intros ? (_ & (? & ? & _) & _)]]].
  destruct (String.eqb_spec (trim_space d) "") as [E0 | Hne]; simpl.
  { right. split; [set_solver |]. split; [done |]. intros ? (_ & (? & [= <-] & ->) & ? & _). done. }
  destruct (ValidDomain (trim_space d)) eqn:Ev; simpl;
    [| right; split; [set_solver |]; split; [done |]; intros ? (_ & (? & [= <-] & ->) & _ & ? & _); congruence].
  destruct (publicSuffixLike (trim_space d)) eqn:Ep; simpl;
    [right; split; [set_solver |]; split; [done |]; intros ? (_ & (? & [= <-] & ->) & _ & _ & ? & _); congruence |].
  unfold AddToAllowlistLimited. destruct (mem (normalize (trim_space d)) (allowlist (a_store s))) eqn:Em; simpl.
  - apply mem_true in Em. left. split; [done |]. exists (trim_space d).
    split; [split_and!; try done; [by exists d | by left] |]. split; [done |]. split; [| done].
    intros sub Hsub. rewrite IsBlocked_eq. f_equal.
    assert (hits (allowlist (a_store s)) (normalize sub) = true) as -> by (apply hits_spec; eauto).
    apply andb_false_r || done.
  - apply mem_false in Em.
    destruct (maxAllowlistEntries <=? Z.of_nat (size (runtime (a_store s))))%Z eqn:El; simpl; breflect.
    + right. split; [set_solver |]. split; [by destruct s |].
      intros ? (_ & (? & [= <-] & ->) & _ & _ & _ & [? | ?]); [done | lia].
    + left. split; [done |]. exists (trim_space d).
      split; [split_and!; try done; [by exists d | by right] |]. split; [done |]. split; [| split; [| done]].
      * intros sub Hsub. rewrite IsBlocked_eq. f_equal. simpl.
        assert (hits ({[normalize (trim_space d)]} ∪ allowlist (a_store s)) (normalize sub) = true) as ->.
        { apply hits_spec. exists (normalize (trim_space d)). split; [done | set_solver]. }
        apply andb_false_r || done.
      * intros _. pose proof (size_union_alt {[normalize (trim_space d)]} (runtime (a_store s))).
        rewrite size_singleton in *.
        pose proof (subseteq_size (runtime (a_store s) ∖ {[normalize (trim_space d)]}) (runtime (a_store s)) ltac:(set_solver)).
        lia.
Qed.
End api.

(** ** What a request can change *)

Section changes.
Context {HU : UnicodeLower} {HP : UrlParse} {HQ : UnicodeQuote} {HL : SqlLike} {HM : MediaType} {HD : BodyDecoder} {HF : FileServer} {HO : OriginHost}.
Context (sv : Server) (env : Env).

Definition changing_route (r : Request) : Prop :=
  (r_Method r = "POST" /\ r_Path r ∈ ["/api/allowlist"; "/api/reload"; "/api/purge"]) \/
  (r_Method r = "DELETE" /\ r_Path r = "/api/allowlist").

Lemma export_state ts_text stamp h r s : snd (handleQueriesExport sv env ts_text stamp h r s) = s.
Proof.
  unfold handleQueriesExport, export_begin. case_match; [done |].
  destruct (a_exports s <? maxConcurrentExports)%Z; [| done]. destruct s. unfold export_end, set_exports. simpl.
  f_equal. lia.
Qed.

Lemma handleHistory_state h r s : snd (handleHistory env h r s) = s.
Proof.
  unfold handleHistory. destruct (parseHistoryParams r) as [w b]. destruct (memory_params w b) as [w' b'].
  case_match; [done |]. destruct (a_db s); [| done]. by destruct (e_read_error env).
Qed.

Lemma handlePurge_state h r s :
  snd (handlePurge sv env h r s) = s \/
  (fromThisMachine (e_own env) (r_RemoteAddr r) = true /\ decode_confirm (body_prefix r) = Some true /\ isJSON r = true).
Proof.
  unfold handlePurge. destruct (fromThisMachine _ _); simpl; [| by left].
  destruct (isJSON r); simpl; [| by left].
  destruct (decode_confirm (body_prefix r)) as [[|] |]; [by right | by left | by left].
Qed.

(** Walk the routes: at each test the request is on that route, or the walk goes
    on. *)
Ltac walk_route :=
  match goal with
  | |- context [if ?b then _ else _] => destruct b eqn:?
  end.

Lemma handler_state ts_text stamp h r s :
  snd (handler sv env ts_text stamp h r s) = s \/
  (changing_route r /\
   (r_Path r = "/api/purge" -> fromThisMachine (e_own env) (r_RemoteAddr r) = true /\
      decode_confirm (body_prefix r) = Some true)).
Proof.
  unfold handler.
  walk_route; [by left |].
  walk_route; [left; unfold handleCheck; by case_match |].
  walk_route; [left; unfold handleQueries; by repeat case_match |].
  walk_route; [left; apply export_state |].
  walk_route; [left; unfold handleTopBlocked; by repeat case_match |].
  walk_route; [left; apply handleHistory_state |].
  walk_route; [by left |].
  walk_route; [right; breflect; split; [left; split; [done | rewrite !elem_of_cons; auto] | congruence] |].
  walk_route; [right; breflect; split; [by right | congruence] |].
  walk_route; [right; breflect; split; [left; split; [done | rewrite !elem_of_cons; auto] | congruence] |].
  walk_route.
  { destruct (handlePurge_state h r s) as [? | (? & ? & ?)]; [by left |].
    right. breflect. split; [left; split; [done | rewrite !elem_of_cons; auto] | done]. }
  walk_route; [by left |].
  walk_route; [left; unfold handleReady; by case_match |].
  walk_route; [left; unfold handleMetrics; by case_match |].
  walk_route; [by left |].
  left. unfold handleStatic. by destruct (file_server h r) as [[? ?] ?].
Qed.


(** ** Headers *)

Lemma secure_insert k v (h : headers) :
  securityHeaders !! k = None -> securityHeaders ⊆ h -> securityHeaders ⊆ <[k := v]> h.
Proof. intros Hk Hs. by apply insert_subseteq_r. Qed.

Lemma writeJSON_secure h code b : securityHeaders ⊆ h -> securityHeaders ⊆ rp_headers (writeJSON h code b).
Proof. by apply secure_insert. Qed.

Lemma Error_secure h text code : securityHeaders ⊆ h -> securityHeaders ⊆ rp_headers (@Error Body h text code).
Proof. apply error_headers_secure. Qed.

#[local] Hint Resolve writeJSON_secure Error_secure : shole.

(** What the file server may do to the headers: it removes Cache-Control from
    an error reply, and changes no other security header. *)
Definition file_server_keeps : Prop :=
  forall h r code h' body, file_server h r = (code, h', body) ->
  forall k, k ∈ dom securityHeaders -> k <> "Cache-Control" -> h' !! k = h !! k.

Lemma handleStatic_secure h r s :
  file_server_keeps -> securityHeaders ⊆ h -> securityHeaders ⊆ rp_headers (fst (handleStatic h r s)).
Proof.
  intros Hfs Hs. unfold handleStatic. destruct (file_server h r) as [[code h'] body] eqn:E. simpl.
  apply map_subseteq_spec. intros k v Hk. unfold keepNoStore.
  destruct (decide (k = "Cache-Control")) as [-> | Hne].
  - rewrite lookup_insert_eq. by rewrite Hk.
  - rewrite lookup_insert_ne by auto.
    rewrite (Hfs _ _ _ _ _ E k (elem_of_dom_2 _ _ _ Hk) Hne). by apply (proj1 (map_subseteq_spec _ _) Hs).
Qed.

Lemma export_secure ts_text stamp h r s :
  securityHeaders ⊆ h -> securityHeaders ⊆ rp_headers (fst (handleQueriesExport sv env ts_text stamp h r s)).
Proof.
  intros Hs. unfold handleQueriesExport. case_match; [by apply Error_secure |].
  destruct (export_begin s).
  - simpl. by repeat (apply secure_insert; [reflexivity |]).
  - apply Error_secure. by apply secure_insert.
Qed.

Lemma handleHistory_secure h r s :
  securityHeaders ⊆ h -> securityHeaders ⊆ rp_headers (fst (handleHistory env h r s)).
Proof.
  intros Hs. unfold handleHistory. destruct (parseHistoryParams r) as [w b]. destruct (memory_params w b) as [w' b'].
  case_match; [by apply writeJSON_secure |]. destruct (a_db s); [| by apply writeJSON_secure].
  destruct (e_read_error env); [by apply Error_secure | by apply writeJSON_secure].
Qed.

Lemma handleAllowlistAdd_secure h r s :
  securityHeaders ⊆ h -> securityHeaders ⊆ rp_headers (fst (handleAllowlistAdd sv h r s)).
Proof.
  intros Hs. unfold handleAllowlistAdd. case_match; [by apply Error_secure |].
  destruct (decode_domain (body_prefix r)); [| by apply Error_secure].
  case_match; [by apply Error_secure |]. case_match; [by apply Error_secure |].
  case_match; [by apply Error_secure |].
  destruct (AddToAllowlistLimited _ _ _) as [[] st]; [by apply writeJSON_secure | by apply Error_secure].
Qed.

Lemma handlePurge_secure h r s :
  securityHeaders ⊆ h -> securityHeaders ⊆ rp_headers (fst (handlePurge sv env h r s)).
Proof.
  intros Hs. unfold handlePurge. case_match; [by apply Error_secure |]. case_match; [by apply Error_secure |].
  destruct (decode_confirm (body_prefix r)) as [[|] |]; [| by apply Error_secure | by apply Error_secure].
  destruct (sv_purgeFn sv) as [purge |]; [| by apply Error_secure].
  destruct (purge s). by apply writeJSON_secure.
Qed.

Lemma handler_secure ts_text stamp h r s :
  file_server_keeps -> securityHeaders ⊆ h ->
  securityHeaders ⊆ rp_headers (fst (handler sv env ts_text stamp h r s)).
Proof.
  intros Hfs Hs. unfold handler.
  walk_route; [by apply writeJSON_secure |].
  walk_route; [unfold handleCheck; case_match; [by apply Error_secure | by apply writeJSON_secure] |].
  walk_route; [unfold handleQueries; repeat case_match; try (by apply Error_secure); by apply writeJSON_secure |].
  walk_route; [by apply export_secure |].
  walk_route; [unfold handleTopBlocked; repeat case_match; try (by apply Error_secure); by apply writeJSON_secure |].
  walk_route; [by apply handleHistory_secure |].
  walk_route; [by apply writeJSON_secure |].
  walk_route; [by apply handleAllowlistAdd_secure |].
  walk_route; [unfold handleAllowlistRemove; case_match; [by apply Error_secure | by apply writeJSON_secure] |].
  walk_route; [unfold handleReload; destruct (reload (a_gate s)); by apply writeJSON_secure |].
  walk_route; [by apply handlePurge_secure |].
  walk_route; [by apply secure_insert |].
  walk_route; [unfold handleReady; case_match; by apply secure_insert |].
  walk_route; [unfold handleMetrics; case_match; by apply secure_insert |].
  walk_route; [done |].
  by apply handleStatic_secure.
Qed.

(** Every reply carries the security headers: the refusals, the errors, the
    exports and the pages, also one for which the file server removed
    Cache-Control, as it does for an unknown path. *)
Theorem security_headers_always ts_text stamp r s :
  file_server_keeps -> securityHeaders ⊆ rp_headers (fst (serve sv env ts_text stamp r s)).
Proof.
  intros Hfs. unfold serve.
  destruct (secure_spec (sv_hostnames sv) (handler sv env ts_text stamp) r s)
    as [(_ & _ & _ & ->) | (code & text & -> & _)]; [by apply handler_secure | by apply Error_secure].
Qed.
End changes.

(** ** What an audit line holds of the requester *)

(** The audit line of an allowlist change holds no more of the requester than
    the query log would. When the log is off or keeps no client, it is the same
    line for every requester. When the log keeps subnets, two requesters whose
    masked addresses are equal leave the same line. And it never holds an
    address that is not what [MaskClientIP] leaves of the requester's. *)
Theorem audit_line_private sv r r' domain :
  ((pv_Mode (sv_privacy sv) <> "all" /\ pv_Mode (sv_privacy sv) <> "blocked") \/
   (pv_Clients (sv_privacy sv) <> "full" /\ pv_Clients (sv_privacy sv) <> "subnet") ->
   auditAttrs sv r domain = auditAttrs sv r' domain) /\
  (MaskClientIP (clientIP r) (pv_Clients (sv_privacy sv)) = MaskClientIP (clientIP r') (pv_Clients (sv_privacy sv)) ->
   auditAttrs sv r domain = auditAttrs sv r' domain) /\
  (forall v, ("client", v) ∈ auditAttrs sv r domain ->
     v = MaskClientIP (clientIP r) (pv_Clients (sv_privacy sv)) /\ v <> "").
Proof.
  unfold auditAttrs. split; [| split].
  - intros [[H1 H2] | [H1 H2]].
    + apply String.eqb_neq in H1, H2. by rewrite H1, H2.
    + unfold MaskClientIP. apply String.eqb_neq in H1, H2. by rewrite H1, H2.
  - by intros ->.
  - intros v. destruct (_ && _).
    { intros Hv. apply list_elem_of_singleton in Hv. discriminate. }
    destruct (String.eqb_spec (MaskClientIP (clientIP r) (pv_Clients (sv_privacy sv))) "") as [E | Hne].
    { intros Hv. apply list_elem_of_singleton in Hv. discriminate. }
    intros Hv. apply elem_of_app in Hv as [Hv | Hv]; apply list_elem_of_singleton in Hv; [discriminate |].
    injection Hv as ->. done.
Qed.

(** ** Examples *)

Module ApiExamples.
#[local] Instance no_unicode : UnicodeLower := fun s => s.
#[local] Instance no_quote : UnicodeQuote := fun s => s.
#[local] Instance no_like : SqlLike := fun _ _ => true.
#[local] Instance no_url : UrlParse := fun _ => None.
#[local] Instance no_origin : OriginHost := fun _ => None.
#[local] Instance json_only : MediaType := fun s => Some s.
#[local] Instance plain_body : BodyDecoder := {
  decode_domain s := Some s;
  decode_confirm s := Some (s =? "yes")%string;
}.
(** A file server that removes Cache-Control from its replies. *)
#[local] Instance files : FileServer := fun h r => (404%Z, delete "Cache-Control" h, "404 page not found").

Definition purge_all (s : ApiState) : ApiState * PurgeReport :=
  (mkApi (a_store s) (ResetTallies (a_counter s)) None (a_gate s) (a_exports s) (a_audit s),
   [mkStep "query database" "every row deleted and the file rewritten" false]).

Definition sv : Server :=
  mkServer ["pi"; "pi.local"] (mkPrivacy "all" "subnet" true "off" 7) None None None (Some purge_all) false
    (mkMetricFns None None None None None None None None (fun _ => None)).

Definition env : Env := mkEnv (100 * 24 * hour) (Some [Some (Addr4 3232235778)]) [] [] false (fun _ => false).

Definition s0 : ApiState := mkApi NewStore Stats.New (Some (mkDBLogger "all" [] [] [] 0)) newReloadFn 0 [].

Definition req (method path body query : string) : Request :=
  mkRequest method "192.168.1.2:8080" "192.168.1.9:5000" path
    (fun k => if (k =? "Content-Type")%string then "application/json" else "")
    (fun k => query) body.


Lemma security_headers_always_witness :
  rp_headers (fst (serve sv env Itoa "t" (req "GET" "/no-such-page" "" "") s0)) !! "Cache-Control" = Some "no-store".
Proof.
  assert (Hk : file_server_keeps).
  { intros h r code h' body [= _ <- _] k _ Hne. by rewrite lookup_delete_ne. }
  pose proof (security_headers_always sv env Itoa "t" (req "GET" "/no-such-page" "" "") s0 Hk) as Hs.
  apply (proj1 (map_subseteq_spec _ _) Hs). vm_compute. reflexivity.
Defined.


(** An allowlist change from two devices of one subnet. *)
Lemma audit_line_private_witness :
  let r := mkRequest "POST" "" "192.168.1.9:5000" "" (fun _ => "") (fun _ => "") "" in
  let r' := mkRequest "POST" "" "192.168.1.77:6000" "" (fun _ => "") (fun _ => "") "" in
  auditAttrs sv r "a.example" = [("domain", "a.example"); ("client", "192.168.1.0")] /\
    auditAttrs sv r "a.example" = auditAttrs sv r' "a.example".
Proof.
  split; [vm_compute; reflexivity |].
  apply (audit_line_private sv (mkRequest "POST" "" "192.168.1.9:5000" "" (fun _ => "") (fun _ => "") "")
           (mkRequest "POST" "" "192.168.1.77:6000" "" (fun _ => "") (fun _ => "") "") "a.example").
  vm_compute. reflexivity.
Defined.

(** The number of buckets of a series from memory can exceed 1,000, and its
    reply then names a bucket that is not the distance of its entries: 24 hours
    by 89 seconds gives 1,440 entries a minute apart. *)
Lemma memory_series_over_cap :
  let '(window, bucket) := clamp_history (24 * hour) (89 * second) in
  let l := Timeline.Timeline ∅ window bucket (100 * 24 * hour) in
  Z.quot bucket second = 89%Z /\ length l = 1440%nat /\
    map (fun tb => t_Start tb - 100 * 24 * 3600)%Z (drop 1438 l) = [-60; 0]%Z.
Proof. vm_compute. split_and!; reflexivity. Qed.

(** A count of days wraps: instead of being clamped to 30 days, this window is
    25 minutes. *)
Lemma days_wrap : parseFlexDuration "213504d" = Some 1526290448384%Z.
Proof. vm_compute. reflexivity. Qed.

Example public_suffixes :
  map publicSuffixLike ["co.uk"; "COM.au."; "example.com"; "a.co.uk"; "github.io"] = [true; true; false; false; false].
Proof. vm_compute. reflexivity. Qed.

Example days : map days_left [(25 * hour)%Z; (-1)%Z; (14 * 24 * hour)%Z] = [1; -1; 14]%Z.
Proof. vm_compute. reflexivity. Qed.
End ApiExamples.
