(* ===== verification/AdminServe.v ===== *)
(** * Start and stop of the admin server (internal/api/api.go)

    [Serve] and [Shutdown] run on two goroutines and share two atomics. Each of
    their loads and stores is one step; so are the two calls into net/http,
    whose server remembers that it was shut down. *)

From stdpp Require Import base numbers list relations.
From Stdlib Require Import ZArith Lia.
From S2P Require Import Prelude.

(** Where [Serve] is: before it stores the server, before it checks the flag,
    before it calls [hs.Serve], in the accept loop, closing the listener itself,
    returned. *)
Inductive serve_pc := ServeStore | ServeCheck | ServeCall | ServeAccept | ServeClose | ServeDone.

(** Where [Shutdown] is: before it sets the flag, before it loads the server,
    before it calls [hs.Shutdown], returned. *)
Inductive shutdown_pc := StopFlag | StopLoad | StopCall | StopDone.

(** [shutdownRequested], whether [httpServer] is stored, whether the net/http
    server was told to shut down, whether the listener is open, and the two
    goroutines. *)
Record Admin := mkAdmin {
  shutdownRequested : bool;
  httpServer : bool;
  in_shutdown : bool;
  listener_open : bool;
  serve_at : serve_pc;
  shutdown_at : shutdown_pc;
}.

Definition admin_start : Admin := mkAdmin false false false true ServeStore StopFlag.

(** One step of [Serve]. The accept loop ends when the server is shut down
    ([http.ErrServerClosed], which [Serve] drops), and [hs.Serve] called on a
    server that was already shut down returns at once; [None] in the accept
    loop while neither has happened. *)
Definition serve_step (s : Admin) : option Admin :=
  let at_ pc := mkAdmin (shutdownRequested s) (httpServer s) (in_shutdown s) (listener_open s) pc (shutdown_at s) in
  match serve_at s with
  | ServeStore => Some (mkAdmin (shutdownRequested s) true (in_shutdown s) (listener_open s) ServeCheck (shutdown_at s))
  | ServeCheck => Some (at_ (if shutdownRequested s then ServeClose else ServeCall))
  | ServeCall | ServeAccept =>
      if in_shutdown s
      then Some (mkAdmin (shutdownRequested s) (httpServer s) true false ServeDone (shutdown_at s))
      else match serve_at s with ServeCall => Some (at_ ServeAccept) | _ => None end
  | ServeClose => Some (mkAdmin (shutdownRequested s) (httpServer s) (in_shutdown s) false ServeDone (shutdown_at s))
  | ServeDone => None
  end.

(** One step of [Shutdown]. *)
Definition shutdown_step (s : Admin) : option Admin :=
  let at_ pc := mkAdmin (shutdownRequested s) (httpServer s) (in_shutdown s) (listener_open s) (serve_at s) pc in
  match shutdown_at s with
  | StopFlag => Some (mkAdmin true (httpServer s) (in_shutdown s) (listener_open s) (serve_at s) StopLoad)
  | StopLoad => Some (at_ (if httpServer s then StopCall else StopDone))
  | StopCall => Some (mkAdmin (shutdownRequested s) (httpServer s) true (listener_open s) (serve_at s) StopDone)
  | StopDone => None
  end.

Definition admin_step (s s' : Admin) : Prop := serve_step s = Some s' \/ shutdown_step s = Some s'.

Definition admin_reachable : Admin -> Prop := reachable (fun s => s = admin_start) admin_step.

(** ** No stop is lost *)

(** Once [Shutdown] has returned, [Serve] has either not yet checked the flag,
    which is set, or the net/http server knows of the shutdown. *)
Definition admin_inv (s : Admin) : Prop :=
  (httpServer s = match serve_at s with ServeStore => false | _ => true end) /\
  (shutdownRequested s = match shutdown_at s with StopFlag => false | _ => true end) /\
  match shutdown_at s with
  | StopDone => match serve_at s with ServeCall | ServeAccept => in_shutdown s = true | _ => True end
  | _ => in_shutdown s = false
  end /\
  (serve_at s = ServeDone -> listener_open s = false).

Lemma admin_inv_step s s' : admin_inv s -> admin_step s s' -> admin_inv s'.
Proof.
  unfold admin_inv, serve_step, shutdown_step in *.
  intros (H1 & H2 & H3 & H4) [Hs | Hs]; unfold serve_step, shutdown_step in Hs; destruct s as [fl hs ins ln spc dpc]; simpl in *; subst.
  - destruct spc, dpc, ins; simpl in *; simplify_eq/=; split_and!; done.
  - destruct spc, dpc; simpl in *; simplify_eq/=; split_and!; done.
Qed.

Lemma admin_reachable_inv s : admin_reachable s -> admin_inv s.
Proof.
  apply reachable_invariant; [| intros; eapply admin_inv_step; eauto].
  intros ? ->. unfold admin_inv. simpl. split_and!; done.
Qed.

(** C30. A stop is never lost, whichever of the two goroutines is first. From any
    reachable state in which [Shutdown] has returned, [Serve] never waits in
    the accept loop: it can take a step until it has returned, which it has
    after at most three steps of its own, with the listener closed. And
    [Shutdown] itself always returns in at most three steps. *)
Theorem stop_never_lost s :
  admin_reachable s ->
  (shutdown_at s = StopDone ->
     exists n s', (n <= 3)%nat /\ nsteps (fun a b => serve_step a = Some b) n s s' /\
       serve_at s' = ServeDone /\ listener_open s' = false) /\
  (exists n s', (n <= 3)%nat /\ nsteps (fun a b => shutdown_step a = Some b) n s s' /\ shutdown_at s' = StopDone).
Proof.
  intros Hr. destruct (admin_reachable_inv s Hr) as (H1 & H2 & H3 & H4).
  destruct s as [fl hs ins ln spc dpc]; simpl in *; subst. split.
  - intros ->. simpl in *.
    destruct spc; simpl in H3.
    + exists 3%nat. eexists. split; [lia |]. split; [| split].
      * repeat (eapply nsteps_l; [reflexivity |]). apply nsteps_O.
      * reflexivity.
      * reflexivity.
    + exists 2%nat. eexists. split; [lia |]. split; [| split].
      * repeat (eapply nsteps_l; [reflexivity |]). apply nsteps_O.
      * reflexivity.
      * reflexivity.
    + rewrite H3. exists 1%nat. eexists. split; [lia |]. split; [eapply nsteps_l; [reflexivity | apply nsteps_O] | done].
    + rewrite H3. exists 1%nat. eexists. split; [lia |]. split; [eapply nsteps_l; [reflexivity | apply nsteps_O] | done].
    + exists 1%nat. eexists. split; [lia |]. split; [eapply nsteps_l; [reflexivity | apply nsteps_O] | done].
    + exists 0%nat. eexists. split; [lia |]. split; [apply nsteps_O |]. split; [done | by apply H4].
  - destruct dpc.
    + destruct spc; [exists 2%nat | exists 3%nat ..]; eexists; (split; [lia |]);
        (split; [repeat (eapply nsteps_l; [reflexivity |]); apply nsteps_O | reflexivity]).
    + destruct spc; [exists 1%nat | exists 2%nat ..]; eexists; (split; [lia |]);
        (split; [repeat (eapply nsteps_l; [reflexivity |]); apply nsteps_O | reflexivity]).
    + exists 1%nat. eexists. split; [lia |]. split; [eapply nsteps_l; [reflexivity | apply nsteps_O] | done].
    + exists 0%nat. eexists. split; [lia |]. split; [apply nsteps_O | done].
Qed.

(** ** Examples *)

Module AdminServeExamples.
(** [Shutdown] returns before [Serve] has stored the server. *)
Definition early_stop : Admin := mkAdmin true false false true ServeStore StopDone.

Lemma early_reachable : admin_reachable early_stop.
Proof.
  eapply reachable_step; [eapply reachable_step; [by apply reachable_init | by right] | by right].
Qed.

Lemma stop_never_lost_witness :
  admin_reachable early_stop /\
  exists n s', (n <= 3)%nat /\ nsteps (fun a b => serve_step a = Some b) n early_stop s' /\
    serve_at s' = ServeDone /\ listener_open s' = false.
Proof. split; [exact early_reachable |]. exact (proj1 (stop_never_lost early_stop early_reachable) eq_refl). Defined.
End AdminServeExamples.
