(* ===== verification/Purge.v ===== *)
(** * Deleting what was stored (cmd/s-hole/purge.go)

    The purge of a running s-hole over its stores, the purge of the files of one
    that is not running, and the command that chooses between them. The file
    operations are those of ZeroFile; the error texts of the system are a
    parameter. *)

From stdpp Require Import base numbers list gmap strings.
From Stdlib Require Import Ascii ZArith Lia.
From S2P Require Import Config.
From S2P Require Import Prelude GoStrings GoConv GoNet Loader Cache Timeline Stats QueryLog ZeroFile Api.

Open Scope string_scope.
Open Scope list_scope.

(** ** One purge call *)

(** What [Purge] of a logger meets: it is closed, its context ends (before or
    after the writer took the request), or the writer replies. *)
Inductive purge_call (R : Type) :=
  | CallClosed
  | CallExpired (text : string) (ran : option R)
  | CallReply (r : R).
Arguments CallClosed {_}.
Arguments CallExpired {_}.
Arguments CallReply {_}.

Definition ran {R} (c : purge_call R) : option R :=
  match c with CallClosed => None | CallExpired _ r => r | CallReply r => Some r end.

(** The writer's purge of the database: [None] when every step was done, or the
    error and whether the rows were deleted before it. *)
Definition db_purge_result : Type := option (string * bool).

Definition rows_deleted (r : db_purge_result) : bool :=
  match r with None => true | Some (_, deleted) => deleted end.

Definition DBLogger_Purge (d : DBLogger) (c : purge_call db_purge_result) : DBLogger * option string :=
  (match ran c with Some r => DBLogger_purge d (rows_deleted r) | None => d end,
   match c with
   | CallClosed => Some "query log database is closed"
   | CallExpired text _ => Some text
   | CallReply r => fst <$> r
   end).

Definition FileLogger_Purge (l : FileLogger) (c : purge_call truncated) : FileLogger * (string + option purge_error) :=
  (match ran c with
   | Some r => FileLogger_truncate l (match tr_emptied r with Some _ => true | None => false end)
   | None => l
   end,
   match c with
   | CallClosed => inl "query log file is closed"
   | CallExpired text _ => inl text
   | CallReply r => inr (tr_err r)
   end).

(** ** The running s-hole *)

Definition journalNote : string :=
  "query lines went to standard output (the system journal or the container log), which s-hole cannot change. To delete them, clear the journal (journalctl --rotate && journalctl --vacuum-time=1s, which deletes the logs of every service) or recreate the container".

(** The stores a purge reaches; a store that is off is [None]. [st_lists] is the
    cache directory of the blocklists. *)
Record Stores := mkStores {
  st_db : option DBLogger;
  st_file : option FileLogger;
  st_counter : Counter;
  st_cache : option Cache.Cache;
  st_resetGraph : bool;
  st_lists : Loader.disk;
}.

Record PurgeEnv := mkPurgeEnv {
  pe_db : purge_call db_purge_result;
  pe_file : purge_call truncated;
  pe_listing : list string;
  pe_fails : string -> option err;
}.

Section purge.
Context (fs_text : fs_error -> string).

Definition purge_error_text (e : purge_error) : string :=
  match e with
  | ErrStdoutNotPurgeable =>
      "query lines go to standard output; s-hole cannot delete them from the system journal or the container log"
  | ErrNotOverwritten cause => "emptied, but not overwritten with zeros: " +:+ fs_text cause
  | PurgeFailed cause => fs_text cause
  end.

Definition db_step (env : PurgeEnv) (db : option DBLogger) : option DBLogger * PurgeStep :=
  match db with
  | None => (None, mkStep "query database" "off, nothing stored" false)
  | Some d =>
      let '(d, err) := DBLogger_Purge d (pe_db env) in
      (Some d, match err with
               | Some e => mkStep "query database" ("delete failed: " +:+ e) true
               | None => mkStep "query database" "every row deleted and the file rewritten" false
               end)
  end.

Definition file_step (env : PurgeEnv) (file : option FileLogger) : option FileLogger * PurgeStep :=
  match file with
  | None => (None, mkStep "query log file" "off, nothing stored" false)
  | Some l =>
      let '(l, err) := FileLogger_Purge l (pe_file env) in
      (Some l, match err with
               | inr (Some ErrStdoutNotPurgeable) => mkStep "query log output" journalNote false
               | inr (Some (ErrNotOverwritten c)) =>
                   mkStep "query log file" (purge_error_text (ErrNotOverwritten c)) true
               | inr (Some e) => mkStep "query log file" ("empty failed: " +:+ purge_error_text e) true
               | inl text => mkStep "query log file" ("empty failed: " +:+ text) true
               | inr None => mkStep "query log file" "emptied" false
               end)
  end.

Definition lists_failed (n : Z) (e : err) : string := Itoa n +:+ " files deleted, then: " +:+ e.

Definition purge (env : PurgeEnv) (s : Stores) : Stores * PurgeReport :=
  let '(db, step_db) := db_step env (st_db s) in
  let '(file, step_file) := file_step env (st_file s) in
  let '(n, err, lists) := PurgeCache (st_lists s) (pe_listing env) (pe_fails env) in
  let step_lists :=
    match err with
    | Some e => mkStep "downloaded blocklists" (lists_failed n e) true
    | None => mkStep "downloaded blocklists" (Itoa n +:+ " files deleted; the next reload downloads them again") false
    end in
  let counter := ResetTallies (st_counter s) in
  let counter := if st_resetGraph s then ResetTimeline counter else counter in
  (mkStores db file counter (Cache.Flush <$> st_cache s) (st_resetGraph s) lists,
   [step_db; step_file; step_lists; mkStep "Top Domains and Top Clients" "emptied" false]
   ++ (if st_resetGraph s then [mkStep "per-minute graph" "emptied" false] else [])
   ++ match st_cache s with Some _ => [mkStep "DNS response cache" "emptied" false] | None => [] end).

(** ** An s-hole that is not running *)

(** [zenv] is the environment of a call of [ZeroFile] on a path, given the
    files as they are; [rm] the error of [os.Remove]. *)
Record OfflineEnv := mkOffline {
  of_nofollow : bool;
  of_zero : FS -> string -> ZeroEnv;
  of_remove : string -> option fs_error;
  of_abs : string -> option string;
  of_listing : list string;
  of_fails : string -> option err;
}.

Definition remove_name (path : string) (fs : FS) : FS := mkFS (delete path (fs_names fs)) (fs_inodes fs).

Definition wipe_one (env : OfflineEnv) (acc : FS * bool * list fs_error) (p : string) : FS * bool * list fs_error :=
  let '(fs, found, errs) := acc in
  match fst (ZeroFile (of_nofollow env) (of_zero env fs p) p) with
  | Some ErrNotExist => (fs, found, errs)
  | Some e => (fs, true, errs ++ [e])
  | None => match of_remove env p with
            | Some e => (fs, true, errs ++ [e])
            | None => (remove_name p fs, true, errs)
            end
  end.

Definition joinErrs (errs : list fs_error) : option string :=
  match errs with
  | [] => None
  | _ => Some (join "; " (map fs_text errs))
  end.

Definition wipe (env : OfflineEnv) (fs : FS) (paths : list string) : FS * bool * option string :=
  let '(fs, found, errs) := fold_left (wipe_one env) paths (fs, false, []) in (fs, found, joinErrs errs).

Definition abs_path (env : OfflineEnv) (p : string) : string := default p (of_abs env p).

Definition db_files (db : string) : list string := [db; db +:+ "-wal"; db +:+ "-shm"].

(** The step of the database or of the log file: the step, and whether its file
    was not found. *)
Definition wipe_files_step (env : OfflineEnv) (what path deleted : string) (paths : list string) (fs : FS)
  : FS * PurgeStep * bool :=
  let '(fs, found, err) := wipe env fs paths in
  match err with
  | Some e => (fs, mkStep what ("delete failed: " +:+ e) true, false)
  | None =>
      if negb found then (fs, mkStep what ("not found at " +:+ abs_path env path) false, true)
      else (fs, mkStep what deleted false, false)
  end.

Definition offline_db (env : OfflineEnv) (cfg : Config) (fs : FS) : FS * PurgeStep * bool :=
  let db := Database (c_QueryLog cfg) in
  if (db =? "")%string then (fs, mkStep "query database" "off, nothing stored" false, false)
  else wipe_files_step env "query database" db "files deleted" (db_files db) fs.

Definition offline_file (env : OfflineEnv) (cfg : Config) (fs : FS) : FS * PurgeStep * bool :=
  let f := File (c_QueryLog cfg) in
  if (f =? "")%string then (fs, mkStep "query log file" "off, nothing stored" false, false)
  else if (f =? FileStdout)%string then (fs, mkStep "query log output" journalNote false, false)
  else wipe_files_step env "query log file" f "deleted" [f] fs.

Definition offline_lists (env : OfflineEnv) (cfg : Config) (d : Loader.disk) : Loader.disk * PurgeStep :=
  let '(n, err, d) := PurgeCache d (of_listing env) (of_fails env) in
  (d, match err with
      | Some e => mkStep "downloaded blocklists" (lists_failed n e) true
      | None =>
          if (n =? 0)%Z && (0 <? lenZ (Lists (c_Blocking cfg)))%Z
          then mkStep "downloaded blocklists" ("none found in " +:+ abs_path env (CacheDir (c_Blocking cfg))) false
          else mkStep "downloaded blocklists" (Itoa n +:+ " files deleted") false
      end).

Definition purgeOffline (env : OfflineEnv) (cfg : Config) (fs : FS) (d : Loader.disk)
  : FS * Loader.disk * PurgeReport * bool :=
  let '(fs, s1, m1) := offline_db env cfg fs in
  let '(fs, s2, m2) := offline_file env cfg fs in
  let '(d, s3) := offline_lists env cfg d in
  (fs, d, [s1; s2; s3], m1 || m2).
End purge.

(** ** The command *)

Definition IsUnspecified (ip : Addr) : bool :=
  match Unmap ip with Addr4 n => (n =? 0)%Z | Addr6 n z => (n =? 0)%Z && (z =? "")%string | AddrZero => false end.

(** [net.JoinHostPort]. *)
Definition JoinHostPort (host port : string) : string :=
  if has_byte ":"%char host || has_byte "%"%char host then "[" +:+ host +:+ "]:" +:+ port else host +:+ ":" +:+ port.

Definition localAdminAddr (adminListen : string) : option string :=
  match SplitHostPort adminListen with
  | None => None
  | Some (host, port) =>
      let wild := (host =? "")%string || match ParseIP host with Some ip => IsUnspecified ip | None => false end in
      Some (JoinHostPort (if wild then "127.0.0.1" else host) port)
  end.

(** What the admin API of a running s-hole gave: no listener, another error of
    the call, or a status and a decoded report ([None]: not a report). *)
Inductive api_answer := NoListener | CallFailed | Answer (rep : option PurgeReport).

(** [None]: an error; [Some None]: not running. *)
Definition purgeViaAPI (adminListen : string) (ask : string -> api_answer) : option (option PurgeReport) :=
  match localAdminAddr adminListen with
  | None => None
  | Some addr =>
      match ask ("http://" +:+ addr +:+ "/api/purge") with
      | NoListener => Some None
      | CallFailed => None
      | Answer None => None
      | Answer (Some []) => None
      | Answer (Some rep) => Some (Some rep)
      end
  end.

(** [runPurge]: the exit code, and the files after it. *)
Definition runPurge (fs_text : fs_error -> string) (cfg : option Config) (ask : string -> api_answer) (env : OfflineEnv)
    (fs : FS) (d : Loader.disk) : Z * FS * Loader.disk :=
  match cfg with
  | None => (1%Z, fs, d)
  | Some cfg =>
      match purgeViaAPI (AdminListen (c_Admin cfg)) ask with
      | None => (1%Z, fs, d)
      | Some (Some rep) => ((if report_Failed rep then 1 else 0)%Z, fs, d)
      | Some None =>
          let '(fs, d, rep, _) := purgeOffline fs_text env cfg fs d in
          ((if report_Failed rep then 1 else 0)%Z, fs, d)
      end
  end.

(** [runHealthcheck]: [ready] is the status of GET /readyz. *)
Definition runHealthcheck (cfg : option Config) (ready : string -> option Z) : Z :=
  match cfg with
  | None => 1
  | Some cfg =>
      match localAdminAddr (AdminListen (c_Admin cfg)) with
      | None => 1
      | Some addr => match ready ("http://" +:+ addr +:+ "/readyz") with
                     | Some code => if (code =? 200)%Z then 0 else 1
                     | None => 1
                     end
      end
  end.

(** ** The running purge *)

Lemma truncate_success nofollow env f :
  tr_err (FileLogger_truncate_file nofollow env f) = None -> tr_emptied (FileLogger_truncate_file nofollow env f) <> None.
Proof.
  unfold FileLogger_truncate_file. destruct f as [[path id] |]; [| done].
  destruct (match Stat (t_fs env) id (t_stat env) with
            | inl err => (Some err, None)
            | inr fi => zeroFile nofollow (t_zero env) path (Some fi) end) as [zerr w].
  destruct (t_truncate env); [| done].
  destruct (Stat (t_fs env) id (t_stat env)) as [| fi]; [done |].
  unfold truncateFile. destruct (t_second env) as [[f1 f2] f3].
  destruct (OpenFile _ _ _ _); [done |]. destruct (Stat _ _ _); [done |]. destruct (negb _); [done |].
  by destruct f3.
Qed.

(** What the writer of the file logger can reply. *)
Definition truncation (env : PurgeEnv) : Prop :=
  forall r, pe_file env = CallReply r -> exists nofollow tenv f, r = FileLogger_truncate_file nofollow tenv f.

Section purge_spec.
Context (fs_text : fs_error -> string).

Lemma db_step_spec env db :
  let '(db', step) := db_step env db in
  (ps_Failed step = false ->
   forall d', db' = Some d' -> db_rows d' = [] /\ db_batch d' = [] /\ db_ch d' = []).
Proof.
  unfold db_step, DBLogger_Purge. destruct db as [d |]; [| done].
  destruct (pe_db env) as [| text r | [[e del] |]]; simpl; try done.
  by intros _ d' [= <-].
Qed.

Lemma file_step_spec env file :
  truncation env ->
  let '(file', step) := file_step fs_text env file in
  (ps_Failed step = false ->
   forall l', file' = Some l' -> fl_ch l' = [] /\
     (fl_written l' = [] \/ exists r, pe_file env = CallReply r /\ tr_err r = Some ErrStdoutNotPurgeable)).
Proof.
  intros Ht. unfold file_step, FileLogger_Purge. destruct file as [l |]; [| done].
  destruct (pe_file env) as [| text r | r] eqn:E; simpl; try done.
  destruct (tr_err r) as [[| c | c] |] eqn:Ee; simpl; try done.
  - intros _ l' [= <-]. split; [done |]. right. by exists r.
  - intros _ l' [= <-]. split; [done |]. left.
    destruct (Ht r E) as (nf & tenv & f & ->). pose proof (truncate_success nf tenv f Ee) as Hne. simpl.
    by destruct (tr_emptied (FileLogger_truncate_file nf tenv f)).
Qed.


(** ** The files of an s-hole that is not running *)

Context (env : OfflineEnv).

(** The overwrite that [wipe] asks for before it deletes a name. *)
Definition overwritten (fs : FS) (p : string) : Prop :=
  exists id n ds, fs_names (z_lstat_fs (of_zero env fs p)) !! p = Some (ToInode id) /\
    fs_inodes (z_stat_fs (of_zero env fs p)) !! id = Some n /\ i_regular n = true /\ (i_links n <= 1)%Z /\
    run_ops (z_op (of_zero env fs p)) 0 (zero_ops (lenZ (i_data n))) (mkDisk (i_data n) []) = (None, ds).

(** The files that [ZeroFile] does not find are not there. *)
Definition accurate : Prop :=
  forall fs p, fst (ZeroFile (of_nofollow env) (of_zero env fs p) p) = Some ErrNotExist -> fs_names fs !! p = None.

Lemma ZeroFile_success fs p :
  fst (ZeroFile (of_nofollow env) (of_zero env fs p) p) = None -> overwritten fs p.
Proof.
  unfold ZeroFile. destruct (zeroFile _ _ _ _) as [err [[id ds] |]] eqn:E; simpl; intros ->.
  - destruct (zeroFile_written _ _ _ _ _ _ _ E) as (Hn & _ & n & e & H1 & H2 & H3 & H4 & H5).
    exists id, n, ds. rewrite (H5 eq_refl) in H4. done.
  - by destruct (zeroFile_unwritten _ _ _ _ _ E).
Qed.

(** One path of [wipe]. *)
Lemma wipe_one_spec fs found errs p :
  let '(fs', found', errs') := wipe_one env (fs, found, errs) p in
  fs_inodes fs' = fs_inodes fs /\
  (forall q, q <> p -> fs_names fs' !! q = fs_names fs !! q) /\
  (fs' = fs \/ (fs' = remove_name p fs /\ overwritten fs p)) /\
  (exists more, errs' = errs ++ more /\
     (more = [] -> (found' = found /\ fs' = fs /\ (accurate -> fs_names fs !! p = None)) \/
                   (found' = true /\ fs' = remove_name p fs)) /\
     (more <> [] -> fs' = fs /\ found' = true)).
Proof.
  unfold wipe_one. pose proof (ZeroFile_success fs p) as Hok.
  destruct (fst (ZeroFile (of_nofollow env) (of_zero env fs p) p)) as [[| t | t] |] eqn:E.
  - split_and!; auto. exists []. rewrite app_nil_r. split_and!; [done | | done]. left. split_and!; auto.
  - split_and!; auto. exists [ErrRefused t]. done.
  - split_and!; auto. exists [ErrSys t]. done.
  - destruct (of_remove env p) as [e |].
    + split_and!; auto. exists [e]. done.
    + split_and!; [done | intros q Hq; simpl; by rewrite lookup_delete_ne | right; auto |].
      exists []. rewrite app_nil_r. split_and!; [done | by right | done].
Qed.

Lemma wipe_fold paths fs found errs :
  let '(fs', found', errs') := fold_left (wipe_one env) paths (fs, found, errs) in
  (forall q, fs_names fs' !! q = fs_names fs !! q \/
     (q ∈ paths /\ fs_names fs' !! q = None /\ exists fs1, overwritten fs1 q)) /\
  (exists more, errs' = errs ++ more /\
     (accurate -> more = [] -> forall q, q ∈ paths -> fs_names fs' !! q = None) /\
     (accurate -> found' = false -> more = [] /\ fs' = fs)) /\
  (found = true -> found' = true).
Proof.
  revert fs found errs. induction paths as [| p paths IH]; intros fs found errs; cbn [fold_left].
  { split; [by left |]. split; [| done]. exists []. rewrite app_nil_r. split_and!; [done | | done].
    intros _ _ q Hq. by apply elem_of_nil in Hq. }
  pose proof (wipe_one_spec fs found errs p) as H1.
  destruct (wipe_one env (fs, found, errs) p) as [[fs1 found1] errs1].
  destruct H1 as (_ & Hne & Hcase & more1 & -> & Hnil & Hcons).
  specialize (IH fs1 found1 (errs ++ more1)).
  destruct (fold_left (wipe_one env) paths (fs1, found1, errs ++ more1)) as [[fs' found'] errs'].
  destruct IH as (Hnames & (more & -> & Hgone & Hfound) & Hmono).
  assert (Hp : fs_names fs1 !! p = fs_names fs !! p \/ (fs_names fs1 !! p = None /\ overwritten fs p)).
  { destruct Hcase as [-> | [-> Ho]]; [by left | right]. simpl. split; [by rewrite lookup_delete_eq | done]. }
  assert (Hkeep : forall q, fs_names fs1 !! q = None -> fs_names fs' !! q = None).
  { intros q Hq. destruct (Hnames q) as [-> | (_ & -> & _)]; done. }
  split; [| split].
  - intros q. destruct (decide (q = p)) as [-> | Hqp].
    + destruct (Hnames p) as [E | (Hin & E & Ho)]; [| right; split; [by right | done]].
      rewrite E. destruct Hp as [-> | [-> Ho]]; [by left | right]. split; [by left |]. split; [done | by exists fs].
    + destruct (Hnames q) as [E | (Hin & E & Ho)]; [left; by rewrite E, Hne | right].
      split; [by right | done].
  - exists (more1 ++ more). rewrite (assoc_L (++)). split; [done |]. split.
    + intros Hacc Hm. apply app_eq_nil in Hm as [-> ->]. intros q Hq.
      apply elem_of_cons in Hq as [-> | Hq]; [| by apply Hgone]. apply Hkeep.
      destruct (Hnil eq_refl) as [(_ & -> & Hn) | (_ & ->)]; [by apply Hn |]. simpl. by rewrite lookup_delete_eq.
    + intros Hacc Hf. destruct (Hfound Hacc Hf) as [-> ->].
      destruct more1 as [| e more1].
      * destruct (Hnil eq_refl) as [(-> & -> & _) | (-> & _)]; [done |]. by rewrite Hmono in Hf.
      * destruct (Hcons ltac:(done)) as [_ ->]. by rewrite Hmono in Hf.
  - intros Hf. apply Hmono. destruct more1 as [| e more1].
    + destruct (Hnil eq_refl) as [(-> & _) | (-> & _)]; done.
    + by destruct (Hcons ltac:(done)) as [_ ->].
Qed.

Lemma wipe_files_spec what path deleted paths fs :
  let '(fs', step, missing) := wipe_files_step fs_text env what path deleted paths fs in
  (forall q, fs_names fs' !! q = fs_names fs !! q \/
     (q ∈ paths /\ fs_names fs' !! q = None /\ exists fs1, overwritten fs1 q)) /\
  (accurate -> ps_Failed step = false -> forall q, q ∈ paths -> fs_names fs' !! q = None) /\
  (accurate -> missing = true -> fs' = fs /\ ps_Failed step = false).
Proof.
  unfold wipe_files_step, wipe. pose proof (wipe_fold paths fs false []) as H.
  destruct (fold_left (wipe_one env) paths (fs, false, [])) as [[fs' found] errs].
  destruct H as (Hn & (more & -> & Hgone & Hfound) & _). simpl.
  destruct more as [| e more]; simpl.
  - destruct found; simpl; split_and!; try done; intros Hacc _; try (by apply Hgone).
    split; [| done]. exact (proj2 (Hfound Hacc eq_refl)).
  - split_and!; done.
Qed.

(** The paths that the two steps may remove. *)
Definition db_paths (cfg : Config) : list string :=
  let db := Database (c_QueryLog cfg) in if (db =? "")%string then [] else db_files db.

Definition log_paths (cfg : Config) : list string :=
  let f := File (c_QueryLog cfg) in if (f =? "")%string || (f =? "stdout")%string then [] else [f].

(** What a step does to the files, for the paths it may remove. *)
Definition step_spec (paths : list string) (fs : FS) (res : FS * PurgeStep * bool) : Prop :=
  let '(fs', step, missing) := res in
  (forall q, fs_names fs' !! q = fs_names fs !! q \/
     (q ∈ paths /\ fs_names fs' !! q = None /\ exists fs1, overwritten fs1 q)) /\
  (accurate -> ps_Failed step = false -> forall q, q ∈ paths -> fs_names fs' !! q = None) /\
  (missing = true -> paths <> []).

Lemma step_nothing fs step : step_spec [] fs (fs, step, false).
Proof. split_and!; [by left | | done]. intros _ _ q Hq. by apply elem_of_nil in Hq. Qed.

Lemma step_wipe what path deleted paths fs :
  paths <> [] -> step_spec paths fs (wipe_files_step fs_text env what path deleted paths fs).
Proof.
  intros Hp. pose proof (wipe_files_spec what path deleted paths fs) as H. unfold step_spec.
  destruct (wipe_files_step _ _ _ _ _ _ _) as [[fs1 s1] m1]. destruct H as (H1 & H2 & _). done.
Qed.

Lemma offline_db_spec cfg fs : step_spec (db_paths cfg) fs (offline_db fs_text env cfg fs).
Proof.
  unfold offline_db, db_paths. destruct (Database (c_QueryLog cfg) =? "")%string; [apply step_nothing |].
  by apply step_wipe.
Qed.

Lemma offline_file_spec cfg fs : step_spec (log_paths cfg) fs (offline_file fs_text env cfg fs).
Proof.
  unfold offline_file, log_paths, FileStdout.
  destruct (File (c_QueryLog cfg) =? "")%string; [apply step_nothing |]. cbn [orb].
  destruct (File (c_QueryLog cfg) =? "stdout")%string; [apply step_nothing | by apply step_wipe].
Qed.

End purge_spec.

(** The command exits with 0 exactly when the configuration loaded and a purge
    ran with no failed step, in the running s-hole or, when nothing listens on
    its admin address, on the files; and it touches the files only in the second
    case. *)
Theorem run_purge_exit fs_text cfg ask env fs d :
  let '(code, fs', d') := runPurge fs_text cfg ask env fs d in
  (code = 0%Z <-> exists c, cfg = Some c /\
     ((exists rep, purgeViaAPI (AdminListen (c_Admin c)) ask = Some (Some rep) /\ report_Failed rep = false) \/
      (purgeViaAPI (AdminListen (c_Admin c)) ask = Some None /\
       report_Failed (snd (fst (purgeOffline fs_text env c fs d))) = false))) /\
  ((fs', d') <> (fs, d) -> exists c, cfg = Some c /\ purgeViaAPI (AdminListen (c_Admin c)) ask = Some None).
Proof.
  unfold runPurge. destruct cfg as [c |].
  2: { split; [split; [done | by intros (? & ? & _)] | done]. }
  destruct (purgeViaAPI (AdminListen (c_Admin c)) ask) as [[rep |] |] eqn:Ev.
  - destruct (report_Failed rep) eqn:Er; (split; [split |]); try done.
    + intros (c' & [= <-] & [(rep' & Hr & Hf) | [Hr _]]); [| congruence]. rewrite Ev in Hr. congruence.
    + intros _. exists c. split; [done |]. left. by exists rep.
  - destruct (purgeOffline fs_text env c fs d) as [[[fs' d'] rep] nf] eqn:Eo. split.
    + destruct (report_Failed rep) eqn:Er; split; try done.
      * intros (c' & [= <-] & [(rep' & Hr & _) | [_ Hf]]); [congruence |]. rewrite Eo in Hf. simpl in Hf. congruence.
      * intros _. exists c. split; [done |]. right. split; [done |]. by rewrite Eo.
    + intros _. by exists c.
  - split; [split; [done |] | done].
    intros (c' & [= <-] & [(rep' & Hr & _) | [Hr _]]); congruence.
Qed.

(** ** Examples *)

Module PurgeExamples.
Definition text (e : fs_error) : string :=
  match e with ErrNotExist => "file does not exist" | ErrRefused t | ErrSys t => t end.

Definition rec : QRecord := mkRecord "192.168.1.0" "example.com." true false 0 true BlockedByName.

Definition stores : Stores :=
  mkStores (Some (mkDBLogger "all" [] [(5%Z, rec)] [(4%Z, rec)] 0)) (Some (mkFileLogger "all" ["queued"] ["a line"] 0))
    (mkCounter (fun _ => 3%Z) {["example.com." := 2%Z]} ∅ ∅ "all") (Some (Cache.New 10)) true ∅.

(** Standard output, and a database whose purge succeeds. *)
Definition penv : PurgeEnv :=
  mkPurgeEnv (CallReply None) (CallReply (mkTruncated (Some ErrStdoutNotPurgeable) None None)) [] (fun _ => None).

Lemma penv_truncation : truncation penv.
Proof.
  intros r [= <-].
  exists true, (mkTruncEnv (mkFS ∅ ∅) None (ZeroFileExamples.quiet (mkFS ∅ ∅)) None (mkFS ∅ ∅) (mkFS ∅ ∅) (None, None, None)), None.
  reflexivity.
Qed.


Example admin_addresses :
  map localAdminAddr [":8080"; "0.0.0.0:8080"; "[::]:8080"; "192.168.1.2:8080"; "[fe80::1%eth0]:80"; "bad"]
  = [Some "127.0.0.1:8080"; Some "127.0.0.1:8080"; Some "127.0.0.1:8080"; Some "192.168.1.2:8080"; Some "[fe80::1%eth0]:80"; None].
Proof. vm_compute. reflexivity. Qed.

Definition files : FS :=
  mkFS {["q.db" := ToInode 1%Z; "q.log" := Symlink "/etc/passwd"]} {[1%Z := mkInode true 1 [7%Z]]}.

Definition offline : OfflineEnv :=
  mkOffline true (fun fs _ => ZeroFileExamples.quiet fs) (fun _ => None) (fun _ => None) [] (fun _ => None).

(** The database is overwritten and deleted, the symbolic link at the log
    file's path is not. *)
Example offline_run :
  let '(fs', errs) := (fst (fst (fold_left (wipe_one offline) ["q.db"; "q.log"; "none"] (files, false, []))),
                       snd (fold_left (wipe_one offline) ["q.db"; "q.log"; "none"] (files, false, []))) in
  fs_names fs' = {["q.log" := Symlink "/etc/passwd"]} /\
  errs = [ErrRefused "q.log: not a regular file; not overwritten"].
Proof. vm_compute. done. Qed.
End PurgeExamples.
