(* ===== verification/Report.v ===== *)
(** * The warnings in effect (cmd/s-hole/report.go)

    The report that repeats the privacy and security warnings: the list for the
    dashboard, the line after each stats line with what is new since the last
    one, and the check of the stored history. The readings of the two counters
    and the result of the history check are arguments; formatting a date is a
    class. *)

From stdpp Require Import base numbers list strings.
From Stdlib Require Import Ascii ZArith Lia.
From S2P Require Import Config.
From S2P Require Import Prelude GoStrings GoConv StaleRows.

Open Scope string_scope.
Open Scope list_scope.

(** [Format("2006-01-02")] of a time in seconds. *)
Class DateFormat := format_date : Z -> string.

Definition staleCheckInterval : Z := hour.

(** The counters are [None] where the function is nil. *)
Record privacyReport := mkReport {
  settings_ : list Warning;
  has_plaintext : bool;
  lastPlaintext : Z;
  has_refused : bool;
  lastRefused : Z;
  stale : StaleReport;
}.

Section report.
Context {HD : DateFormat}.

(** A report whose expiry is the zero time has none. *)
Definition staleWarning (r : StaleReport) : string :=
  let rows := if (st_Rows r =? 1)%Z then "1 row" else Itoa (st_Rows r) +:+ " rows" in
  let expiry := match st_Expires r with
                | None => "retention does not remove them, because query_log.retention_days is 0"
                | Some t => "retention removes the last of them by " +:+ format_date t
                end in
  "the query database holds " +:+ rows +:+ " written under a less private setting; " +:+ expiry +:+
  ". Run s-hole -purge to delete all history now".

(** [checkStale]: [None] is an error of the query. The second value says whether
    the startup warning is logged. *)
Definition checkStale (rep : option StaleReport) (announce : bool) (p : privacyReport) : privacyReport * bool :=
  match rep with
  | None => (p, false)
  | Some rep =>
      (mkReport (settings_ p) (has_plaintext p) (lastPlaintext p) (has_refused p) (lastRefused p) rep,
       announce && (0 <? st_Rows rep)%Z)
  end.

Definition setting_items (p : privacyReport) : list string :=
  map (fun w => w_Key w +:+ ": " +:+ w_Detail w) (settings_ p).

Definition stale_items (p : privacyReport) : list string :=
  if (0 <? st_Rows (stale p))%Z then ["query_log.database: " +:+ staleWarning (stale p)] else [].

Definition plaintext_item (n : Z) (since : string) : list string :=
  if (0 <? n)%Z then ["dns.upstreams: " +:+ Itoa n +:+ " queries were sent unencrypted since " +:+ since +:+
                      ", because every DoH upstream had failed"] else [].

Definition refused_item (n : Z) (since : string) : list string :=
  if (0 <? n)%Z then ["dns.listen: " +:+ Itoa n +:+ " queries from outside the LAN were refused since " +:+ since] else [].

(** [plaintext] and [refused] are the counters at the call. *)
Definition current (p : privacyReport) (plaintext refused : Z) : list string :=
  setting_items p ++ stale_items p
  ++ (if has_plaintext p then plaintext_item plaintext "startup" else [])
  ++ (if has_refused p then refused_item refused "startup" else []).

(** The subtraction of two unsigned 64-bit counters. *)
Definition since_last (now last : Z) : Z := wrap 64 (now - last).

Definition logPeriodic (p : privacyReport) (plaintext refused : Z) : privacyReport * list string :=
  let items :=
    setting_items p ++ stale_items p
    ++ (if has_plaintext p then plaintext_item (since_last plaintext (lastPlaintext p)) "the last stats line" else [])
    ++ (if has_refused p then refused_item (since_last refused (lastRefused p)) "the last stats line" else []) in
  (mkReport (settings_ p) (has_plaintext p) (if has_plaintext p then plaintext else lastPlaintext p)
     (has_refused p) (if has_refused p then refused else lastRefused p) (stale p), items).

(** The line that is logged: the number of items and their texts; none for no
    item. *)
Definition periodic_line (items : list string) : option (Z * string) :=
  match items with
  | [] => None
  | _ => Some (lenZ items, join " | " items)
  end.

(** ** What the lines add up to *)

(** The report between stats lines: a history check, or a stats line with the
    readings of the counters. *)
Inductive report_op :=
  | OpStale (rep : option StaleReport)
  | OpLine (plaintext refused : Z).

Definition report_step (st : privacyReport * list (list string)) (op : report_op) : privacyReport * list (list string) :=
  let '(p, lines) := st in
  match op with
  | OpStale rep => (fst (checkStale rep false p), lines)
  | OpLine a b => let '(p, items) := logPeriodic p a b in (p, lines ++ [items])
  end.

Definition report_run (p : privacyReport) (ops : list report_op) : privacyReport * list (list string) :=
  fold_left report_step ops (p, []).

(** The counts that the lines report, taken from the counters. *)
Fixpoint increments (last : Z * Z) (ops : list report_op) : list (Z * Z) :=
  match ops with
  | [] => []
  | OpStale _ :: ops' => increments last ops'
  | OpLine a b :: ops' => (since_last a (fst last), since_last b (snd last)) :: increments (a, b) ops'
  end.

(** The counters only grow, and are 64 bits wide. *)
Fixpoint growing (last : Z * Z) (ops : list report_op) : Prop :=
  match ops with
  | [] => True
  | OpStale _ :: ops' => growing last ops'
  | OpLine a b :: ops' => (fst last <= a < 2 ^ 64)%Z /\ (snd last <= b < 2 ^ 64)%Z /\ growing (a, b) ops'
  end.

Fixpoint last_reading (last : Z * Z) (ops : list report_op) : Z * Z :=
  match ops with
  | [] => last
  | OpStale _ :: ops' => last_reading last ops'
  | OpLine a b :: ops' => last_reading (a, b) ops'
  end.

Lemma report_run_from p lines ops :
  fold_left report_step ops (p, lines) = (fst (report_run p ops), lines ++ snd (report_run p ops)).
Proof.
  unfold report_run. revert p lines. induction ops as [| op ops IH]; intros p lines; simpl; [by rewrite app_nil_r |].
  destruct op as [rep | a b]; simpl.
  - by rewrite (IH (fst (checkStale rep false p)) lines), (IH (fst (checkStale rep false p)) []).
  - rewrite (IH _ (lines ++ _)), (IH _ ([_])). by rewrite <- (assoc_L (++)).
Qed.

Lemma since_last_grow now last : (0 <= last <= now)%Z -> (now < 2 ^ 64)%Z -> since_last now last = (now - last)%Z.
Proof. intros H1 H2. apply wrap_id. unfold in_range. lia. Qed.

(** A line reports what an increment is, for each counter that is wired. *)
Definition reports (p : privacyReport) (items : list string) (inc : Z * Z) : Prop :=
  (forall w, w ∈ settings_ p -> (w_Key w +:+ ": " +:+ w_Detail w) ∈ items) /\
  (forall i, i ∈ plaintext_item (fst inc) "the last stats line" -> i ∈ items) /\
  (forall i, i ∈ refused_item (snd inc) "the last stats line" -> i ∈ items).

Lemma report_lines p ops :
  has_plaintext p = true -> has_refused p = true ->
  Forall2 (fun items inc => reports p items inc) (snd (report_run p ops))
    (increments (lastPlaintext p, lastRefused p) ops).
Proof.
  revert p. induction ops as [| op ops IH]; intros p Hp Hr; [constructor |].
  unfold report_run. simpl. destruct op as [rep | a b]; simpl.
  - rewrite report_run_from. simpl.
    assert (Hsame : let p' := fst (checkStale rep false p) in
      settings_ p' = settings_ p /\ has_plaintext p' = true /\ has_refused p' = true /\
      lastPlaintext p' = lastPlaintext p /\ lastRefused p' = lastRefused p) by (destruct rep; simpl; by rewrite ?Hp, ?Hr).
    destruct Hsame as (Hs & Hp' & Hr' & Hl1 & Hl2). specialize (IH _ Hp' Hr'). rewrite Hl1, Hl2 in IH.
    unfold reports in *. by rewrite Hs in IH.
  - rewrite report_run_from. simpl. rewrite Hp, Hr.
    constructor; [| exact (IH (mkReport (settings_ p) true a true b (stale p)) eq_refl eq_refl)].
    unfold reports, setting_items. simpl. split; [| split].
    + intros w Hw. apply elem_of_app. left. apply list_elem_of_fmap. by exists w.
    + intros i Hi. rewrite !elem_of_app. auto.
    + intros i Hi. rewrite !elem_of_app. auto.
Qed.

(** No warning gets lost between the stats lines, and none is counted twice.
    Every line repeats each setting warning; it names the queries sent
    unencrypted and the queries refused since the line before it; and over any
    run these counts add up to the counters, from the first reading to the
    last. *)
Theorem periodic_lines_complete p ops :
  has_plaintext p = true -> has_refused p = true -> (0 <= lastPlaintext p)%Z -> (0 <= lastRefused p)%Z ->
  growing (lastPlaintext p, lastRefused p) ops ->
  let incs := increments (lastPlaintext p, lastRefused p) ops in
  Forall2 (fun items inc => reports p items inc) (snd (report_run p ops)) incs /\
  sum_by fst incs = (fst (last_reading (lastPlaintext p, lastRefused p) ops) - lastPlaintext p)%Z /\
  sum_by snd incs = (snd (last_reading (lastPlaintext p, lastRefused p) ops) - lastRefused p)%Z.
Proof.
  intros Hp Hr H1 H2 Hg. cbv zeta. split; [by apply report_lines |]. revert H1 H2 Hg.
  generalize (lastPlaintext p) (lastRefused p). clear. induction ops as [| [rep | a b] ops IH]; intros x y H1 H2 Hg; simpl.
  - lia.
  - by apply IH.
  - simpl in Hg. destruct Hg as (Ha & Hb & Hg). destruct (IH a b ltac:(lia) ltac:(lia) Hg) as [E1 E2].
    rewrite !since_last_grow by lia. lia.
Qed.
End report.

(** ** Examples *)

Module ReportExamples.
#[local] Instance iso : DateFormat := fun _ => "2026-01-01".

Definition p0 : privacyReport :=
  mkReport [mkWarning "admin.listen" "every device on the LAN can open the dashboard" ""] true 0 true 0 no_stale.
Definition ops : list report_op := [OpLine 3 0; OpStale (Some (mkStale 2 (Some 5%Z) None)); OpLine 3 4; OpLine 5 4].

Lemma periodic_lines_complete_witness :
  sum_by fst (increments (0, 0)%Z ops) = 5%Z /\ sum_by snd (increments (0, 0)%Z ops) = 4%Z /\
  Forall2 (fun items inc => reports p0 items inc) (snd (report_run p0 ops)) (increments (0, 0)%Z ops).
Proof.
  assert (Hg : growing (0, 0)%Z ops) by (simpl; lia).
  destruct (periodic_lines_complete p0 ops eq_refl eq_refl ltac:(simpl; lia) ltac:(simpl; lia) Hg) as (H1 & H2 & H3).
  split; [exact H2 |]. split; [exact H3 | exact H1].
Defined.

Example line : periodic_line (snd (logPeriodic (fst (report_run p0 (take 2 ops))) 3 4)) =
  Some (3%Z, "admin.listen: every device on the LAN can open the dashboard | query_log.database: the query database holds 2 rows written under a less private setting; retention does not remove them, because query_log.retention_days is 0. Run s-hole -purge to delete all history now | dns.listen: 4 queries from outside the LAN were refused since the last stats line").
Proof. vm_compute. reflexivity. Qed.
End ReportExamples.
