(* ===== verification/Acl.v ===== *)
(** * The access lists of the Windows service (internal/service/acl.go)

    Access rights are 32-bit masks, an access list is a list of entries. The
    file holds the list that the installer sets, the access check, and the
    paths that the service account must not be able to change. SHA-1 and the
    UTF-16 form of a name that is not ASCII are classes. *)

From stdpp Require Import base numbers list gmap strings.
From Stdlib Require Import Ascii ZArith Lia.
From S2P Require Import Prelude GoStrings GoConv GoNet.

Open Scope string_scope.
Open Scope list_scope.

(** ** Rights *)

Definition rightReadData : Z := 1.
Definition rightWriteData : Z := 2.
Definition rightAppendData : Z := 4.
Definition rightReadEA : Z := 8.
Definition rightWriteEA : Z := 16.
Definition rightExecute : Z := 32.
Definition rightDeleteChild : Z := 64.
Definition rightReadAttributes : Z := 128.
Definition rightWriteAttributes : Z := 256.
Definition rightDelete : Z := 65536.
Definition rightReadControl : Z := 131072.
Definition rightWriteDAC : Z := 262144.
Definition rightWriteOwner : Z := 524288.
Definition rightSynchronize : Z := 1048576.

Definition genericAll : Z := 268435456.
Definition genericExecute : Z := 536870912.
Definition genericWrite : Z := 1073741824.
Definition genericRead : Z := 2147483648.

Definition bits_of (l : list Z) : Z := fold_right Z.lor 0%Z l.

Definition fileGenericRead : Z :=
  bits_of [rightReadControl; rightReadData; rightReadAttributes; rightReadEA; rightSynchronize].
Definition fileGenericWrite : Z :=
  bits_of [rightReadControl; rightWriteData; rightWriteAttributes; rightWriteEA; rightAppendData; rightSynchronize].
Definition fileGenericExecute : Z :=
  bits_of [rightReadControl; rightReadAttributes; rightExecute; rightSynchronize].
Definition fileAllAccess : Z := 2032127.
Definition rightReadExecute : Z := Z.lor fileGenericRead fileGenericExecute.

Definition binaryFileWrite : Z :=
  bits_of [rightWriteData; rightAppendData; rightDelete; rightWriteDAC; rightWriteOwner].
Definition binaryFolderWrite : Z :=
  bits_of [rightWriteData; rightAppendData; rightDeleteChild; rightDelete; rightWriteDAC; rightWriteOwner].
Definition parentFolderWrite : Z := bits_of [rightDeleteChild; rightDelete; rightWriteDAC; rightWriteOwner].

(** ** Entries and principals *)

Definition aceObjectInherit : Z := 1.
Definition aceContainerInherit : Z := 2.
Definition aceInheritOnly : Z := 8.

Definition sidSystem : string := "S-1-5-18".
Definition sidAdministrators : string := "S-1-5-32-544".
Definition sidCreatorOwner : string := "S-1-3-0".
Definition sidOwnerRights : string := "S-1-3-4".

Record ace := mkAce { deny : bool; flags : Z; mask : Z; sid : string }.

Definition has_flag (e : ace) (f : Z) : bool := negb (Z.land (flags e) f =? 0)%Z.

Class Sha1 := sha1 : list Z -> list Z.

(** [utf16.Encode] of the upper-case name, in little-endian bytes, for a name
    that is not ASCII. *)
Class Utf16Upper := utf16_upper : string -> list Z.

Definition upper_byte (c : ascii) : ascii := if is_lower c then ascii_of_N (byte_val c - 32) else c.

Fixpoint ascii_utf16 (s : string) : list Z :=
  match s with
  | "" => []
  | String c s' => Z.of_N (byte_val c) :: 0%Z :: ascii_utf16 s'
  end.

Definition name_utf16 `{Utf16Upper} (name : string) : list Z :=
  if is_ascii name then ascii_utf16 (string_map upper_byte name) else utf16_upper name.

Definition le32 (l : list Z) (i : nat) : Z :=
  let b k := default 0%Z (l !! (4 * i + k)%nat) in
  (b 0%nat + 256 * b 1%nat + 65536 * b 2%nat + 16777216 * b 3%nat)%Z.

Definition serviceSID `{Sha1, Utf16Upper} (name : string) : string :=
  let sum := sha1 (name_utf16 name) in
  "S-1-5-80-" +:+ join "-" (map (fun i => Itoa (le32 sum i)) [0; 1; 2; 3; 4]%nat).

Definition serviceTokenSIDs (svcSID : string) : list string :=
  [svcSID; "S-1-1-0"; "S-1-2-0"; "S-1-2-1"; "S-1-5-6"; "S-1-5-11"; "S-1-5-15"; "S-1-5-32-545"; "S-1-5-80-0"].

Definition inherit : Z := Z.lor aceObjectInherit aceContainerInherit.

Definition serviceDirACL (svcSID : string) : list ace := [
  mkAce false inherit fileAllAccess sidSystem;
  mkAce false inherit fileAllAccess sidAdministrators;
  mkAce false inherit rightReadExecute svcSID;
  mkAce false 0 (Z.lor rightWriteData rightAppendData) svcSID;
  mkAce false (Z.lor inherit aceInheritOnly) fileAllAccess sidCreatorOwner].

(** "%x". *)
Definition hex (n : Z) : string := hex_fuel 7 n "".

Definition sddl_ace (e : ace) : string :=
  "(" +:+ (if deny e then "D" else "A") +:+ ";" +:+
  (if has_flag e aceObjectInherit then "OI" else "") +:+ (if has_flag e aceContainerInherit then "CI" else "") +:+
  (if has_flag e aceInheritOnly then "IO" else "") +:+ ";0x" +:+ hex (mask e) +:+ ";;;" +:+ sid e +:+ ")".

Definition sddl (acl : list ace) : string := "D:P" +:+ join "" (map sddl_ace acl).

(** ** The access check *)

Definition mapGeneric (m : Z) : Z :=
  let r := Z.ldiff m (bits_of [genericAll; genericExecute; genericWrite; genericRead]) in
  let add g rights r := if (Z.land m g =? 0)%Z then r else Z.lor r rights in
  add genericAll fileAllAccess (add genericExecute fileGenericExecute
    (add genericWrite fileGenericWrite (add genericRead fileGenericRead r))).

Definition holds (sids : list string) (s : string) : bool := existsb (fun x => (x =? s)%string) sids.

(** The rights granted and denied so far, and whether an entry for OWNER RIGHTS
    was met. *)
Definition check_ace (held : list string) (acc : Z * Z * bool) (e : ace) : Z * Z * bool :=
  let '(granted, denied, owner_set) := acc in
  if has_flag e aceInheritOnly then acc
  else
    let owner_set := (sid e =? sidOwnerRights)%string || owner_set in
    if negb (holds held (sid e)) then (granted, denied, owner_set)
    else
      let m := mapGeneric (mask e) in
      if deny e then (granted, Z.lor denied (Z.ldiff m granted), owner_set)
      else (Z.lor granted (Z.ldiff m denied), denied, owner_set).

Definition grantedRights (owner : string) (acl : list ace) (nullDACL : bool) (sids : list string) : Z :=
  if nullDACL then fileAllAccess
  else
    let isOwner := holds sids owner in
    let held := if isOwner then sidOwnerRights :: sids else sids in
    let '(granted, _, owner_set) := fold_left (check_ace held) acl (0%Z, 0%Z, false) in
    if isOwner && negb owner_set then Z.lor granted (Z.lor rightReadControl rightWriteDAC) else granted.

(** ** The paths to the binary *)

Definition bslash : ascii := "\"%char.

Definition drive_root (p : string) : bool :=
  match p with String _ (String c "") => Ascii.eqb c ":"%char | _ => false end.

Definition unc_server (p : string) : bool := has_prefix "\\" p && negb (contains (drop_bytes 2 p) "\").

(** Each iteration shortens the path, so its length is enough fuel. *)
Fixpoint folders (fuel : nat) (p : string) (rights : Z) : list (string * Z) :=
  match fuel with
  | O => []
  | S fuel' =>
      match cut_last bslash p with
      | None => []
      | Some (u, _) =>
          if (u =? "")%string then []
          else if drive_root u then [(u +:+ "\", rights)]
          else if unc_server u then []
          else (u, rights) :: folders fuel' u parentFolderWrite
      end
  end.

Definition binaryPaths (exe : string) : list (string * Z) :=
  (exe, binaryFileWrite) :: folders (String.length exe) exe binaryFolderWrite.

Definition right_table : list (Z * string) := [
  (rightWriteData, "write or add file"); (rightAppendData, "append or add subfolder");
  (rightDeleteChild, "delete child"); (rightDelete, "delete"); (rightWriteDAC, "change permissions");
  (rightWriteOwner, "take ownership")].

Definition rightNames (m : Z) : string :=
  join ", " (map snd (List.filter (fun n => negb (Z.land m (fst n) =? 0)%Z) right_table)).

(** ** The config folder *)

Fixpoint trim_right_byte (c : ascii) (s : string) : string :=
  match s with
  | "" => ""
  | String a s' =>
      let t := trim_right_byte c s' in
      if Ascii.eqb a c && (t =? "")%string then "" else String a t
  end.

Definition shared_folders : list string :=
  ["ProgramFiles"; "ProgramFiles(x86)"; "ProgramW6432"; "ProgramData"; "USERPROFILE"].

Definition unsafeConfigDir `{UnicodeLower} (dir : string) (getenv : string -> string) : string :=
  let norm p := to_lower (trim_right_byte bslash p) in
  let d := norm dir in
  if drive_root d then "it is the root of a drive"
  else
    let root := norm (getenv "SystemRoot") in
    if negb (root =? "")%string && ((d =? root)%string || has_prefix (root +:+ "\") d) then "it is in the Windows folder"
    else match List.find (fun v => let p := norm (getenv v) in negb (p =? "")%string && (d =? p)%string) shared_folders with
         | Some v => "it is the " +:+ v +:+ " folder"
         | None =>
             let pub := norm (getenv "PUBLIC") in
             match cut_last bslash pub with
             | Some (u, _) =>
                 if negb (u =? "")%string && (d =? u)%string then "it is the folder that holds the user profiles" else ""
             | None => ""
             end
         end.

Definition foreignItems (owners : gmap string string) (allowed : list string) : list string :=
  sort_strings (map fst (List.filter (fun po => negb (holds allowed (snd po))) (map_to_list owners))).

(** ** The access check decides each right by itself *)

(** The entries that apply to the object itself and to the holder. *)
Definition applies (held : list string) (e : ace) : bool :=
  negb (has_flag e aceInheritOnly) && holds held (sid e).

(** What the entries decide about the right of one bit: the first entry that
    names it. *)
Definition first_decides (held : list string) (acl : list ace) (k : Z) : option bool :=
  negb ∘ deny <$> List.find (fun e => applies held e && Z.testbit (mapGeneric (mask e)) k) acl.

Lemma check_aces held acl g d o :
  let '(g', d', o') := fold_left (check_ace held) acl (g, d, o) in
  (forall k, (0 <= k)%Z -> Z.testbit g' k =
     if Z.testbit g k then true else if Z.testbit d k then false
     else default false (first_decides held acl k)) /\
  o' = o || existsb (fun e => negb (has_flag e aceInheritOnly) && (sid e =? sidOwnerRights)%string) acl.
Proof.
  revert g d o. induction acl as [| e acl IH]; intros g d o; cbn [fold_left].
  { split; [intros k _; by destruct (Z.testbit g k), (Z.testbit d k) | by rewrite orb_false_r]. }
  unfold first_decides, applies in *. unfold check_ace at 2. cbn [List.find existsb].
  destruct (has_flag e aceInheritOnly) eqn:Ef; cbn [negb andb orb].
  { exact (IH g d o). }
  destruct (holds held (sid e)) eqn:Eh; cbn [negb andb orb].
  2: { specialize (IH g d ((sid e =? sidOwnerRights)%string || o)).
       destruct (fold_left (check_ace held) acl _) as [[g' d'] o']. destruct IH as [H1 ->]. split; [exact H1 |].
       by destruct o, (sid e =? sidOwnerRights)%string. }
  destruct (deny e) eqn:Ed.
  - specialize (IH g (Z.lor d (Z.ldiff (mapGeneric (mask e)) g)) ((sid e =? sidOwnerRights)%string || o)).
    destruct (fold_left (check_ace held) acl _) as [[g' d'] o']. destruct IH as [H1 ->].
    split; [| by destruct o, (sid e =? sidOwnerRights)%string].
    intros k Hk. rewrite (H1 k Hk), Z.lor_spec, Z.ldiff_spec.
    destruct (Z.testbit g k); [done |]. destruct (Z.testbit d k); [done |]. simpl.
    destruct (Z.testbit (mapGeneric (mask e)) k); simpl; by rewrite ?Ed.
  - specialize (IH (Z.lor g (Z.ldiff (mapGeneric (mask e)) d)) d ((sid e =? sidOwnerRights)%string || o)).
    destruct (fold_left (check_ace held) acl _) as [[g' d'] o']. destruct IH as [H1 ->].
    split; [| by destruct o, (sid e =? sidOwnerRights)%string].
    intros k Hk. rewrite (H1 k Hk), Z.lor_spec, Z.ldiff_spec.
    destruct (Z.testbit g k); [done |]. destruct (Z.testbit d k); simpl; [by rewrite andb_false_r |].
    rewrite andb_true_r. destruct (Z.testbit (mapGeneric (mask e)) k); simpl; by rewrite ?Ed.
Qed.

(** The access check decides every right by itself. The first entry that applies
    to the object and to one of the holder's principals and that names the
    right, directly or in a generic right, allows or denies it; a right that no
    entry names is not granted, except that the owner has the rights to read
    and change the list unless an entry for OWNER RIGHTS applies; and without
    an access list every right is granted. *)
Theorem granted_rights_bit owner acl nullDACL sids k :
  (0 <= k)%Z ->
  let isOwner := holds sids owner in
  let held := if isOwner then sidOwnerRights :: sids else sids in
  Z.testbit (grantedRights owner acl nullDACL sids) k =
  if nullDACL then Z.testbit fileAllAccess k
  else default false (first_decides held acl k) ||
       (isOwner && negb (existsb (fun e => negb (has_flag e aceInheritOnly) && (sid e =? sidOwnerRights)%string) acl)
        && Z.testbit (Z.lor rightReadControl rightWriteDAC) k).
Proof.
  intros Hk. cbv zeta. unfold grantedRights. destruct nullDACL; [done |].
  set (held := if holds sids owner then sidOwnerRights :: sids else sids).
  pose proof (check_aces held acl 0 0 false) as H.
  destruct (fold_left (check_ace held) acl (0%Z, 0%Z, false)) as [[g d] o]. destruct H as [Hg ->].
  specialize (Hg k Hk). rewrite !Z.testbit_0_l in Hg. cbn [orb].
  destruct (holds sids owner); cbn [andb]; [| by rewrite Hg, orb_false_r].
  destruct (existsb _ acl); cbn [andb negb]; [by rewrite Hg, orb_false_r |].
  by rewrite Z.lor_spec, Hg.
Qed.

(** ** The config folder of the service *)

(** What Windows gives a file created in a folder with this list: the entries
    that objects inherit, with CREATOR OWNER replaced by the owner. *)
Definition inherited_by_file (owner : string) (acl : list ace) : list ace :=
  map (fun e => mkAce (deny e) 0 (mask e) (if (sid e =? sidCreatorOwner)%string then owner else sid e))
    (List.filter (fun e => has_flag e aceObjectInherit) acl).

(** A service SID: one that is none of the well-known principals. *)
Definition service_sid (s : string) : Prop :=
  s ∉ [sidSystem; sidAdministrators; sidCreatorOwner; sidOwnerRights].

Lemma holds_token svc s :
  s ∈ [sidSystem; sidAdministrators; sidCreatorOwner; sidOwnerRights] -> service_sid svc ->
  holds (serviceTokenSIDs svc) s = false.
Proof.
  intros Hs Hsvc. unfold holds, serviceTokenSIDs. cbn [existsb].
  assert (Hne : (svc =? s)%string = false) by (apply String.eqb_neq; intros ->; by apply Hsvc).
  rewrite Hne. rewrite !elem_of_cons, elem_of_nil in Hs. destruct Hs as [-> | [-> | [-> | [-> | []]]]]; reflexivity.
Qed.

Lemma holds_self svc : holds (serviceTokenSIDs svc) svc = true.
Proof. unfold holds, serviceTokenSIDs. cbn [existsb]. by rewrite String.eqb_refl. Qed.

(** What the installer's access list lets the service do. In the folder itself
    it can read, execute, and add files and subfolders, and nothing else: not
    delete a file in it, not delete or rename the folder, not change its list
    or owner. A file that an administrator put there it can read and execute
    but not change, replace or delete. A file it created itself it controls
    fully. *)
Theorem service_dir_rights svc :
  service_sid svc ->
  let token := serviceTokenSIDs svc in
  let acl := serviceDirACL svc in
  grantedRights sidAdministrators acl false token = Z.lor rightReadExecute (Z.lor rightWriteData rightAppendData) /\
  grantedRights sidAdministrators (inherited_by_file sidAdministrators acl) false token = rightReadExecute /\
  Z.land (grantedRights sidAdministrators (inherited_by_file sidAdministrators acl) false token) binaryFileWrite = 0%Z /\
  grantedRights svc (inherited_by_file svc acl) false token = fileAllAccess.
Proof.
  intros Hsvc. cbv zeta.
  assert (Hne : (svc =? sidCreatorOwner)%string = false /\ (svc =? sidOwnerRights)%string = false /\
                (svc =? sidSystem)%string = false /\ (svc =? sidAdministrators)%string = false).
  { split_and!; apply String.eqb_neq; intros ->; apply Hsvc; rewrite !elem_of_cons; auto. }
  destruct Hne as (Hc & Ho & Hs & Ha).
  assert (Hh : forall s, s ∈ [sidSystem; sidAdministrators; sidCreatorOwner; sidOwnerRights] ->
             holds (serviceTokenSIDs svc) s = false) by (intros; by apply holds_token).
  assert (Hadm : holds (serviceTokenSIDs svc) sidAdministrators = false) by (apply Hh; rewrite !elem_of_cons; auto).
  assert (Hsys : holds (serviceTokenSIDs svc) sidSystem = false) by (apply Hh; rewrite !elem_of_cons; auto).
  assert (Hcre : holds (serviceTokenSIDs svc) sidCreatorOwner = false) by (apply Hh; rewrite !elem_of_cons; auto).
  pose proof (holds_self svc) as Hself.
  assert (Hfile : forall owner, inherited_by_file owner (serviceDirACL svc) =
    [mkAce false 0 fileAllAccess sidSystem; mkAce false 0 fileAllAccess sidAdministrators;
     mkAce false 0 rightReadExecute svc; mkAce false 0 fileAllAccess owner]).
  { intros owner. unfold inherited_by_file.
    change (List.filter (fun e => has_flag e aceObjectInherit) (serviceDirACL svc)) with [
      mkAce false inherit fileAllAccess sidSystem; mkAce false inherit fileAllAccess sidAdministrators;
      mkAce false inherit rightReadExecute svc; mkAce false (Z.lor inherit aceInheritOnly) fileAllAccess sidCreatorOwner].
    cbn [map deny mask sid]. rewrite Hc. reflexivity. }
  split; [| split; [| split]].
  - unfold grantedRights. rewrite Hadm. unfold serviceDirACL. cbn [fold_left]. unfold check_ace. cbn [sid].
    rewrite Hadm, Hsys, Hself, Ho. reflexivity.
  - rewrite Hfile. unfold grantedRights. rewrite Hadm. cbn [fold_left]. unfold check_ace. cbn [sid].
    rewrite Hadm, Hsys, Hself. reflexivity.
  - rewrite Hfile. unfold grantedRights. rewrite Hadm. cbn [fold_left]. unfold check_ace. cbn [sid].
    rewrite Hadm, Hsys, Hself. reflexivity.
  - rewrite Hfile. unfold grantedRights. rewrite Hself. cbn [fold_left]. unfold check_ace. cbn [sid].
    assert (Hadd : forall s, holds (sidOwnerRights :: serviceTokenSIDs svc) s
                   = (sidOwnerRights =? s)%string || holds (serviceTokenSIDs svc) s) by done.
    rewrite !Hadd, Hadm, Hsys, Hself, Ho, !orb_true_r. reflexivity.
Qed.

(** ** Every folder on the path to the binary is checked *)

(** A cut at any separator is at the last one or before it. *)
Lemma cut_before_last c u v u' v' :
  no_byte c v -> u' +:+ String c v' = u +:+ String c v -> u' = u \/ exists w, u = u' +:+ String c w.
Proof.
  revert u'. induction u as [| a u IH]; intros u' Hn E.
  - destruct u' as [| b u']; [by left |]. injection E as -> E. exfalso. apply Hn. by exists u', v'.
  - destruct u' as [| b u'].
    + injection E as -> ->. right. by exists u.
    + injection E as -> E. destruct (IH u' Hn E) as [-> | (w & ->)]; [by left | right; by exists w].
Qed.

Lemma app_cons_prefix u c (v : string) : has_prefix "\\" u = true -> has_prefix "\\" (u +:+ String c v) = true.
Proof.
  intros H. apply has_prefix_spec in H as [r ->]. apply has_prefix_spec. exists (r +:+ String c v).
  by rewrite string_app_assoc.
Qed.

Lemma folders_cover fuel p rights u v :
  (String.length p <= fuel)%nat -> has_prefix "\\" p = false -> p = u +:+ String bslash v ->
  (2 < String.length u)%nat -> Z.land rights parentFolderWrite = parentFolderWrite ->
  exists r, (u, r) ∈ folders fuel p rights /\ Z.land r parentFolderWrite = parentFolderWrite /\
    (no_byte bslash v -> r = rights).
Proof.
  revert p rights v. induction fuel as [| fuel IH]; intros p rights v Hlen Hunc Hp Hu Hr.
  { rewrite Hp, string_length_app in Hlen. simpl in Hlen. lia. }
  cbn [folders]. destruct (cut_last bslash p) as [[w x] |] eqn:E.
  2: { apply cut_last_None in E. destruct E. by exists u, v. }
  apply cut_last_Some in E as [Hw Hx].
  assert (Hcases := cut_before_last bslash w x u v Hx ltac:(congruence)).
  assert (Hwlen : (2 < String.length w)%nat).
  { destruct Hcases as [E | (y & E)]; [by rewrite <- E |]. rewrite E, string_length_app. simpl. lia. }
  assert (Hw0 : (w =? "")%string = false) by (destruct w; [simpl in Hwlen; lia | done]).
  assert (Hwd : drive_root w = false) by (destruct w as [| ? [| ? [| ? ?]]]; simpl in *; try done; lia).
  assert (Hwu : has_prefix "\\" w = false).
  { destruct (has_prefix "\\" w) eqn:Eu; [| done]. rewrite Hw in Hunc. by rewrite app_cons_prefix in Hunc. }
  assert (Hws : unc_server w = false) by (unfold unc_server; by rewrite Hwu).
  rewrite Hw0, Hwd, Hws. destruct Hcases as [-> | Hy].
  - exists rights. split; [by left |]. done.
  - assert (Hlw : (String.length w <= fuel)%nat).
    { rewrite Hw, string_length_app in Hlen. simpl in Hlen. lia. }
    destruct Hy as [y Hy].
    destruct (IH w parentFolderWrite y Hlw Hwu Hy Hu eq_refl) as (r & Hin & Hr' & _).
    exists r. split; [by right |]. split; [done |]. intros Hv. exfalso. apply Hv.
    rewrite Hy in Hw. rewrite Hp in Hw. rewrite string_app_assoc in Hw.
    assert (Hinj : forall (a b c : string), a +:+ b = a +:+ c -> b = c).
      { clear. intros a. induction a; intros b c E; [done |]. injection E as E. by apply IHa. }
      apply Hinj in Hw. injection Hw as ->. by exists y, x.
Qed.

(** The check of the binary leaves no folder out. For a binary on a drive, every
    folder on the way from the drive to it is among the checked paths, for the
    rights to delete it, to delete in it, and to change its list or its owner;
    its own folder moreover for the rights to add a file or a folder; and the
    binary itself for every right that changes it. *)
Theorem binary_paths_cover exe u v :
  has_prefix "\\" exe = false -> exe = u +:+ String bslash v -> (2 < String.length u)%nat ->
  (exe, binaryFileWrite) ∈ binaryPaths exe /\
  exists r, (u, r) ∈ binaryPaths exe /\ Z.land r parentFolderWrite = parentFolderWrite /\
    (no_byte bslash v -> r = binaryFolderWrite).
Proof.
  intros Hunc He Hu. split; [by left |].
  destruct (folders_cover (String.length exe) exe binaryFolderWrite u v) as (r & Hin & Hr & Hl); try done.
  exists r. split; [by right | done].
Qed.

(** ** Examples *)

Module AclExamples.
Definition svc : string := "S-1-5-80-1-2-3-4-5".

Lemma svc_ok : service_sid svc.
Proof. unfold service_sid. rewrite !elem_of_cons, elem_of_nil. intuition discriminate. Qed.

Lemma service_dir_rights_witness :
  service_sid svc /\
  grantedRights sidAdministrators (inherited_by_file sidAdministrators (serviceDirACL svc)) false (serviceTokenSIDs svc)
    = rightReadExecute.
Proof. split; [exact svc_ok |]. exact (proj1 (proj2 (service_dir_rights svc svc_ok))). Defined.

(** A deny before an allow, for the right to write (bit 1) and to read. *)
Definition ex_acl : list ace := [mkAce true 0 rightWriteData "S-1-1-0"; mkAce false 0 genericAll svc].

Lemma granted_rights_bit_witness :
  Z.testbit (grantedRights sidSystem ex_acl false (serviceTokenSIDs svc)) 1 = false /\
  Z.testbit (grantedRights sidSystem ex_acl false (serviceTokenSIDs svc)) 0 = true.
Proof.
  rewrite (granted_rights_bit sidSystem ex_acl false (serviceTokenSIDs svc) 1 ltac:(lia)).
  rewrite (granted_rights_bit sidSystem ex_acl false (serviceTokenSIDs svc) 0 ltac:(lia)).
  split; vm_compute; reflexivity.
Defined.

Lemma binary_paths_cover_witness :
  exists r, ("C:\Program Files\s-hole", r) ∈ binaryPaths "C:\Program Files\s-hole\s-hole.exe" /\ r = binaryFolderWrite.
Proof.
  destruct (binary_paths_cover "C:\Program Files\s-hole\s-hole.exe" "C:\Program Files\s-hole" "s-hole.exe" eq_refl eq_refl
    ltac:(vm_compute; lia)) as (_ & r & Hin & _ & Hr).
  exists r. split; [exact Hin |]. apply Hr. apply no_byte_bool. reflexivity.
Defined.

Example paths :
  map fst (binaryPaths "C:\Program Files\s-hole\s-hole.exe") =
    ["C:\Program Files\s-hole\s-hole.exe"; "C:\Program Files\s-hole"; "C:\Program Files"; "C:\"] /\
  map fst (binaryPaths "\\nas\share\s-hole.exe") = ["\\nas\share\s-hole.exe"; "\\nas\share"].
Proof. vm_compute. done. Qed.

Example sddl_text :
  sddl (serviceDirACL svc) =
    "D:P(A;OICI;0x1f01ff;;;S-1-5-18)(A;OICI;0x1f01ff;;;S-1-5-32-544)(A;OICI;0x1200a9;;;S-1-5-80-1-2-3-4-5)(A;;0x6;;;S-1-5-80-1-2-3-4-5)(A;OICIIO;0x1f01ff;;;S-1-3-0)".
Proof. vm_compute. reflexivity. Qed.
End AclExamples.
