(* ===== verification/Service.v ===== *)
(** * The Windows service (internal/service/svc_windows.go)

    The service loop as a function of the order in which its [select] takes
    events, and the commands that install, remove, start and stop the service as
    steps that leave a trace and can fail. What the calls into Windows answer is
    the record [WinEnv]; access lists are those of [Acl]. *)

From stdpp Require Import base numbers list gmap strings.
From Stdlib Require Import Ascii ZArith Lia.
From S2P Require Import Prelude.
From S2P Require Import GoStrings.
From S2P Require Import GoConv.
From S2P Require Import GoNet.
From S2P Require Import Acl.

Open Scope string_scope.

Definition svcName : string := "s-hole".
Definition svcDesc : string := "Network-level DNS sinkhole for ad blocking.".
Definition svcAccount : string := "NT SERVICE\" +:+ svcName.

(** ** The service loop *)

Definition exitServeFailed : Z := 1.
Definition stopWaitHint : Z := 15000.

Inductive svc_state := StartPending | Running | StopPending | Stopped.

(** [svc.Status]: the state, whether Stop and Shutdown are accepted, the wait
    hint. *)
Record Status := mkStatus { st_state : svc_state; st_accepts : bool; st_wait : Z }.

(** What [select] takes: a control request, with the status it carries, or the
    return of the DNS server with its error. *)
Inductive control := Interrogate | Stop | Shutdown | OtherControl.
Inductive svc_event := Change (c : control) (current : Status) | Served (err : option string).

(** What the loop does: it reports a status, it runs the teardown. *)
Inductive svc_action := Report (s : Status) | Teardown.

(** One turn of the loop: what it does, and the result of [Execute] when it
    returns. *)
Definition svc_turn (e : svc_event) : list svc_action * option (bool * Z) :=
  match e with
  | Change Interrogate current => ([Report current], None)
  | Change (Stop | Shutdown) _ =>
      ([Report (mkStatus StopPending false stopWaitHint); Teardown; Report (mkStatus Stopped false 0)], Some (false, 0%Z))
  | Change OtherControl _ => ([], None)
  | Served err =>
      ([Report (mkStatus StopPending false stopWaitHint); Teardown],
       Some (match err with None => (false, 0%Z) | Some _ => (true, exitServeFailed) end))
  end.

Fixpoint svc_loop (es : list svc_event) : list svc_action * option (bool * Z) :=
  match es with
  | [] => ([], None)
  | e :: es' =>
      match svc_turn e with
      | (l, Some r) => (l, Some r)
      | (l, None) => let '(l', r) := svc_loop es' in ((l ++ l')%list, r)
      end
  end.

(** [handler.Execute] on the events in the order in which they are taken; no
    result while it still waits. *)
Definition Execute (es : list svc_event) : list svc_action * option (bool * Z) :=
  let '(l, r) := svc_loop es in
  (Report (mkStatus StartPending false 0) :: Report (mkStatus Running true 0) :: l, r).

(** ** Paths *)

(** [filepath.VolumeName] of an absolute path: a drive, or the server and the
    share of a UNC path. *)
Definition VolumeName (p : string) : string :=
  match p with
  | String d (String ":" _) => String d ":"
  | _ =>
      if has_prefix "\\" p then
        match cut_byte bslash (drop_bytes 2 p) with
        | None => p
        | Some (server, rest) =>
            "\\" +:+ server +:+ "\" +:+ match cut_byte bslash rest with None => rest | Some (share, _) => share end
        end
      else ""
  end.

(** [filepath.Dir] of an absolute path as [filepath.Abs] returns it: the part
    before the last separator, and the separator itself at the root. *)
Definition Dir (p : string) : string :=
  let vol := VolumeName p in
  match cut_last bslash (drop_bytes (String.length vol) p) with
  | None => p
  | Some (u, _) => vol +:+ (if (u =? "")%string then "\" else u)
  end.

(** ** Access lists of files *)

Inductive ace_type := AccessAllowed | AccessAllowedCallback | AccessDenied | OtherAce.

Record raw_ace := mkRawAce { ra_type : ace_type; ra_flags : Z; ra_mask : Z; ra_sid : string }.

(** What Windows returns of a path: the owner, absent when there is none, and the
    list; an error of the list, a list that is not there or NULL, or entries. *)
Inductive raw_dacl := DaclError (e : string) | DaclNull | DaclEntries (l : list raw_ace).
Record raw_sd := mkRawSD { sd_owner : option string; sd_dacl : raw_dacl }.

Definition entry_of (a : raw_ace) : option ace :=
  match ra_type a with
  | AccessAllowed | AccessAllowedCallback => Some (mkAce false (ra_flags a) (ra_mask a) (ra_sid a))
  | AccessDenied => Some (mkAce true (ra_flags a) (ra_mask a) (ra_sid a))
  | OtherAce => None
  end.

Definition readACL (sd : string + raw_sd) : string + (string * list ace * bool) :=
  match sd with
  | inl e => inl e
  | inr d =>
      let owner := default "" (sd_owner d) in
      match sd_dacl d with
      | DaclError e => inl e
      | DaclNull => inr (owner, [], true)
      | DaclEntries l => inr (owner, omap entry_of l, false)
      end
  end.

(** An item that [filepath.WalkDir] visits. *)
Inductive item_kind := Folder | RegularFile | OtherItem.

#[export] Instance item_kind_eq_dec : EqDecision item_kind.
Proof. solve_decision. Defined.

Record walk_item := mkItem { wi_path : string; wi_error : option string; wi_kind : item_kind }.

(** ** Steps *)

Inductive start_type := StartAutomatic.

(** The service that [CreateService] makes: the binary with its arguments, the
    account, the SID type and the start type. *)
Record service_config := mkService {
  sc_name : string; sc_display : string; sc_desc : string; sc_exe : string; sc_args : list string;
  sc_account : string; sc_unrestricted_sid : bool; sc_start : start_type;
}.

(** [RecoveryAction]: restart after the given milliseconds. *)
Inductive win_effect :=
  | SetAccessList (dir sd : string)
  | CreateService (c : service_config)
  | SetRecoveryActions (restart_delays : list Z) (reset_seconds : Z)
  | SetNonCrashFailures
  | RegisterSource
  | RemoveSource
  | DeleteService
  | StartService
  | StopService
  | PrintLine (s : string).

(** What Windows and the file system answer. [we_sd] is a path's security
    descriptor, [we_walk] the items of a folder in the order of the walk, both
    as they are when they are read. *)
Record WinEnv := mkWin {
  we_exe : string + string;
  we_stat : string -> string + bool;
  we_getenv : string -> string;
  we_sd : string -> string + raw_sd;
  we_connect : option string;
  we_open : option string;
  we_set_acl : option string;
  we_user : string + string;
  we_walk : string -> list walk_item;
  we_create : option string;
  we_recovery : option string;
  we_noncrash : option string;
  we_source : option string;
  we_delete : option string;
  we_remove_source : option string;
  we_start : option string;
  we_stop : option string;
}.

(** A command leaves effects, and fails with a text or goes on. *)
Definition Win (A : Type) : Type := list win_effect * (string + A).

Definition win_ret {A} (x : A) : Win A := ([], inr x).
Definition win_fail {A} (e : string) : Win A := ([], inl e).
Definition win_do (e : win_effect) : Win unit := ([e], inr tt).
Definition win_bind {A B} (m : Win A) (k : A -> Win B) : Win B :=
  match snd m with
  | inl e => (fst m, inl e)
  | inr x => let '(l, r) := k x in ((fst m ++ l)%list, r)
  end.

(** A call that fails with an error, [wrap]ped, or has its effect. *)
Definition win_call (err : option string) (wrap : string -> string) (e : list win_effect) : Win unit :=
  match err with Some x => win_fail (wrap x) | None => (e, inr tt) end.

Declare Scope win_scope.
Notation "'let!' x := m 'in' k" := (win_bind m (fun x => k)) (at level 10, x pattern, m at level 100, k at level 200) : win_scope.
Notation "'do!' m 'in' k" := (win_bind m (fun _ => k)) (at level 10, m at level 100, k at level 200) : win_scope.
Local Open Scope win_scope.

Definition of_sum {A} (x : string + A) (wrap : string -> string) : Win A :=
  match x with inl e => win_fail (wrap e) | inr v => win_ret v end.

(** ** Checks of the installer *)

(** One path of [checkBinary]: the text that reports it. *)
Fixpoint check_paths (env : WinEnv) (sids : list string) (l : list (string * Z)) : string + list string :=
  match l with
  | [] => inr []
  | (path, rights) :: l' =>
      match readACL (we_sd env path) with
      | inl e => inl ("read the access list of " +:+ path +:+ ": " +:+ e)
      | inr (owner, acl, nullDACL) =>
          let got := Z.land (grantedRights owner acl nullDACL sids) rights in
          match check_paths env sids l' with
          | inl e => inl e
          | inr found =>
              inr (if (got =? 0)%Z then found else (path +:+ " (" +:+ rightNames got +:+ ")") :: found)
          end
      end
  end.

Definition checkBinary (env : WinEnv) (exe : string) (sids : list string) : option string :=
  match check_paths env sids (binaryPaths exe) with
  | inl e => Some e
  | inr [] => None
  | inr found =>
      Some ("the service account " +:+ svcAccount +:+ " could change or replace " +:+ exe +:+ " through: "
            +:+ join "; " found +:+ ". Put s-hole.exe in C:\Program Files\s-hole and run -service install from there")
  end.

(** The walk of [checkOwners]: the links it found and the owner of each file and
    folder. *)
Fixpoint walk_owners (env : WinEnv) (items : list walk_item) (links : list string) (owners : gmap string string)
    : string + (list string * gmap string string) :=
  match items with
  | [] => inr (links, owners)
  | it :: items' =>
      match wi_error it with
      | Some e => inl e
      | None =>
          match wi_kind it with
          | OtherItem => walk_owners env items' (links ++ [wi_path it])%list owners
          | _ =>
              match readACL (we_sd env (wi_path it)) with
              | inl e => inl ("read the owner of " +:+ wi_path it +:+ ": " +:+ e)
              | inr (owner, _, _) => walk_owners env items' links (<[wi_path it := owner]> owners)
              end
          end
      end
  end.

Definition checkOwners (env : WinEnv) (dir svcSID : string) : option string :=
  match we_user env with
  | inl e => Some ("read the account that runs the install: " +:+ e)
  | inr user =>
      let allowed := [sidSystem; sidAdministrators; svcSID; user] in
      match walk_owners env (we_walk env dir) [] ∅ with
      | inl e => Some e
      | inr (links, owners) =>
          match (links ++ foreignItems owners allowed)%list with
          | [] => None
          | found =>
              Some ("the config folder " +:+ dir +:+ " holds items that another account owns, or links: "
                    +:+ join "; " found +:+ ". Delete them, then run -service install again")
          end
      end
  end.

Definition restrictDir (env : WinEnv) (dir sid : string) : Win unit :=
  win_call (we_set_acl env) (fun e => "set the access list of " +:+ dir +:+ ": " +:+ e)
    [SetAccessList dir (sddl (serviceDirACL sid))].

Definition recoveryResetSeconds : Z := 24 * 60 * 60.

(** [setRecovery]: its error is a value of its own, [Install] only prints it. *)
Definition setRecovery (env : WinEnv) : Win (option string) :=
  match we_recovery env with
  | Some e => win_ret (Some e)
  | None =>
      do! win_do (SetRecoveryActions [5000; 5000; 5000]%Z recoveryResetSeconds) in
      match we_noncrash env with
      | Some e => win_ret (Some e)
      | None => do! win_do SetNonCrashFailures in win_ret None
      end
  end.

Definition check_ (err : option string) : Win unit := match err with Some e => win_fail e | None => win_ret tt end.

(** [%q] of the name. *)
Definition svcNameQuoted : string := String quote_char (svcName +:+ String quote_char "").

Definition serviceConfig (exePath configPath : string) : service_config :=
  mkService svcName "s-hole DNS Sinkhole" svcDesc exePath ["-config"; configPath] svcAccount true StartAutomatic.

Definition warn_ (err : option string) (text : string) : Win unit :=
  match err with Some e => win_do (PrintLine (text +:+ e)) | None => win_ret tt end.

(** An error that the command does not count as one. *)
Definition unless_contains (sub : string) (err : option string) : option string :=
  match err with Some e => if contains e sub then None else Some e | None => None end.

Section Commands.
Context `{UnicodeLower, Sha1, Utf16Upper}.

(** ** The commands *)

(** The checks of [Install] before its first change; the path of the binary. *)
Definition install_checks (env : WinEnv) (configPath : string) : Win string :=
  let! exePath := of_sum (we_exe env) (fun e => e) in
  let! regular := of_sum (we_stat env configPath) (fun e => "config file: " +:+ e) in
  do! check_ (if regular : bool then None else Some ("config file " +:+ configPath +:+ " is not a regular file")) in
  let configDir := Dir configPath in
  let why := unsafeConfigDir configDir (we_getenv env) in
  do! check_ (if (why =? "")%string then None
              else Some ("config folder " +:+ configDir +:+ " cannot get the service access list: " +:+ why
                         +:+ ". Put config.yaml in a folder of its own, such as C:\ProgramData\s-hole")) in
  do! check_ (if equal_fold (Dir exePath) configDir
              then Some ("s-hole.exe is in the config folder " +:+ configDir
                         +:+ ", where the service can add files. Put s-hole.exe in C:\Program Files\s-hole")
              else None) in
  do! check_ (checkBinary env exePath (serviceTokenSIDs (serviceSID svcName))) in
  do! win_call (we_connect env) (fun e => "connect to SCM: " +:+ e) [] in
  do! check_ (match we_open env with
              | None => Some ("service " +:+ svcNameQuoted +:+ " already exists. Run -service uninstall first")
              | Some _ => None
              end) in
  win_ret exePath.

(** What [Install] does once the service exists. *)
Definition install_rest (env : WinEnv) (exePath configPath : string) : Win unit :=
  let! rerr := setRecovery env in
  do! warn_ rerr ("warning: could not set restart-on-failure for service " +:+ svcNameQuoted +:+ ": ") in
  do! (match we_source env with None => win_do RegisterSource | Some _ => win_ret tt end) in
  do! warn_ (unless_contains "already exists" (we_source env))
        ("warning: could not register event-log source " +:+ svcNameQuoted +:+ ": ") in
  win_do (PrintLine ("service " +:+ svcNameQuoted +:+ " installed (auto-start, runs as " +:+ svcAccount +:+ ")"
    +:+ String newline ("  binary: " +:+ exePath +:+ " (the service account cannot change it)"
    +:+ String newline ("  config: " +:+ configPath
    +:+ " (the service reads this folder and changes only the files that it creates: edit config.yaml as an administrator)")))).

Definition Install (env : WinEnv) (configPath : string) : Win unit :=
  let! exePath := install_checks env configPath in
  let configDir := Dir configPath in
  let sid := serviceSID svcName in
  do! restrictDir env configDir sid in
  do! check_ (checkOwners env configDir sid) in
  do! win_call (we_create env) (fun e => "create service: " +:+ e) [CreateService (serviceConfig exePath configPath)] in
  install_rest env exePath configPath.

(** [mgr.Connect] and [OpenService], as three of the commands start. *)
Definition open_service (env : WinEnv) (connect : string) : Win unit :=
  do! win_call (we_connect env) (fun e => connect +:+ e) [] in
  win_call (we_open env) (fun e => "service " +:+ svcNameQuoted +:+ " not found: " +:+ e) [].

Definition Uninstall (env : WinEnv) : Win unit :=
  do! open_service env "connect to SCM: " in
  do! win_call (we_delete env) (fun e => "delete service: " +:+ e) [DeleteService] in
  do! (match we_remove_source env with None => win_do RemoveSource | Some _ => win_ret tt end) in
  do! warn_ (unless_contains "cannot find" (we_remove_source env))
        ("warning: could not remove event-log source " +:+ svcNameQuoted +:+ ": ") in
  win_do (PrintLine ("service " +:+ svcNameQuoted +:+ " uninstalled")).

Definition Start (env : WinEnv) : Win unit :=
  do! open_service env "" in
  do! win_call (we_start env) (fun e => "start service: " +:+ e) [StartService] in
  win_do (PrintLine ("service " +:+ svcNameQuoted +:+ " started")).

Definition StopCommand (env : WinEnv) : Win unit :=
  do! open_service env "" in
  do! win_call (we_stop env) (fun e => "stop service: " +:+ e) [StopService] in
  win_do (PrintLine ("service " +:+ svcNameQuoted +:+ " stop requested")).
End Commands.

(** ** Elsewhere (internal/service/svc_other.go) *)

Definition errNotSupported : string := "service management is only supported on Windows. Use systemd on Linux".

Definition Run_other {E} (fn : unit -> option E) : option E := fn tt.

(** ** The loop ends once, after the teardown *)

(** The events that end the loop. *)
Definition ends_loop (e : svc_event) : bool :=
  match e with Change (Stop | Shutdown) _ | Served _ => true | _ => false end.

(** The answers to the requests that do not end it. *)
Definition echoes (es : list svc_event) : list svc_action :=
  omap (fun e => match e with Change Interrogate s => Some (Report s) | _ => None end) es.

Lemma svc_loop_waits es : forallb (negb ∘ ends_loop) es = true -> svc_loop es = (echoes es, None).
Proof.
  induction es as [|e es IH]; [done |]. cbn [forallb]. rewrite andb_true_iff. intros [He Hes].
  cbn [svc_loop]. rewrite IH by done. by destruct e as [[] s|].
Qed.

Lemma svc_loop_ends es e rest :
  forallb (negb ∘ ends_loop) es = true -> ends_loop e = true ->
  svc_loop (es ++ e :: rest) = ((echoes es ++ fst (svc_turn e))%list, snd (svc_turn e)).
Proof.
  intros Hes He. induction es as [|e0 es IH]; cbn [app svc_loop].
  - by destruct e as [[] s|].
  - cbn [forallb] in Hes. apply andb_true_iff in Hes as [H0 Hes]. rewrite IH by done. by destruct e0 as [[] s|].
Qed.

(** The service reports StartPending and Running, answers the requests that come
    in, and goes on until a stop request or the end of the DNS server. The first
    of these, whatever comes later, makes it report StopPending, run the
    teardown once, and return: after a stop request it has reported Stopped, and
    the exit code is a failure exactly when the DNS server ended with an error,
    so that Windows restarts the service then and only then. *)
Theorem service_ends_once es e rest :
  forallb (negb ∘ ends_loop) es = true -> ends_loop e = true ->
  Execute es = (Report (mkStatus StartPending false 0) :: Report (mkStatus Running true 0) :: echoes es, None) /\
  exists tail code,
    Execute (es ++ e :: rest) =
      (([Report (mkStatus StartPending false 0); Report (mkStatus Running true 0)] ++ echoes es
        ++ [Report (mkStatus StopPending false stopWaitHint); Teardown] ++ tail)%list, Some code) /\
    (tail = [] \/ tail = [Report (mkStatus Stopped false 0)]) /\
    (snd code <> 0%Z <-> exists err, e = Served (Some err)) /\
    (tail = [] <-> exists err, e = Served err).
Proof.
  intros Hes He. unfold Execute. rewrite svc_loop_waits, svc_loop_ends by done. split; [done |].
  destruct e as [[] s | [err|]]; try done; cbn [svc_turn fst snd].
  - exists [Report (mkStatus Stopped false 0)], (false, 0%Z). split_and!; [done | by right | naive_solver | naive_solver].
  - exists [Report (mkStatus Stopped false 0)], (false, 0%Z). split_and!; [done | by right | naive_solver | naive_solver].
  - exists [], (true, exitServeFailed). split_and!; [done | by left | naive_solver | naive_solver].
  - exists [], (false, 0%Z). split_and!; [done | by left | naive_solver | naive_solver].
Qed.

(** ** What the installer makes sure of *)

(** The holder of [sids] has none of the rights on the path. *)
Definition no_right (env : WinEnv) (sids : list string) (path : string) (rights : Z) : Prop :=
  exists owner acl nullDACL,
    readACL (we_sd env path) = inr (owner, acl, nullDACL) /\
    Z.land (grantedRights owner acl nullDACL sids) rights = 0%Z.

Lemma check_paths_safe env sids l :
  check_paths env sids l = inr [] -> forall path rights, (path, rights) ∈ l -> no_right env sids path rights.
Proof.
  induction l as [|[p r] l IH]; intros Hl path rights; [by intros ?%elem_of_nil |]. cbn [check_paths] in Hl.
  destruct (readACL (we_sd env p)) as [|[[owner acl] null]] eqn:Hr; [done |].
  destruct (check_paths env sids l) as [|found]; [done |].
  destruct (Z.eqb_spec (Z.land (grantedRights owner acl null sids) r) 0) as [Hz|]; [|done].
  injection Hl as ->. intros [[= -> ->] | Hin]%elem_of_cons; [by exists owner, acl, null | by apply IH].
Qed.

Lemma checkBinary_safe env exe sids :
  checkBinary env exe sids = None ->
  forall path rights, (path, rights) ∈ binaryPaths exe -> no_right env sids path rights.
Proof.
  unfold checkBinary. destruct (check_paths _ _ _) as [|[|]] eqn:H; try done. intros _. by apply check_paths_safe.
Qed.

(** An item that the walk accepts: a folder or a file of an allowed owner. *)
Definition owned_by (env : WinEnv) (allowed : list string) (it : walk_item) : Prop :=
  wi_error it = None /\ wi_kind it <> OtherItem /\
  exists owner acl nullDACL, readACL (we_sd env (wi_path it)) = inr (owner, acl, nullDACL) /\ owner ∈ allowed.

(** The owners in the map are those that Windows returns. *)
Definition owners_read (env : WinEnv) (owners : gmap string string) : Prop :=
  forall p o, owners !! p = Some o -> exists acl nullDACL, readACL (we_sd env p) = inr (o, acl, nullDACL).

Lemma walk_owners_spec env items links owners links' owners' :
  owners_read env owners -> walk_owners env items links owners = inr (links', owners') ->
  (forall p, p ∈ links -> p ∈ links') /\ (forall p o, owners !! p = Some o -> owners' !! p = Some o) /\
  forall it, it ∈ items -> wi_error it = None /\
    (wi_kind it = OtherItem -> wi_path it ∈ links') /\
    (wi_kind it <> OtherItem -> exists owner acl nullDACL,
       readACL (we_sd env (wi_path it)) = inr (owner, acl, nullDACL) /\ owners' !! wi_path it = Some owner).
Proof.
  revert links owners. induction items as [|it items IH]; intros links owners Hread; cbn [walk_owners].
  { intros [= <- <-]. split; [done |]. split; [done |]. intros it Hit. by apply elem_of_nil in Hit. }
  destruct (wi_error it) eqn:He; [done |].
  destruct (decide (wi_kind it = OtherItem)) as [Hk|Hk].
  { rewrite Hk. intros Hw. destruct (IH _ _ Hread Hw) as (H1 & H2 & H3).
    split; [intros p Hp; apply H1, elem_of_app; by left |]. split; [done |].
    intros it' [-> | Hin]%elem_of_cons; [|by apply H3]. split_and!; [done | | congruence].
    intros _. apply H1, elem_of_app. right. by apply list_elem_of_singleton. }
  destruct (readACL (we_sd env (wi_path it))) as [|[[owner acl] null]] eqn:Hr; [by destruct (wi_kind it) |].
  assert (owners_read env (<[wi_path it := owner]> owners)) as Hread'.
  { intros p o. rewrite lookup_insert_Some. intros [[<- <-] | [_ Hp]]; [by exists acl, null | by apply Hread]. }
  intros Hw. assert (walk_owners env items links (<[wi_path it := owner]> owners) = inr (links', owners')) as Hw'
    by (by destruct (wi_kind it)).
  destruct (IH _ _ Hread' Hw') as (H1 & H2 & H3). split; [done |]. split.
  - intros p o Hp. apply H2, lookup_insert_Some. destruct (decide (wi_path it = p)) as [<-|]; [|by right].
    left. split; [done |]. apply Hread in Hp as (acl' & null' & Hp). congruence.
  - intros it' [-> | Hin]%elem_of_cons; [|by apply H3]. split_and!; [done | done |]. intros _.
    exists owner, acl, null. split; [done |]. apply H2, lookup_insert_eq.
Qed.

Lemma foreignItems_none owners allowed p o : foreignItems owners allowed = [] -> owners !! p = Some o -> o ∈ allowed.
Proof.
  unfold foreignItems. intros Hf Hp.
  assert (map fst (List.filter (fun po => negb (holds allowed (snd po))) (map_to_list owners)) = []) as Hn.
  { apply Permutation_nil_r. rewrite <- Hf. symmetry. apply sort_strings_permutation. }
  destruct (holds allowed o) eqn:Hh.
  - apply existsb_exists in Hh as (x & Hx & <-%String.eqb_eq). by apply list_elem_of_In.
  - exfalso. assert (In (p, o) (List.filter (fun po => negb (holds allowed (snd po))) (map_to_list owners))) as Hin.
    { apply filter_In. split; [by apply list_elem_of_In, elem_of_map_to_list |]. simpl. by rewrite Hh. }
    apply map_eq_nil in Hn. by rewrite Hn in Hin.
Qed.

Lemma checkOwners_safe env dir svcSID :
  checkOwners env dir svcSID = None ->
  exists user, we_user env = inr user /\
    forall it, it ∈ we_walk env dir -> owned_by env [sidSystem; sidAdministrators; svcSID; user] it.
Proof.
  unfold checkOwners. destruct (we_user env) as [|user]; [done |].
  destruct (walk_owners env (we_walk env dir) [] ∅) as [|[links owners]] eqn:Hw; [done |].
  destruct (links ++ foreignItems owners _)%list eqn:Hn; [|done]. intros _. exists user. split; [done |].
  apply app_eq_nil in Hn as [-> Hf]. intros it Hit.
  apply walk_owners_spec in Hw as (_ & _ & Hw); [|by intros p o; rewrite lookup_empty].
  destruct (Hw it Hit) as (He & Hlink & Hown). assert (wi_kind it <> OtherItem) as Hk.
  { intros Hk. by apply Hlink, elem_of_nil in Hk. }
  destruct (Hown Hk) as (owner & acl & null & Hr & Ho). split_and!; [done | done |].
  exists owner, acl, null. split; [done |]. by eapply foreignItems_none.
Qed.

Section Guarantees.
Context `{UnicodeLower, Sha1, Utf16Upper}.

(** What holds before the first change: the binary is in a folder of its own that
    the service cannot change, the config file is a regular file in a folder that
    is not shared, and the service does not exist. *)
Record checked (env : WinEnv) (configPath exePath : string) : Prop := mkChecked {
  ck_exe : we_exe env = inr exePath;
  ck_config : we_stat env configPath = inr true;
  ck_folder : unsafeConfigDir (Dir configPath) (we_getenv env) = "";
  ck_apart : equal_fold (Dir exePath) (Dir configPath) = false;
  ck_binary : forall path rights, (path, rights) ∈ binaryPaths exePath ->
    no_right env (serviceTokenSIDs (serviceSID svcName)) path rights;
  ck_new : we_open env <> None;
}.

Lemma install_checks_spec env configPath :
  fst (install_checks env configPath) = [] /\
  match snd (install_checks env configPath) with inl _ => True | inr exePath => checked env configPath exePath end.
Proof.
  unfold install_checks, win_bind, of_sum, check_, win_call.
  destruct (we_exe env) as [|exePath] eqn:K1; [done |]. cbn [snd fst win_ret].
  destruct (we_stat env configPath) as [|[]] eqn:K2; [done | cbn [snd fst win_ret] | done].
  destruct (String.eqb_spec (unsafeConfigDir (Dir configPath) (we_getenv env)) "") as [K3|]; [|done]. cbn [snd fst win_ret].
  destruct (equal_fold (Dir exePath) (Dir configPath)) eqn:K4; [done |]. cbn [snd fst win_ret].
  destruct (checkBinary env exePath _) eqn:K5; [done |]. cbn [snd fst win_ret].
  destruct (we_connect env); [done |]. cbn [snd fst win_ret].
  destruct (we_open env) eqn:K6; [|done]. cbn. split; [done |].
  split; [done.. | by apply checkBinary_safe | congruence].
Qed.

Lemma install_rest_spec env exePath configPath :
  snd (install_rest env exePath configPath) = inr tt /\
  forall c, CreateService c ∉ fst (install_rest env exePath configPath).
Proof.
  unfold install_rest, setRecovery, warn_, unless_contains.
  destruct (we_recovery env), (we_noncrash env), (we_source env) as [e|]; cbn;
    try (destruct (contains e "already exists"); cbn);
    (split; [done |]); intros c Hin; repeat (apply elem_of_cons in Hin as [?|Hin]; [done |]); by apply elem_of_nil in Hin.
Qed.

Lemma no_creation (P : service_config -> Prop) (trace : list win_effect) (e : string) :
  (forall c, CreateService c ∉ trace) ->
  (forall c, CreateService c ∈ trace -> P c) /\
  ((inl e : string + unit) = inr tt <-> exists c, CreateService c ∈ trace).
Proof. intros Hno. split; [by intros c Hc%Hno |]. split; [done | by intros [c Hc%Hno]]. Qed.

#[local] Arguments install_rest : simpl never.

End Guarantees.

(** ** Examples *)

Module ServiceExamples.
#[local] Instance ex_lower : UnicodeLower := fun s => s.
#[local] Instance ex_sha1 : Sha1 := fun _ => replicate 20 1%Z.
#[local] Instance ex_utf16 : Utf16Upper := fun _ => [].

Example volumes :
  map Dir ["C:\ProgramData\s-hole\config.yaml"; "C:\config.yaml"; "\\srv\share\config.yaml"; "\\srv\share\a\config.yaml"]
  = ["C:\ProgramData\s-hole"; "C:\"; "\\srv\share\"; "\\srv\share\a"].
Proof. reflexivity. Qed.

(** The owner is SYSTEM, everyone may read. *)
Definition ex_sd : raw_sd :=
  mkRawSD (Some sidSystem) (DaclEntries [mkRawAce AccessAllowed 0 rightReadExecute "S-1-1-0"; mkRawAce OtherAce 0 0 ""]).

Definition ex_env : WinEnv :=
  mkWin (inr "C:\Program Files\s-hole\s-hole.exe") (fun _ => inr true) (fun _ => "") (fun _ => inr ex_sd)
    None (Some "not found") None (inr "S-1-5-21-1-2-3-1001")
    (fun d => [mkItem d None Folder; mkItem (d +:+ "\config.yaml") None RegularFile])
    None None None (Some "already exists") None None None None.

(** An install that succeeds, on a machine whose event source exists. *)
Example installs :
  map (fun e => match e with PrintLine _ => PrintLine "" | e => e end)
    (fst (Install ex_env "C:\ProgramData\s-hole\config.yaml")) =
  [SetAccessList "C:\ProgramData\s-hole" (sddl (serviceDirACL (serviceSID svcName)));
   CreateService (serviceConfig "C:\Program Files\s-hole\s-hole.exe" "C:\ProgramData\s-hole\config.yaml");
   SetRecoveryActions [5000; 5000; 5000]%Z 86400; SetNonCrashFailures; PrintLine ""].
Proof. vm_compute. reflexivity. Qed.

(** Everyone may write: the installer refuses and changes nothing. *)
Example refuses_writable :
  let sd := mkRawSD (Some sidSystem) (DaclEntries [mkRawAce AccessAllowed 0 fileAllAccess "S-1-1-0"]) in
  let env := mkWin (we_exe ex_env) (we_stat ex_env) (we_getenv ex_env) (fun _ => inr sd) None (Some "") None
               (we_user ex_env) (we_walk ex_env) None None None None None None None None in
  fst (Install env "C:\ProgramData\s-hole\config.yaml") = [].
Proof. vm_compute. reflexivity. Qed.

Lemma service_ends_once_witness :
  exists tail code,
    Execute ([Change Interrogate (mkStatus Running true 0)] ++ [Served (Some "bind")]) =
      (([Report (mkStatus StartPending false 0); Report (mkStatus Running true 0)]
        ++ echoes [Change Interrogate (mkStatus Running true 0)]
        ++ [Report (mkStatus StopPending false stopWaitHint); Teardown] ++ tail)%list, Some code) /\
    (tail = [] \/ tail = [Report (mkStatus Stopped false 0)]) /\
    (snd code <> 0%Z <-> exists err, Served (Some "bind") = Served (Some err)) /\
    (tail = [] <-> exists err, Served (Some "bind") = Served err).
Proof.
  exact (proj2 (service_ends_once [Change Interrogate (mkStatus Running true 0)] (Served (Some "bind")) []
    eq_refl eq_refl)).
Defined.
End ServiceExamples.
