(* ===== verification/MainLoop.v ===== *)
(** * The goroutines of main (cmd/s-hole/main.go, signals_unix.go, signals_windows.go)

    What runs beside the DNS server and the teardown of [Lifecycle]: the tickers
    with their recovery from a panic, the channel of signals with its goroutine,
    and the way the process ends, in interactive mode by [blockUntilStopped], as
    a Windows service by the loop of [Service]. [world_step] interleaves all of
    them; a world is a process of [Lifecycle] with what is around it. *)

From stdpp Require Import base numbers list strings relations.
From Stdlib Require Import ZArith Lia.
From S2P Require Import Prelude.
From S2P Require Import GoStrings.
From S2P Require Import Service.
From S2P Require Import Lifecycle.

Open Scope list_scope.

(** ** Tickers *)

Section Ticker.
Context {W : Type}.

(** The function of a ticker on the state of the program: the state that it
    leaves, and the value of its panic when it panics. *)
Variable fn : W -> W * option string.

(** [runTickerOnce]: the state, and the panic that is logged. *)
Definition runTickerOnce (w : W) : W * list string :=
  let '(w, panic) := fn w in (w, match panic with Some v => [v] | None => [] end).

(** What the [select] of [runTicker] takes. *)
Inductive tick := CtxDone | Fired.

(** [runTicker] on what its [select] takes, in order: the state, the panics
    logged, and whether it has returned. *)
Fixpoint runTicker (events : list tick) (w : W) : W * list string * bool :=
  match events with
  | [] => (w, [], false)
  | CtxDone :: _ => (w, [], true)
  | Fired :: events' =>
      let '(w, logged) := runTickerOnce w in
      let '(w, logged', ended) := runTicker events' w in (w, logged ++ logged', ended)
  end.

(** The state after [n] calls of the function. *)
Definition calls (n : nat) (w : W) : W := Nat.iter n (fun w => fst (fn w)) w.

#[local] Arguments calls : simpl never.

Lemma calls_S n w : calls (S n) w = calls n (fst (fn w)).
Proof. apply Nat.iter_succ_r. Qed.

(** The panics of the first [n] calls. *)
Definition panics (n : nat) (w : W) : list string := omap (fun i => snd (fn (calls i w))) (seq 0 n).

Lemma panics_S n w :
  panics (S n) w = match snd (fn w) with Some v => [v] | None => [] end ++ panics n (fst (fn w)).
Proof.
  assert (forall l, omap (fun i => snd (fn (calls i w))) (map S l) = omap (fun i => snd (fn (calls i (fst (fn w))))) l) as Hl.
  { induction l as [|i l IH]; [done |]. cbn [omap list_omap map] in *. by rewrite calls_S, IH. }
  unfold panics. cbn [seq]. rewrite <- seq_shift. cbn [omap list_omap]. change (calls 0 w) with w.
  pose proof (Hl (seq 0 n)) as E. cbn [omap] in E. rewrite E. by destruct (snd (fn w)).
Qed.

Lemma ticker_run n tail ended w :
  (forall w', runTicker tail w' = (w', [], ended)) ->
  runTicker (replicate n Fired ++ tail) w = (calls n w, panics n w, ended).
Proof.
  intros Htail. revert w. induction n as [|n IH]; intros w; [apply Htail |].
  cbn [replicate app runTicker]. unfold runTickerOnce. destruct (fn w) as [w1 panic] eqn:Hfn.
  by rewrite IH, calls_S, panics_S, Hfn.
Qed.

(** A panic does not stop a ticker: however many of its calls panic, it has
    called its function once for every tick before the context ended, and never
    after it, and it has logged exactly the panics of these calls, in order. *)
Theorem ticker_survives n rest w :
  runTicker (replicate n Fired) w = (calls n w, panics n w, false) /\
  runTicker (replicate n Fired ++ CtxDone :: rest) w = (calls n w, panics n w, true).
Proof. split; [rewrite <- (app_nil_r (replicate n Fired)) |]; by apply ticker_run. Qed.
End Ticker.

(** ** Signals *)

Inductive signal := SIGINT | SIGTERM | SIGHUP.

#[export] Instance signal_eq_dec : EqDecision signal.
Proof. solve_decision. Defined.

(** [reloadSignals] and [isReloadSignal] of the two builds. *)
Definition reloadSignals (windows : bool) : list signal := if windows then [] else [SIGHUP].

Definition isReloadSignal (windows : bool) (s : signal) : bool := negb windows && bool_decide (s = SIGHUP).

(** The signals that main asks for. *)
Definition notified (windows : bool) : list signal := [SIGINT; SIGTERM] ++ reloadSignals windows.

(** Where the signal goroutine is: at the receive, with a signal that it took,
    in [doStop], or ended. *)
Inductive loop_pc := Receiving | Handling (s : signal) | Stopping | Ended.

(** Where the loop of the service is: in its [select], doing what an event asks
    for before it returns with a result, or returned. *)
Inductive svc_pc := SvcSelecting | SvcActing (todo : list svc_action) (result : bool * Z) | SvcReturned (result : bool * Z).

(** The process with its channel of signals, which holds one, the signal
    goroutine, the loop of the service with the events that it took and the
    actions that it did, and the reload ticker. *)
Record World := mkWorld {
  w_windows : bool;
  w_service : bool;
  w_proc : Process;
  w_sigs : option signal;
  w_loop : loop_pc;
  w_svc : svc_pc;
  w_taken : list svc_event;
  w_done : list svc_action;
}.

Definition world_start (windows service : bool) : World :=
  mkWorld windows service process_start None Receiving SvcSelecting [] (fst (Execute [])).

Definition set_proc (p : Process) (w : World) : World :=
  mkWorld (w_windows w) (w_service w) p (w_sigs w) (w_loop w) (w_svc w) (w_taken w) (w_done w).

Definition set_sigs (s : option signal) (w : World) : World :=
  mkWorld (w_windows w) (w_service w) (w_proc w) s (w_loop w) (w_svc w) (w_taken w) (w_done w).

Definition set_loop (l : loop_pc) (w : World) : World :=
  mkWorld (w_windows w) (w_service w) (w_proc w) (w_sigs w) l (w_svc w) (w_taken w) (w_done w).

Definition set_svc (s : svc_pc) (taken : list svc_event) (acts : list svc_action) (w : World) : World :=
  mkWorld (w_windows w) (w_service w) (w_proc w) (w_sigs w) (w_loop w) s taken acts.

(** [signal.Notify] delivers without waiting: a signal that finds the channel
    full is lost. *)
Definition deliver (s : signal) (w : World) : World :=
  match w_sigs w with
  | None => set_sigs (Some s) w
  | Some _ => w
  end.

(** A call of [doStop] in progress: [sync.Once] starts the teardown for the
    first caller, and every caller returns when it has ended. *)
Definition in_doStop (p : Process) : Process + unit :=
  match teardown p with
  | Some [] => inr tt
  | _ => inl (doStop p)
  end.

(** One step of the signal goroutine. *)
Definition loop_step (w : World) : option World :=
  match w_loop w with
  | Receiving =>
      match w_sigs w with
      | Some s => Some (set_loop (Handling s) (set_sigs None w))
      | None => None
      end
  | Handling s =>
      if isReloadSignal (w_windows w) s
      then Some (set_loop Receiving (set_proc (set_gate (fst (reload (gate (w_proc w)))) (w_proc w)) w))
      else Some (set_loop Stopping w)
  | Stopping =>
      match in_doStop (w_proc w) with
      | inl p => Some (set_proc p w)
      | inr _ => Some (set_loop Ended w)
      end
  | Ended => None
  end.

(** The result of [dnsServer.Start] is there when a listener failed, or when
    [Shutdown] has closed them all. *)
Definition served (p : Process) (err : option string) : Prop :=
  match err with
  | Some _ => serve_failed p = true
  | None => serve_failed p = false /\ dns_live p = false
  end.

(** The [select] of the service takes an event. *)
Definition svc_take (e : svc_event) (w : World) : World :=
  match svc_turn e with
  | (acts, None) => set_svc SvcSelecting (w_taken w ++ [e]) (w_done w ++ acts) w
  | (acts, Some r) => set_svc (SvcActing acts r) (w_taken w ++ [e]) (w_done w) w
  end.

(** It goes on with what the event asks for: the teardown is a call of
    [doStop]. *)
Definition svc_act (w : World) : option World :=
  match w_svc w with
  | SvcActing [] r => Some (set_svc (SvcReturned r) (w_taken w) (w_done w) w)
  | SvcActing (Report s :: todo) r => Some (set_svc (SvcActing todo r) (w_taken w) (w_done w ++ [Report s]) w)
  | SvcActing (Teardown :: todo) r =>
      match in_doStop (w_proc w) with
      | inl p => Some (set_proc p w)
      | inr _ => Some (set_svc (SvcActing todo r) (w_taken w) (w_done w ++ [Teardown]) w)
      end
  | _ => None
  end.

(** A DNS listener fails. *)
Definition serve_error (p : Process) : Process :=
  mkProcess (gate p) (dns_live p) (cache_open p) (file_open p) (db_open p) (timed_out p) (teardown p) true (main_at p).

(** What the goroutines of the process do by themselves. *)
Inductive own_step : World -> World -> Prop :=
  | own_loop w w' : loop_step w = Some w' -> own_step w w'
  | own_teardown d w p : teardown_step d (w_proc w) = Some p -> own_step w (set_proc p w)
  | own_main e w p : w_service w = false -> main_step e (w_proc w) = Some p -> own_step w (set_proc p w)
  | own_served err w :
      w_service w = true -> w_svc w = SvcSelecting -> served (w_proc w) err -> own_step w (svc_take (Served err) w)
  | own_act w w' : svc_act w = Some w' -> own_step w w'
  | own_gor i w g : gor_step i (gate (w_proc w)) = Some g -> own_step w (set_proc (set_gate g (w_proc w)) w).

(** All steps: also the signals, a request of the service manager, a request to
    reload by the API or the reload ticker, and the failure of a listener. *)
Inductive world_step : World -> World -> Prop :=
  | world_own w w' : own_step w w' -> world_step w w'
  | world_signal s w : s ∈ notified (w_windows w) -> world_step w (deliver s w)
  | world_change c current w :
      w_service w = true -> w_svc w = SvcSelecting -> world_step w (svc_take (Change c current) w)
  | world_reload w : world_step w (set_proc (set_gate (fst (reload (gate (w_proc w)))) (w_proc w)) w)
  | world_serve_error w : dns_live (w_proc w) = true -> world_step w (set_proc (serve_error (w_proc w)) w).

Definition world_init (w : World) : Prop := exists windows service, w = world_start windows service.

Definition world_reachable : World -> Prop := reachable world_init world_step.

(** How the process ends: the exit code, and for a service the result for the
    service manager. *)
Definition exit_of (w : World) : option (Z * option (bool * Z)) :=
  if w_service w then match w_svc w with SvcReturned r => Some (0%Z, Some r) | _ => None end
  else match main_at (w_proc w) with Exited code => Some (code, None) | _ => None end.

(** ** The process inside *)

Lemma doStop_step p : process_step p (doStop p).
Proof. constructor. Qed.

Lemma reload_step p : process_step p (set_gate (fst (reload (gate p))) p).
Proof. constructor. constructor. Qed.

(** A step of the world is at most one step of its process. *)
Definition inner_step (w w' : World) : Prop :=
  w_proc w' = w_proc w \/ process_step (w_proc w) (w_proc w').

Lemma loop_inner w w' : loop_step w = Some w' -> inner_step w w'.
Proof.
  unfold loop_step, inner_step. destruct (w_loop w) as [|s| |]; [destruct (w_sigs w)| | |]; try done.
  - intros [= <-]. by left.
  - destruct (isReloadSignal _ s); intros [= <-]; [right; apply reload_step | by left].
  - destruct (in_doStop (w_proc w)) as [p|] eqn:Hp; intros [= <-]; [right | by left].
    unfold in_doStop in Hp. destruct (teardown (w_proc w)) as [[]|]; try done; injection Hp as <-; apply doStop_step.
Qed.

Lemma act_inner w w' : svc_act w = Some w' -> inner_step w w'.
Proof.
  unfold svc_act, inner_step. destruct (w_svc w) as [|[|[s|] todo] r|r]; try done; try (intros [= <-]; by left).
  destruct (in_doStop (w_proc w)) as [p|] eqn:Hp; intros [= <-]; [right | by left].
  unfold in_doStop in Hp. destruct (teardown (w_proc w)) as [[]|]; try done; injection Hp as <-; apply doStop_step.
Qed.

Lemma take_proc e w : w_proc (svc_take e w) = w_proc w.
Proof. unfold svc_take. by destruct (svc_turn e) as [acts [r|]]. Qed.

Lemma own_inner w w' : own_step w w' -> inner_step w w'.
Proof.
  intros [w1 w1' Hl | d w1 p Ht | e w1 p Hs Hm | err w1 Hs Hv Hd | w1 w1' Ha | i w1 g Hg].
  - by apply loop_inner.
  - right. by apply step_teardown with d.
  - right. by apply step_main with e.
  - left. apply take_proc.
  - by apply act_inner.
  - right. apply step_gate. by apply step_gor with i.
Qed.

Lemma world_inner w w' : world_step w w' -> inner_step w w'.
Proof.
  intros [w1 w1' Ho | s w1 Hs | c current w1 Hs Hv | w1 | w1 Hd].
  - by apply own_inner.
  - left. unfold deliver. by destruct (w_sigs w1).
  - left. apply take_proc.
  - right. apply reload_step.
  - right. by apply step_serve_error.
Qed.

(** The world refines the process: what [Lifecycle] shows of a reachable process
    holds of the one inside a reachable world. *)
Lemma world_process w : world_reachable w -> process_reachable (w_proc w).
Proof.
  induction 1 as [w (windows & service & ->) | w w' _ IH Hs]; [by apply reachable_init |].
  destruct (world_inner w w' Hs) as [-> | Hp]; [done | by eapply reachable_step].
Qed.

(** ** The loop of the service inside the world *)

Lemma svc_loop_snoc es e l :
  svc_loop es = (l, None) -> svc_loop (es ++ [e]) = (l ++ fst (svc_turn e), snd (svc_turn e)).
Proof.
  revert l. induction es as [|e0 es IH]; intros l; cbn [app svc_loop].
  - intros [= <-]. destruct (svc_turn e) as [acts [r|]]; cbn [fst snd]; by rewrite ?app_nil_r.
  - destruct (svc_turn e0) as [acts [r|]]; [done |]. destruct (svc_loop es) as [l' r'].
    intros [= <- ->]. rewrite (IH l' eq_refl). by rewrite app_assoc.
Qed.

Lemma Execute_snoc es e l :
  Execute es = (l, None) -> Execute (es ++ [e]) = (l ++ fst (svc_turn e), snd (svc_turn e)).
Proof.
  unfold Execute. destruct (svc_loop es) as [l' r'] eqn:Hl. intros [= <- ->]. by rewrite (svc_loop_snoc es e l' Hl).
Qed.

Lemma svc_turn_end e acts r :
  svc_turn e = (acts, Some r) ->
  (length acts <= 3)%nat /\ Teardown ∈ acts /\ (fst r = true -> exists text, e = Served (Some text)).
Proof.
  destruct e as [[] s|[text|]]; cbn [svc_turn]; intros [= <- <-]; (split; [simpl; lia |]; split; [|done || (intros _; by exists text)]);
    rewrite !elem_of_cons; tauto.
Qed.

(** What the service has done is what [Execute] does on the events it took; when
    it has done its teardown, the teardown of the process has ended. *)
Definition svc_at (p : Process) (sv : svc_pc) (taken : list svc_event) (acts : list svc_action) : Prop :=
  match sv with
  | SvcSelecting => Execute taken = (acts, None)
  | SvcActing todo r =>
      Execute taken = (acts ++ todo, Some r) /\ (length todo <= 3)%nat /\ Teardown ∈ acts ++ todo /\
      (fst r = true -> serve_failed p = true)
  | SvcReturned r =>
      Execute taken = (acts, Some r) /\ Teardown ∈ acts /\ (fst r = true -> serve_failed p = true)
  end.

Definition svc_inv (w : World) : Prop :=
  (Teardown ∈ w_done w -> teardown (w_proc w) = Some []) /\ svc_at (w_proc w) (w_svc w) (w_taken w) (w_done w).

(** Each mode uses its own way to end, and the signal goroutine ends only after
    the teardown. *)
Definition world_inv (w : World) : Prop :=
  (w_service w = true -> main_at (w_proc w) = Selecting) /\
  (w_service w = false -> w_svc w = SvcSelecting) /\
  (w_loop w = Ended -> teardown (w_proc w) = Some []) /\ svc_inv w.

(** What never goes back in a process. *)
Definition keeps (p p' : Process) : Prop :=
  (teardown p = Some [] -> teardown p' = Some []) /\ (serve_failed p = true -> serve_failed p' = true) /\
  (teardown p <> None -> teardown p' <> None).

Lemma keeps_refl p : keeps p p.
Proof. by unfold keeps. Qed.

Lemma keeps_doStop p : keeps p (doStop p).
Proof. unfold keeps, doStop. destruct (teardown p) eqn:E; simpl; rewrite ?E; naive_solver. Qed.

Lemma keeps_gate g p : keeps p (set_gate g p).
Proof. by unfold keeps. Qed.

#[local] Hint Resolve keeps_refl keeps_doStop keeps_gate : core.

Lemma do_action_same d a p p' :
  do_action d a p = Some p' -> teardown p' = teardown p /\ serve_failed p' = serve_failed p /\ main_at p' = main_at p.
Proof.
  destruct a; simpl; try (by intros [= <-]). destruct (waitWithDeadline d _) as [[]|]; naive_solver.
Qed.

Lemma keeps_teardown d p p' : teardown_step d p = Some p' -> keeps p p' /\ main_at p' = main_at p.
Proof.
  unfold teardown_step, keeps. destruct (teardown p) as [[|a rest]|] eqn:E; try done.
  destruct (do_action d a p) as [p1|] eqn:Ha; [|done]. intros [= <-].
  apply do_action_same in Ha as (_ & Hf & Hm). simpl. rewrite Hf, Hm. naive_solver.
Qed.

Lemma keeps_main e p p' : main_step e p = Some p' -> keeps p p'.
Proof.
  unfold main_step. destruct (main_at p); [destruct e| |done].
  - destruct (serve_failed p); [|done]. intros [= <-]. destruct (keeps_doStop p) as (? & ? & ?). by unfold keeps.
  - destruct (teardown p) as [[]|] eqn:E; try done. intros [= <-]. by unfold keeps.
  - destruct (teardown p) as [[]|] eqn:E; try done. intros [= <-]. by unfold keeps.
Qed.

Lemma keeps_serve_error p : keeps p (serve_error p).
Proof. by unfold keeps. Qed.

(** A step of the process that keeps what never goes back keeps the invariant. *)
Lemma world_inv_proc p w :
  world_inv w -> keeps (w_proc w) p -> (w_service w = true -> main_at p = main_at (w_proc w)) -> world_inv (set_proc p w).
Proof.
  intros (Hm & Hv & Hl & Hd & Hs) (Kt & Kf & _) Hmain. split; [simpl; intros Hw; rewrite Hmain by done; auto |].
  split; [done |]. split; [auto |]. split; [simpl; auto |].
  unfold svc_at in *. simpl. by destruct (w_svc w) as [|todo r|r]; naive_solver.
Qed.

Lemma world_inv_svc sv taken acts w :
  world_inv w -> w_service w = true -> (Teardown ∈ acts -> teardown (w_proc w) = Some []) ->
  svc_at (w_proc w) sv taken acts -> world_inv (set_svc sv taken acts w).
Proof.
  intros (Hm & _ & Hl & _) Hw Hd Hs. split; [done |]. split; [simpl; congruence |]. split; [done |]. by split.
Qed.

Lemma doStop_main p : main_at (doStop p) = main_at p.
Proof. unfold doStop. by destruct (teardown p). Qed.

Lemma in_doStop_cases p p' : in_doStop p = inl p' -> p' = doStop p.
Proof. unfold in_doStop. destruct (teardown p) as [[]|]; naive_solver. Qed.

Lemma in_doStop_done p : in_doStop p = inr tt -> teardown p = Some [].
Proof. unfold in_doStop. destruct (teardown p) as [[]|]; naive_solver. Qed.

Lemma world_inv_loop w w' : world_inv w -> loop_step w = Some w' -> world_inv w'.
Proof.
  intros Hinv. pose proof Hinv as (Hm & Hv & Hl & Hs). unfold loop_step.
  destruct (w_loop w) as [|s| |]; [destruct (w_sigs w)| | |done]; try done.
  - intros [= <-]. by split_and!.
  - destruct (isReloadSignal _ s); intros [= <-]; [|by split_and!].
    destruct (world_inv_proc _ w Hinv (keeps_gate (fst (reload (gate (w_proc w)))) (w_proc w))) as (? & ? & _ & ?); [done |].
    by split_and!.
  - destruct (in_doStop (w_proc w)) as [p|[]] eqn:Hp; intros [= <-].
    + apply in_doStop_cases in Hp as ->. apply world_inv_proc; [done | auto | intros _; apply doStop_main].
    + apply in_doStop_done in Hp. by split_and!.
Qed.

Lemma world_inv_act w w' : world_inv w -> svc_act w = Some w' -> world_inv w'.
Proof.
  intros Hinv. pose proof Hinv as (Hm & Hv & Hl & Hd & Hs). unfold svc_act.
  assert (w_svc w <> SvcSelecting -> w_service w = true) as Hserv by (destruct (w_service w); naive_solver).
  destruct (w_svc w) as [|[|[s|] todo] r|r] eqn:Ev; try done; destruct Hs as (He & Hlen & Hin & Hf); specialize (Hserv ltac:(done)).
  - rewrite app_nil_r in He, Hin. intros [= <-]. by apply world_inv_svc.
  - intros [= <-]. apply world_inv_svc; [done..| |].
    + intros [?|Hx]%elem_of_app; [auto | by apply list_elem_of_singleton in Hx].
    + simpl in *. rewrite <- !app_assoc. split_and!; [done | lia | done | done].
  - destruct (in_doStop (w_proc w)) as [p|[]] eqn:Hp; intros [= <-].
    + apply in_doStop_cases in Hp as ->. apply world_inv_proc; [done | auto | intros _; apply doStop_main].
    + apply in_doStop_done in Hp. apply world_inv_svc; [done..|]. simpl in *. rewrite <- !app_assoc.
      split_and!; [done | lia | done | done].
Qed.

Lemma world_inv_take e w :
  world_inv w -> w_service w = true -> w_svc w = SvcSelecting ->
  (forall text, e = Served (Some text) -> serve_failed (w_proc w) = true) -> world_inv (svc_take e w).
Proof.
  intros Hinv Hw Hsel Hf. pose proof Hinv as (Hm & Hv & Hl & Hd & Hs). rewrite Hsel in Hs. unfold svc_take.
  pose proof (Execute_snoc _ e _ Hs) as He. destruct (svc_turn e) as [acts [r|]] eqn:Ht; cbn [fst snd] in He.
  - destruct (svc_turn_end _ _ _ Ht) as (Hlen & Hin & Hr). apply world_inv_svc; [done..|].
    split_and!; [done | done | rewrite elem_of_app; by right |]. intros Hfst. destruct (Hr Hfst) as [text ->]. by eapply Hf.
  - apply world_inv_svc; [done..| | done]. intros [?|Hin]%elem_of_app; [auto |].
    exfalso. destruct e as [[] s|[]]; cbn [svc_turn] in Ht; try done; injection Ht as <-; [by apply list_elem_of_singleton in Hin | by apply elem_of_nil in Hin].
Qed.

Lemma world_inv_own w w' : world_inv w -> own_step w w' -> world_inv w'.
Proof.
  intros Hinv Hstep. destruct Hstep as [w1 w1' Hl | d w1 p Ht | e w1 p Hs Hm | err w1 Hs Hv Hd | w1 w1' Ha | i w1 g Hg].
  - by eapply world_inv_loop.
  - destruct (keeps_teardown _ _ _ Ht) as [? Hm]. apply world_inv_proc; [done | done | by rewrite Hm].
  - apply world_inv_proc; [done | by eapply keeps_main | congruence].
  - apply world_inv_take; [done..|]. intros text [= ->]. exact Hd.
  - by eapply world_inv_act.
  - apply world_inv_proc; [done | auto | done].
Qed.

Lemma world_inv_step w w' : world_inv w -> world_step w w' -> world_inv w'.
Proof.
  intros Hinv Hstep. destruct Hstep as [w1 w1' Ho | s w1 Hs | c current w1 Hs Hv | w1 | w1 Hd].
  - by eapply world_inv_own.
  - unfold deliver. by destruct (w_sigs w1).
  - by apply world_inv_take.
  - apply world_inv_proc; [done | auto | done].
  - apply world_inv_proc; [done | apply keeps_serve_error | done].
Qed.

Lemma world_inv_reachable w : world_reachable w -> world_inv w.
Proof.
  apply reachable_invariant; [|intros; eapply world_inv_step; eauto].
  intros s (windows & service & ->). split_and!; try done. split; [|done]. intros Hin. exfalso.
  cbn in Hin. rewrite !elem_of_cons, elem_of_nil in Hin. naive_solver.
Qed.


(** ** A stop that was asked for always ends the process *)

(** Something asked the process to stop: a stop signal that the channel took or
    that the goroutine handles, an event of the service, a failed listener, or a
    teardown that has begun. *)
Definition stop_asked (w : World) : Prop :=
  (exists s, isReloadSignal (w_windows w) s = false /\ (w_sigs w = Some s \/ w_loop w = Handling s)) \/
  w_loop w = Stopping \/ w_loop w = Ended \/ w_svc w <> SvcSelecting \/ serve_failed (w_proc w) = true \/
  teardown (w_proc w) <> None.

Lemma stop_asked_proc p w : keeps (w_proc w) p -> stop_asked w -> stop_asked (set_proc p w).
Proof. unfold stop_asked. intros (_ & Kf & Kt). simpl. naive_solver. Qed.

Lemma stop_asked_take e w : w_svc w = SvcSelecting -> stop_asked w -> stop_asked (svc_take e w).
Proof.
  unfold stop_asked, svc_take. intros Hv. rewrite Hv. by destruct (svc_turn e) as [acts [r|]]; simpl; intros; [do 3 right; left |].
Qed.

Lemma stop_asked_loop w w' : loop_step w = Some w' -> stop_asked w -> stop_asked w'.
Proof.
  unfold loop_step. destruct (w_loop w) as [|s| |] eqn:El; [destruct (w_sigs w) as [s|] eqn:Es| | |done]; try done.
  - intros [= <-] Ha. unfold stop_asked in *. rewrite El, Es in Ha. simpl.
    destruct Ha as [(s' & Hs & [[= ->] | [=]]) | [[=] | [[=] | Ha]]]; [left; eauto | tauto].
  - destruct (isReloadSignal _ s) eqn:Er; intros [= <-] Ha; [|by right; left].
    unfold stop_asked in *. rewrite El in Ha. simpl.
    destruct Ha as [(s' & Hs & [? | [= ->]]) | [[=] | [[=] | Ha]]]; [left; eauto | congruence | tauto].
  - destruct (in_doStop (w_proc w)) as [p|[]] eqn:Hp; intros [= <-] Ha; [|by right; right; left].
    apply in_doStop_cases in Hp as ->. by apply stop_asked_proc.
Qed.

Lemma stop_asked_act w w' : svc_act w = Some w' -> stop_asked w -> stop_asked w'.
Proof.
  unfold svc_act. destruct (w_svc w) as [|[|[s|] todo] r|r] eqn:Ev; try done; try (intros [= <-] _; by do 3 right; left).
  destruct (in_doStop (w_proc w)) as [p|[]] eqn:Hp; intros [= <-] Ha; [|by do 3 right; left].
  apply in_doStop_cases in Hp as ->. by apply stop_asked_proc.
Qed.

Lemma stop_asked_step w w' : world_step w w' -> stop_asked w -> stop_asked w'.
Proof.
  intros [w1 w1' Ho | s w1 Hs | c current w1 Hs Hv | w1 | w1 Hd].
  - destruct Ho as [w1 w1' Hl | d w1 p Ht | e w1 p Hs Hm | err w1 Hs Hv Hd | w1 w1' Ha | i w1 g Hg].
    + by apply stop_asked_loop.
    + apply stop_asked_proc. by apply (keeps_teardown _ _ _ Ht).
    + apply stop_asked_proc. by eapply keeps_main.
    + by apply stop_asked_take.
    + by apply stop_asked_act.
    + by apply stop_asked_proc.
  - unfold deliver, stop_asked. destruct (w_sigs w1) eqn:E; [by rewrite E |]. simpl.
    intros [(s' & Hs' & [[=] | Hl]) | Ha]; [left; eauto | by right].
  - by apply stop_asked_take.
  - by apply stop_asked_proc.
  - apply stop_asked_proc, keeps_serve_error.
Qed.

(** [n] own steps lead to a world of a kind. *)
Definition within (n : nat) (w : World) (Q : World -> Prop) : Prop :=
  exists k w', (k <= n)%nat /\ nsteps own_step k w w' /\ Q w'.

Lemma within_now n w (Q : World -> Prop) : Q w -> within n w Q.
Proof. intros HQ. exists 0%nat, w. split; [lia |]. split; [constructor | done]. Qed.

Lemma within_step n w w1 (Q : World -> Prop) : own_step w w1 -> within n w1 Q -> within (S n) w Q.
Proof. intros Hs (k & w' & Hk & Hn & HQ). exists (S k), w'. split; [lia |]. split; [by econstructor | done]. Qed.

Lemma within_trans n m w (Q R : World -> Prop) : within n w Q -> (forall w', Q w' -> within m w' R) -> within (n + m) w R.
Proof.
  intros (k & w1 & Hk & Hn & HQ) HR. destruct (HR w1 HQ) as (k' & w2 & Hk' & Hn' & HR').
  exists (k + k')%nat, w2. split; [lia |]. split; [by eapply nsteps_trans | done].
Qed.

Lemma within_more n m w (Q : World -> Prop) : (n <= m)%nat -> within n w Q -> within m w Q.
Proof. intros Hnm (k & w' & Hk & Hn & HQ). exists k, w'. split; [lia | done]. Qed.

Lemma own_reachable w w' : world_reachable w -> own_step w w' -> world_reachable w'.
Proof. intros Hw Hs. eapply reachable_step; [exact Hw | by apply world_own]. Qed.

(** The teardown has begun, or has ended, in a reachable world. *)
Definition begun (w : World) : Prop := world_reachable w /\ teardown (w_proc w) <> None.
Definition finished (w : World) : Prop := world_reachable w /\ teardown (w_proc w) = Some [].
Definition exited (w : World) : Prop := exit_of w <> None.

Lemma doStop_begun p : teardown (doStop p) <> None.
Proof. unfold doStop. by destruct (teardown p) eqn:E; rewrite ?E. Qed.

(** Once begun, the teardown ends. *)
Lemma finish_teardown w : begun w -> within 9 w finished.
Proof.
  intros [Hw Ht]. destruct (process_inv_reachable _ (world_process w Hw)) as (_ & (k & Hk & _) & _).
  unfold stage in Hk. destruct (teardown (w_proc w)) as [rest|] eqn:E; [|done]. destruct Hk as [Hle Hdrop].
  assert (length rest <= 9)%nat as Hlen by (rewrite Hdrop, length_drop; simpl; lia). clear k Hle Hdrop Ht.
  apply (within_more (length rest)); [done |]. clear Hlen. revert w Hw E.
  induction rest as [|a rest IH]; intros w Hw E; [by apply within_now |].
  destruct (do_action true a (w_proc w)) as [p|] eqn:Ha; [|by destruct a].
  assert (own_step w (set_proc (set_teardown (Some rest) p) w)) as Hs.
  { apply (own_teardown true). unfold teardown_step. by rewrite E, Ha. }
  eapply within_step; [exact Hs |]. apply IH; [by eapply own_reachable | done].
Qed.

(** An event of the service runs to its end when the teardown has ended. *)
Lemma finish_acting w todo r : finished w -> w_svc w = SvcActing todo r -> w_service w = true -> within (S (length todo)) w exited.
Proof.
  revert w. induction todo as [|a todo IH]; intros w [Hw Ht] Hv Hs.
  - eapply within_step; [apply own_act; unfold svc_act; by rewrite Hv |]. apply within_now.
    unfold exited, exit_of. simpl. by rewrite Hs.
  - assert (own_step w (set_svc (SvcActing todo r) (w_taken w) (w_done w ++ [a]) w)) as Hstep.
    { apply own_act. unfold svc_act, in_doStop. rewrite Hv, Ht. by destruct a. }
    cbn [length]. eapply within_step; [exact Hstep |]. apply IH; [|done..]. split; [by eapply own_reachable | done].
Qed.

(** The process ends when its teardown has ended. *)
Lemma finish_exit w : finished w -> within 5 w exited.
Proof.
  intros [Hw Ht]. destruct (world_inv_reachable w Hw) as (Hm & Hv & _ & _ & Hsv).
  destruct (process_inv_reachable _ (world_process w Hw)) as (_ & _ & Hpc).
  destruct (w_service w) eqn:Es.
  - destruct (w_svc w) as [|todo r|r] eqn:Ev; [| |by apply within_now; unfold exited, exit_of; rewrite Es, Ev].
    + set (err := if serve_failed (w_proc w) then Some "" else None).
      assert (own_step w (svc_take (Served err) w)) as Hstep.
      { apply own_served; [done..|]. destruct (teardown_done _ (world_process w Hw) Ht) as (Hd & _).
        unfold served, err. by destruct (serve_failed (w_proc w)). }
      eapply within_step; [exact Hstep |].
      assert (exists r, svc_turn (Served err) = ([Report (mkStatus StopPending false stopWaitHint); Teardown], Some r)) as [r Hr]
        by (unfold svc_turn; by destruct err; eexists).
      apply (within_more 3); [lia |]. unfold svc_take. rewrite Hr.
      apply (finish_acting _ [Report (mkStatus StopPending false stopWaitHint); Teardown] r); [|done..].
      split; [|done]. pose proof (own_reachable _ _ Hw Hstep) as Hw'. unfold svc_take in Hw'. by rewrite Hr in Hw'.
    + destruct Hsv as (_ & Hlen & _). apply (within_more (S (length todo))); [lia |]. by eapply finish_acting.
  - destruct (main_at (w_proc w)) as [| |c] eqn:Em; [| |by apply within_now; unfold exited, exit_of; rewrite Es, Em];
      (eapply within_step; [apply (own_main false); [done |]; unfold main_step; by rewrite Em, Ht |]);
      apply within_now; unfold exited, exit_of; simpl; by rewrite Es.
Qed.

(** From a stop that was asked for to the begin of the teardown. *)
Definition stops (w : World) : Prop := begun w \/ exited w.

Lemma stopping_begins w : world_reachable w -> w_loop w = Stopping -> within 1 w stops.
Proof.
  intros Hw Hl. destruct (in_doStop (w_proc w)) as [p|[]] eqn:Hp.
  - pose proof (in_doStop_cases _ _ Hp) as ->.
    assert (own_step w (set_proc (doStop (w_proc w)) w)) as H1 by (apply own_loop; unfold loop_step; by rewrite Hl, Hp).
    eapply within_step; [exact H1 |]. apply within_now. left. split; [by eapply own_reachable | apply doStop_begun].
  - apply within_now. left. split; [done | by rewrite (in_doStop_done _ Hp)].
Qed.

Lemma ended_begins n w : world_reachable w -> w_loop w = Ended -> within n w stops.
Proof.
  intros Hw Hl. destruct (world_inv_reachable w Hw) as (_ & _ & Hend & _). apply within_now. left. split; [done | by rewrite Hend].
Qed.

Lemma handling_begins w s :
  world_reachable w -> isReloadSignal (w_windows w) s = false -> w_loop w = Handling s -> within 2 w stops.
Proof.
  intros Hw Hr Hl.
  assert (own_step w (set_loop Stopping w)) as H1 by (apply own_loop; unfold loop_step; by rewrite Hl, Hr).
  eapply within_step; [exact H1 |]. by apply stopping_begins; [eapply own_reachable |].
Qed.

(** The goroutine is at the receive, and a stop signal is in the channel. *)
Lemma receiving_begins w s :
  world_reachable w -> isReloadSignal (w_windows w) s = false -> w_loop w = Receiving -> w_sigs w = Some s -> within 3 w stops.
Proof.
  intros Hw Hr Hl Hs.
  assert (own_step w (set_loop (Handling s) (set_sigs None w))) as H1 by (apply own_loop; unfold loop_step; by rewrite Hl, Hs).
  eapply within_step; [exact H1 |]. by apply (handling_begins _ s); [eapply own_reachable | |].
Qed.

Lemma buffered_begins w s :
  world_reachable w -> isReloadSignal (w_windows w) s = false -> w_sigs w = Some s -> within 4 w stops.
Proof.
  intros Hw Hr Hs. destruct (w_loop w) as [|s'| |] eqn:El.
  - apply (within_more 3); [lia | by eapply receiving_begins].
  - destruct (isReloadSignal (w_windows w) s') eqn:Er'; [|apply (within_more 2); [lia | by eapply handling_begins]].
    assert (own_step w (set_loop Receiving (set_proc (set_gate (fst (reload (gate (w_proc w)))) (w_proc w)) w))) as H1
      by (apply own_loop; unfold loop_step; by rewrite El, Er').
    eapply within_step; [exact H1 |]. by apply (receiving_begins _ s); [eapply own_reachable | | |].
  - apply (within_more 1); [lia | by apply stopping_begins].
  - by apply ended_begins.
Qed.

Lemma act_begins w todo r :
  world_reachable w -> w_svc w = SvcActing todo r -> Teardown ∈ todo -> within (length todo) w stops.
Proof.
  revert w. induction todo as [|a todo IH]; intros w Hw Hv Hin; [by apply elem_of_nil in Hin |].
  destruct (teardown (w_proc w)) eqn:Et; [apply within_now; left; split; [done | by rewrite Et] |].
  cbn [length]. destruct a as [s|].
  - assert (own_step w (set_svc (SvcActing todo r) (w_taken w) (w_done w ++ [Report s]) w)) as H1
      by (apply own_act; unfold svc_act; by rewrite Hv).
    eapply within_step; [exact H1 |]. apply IH; [by eapply own_reachable | done |].
    apply elem_of_cons in Hin as [?|?]; done.
  - assert (own_step w (set_proc (doStop (w_proc w)) w)) as H1.
    { apply own_act. unfold svc_act, in_doStop. by rewrite Hv, Et. }
    eapply within_step; [exact H1 |]. apply within_now. left. split; [by eapply own_reachable | apply doStop_begun].
Qed.

(** A service whose loop has left its [select]. *)
Lemma svc_begins w : world_reachable w -> w_svc w <> SvcSelecting -> within 3 w stops.
Proof.
  intros Hw Hv. destruct (world_inv_reachable w Hw) as (_ & Hserv & _ & Hd & Hs).
  assert (w_service w = true) as Es by (destruct (w_service w); naive_solver).
  destruct (w_svc w) as [|todo r|r] eqn:Ev; [done | |].
  - destruct Hs as (_ & Hlen & [Hin|Hin]%elem_of_app & _).
    + apply within_now. left. split; [done | by rewrite Hd].
    + apply (within_more (length todo)); [done |]. by eapply act_begins.
  - apply within_now. right. unfold exited, exit_of. by rewrite Es, Ev.
Qed.

(** A DNS listener that failed. *)
Lemma failure_begins w : world_reachable w -> serve_failed (w_proc w) = true -> within 4 w stops.
Proof.
  intros Hw Hf. destruct (w_service w) eqn:Es.
  - assert (w_svc w = SvcSelecting \/ w_svc w <> SvcSelecting) as [Hv|Hv] by (destruct (w_svc w); auto).
    + assert (own_step w (svc_take (Served (Some "")) w)) as H1 by by apply own_served.
      eapply within_step; [exact H1 |]. by apply svc_begins; [eapply own_reachable |].
    + apply (within_more 3); [lia | by apply svc_begins].
  - destruct (process_inv_reachable _ (world_process w Hw)) as (_ & _ & Hm).
    destruct (main_at (w_proc w)) as [| |c] eqn:Em.
    + assert (own_step w (set_proc (set_main AfterError (doStop (w_proc w))) w)) as H1.
      { apply (own_main true); [done |]. unfold main_step. by rewrite Em, Hf. }
      eapply within_step; [exact H1 |]. apply within_now. left. split; [by eapply own_reachable | apply doStop_begun].
    + destruct Hm as [Hm _]. apply within_now. left. by split.
    + apply within_now. right. unfold exited, exit_of. by rewrite Es, Em.
Qed.

Lemma asked_begins w : world_reachable w -> stop_asked w -> within 4 w stops.
Proof.
  intros Hw [(s & Hr & [Hs | Hl]) | [Hl | [Hl | [Hv | [Hf | Ht]]]]].
  - by eapply buffered_begins.
  - apply (within_more 2); [lia | by eapply handling_begins].
  - apply (within_more 1); [lia | by apply stopping_begins].
  - by apply ended_begins.
  - apply (within_more 3); [lia | by apply svc_begins].
  - by apply failure_begins.
  - apply within_now. left. by split.
Qed.

(** C40. A stop that was asked for always ends the process, in interactive mode and as
    a service. Once a stop signal is in the channel or taken, the service has
    left its [select], a DNS listener has failed, or the teardown has begun,
    then whatever steps come after, at most 18 steps of the goroutines of the
    process end it, without another signal or request: the teardown waits for a
    running reload at most until its deadline. *)
Theorem stop_always_ends w w' :
  world_reachable w -> stop_asked w -> rtc world_step w w' ->
  exists n w'', (n <= 18)%nat /\ nsteps own_step n w' w'' /\ exit_of w'' <> None.
Proof.
  intros Hw Ha Hrun.
  assert (world_reachable w' /\ stop_asked w') as [Hw' Ha'].
  { clear - Hw Ha Hrun. induction Hrun as [|w1 w2 w3 Hs _ IH]; [done |].
    apply IH; [by eapply reachable_step | by eapply stop_asked_step]. }
  apply (within_trans 4 14 w' stops exited); [by apply asked_begins |].
  intros w1 [Hb|He]; [|by apply within_now].
  apply (within_trans 9 5 w1 finished exited); [by apply finish_teardown | apply finish_exit].
Qed.

(** ** Examples *)

Module MainLoopExamples.

Lemma term_notified windows : SIGTERM ∈ notified windows.
Proof. unfold notified. rewrite elem_of_app, !elem_of_cons. tauto. Qed.

Definition start0 : World := world_start false false.

Lemma start0_reachable : world_reachable start0.
Proof. apply reachable_init. by exists false, false. Qed.

(** Interactive mode, a SIGTERM. *)
Lemma stop_always_ends_witness :
  world_reachable (deliver SIGTERM start0) /\ stop_asked (deliver SIGTERM start0) /\
  exists n w, (n <= 18)%nat /\ nsteps own_step n (deliver SIGTERM start0) w /\ exit_of w <> None.
Proof.
  assert (world_reachable (deliver SIGTERM start0)) as Hw.
  { eapply reachable_step; [exact start0_reachable |]. apply world_signal, term_notified. }
  assert (stop_asked (deliver SIGTERM start0)) as Ha by (left; exists SIGTERM; split; [reflexivity | by left]).
  split; [exact Hw |]. split; [exact Ha |]. exact (stop_always_ends _ _ Hw Ha (rtc_refl _ _)).
Defined.

(** A run of the goroutines of an interactive process. *)
Definition run_loop (w : World) : World := default w (loop_step w).
Definition run_teardown (w : World) : World := match teardown_step true (w_proc w) with Some p => set_proc p w | None => w end.
Definition run_main (w : World) : World := match main_step false (w_proc w) with Some p => set_proc p w | None => w end.

Definition ended : World :=
  run_main (Nat.iter 9 run_teardown (Nat.iter 3 run_loop (deliver SIGTERM start0))).

Lemma run_loop_reachable w : world_reachable w -> world_reachable (run_loop w).
Proof.
  intros Hw. unfold run_loop. destruct (loop_step w) eqn:E; [|done]. eapply own_reachable; [exact Hw | by apply own_loop].
Qed.

Lemma run_teardown_reachable w : world_reachable w -> world_reachable (run_teardown w).
Proof.
  intros Hw. unfold run_teardown. destruct (teardown_step true (w_proc w)) eqn:E; [|done].
  eapply own_reachable; [exact Hw | by eapply own_teardown].
Qed.

Lemma run_main_reachable w : w_service w = false -> world_reachable w -> world_reachable (run_main w).
Proof.
  intros Hs Hw. unfold run_main. destruct (main_step false (w_proc w)) eqn:E; [|done].
  eapply own_reachable; [exact Hw | by eapply own_main].
Qed.

Lemma iter_reachable (f : World -> World) n w :
  (forall w, world_reachable w -> world_reachable (f w)) -> world_reachable w -> world_reachable (Nat.iter n f w).
Proof. intros Hf Hw. induction n as [|n IH]; [done |]. apply Hf, IH. Qed.

Lemma ended_reachable : world_reachable ended.
Proof.
  apply run_main_reachable; [reflexivity |]. apply iter_reachable; [apply run_teardown_reachable |].
  apply iter_reachable; [apply run_loop_reachable |]. eapply reachable_step; [exact start0_reachable |].
  apply world_signal, term_notified.
Qed.


(** While the goroutine handles a SIGHUP, a second SIGHUP fills the channel, and
    a SIGTERM is then lost: the state is the same as without it, and nothing has
    asked the process to stop. *)
Definition busy : World := deliver SIGHUP (run_loop (deliver SIGHUP start0)).

Example stop_signal_lost : w_loop busy = Handling SIGHUP /\ deliver SIGTERM busy = busy /\ ~ stop_asked busy.
Proof.
  split; [reflexivity |]. split; [reflexivity |]. unfold stop_asked. vm_compute.
  intros [(s & Hs & [[= <-] | [= <-]]) | [? | [? | [? | [? | ?]]]]]; done.
Qed.

(** As a service, a stop request is reported, then the teardown, then Stopped. *)
Example service_stops :
  let w := svc_take (Change Stop (mkStatus Running true 0)) (world_start true true) in
  w_svc w = SvcActing [Report (mkStatus StopPending false stopWaitHint); Teardown; Report (mkStatus Stopped false 0)]
              (false, 0%Z).
Proof. reflexivity. Qed.
End MainLoopExamples.
