(* ===== verification/Host.v ===== *)
(** * The host around s-hole (cmd/s-hole/resolvcheck.go, main.go)

    The check that the host does not use s-hole as its own resolver, the search
    domains of the host, and the network hint that main prints at the start. The
    resolver files and the interfaces are arguments; a file that cannot be opened
    is [None]. *)

From stdpp Require Import base numbers list gmap strings.
From Stdlib Require Import Ascii ZArith Lia.
From S2P Require Import Prelude GoStrings GoConv GoNet Loader Purge.

Open Scope string_scope.

(** ** The resolvers of the host *)

(** systemd-resolved's stub listeners and Docker's DNS server: 127.0.0.53,
    127.0.0.54 and 127.0.0.11. *)
Definition notShole : list Addr := [Addr4 2130706485; Addr4 2130706486; Addr4 2130706443].

(** The lines that a [bufio.Scanner] gives of the files that open. *)
Definition resolv_lines (files : list (option string)) : list string :=
  flat_map (fun f => match f with
                     | Some data => fst (scan_lines (split_byte newline data))
                     | None => []
                     end) files.

Definition nameserver_of (line : string) : option Addr :=
  match fields line with
  | key :: addr :: _ => if (key =? "nameserver")%string then WithoutZone <$> ParseAddr addr else None
  | _ => None
  end.

Definition nameservers (files : list (option string)) : list Addr := omap nameserver_of (resolv_lines files).

(** [dns.IsDomainName] of the DNS library. *)
Class DomainName := IsDomainName : string -> bool.

Section search.
Context `{HUL : UnicodeLower} `{HDN : DomainName}.

Definition search_names (line : string) : list string :=
  match fields line with
  | key :: names =>
      if (key =? "search")%string || (key =? "domain")%string
      then map (fun d => trim_suffix (to_lower d) ".") names else []
  | [] => []
  end.

Definition search_step (out : list string) (d : string) : list string :=
  if negb (IsDomainName d) || (d =? "")%string || existsb (String.eqb d) out then out else (out ++ [d])%list.

Definition searchDomains (files : list (option string)) : list string :=
  fold_left search_step (flat_map search_names (resolv_lines files)) [].

(** The domains that [logSearchDomains] logs. *)
Definition logSearchDomains (domains : list string) (keepsLocal : string -> bool) : list string :=
  List.filter (fun d => negb (keepsLocal d)) domains.
End search.

(** What the host can reach s-hole at: [None] when no resolver can, otherwise
    the bound address, [None] of it for every address. *)
Definition bound_address (dnsListen : string) : option (option Addr) :=
  match SplitHostPort dnsListen with
  | None => None
  | Some (host, port) =>
      if negb (port =? "53")%string then None
      else if (host =? "")%string then Some None
      else match ParseAddr host with
           | None => None
           | Some a => Some (if IsUnspecified (Unmap a) then None else Some (Unmap a))
           end
  end.

Definition uses_shole (own : list Addr) (bound : option Addr) (s : Addr) : bool :=
  negb (bool_decide (s ∈ notShole)) && (IsLoopback s || bool_decide (s ∈ own)) &&
  match bound with None => true | Some b => bool_decide (s = b) end.

Definition hostUsesShole (servers own : list Addr) (dnsListen : string) : option Addr :=
  match bound_address dnsListen with
  | None => None
  | Some bound => List.find (uses_shole own bound) (map Unmap servers)
  end.

(** [ownAddrs]: the addresses of the interfaces, unmapped; an error gives
    none, and an address that is not a network is left out. *)
Definition ownAddrs (addrs : option (list (option Addr))) : list Addr :=
  match addrs with Some l => omap (fun a => Unmap <$> a) l | None => [] end.

Inductive check_log := WarnUses (server : Addr) | InfoStopped.

(** One check of [runResolverCheck]: [warned] before and after, and what it
    logs. *)
Definition check (warned : bool) (found : option Addr) : bool * list check_log :=
  match found with
  | Some s => (true, if warned then [] else [WarnUses s])
  | None => (false, if warned then [InfoStopped] else [])
  end.

Fixpoint runResolverCheck (warned : bool) (checks : list (option Addr)) : list check_log :=
  match checks with
  | [] => []
  | found :: rest => let '(warned, l) := check warned found in (l ++ runResolverCheck warned rest)%list
  end.

(** ** The network hint *)

Record ifaceAddrs := mkIface {
  if_name : string;
  if_up : bool;
  if_loopback : bool;
  if_addrs : list (option Addr);   (* [None]: not a network *)
}.

Definition virtualIfacePrefixes : list string :=
  ["docker"; "br-"; "veth"; "virbr"; "vboxnet"; "vmnet"; "lxcbr"; "lxdbr";
   "incusbr"; "podman"; "cni"; "flannel"; "cali"; "vxlan"; "tailscale"; "wg";
   "zt"; "tun"; "tap"].

(** [net.IP.To4]. *)
Definition To4 (a : Addr) : option Addr :=
  match Unmap a with Addr4 n => Some (Addr4 n) | _ => None end.

Section hint.
Context `{HUL : UnicodeLower}.

Definition isVirtualIface (name : string) : bool :=
  existsb (fun p => has_prefix p (to_lower name)) virtualIfacePrefixes.

Definition lan_ipv4 (a : option Addr) : option string :=
  match a ≫= To4 with
  | Some ip => if IsLoopback ip || IsLinkLocalUnicast ip then None else Some (addr_String ip)
  | None => None
  end.

Definition lanIPv4s (ifaces : list ifaceAddrs) : list string :=
  flat_map (fun ifc => if negb (if_up ifc) || if_loopback ifc || isVirtualIface (if_name ifc) then []
                       else omap lan_ipv4 (if_addrs ifc)) ifaces.

Definition isLoopbackHost (host : string) : bool :=
  if (host =? "localhost")%string then true
  else match ParseIP host with Some ip => IsLoopback (Unmap ip) | None => false end.

Definition useASCIIBanner (logFormat asciiBanner : string) : bool :=
  if (logFormat =? "json")%string then true
  else negb (asciiBanner =? "")%string && negb (asciiBanner =? "0")%string && negb (asciiBanner =? "false")%string.

(** The hosts that the hint names for DNS and for the dashboard, with the note
    behind each. *)
Definition dns_hosts (lanIPs : list string) (dnsHost : string) : list string * string :=
  if isLoopbackHost dnsHost then ([dnsHost], " (this machine only)")
  else match ParseIP dnsHost with
       | Some ip => if IsUnspecified (Unmap ip) then (lanIPs, "") else ([dnsHost], "")
       | None => (lanIPs, "")
       end.

Definition admin_hosts (lanIPs : list string) (apiHost : string) : list string * string :=
  if isLoopbackHost apiHost then (["127.0.0.1"], " (this machine only)") else (lanIPs, "").

Definition printNetworkHint (lanIPs : list string) (ascii_ : bool) (dnsHost dnsPort dotPort apiHost apiPort : string)
    (apiUp : bool) : list string :=
  match lanIPs with
  | [] => []
  | _ =>
      let '(dnsHosts, dnsNote) := dns_hosts lanIPs dnsHost in
      let '(adminHosts, adminNote) := admin_hosts lanIPs apiHost in
      if ascii_ then
        (["[main] +-- Router setup ---------------------------------------"]
         ++ map (fun h => "[main] |   DNS server -> " +:+ JoinHostPort h dnsPort +:+ dnsNote) dnsHosts
         ++ (if (dotPort =? "")%string then []
             else ["[main] |   DoT        -> port " +:+ dotPort +:+ " (clients connect by the certificate's hostname)"])
         ++ (if apiUp
             then map (fun h => "[main] |   Admin UI   -> http://" +:+ h +:+ ":" +:+ apiPort +:+ adminNote) adminHosts
             else ["[main] |   Admin UI   -> unavailable (admin.listen bind failed)"])
         ++ ["[main] +------------------------------------------------------"])%list
      else
        (["[main] ┌─ Router setup ───────────────────────────────────────"]
         ++ map (fun h => "[main] │  DNS server → " +:+ JoinHostPort h dnsPort +:+ dnsNote) dnsHosts
         ++ (if (dotPort =? "")%string then []
             else ["[main] │  DoT        → port " +:+ dotPort +:+ " (clients connect by the certificate's hostname)"])
         ++ (if apiUp
             then map (fun h => "[main] │  Admin UI   → http://" +:+ h +:+ ":" +:+ apiPort +:+ adminNote) adminHosts
             else ["[main] │  Admin UI   → unavailable (admin.listen bind failed)"])
         ++ ["[main] └──────────────────────────────────────────────────────"])%list
  end.
End hint.

(** ** What the check finds *)

(** A resolver that is s-hole: it is not one of the known local resolvers, it is
    this host, and s-hole answers there on port 53. *)
Definition reaches (own : list Addr) (dnsListen : string) (s : Addr) : Prop :=
  s ∉ notShole /\ (IsLoopback s = true \/ s ∈ own) /\
  exists host, SplitHostPort dnsListen = Some (host, "53") /\
    (host = "" \/ exists a, ParseAddr host = Some a /\ (IsUnspecified (Unmap a) = true \/ s = Unmap a)).

(** s-hole answers at [s] on port 53. *)
Definition answers_at (dnsListen : string) (s : Addr) : Prop :=
  exists host, SplitHostPort dnsListen = Some (host, "53") /\
    (host = "" \/ exists a, ParseAddr host = Some a /\ (IsUnspecified (Unmap a) = true \/ s = Unmap a)).

Lemma bound_address_spec dnsListen s :
  match bound_address dnsListen with
  | Some bound => (match bound with None => True | Some b => s = b end) <-> answers_at dnsListen s
  | None => ~ answers_at dnsListen s
  end.
Proof.
  unfold bound_address, answers_at. destruct (SplitHostPort dnsListen) as [[host port] |]; [| by intros (? & ? & _)].
  destruct (String.eqb_spec port "53") as [-> | Hp]; cbn [negb]; [| intros (? & [= _ ->] & _); done].
  destruct (String.eqb_spec host "") as [-> | Hh]; [split; [intros _; exists ""; auto | done] |].
  destruct (ParseAddr host) as [a |] eqn:Ea.
  - destruct (IsUnspecified (Unmap a)) eqn:Eu.
    + split; [intros _; exists host; split; [done |]; right; exists a; auto | done].
    + split.
      * intros ->. exists host. split; [done |]. right. exists a. auto.
      * intros (h & [= <-] & [? | (a' & E & [Eu' | ?])]); simplify_eq; congruence.
  - intros (h & [= <-] & [? | (a' & E & _)]); congruence.
Qed.

Lemma uses_shole_reaches own dnsListen s :
  match bound_address dnsListen with
  | Some bound => uses_shole own bound s = true <-> reaches own dnsListen s
  | None => ~ reaches own dnsListen s
  end.
Proof.
  pose proof (bound_address_spec dnsListen s) as Hb. unfold reaches. fold (answers_at dnsListen s).
  destruct (bound_address dnsListen) as [bound |]; [| tauto].
  unfold uses_shole. rewrite !andb_true_iff, orb_true_iff, negb_true_iff, bool_decide_eq_false, bool_decide_eq_true, <- Hb.
  destruct bound as [b |]; [rewrite bool_decide_eq_true; tauto | tauto].
Qed.

(** Warnings and their ends take turns; [next] says what comes next. *)
Fixpoint take_turns (next : bool) (l : list check_log) : Prop :=
  match l with
  | [] => True
  | WarnUses _ :: l => (next = true) /\ take_turns false l
  | InfoStopped :: l => (next = false) /\ take_turns true l
  end.

(** Whether the host is warned about after the log, from [warned] on. *)
Definition warned_after (warned : bool) (l : list check_log) : bool :=
  fold_left (fun _ e => match e with WarnUses _ => true | InfoStopped => false end) l warned.

Lemma runResolverCheck_turns warned checks :
  take_turns (negb warned) (runResolverCheck warned checks) /\
  warned_after warned (runResolverCheck warned checks) =
    match last checks with Some (Some _) => true | Some None => false | None => warned end.
Proof.
  revert warned. induction checks as [| c cs IH]; intros warned; [done |].
  cbn [runResolverCheck]. destruct (check warned c) as [warned' l] eqn:E.
  destruct (IH warned') as [IH1 IH2].
  assert (Hw : warned_after warned l = warned' /\
    take_turns (negb warned) (l ++ runResolverCheck warned' cs) /\
    warned' = match c with Some _ => true | None => false end).
  { destruct c, warned; injection E as <- <-; simpl; done. }
  destruct Hw as (Hl & Ht & Hc). split; [done |].
  unfold warned_after in *. rewrite fold_left_app, Hl, IH2. destruct cs as [| c2 cs]; [by rewrite Hc; destruct c |].
  rewrite last_cons_cons. destruct (last (c2 :: cs)) as [[] |] eqn:El; [done | done |]. by apply last_None in El.
Qed.

(** The host check is exact: the resolver it names is one of the host's, and is
    this s-hole; when it names none, no resolver of the host is. Over any
    sequence of checks, the log tells a change once: warnings and their ends
    take turns, starting with a warning, and the last one says what the last
    check found. *)
Theorem resolver_check_exact servers own dnsListen checks :
  match hostUsesShole servers own dnsListen with
  | Some s => (exists s0, s0 ∈ servers /\ s = Unmap s0) /\ reaches own dnsListen s
  | None => forall s0, s0 ∈ servers -> ~ reaches own dnsListen (Unmap s0)
  end /\
  take_turns true (runResolverCheck false checks) /\
  warned_after false (runResolverCheck false checks) = match last checks with Some (Some _) => true | _ => false end.
Proof.
  split; [| pose proof (runResolverCheck_turns false checks) as [H1 H2]; split; [exact H1 | rewrite H2; by destruct (last checks) as [[] |]]].
  unfold hostUsesShole. pose proof (uses_shole_reaches own dnsListen) as Hr.
  destruct (bound_address dnsListen) as [bound |]; [| by intros; apply Hr].
  destruct (List.find _ _) as [s |] eqn:E.
  - apply List.find_some in E as [Hin Hu]. split; [| by apply Hr].
    apply list_elem_of_In, list_elem_of_fmap in Hin as (s0 & -> & Hin). eauto.
  - intros s0 Hs0 Hreach. apply Hr in Hreach. apply (List.find_none _ _) with (x := Unmap s0) in E; [congruence |].
    apply list_elem_of_In, list_elem_of_fmap. eauto.
Qed.

(** ** The addresses of the hint *)

Section addresses.
Context `{HUL : UnicodeLower}.

(** An address is offered to the router exactly when an interface that is up,
    neither a loopback nor a virtual one, has it, and it is an IPv4 address that
    other devices can reach. *)
Lemma lanIPv4s_spec ifaces x :
  x ∈ lanIPv4s ifaces <->
  exists ifc a ip, ifc ∈ ifaces /\ if_up ifc = true /\ if_loopback ifc = false /\ isVirtualIface (if_name ifc) = false /\
    Some a ∈ if_addrs ifc /\ To4 a = Some ip /\ IsLoopback ip = false /\ IsLinkLocalUnicast ip = false /\
    x = addr_String ip.
Proof.
  unfold lanIPv4s. rewrite list_elem_of_In, in_flat_map. split.
  - intros (ifc & Hin & Hx). apply list_elem_of_In in Hin, Hx.
    destruct (negb (if_up ifc) || if_loopback ifc || isVirtualIface (if_name ifc)) eqn:E; [by apply elem_of_nil in Hx |].
    apply orb_false_iff in E as [E Hv]. apply orb_false_iff in E as [Hu Hl]. apply negb_false_iff in Hu.
    apply list_elem_of_omap in Hx as (oa & Ha & Hx). unfold lan_ipv4 in Hx.
    destruct oa as [a |]; [| done]. cbn in Hx. destruct (To4 a) as [ip |] eqn:Et; [| done].
    destruct (IsLoopback ip || IsLinkLocalUnicast ip) eqn:El; [done |]. injection Hx as <-.
    apply orb_false_iff in El as [? ?]. exists ifc, a, ip. done.
  - intros (ifc & a & ip & Hin & Hu & Hl & Hv & Ha & Et & H1 & H2 & ->). exists ifc.
    split; [by apply list_elem_of_In |]. rewrite Hu, Hl, Hv. cbn. apply list_elem_of_In, list_elem_of_omap.
    exists (Some a). split; [done |]. unfold lan_ipv4. cbn. by rewrite Et, H1, H2.
Qed.
End addresses.

(** ** Examples *)

Module HostExamples.
#[local] Instance ascii_only : UnicodeLower := fun s => s.

Definition lan : list ifaceAddrs :=
  [mkIface "lo" true true [Some (Addr4 2130706433)];
   mkIface "eth0" true false [Some (Addr4 3232235778); Some (Addr6 (Z.shiftl 65152 112 + 1) "")];
   mkIface "wlan0" true false [Some (Addr4 3232236034)];
   mkIface "docker0" true false [Some (Addr4 2886795265)]].

Example router_addresses : lanIPv4s lan = ["192.168.1.2"; "192.168.2.2"].
Proof. vm_compute. reflexivity. Qed.

(** DNS bound to one address is named with that address only; the dashboard
    bound to one address is named with every address of the machine, and one
    bound to ::1 with 127.0.0.1. *)
Example dashboard_lines :
  dns_hosts (lanIPv4s lan) "192.168.1.2" = (["192.168.1.2"], "") /\
  admin_hosts (lanIPv4s lan) "192.168.1.2" = (["192.168.1.2"; "192.168.2.2"], "") /\
  admin_hosts (lanIPv4s lan) "::1" = (["127.0.0.1"], " (this machine only)").
Proof. vm_compute. done. Qed.

Example resolvers :
  let files := [Some ("# resolv.conf" +:+ String newline ("nameserver 127.0.0.53" +:+ String newline "nameserver fe80::1%eth0")); None] in
  nameservers files = [Addr4 2130706485; Addr6 (Z.shiftl 65152 112 + 1) ""] /\
  hostUsesShole (nameservers files) [] ":53" = None /\
  hostUsesShole [Addr4 2130706433] [] "0.0.0.0:53" = Some (Addr4 2130706433) /\
  hostUsesShole [Addr4 2130706433] [] "192.168.1.2:53" = None.
Proof. vm_compute. done. Qed.
End HostExamples.
