(* ===== verification/Startup.v ===== *)
(** * The start of the program (cmd/s-hole/main.go)

    [main] as a program of steps that leave a trace and can exit: the command
    line, the order in which the parts are opened, which failures are fatal, and
    how the parts are wired together. [Running] is what a successful start
    leaves; [sys_step] lets it serve queries, write its logs and replace its
    lists, for the theorems about the whole; [reload_pass] is one reload of the
    certificate and the lists. What main's calls meet in the
    outside world is the record [StartEnv]. *)

From stdpp Require Import base numbers list gmap sets strings.
From Stdlib Require Import Ascii ZArith Lia.
From S2P Require Import Service.
From S2P Require Import Config.
From S2P Require Import Prelude GoStrings GoConv GoUrl GoNet Redact Blocklist Loader Dns Cache Timeline Stats Lan.
From S2P Require Import LocalNames Edns Upstream Failures QueryLog QueryReads StaleRows Dot Lifecycle ClientNames.
From S2P Require Import AdminSecurity ApiFormat Metrics Api ZeroFile Purge Report Handler.

Open Scope string_scope.

(** ** The command line *)

Record Flags := mkFlags {
  fg_config : string;
  fg_version : bool;
  fg_healthcheck : bool;
  fg_service : string;
  fg_checkConfig : bool;
  fg_purge : bool;
}.

Inductive command :=
  | CmdVersion | CmdHealthcheck | CmdService (action : string) | CmdBadService | CmdCheckConfig | CmdPurge | CmdRun.

(** The order in which main looks at its flags. *)
Definition command_of (f : Flags) : command :=
  if fg_version f then CmdVersion
  else if fg_healthcheck f then CmdHealthcheck
  else if existsb (String.eqb (fg_service f)) ["install"; "uninstall"; "start"; "stop"] then CmdService (fg_service f)
  else if negb (fg_service f =? "")%string then CmdBadService
  else if fg_checkConfig f then CmdCheckConfig
  else if fg_purge f then CmdPurge
  else CmdRun.

(** ** Steps *)

(** What a step does outside the process. *)
Inductive event :=
  | EvPrintVersion
  | EvService (action : string)
  | EvPurge (path : string)
  | EvChdir (dir : string)
  | EvUmask
  | EvProblem (p : Problem)
  | EvWarning (w : Warning)
  | EvLog (msg : string)
  | EvBindDNS
  | EvBindDoT
  | EvDownload
  | EvOpenFile
  | EvOpenDB
  | EvBindAdmin
  | EvBanner (apiUp : bool)
  | EvServe.

(** A step leaves events and exits with a code or goes on with a value. *)
Definition Main (A : Type) : Type := list event * (Z + A).

Definition ret_ {A} (x : A) : Main A := ([], inr x).
Definition exit_ {A} (code : Z) : Main A := ([], inl code).
Definition emit_ (l : list event) : Main unit := (l, inr tt).

Definition bind_ {A B} (m : Main A) (k : A -> Main B) : Main B :=
  match snd m with
  | inl code => (fst m, inl code)
  | inr x => let '(l, r) := k x in ((fst m ++ l)%list, r)
  end.

Declare Scope main_scope.
Notation "'do' x <- m ; k" := (bind_ m (fun x => k)) (at level 10, x pattern, m at level 100, k at level 200) : main_scope.
Notation "'log' l ; k" := (bind_ (emit_ l) (fun _ => k)) (at level 10, l at level 100, k at level 200) : main_scope.
Local Open Scope main_scope.

(** What the calls of main meet. [se_abs] is [filepath.Abs], [se_chdir] the error
    of [os.Chdir], [se_load] the result of [config.Load] on a path, [se_fetch]
    the download of a list, [se_db_open] the error of [NewDBLogger], with
    whether it is a permission error, and [se_rows] the rows in the database it
    opens. *)
Record StartEnv := mkStart {
  se_windows : bool;
  se_service : bool;
  se_abs : string -> string + string;
  se_chdir : string -> option string;
  se_action : string -> option string;
  se_ready : string -> Z;
  se_purge : string -> Z;
  se_load : string -> list Problem * (string + Config);
  se_now : Z;
  se_udp : option error;
  se_tcp : option error;
  se_pair : error + Certificate;
  se_dot : option error;
  se_fetch : string -> fetch_env;
  se_disk : Loader.disk;
  se_file_open : option string;
  se_db_open : option (bool * string);
  se_rows : list db_entry;
  se_addrs : read_result;
  se_admin : option string;
  se_hostname : option string;
}.

(** What runs after a start: the configuration, the listeners, the certificate
    reloader, the reload gate, the handler with its state, the loggers, the
    cache as it was made, the report of the settings, and whether the dashboard
    is up. *)
Record Running := mkRunning {
  rn_cfg : Config;
  rn_servers : Dot.Server;
  rn_certs : option CertReloader;
  rn_gate : Gate;
  rn_handler : HConfig;
  rn_state : HState;
  rn_file : option FileLogger;
  rn_db : option DBLogger;
  rn_report : privacyReport;
  rn_apiUp : bool;
  rn_disk : Loader.disk;
}.

Inductive result := Exited (code : Z) | Serving (r : Running).

(** [querylog.FileLogger] of a fresh output. *)
Definition file_new (mode : string) : FileLogger := mkFileLogger mode [] [] 0.

Definition fileKind (file : string) : string :=
  if (file =? "")%string then "off" else if (file =? FileStdout)%string then "stdout" else "file".

Definition newFileLogger (env : StartEnv) (ql : Config.QueryLog) : Main (option FileLogger) :=
  if (File ql =? "")%string then ret_ None
  else if (File ql =? FileStdout)%string then log [EvOpenFile]; ret_ (Some (file_new (Config.Mode ql)))
  else match se_file_open env with
       | Some _ => log [EvOpenFile; EvLog "query log file open failed; query lines are not written"]; ret_ None
       | None => log [EvOpenFile]; ret_ (Some (file_new (Config.Mode ql)))
       end.

(** The database logger: [NewDBLogger] refuses an interval that is not
    positive, then opens the database with the rows it holds. *)
Definition newDBLogger (env : StartEnv) (ql : Config.QueryLog) : Main (option DBLogger) :=
  if (Database ql =? "")%string then ret_ None
  else if (FlushInterval ql <=? 0)%Z then log [EvLog "query log database open failed"]; ret_ None
  else match se_db_open env with
       | Some _ => log [EvOpenDB; EvLog "query log database open failed"]; ret_ None
       | None => log [EvOpenDB; EvLog "query log database opened"];
                 ret_ (Some (mkDBLogger (Config.Mode ql) [] [] (se_rows env) 0))
       end.

Definition buildMultiLogger (fl : option FileLogger) (db : option DBLogger) : Logger :=
  match fl, db with
  | Some fl, Some db => LMulti [LFile fl; LDB db]
  | Some fl, None => LFile fl
  | None, Some db => LDB db
  | None, None => LMulti []
  end.

Section main.
Context `{HUL : UnicodeLower} `{HUQ : UnicodeQuote} `{HURL : UrlParse} `{HSHA : Sha256} `{HDNS : MiekgDNS}.

(** [warnCertExpiry]. *)
Definition warnCertExpiry (r : CertReloader) (now : Z) : list event :=
  match ExpiryWarning r now with
  | Some (msg, _) => if (msg =? "")%string then [] else [EvLog msg]
  | None => []
  end.

(** [logConfigProblems]. *)
Definition logConfigProblems (problems : list Problem) : list event := map EvProblem problems.

(** [chdirToConfigDir]: the absolute path of the configuration, or the error of
    a call. Only a Windows build calls it. *)
Definition chdirToConfigDir (env : StartEnv) (cfgPath : string) : string + string :=
  match se_abs env cfgPath with
  | inl err => inl err
  | inr abs => match se_chdir env (Service.Dir abs) with Some err => inl err | None => inr abs end
  end.

Definition logSettings (warnings : list Warning) : list event := map EvWarning warnings.

(** [runCheckConfig]. *)
Definition runCheckConfig (env : StartEnv) (path : string) : Main Z :=
  let '(problems, loaded) := se_load env path in
  log logConfigProblems problems;
  match loaded with
  | inl _ => log [EvLog "config load failed"]; ret_ 1%Z
  | inr cfg =>
      log (if (DoTListen (c_DNS cfg) =? "")%string then []
           else match NewCertReloader (se_now env) (se_pair env) with
                | inl r => warnCertExpiry r (se_now env)
                | inr _ => []
                end);
      log logSettings (Warnings cfg);
      match problems with
      | [] => log [EvLog "config OK"]; ret_ 0%Z
      | _ => log [EvLog "config has problems"]; ret_ 1%Z
      end
  end.

(** The DoT listener, when it is set: the certificate, then the socket. *)
Definition start_dot (env : StartEnv) (cfg : Config) : Main (option CertReloader) :=
  if (DoTListen (c_DNS cfg) =? "")%string then ret_ None
  else match NewCertReloader (se_now env) (se_pair env) with
       | inr _ => log [EvLog "DoT listener failed"]; exit_ 1%Z
       | inl certs =>
           match ListenDoT (DoTListen (c_DNS cfg)) (se_dot env) with
           | inl _ => log [EvLog "DoT listener failed"]; exit_ 1%Z
           | inr _ => log EvBindDoT :: EvLog "DoT certificate loaded" :: warnCertExpiry certs (se_now env);
                      ret_ (Some certs)
           end
       end.

(** The handler and its settings. *)
Definition new_handler (cfg : Config) : HConfig :=
  let h := NewHandler (Upstreams (c_DNS cfg)) (Config.Reply (c_Blocking cfg)) (ReplyTTLSeconds (c_Blocking cfg))
             (LocalPTR (c_DNS cfg)) (Clients (c_QueryLog cfg)) in
  let h := Handler_SetQueryLogMode h (Config.Mode (c_QueryLog cfg)) in
  let h := Handler.SetLocalDomains h (LocalDomains (c_DNS cfg)) in
  SetCNAMEInspection h (CNAMEInspection (c_Blocking cfg)).

(** The state that the handler starts with. *)
Definition new_state (env : StartEnv) (cfg : Config) (store : Store) : HState :=
  mkState store (Stats.SetQueryLogMode Stats.New (Config.Mode (c_QueryLog cfg)))
    (if (0 <? CacheEntries (c_DNS cfg))%Z then Some (Cache.New (CacheEntries (c_DNS cfg))) else None)
    newFailureLog newReplyLog (newLANACL (se_now env) (se_addrs env)) newUpstreamTracker 0 0 0 0 [] [] [].

(** The listener of the dashboard: an error is a warning, and the dashboard is
    then down. *)
Definition bind_admin (env : StartEnv) : Main bool :=
  match se_admin env with
  | Some _ => log [EvLog "admin UI failed to bind; DNS still serving"]; ret_ false
  | None => log [EvBindAdmin]; ret_ true
  end.

(** main from the lists to the start of the goroutines, with the sockets of DNS
    and DoT bound. *)
Definition start_parts (env : StartEnv) (cfg : Config) (certs : option CertReloader) : Main Running :=
  let store := SetAllowlist NewStore (Allowlist (c_Blocking cfg)) in
  let '(store, d, err) := Update store (se_disk env)
    (map (fun u => (u, se_fetch env u)) (Lists (c_Blocking cfg))) CacheFirst in
  log EvDownload :: match err with Some _ => [EvLog "initial blocklist load failed"] | None => [] end;
  do fl <- newFileLogger env (c_QueryLog cfg);
  do db <- newDBLogger env (c_QueryLog cfg);
  let h := new_handler cfg in
  let s := new_state env cfg store in
  log (if HasLANUpstream (upstreams h) (h_upstreamIPs h) (hs_lan s) (se_now env) (se_addrs env) then []
       else [EvLog "no upstream on the LAN"]);
  let srv := match certs with Some _ => EnableDoT NewServer | None => NewServer end in
  do apiUp <- bind_admin env;
  log [EvBanner apiUp];
  let report := mkReport (Warnings cfg) true 0 true 0 no_stale in
  log [EvServe];
  ret_ (mkRunning cfg srv certs newReloadFn h s fl db report apiUp d).

(** The directory that main changes to as a Windows service, and the path that
    it loads the configuration from. *)
Definition start_chdir (env : StartEnv) (cfgPath : string) : Main string :=
  if se_service env then
    match chdirToConfigDir env cfgPath with
    | inl _ => log [EvLog "working directory change failed"]; exit_ 1%Z
    | inr abs => log [EvChdir (Service.Dir abs); EvLog "working directory set to the config directory"]; ret_ abs
    end
  else ret_ cfgPath.

(** main from the change of the directory on. *)
Definition startup (env : StartEnv) (cfgPath : string) : Main Running :=
  do path <- start_chdir env cfgPath;
  log [EvUmask];
  let '(problems, loaded) := se_load env path in
  log logConfigProblems problems;
  match loaded with
  | inl _ => log [EvLog "config load failed"]; exit_ 1%Z
  | inr cfg =>
      log map EvLog (UpstreamNotes cfg) ++ logSettings (Warnings cfg);
      match Dot.Listen (se_udp env) (se_tcp env) with
      | inl _ => log [EvLog "dns listen failed"]; exit_ 1%Z
      | inr _ =>
          log [EvBindDNS];
          do certs <- start_dot env cfg;
          start_parts env cfg certs
      end
  end.

(** A management command of the Windows service: installing takes the absolute
    path of the configuration. *)
Definition service_command (env : StartEnv) (action cfgPath : string) : list event * result :=
  match (if (action =? "install")%string then se_abs env cfgPath else inr "") with
  | inl _ => ([EvLog "config path cannot be resolved"], Exited 1)
  | inr _ => ([EvService action], Exited (match se_action env action with Some _ => 1 | None => 0 end))
  end.

(** [main]. *)
Definition main_ (f : Flags) (env : StartEnv) : list event * result :=
  match command_of f with
  | CmdVersion => ([EvPrintVersion], Exited 0)
  | CmdHealthcheck => ([], Exited (se_ready env (fg_config f)))
  | CmdService action => service_command env action (fg_config f)
  | CmdBadService => ([EvLog "unknown -service action"], Exited 1)
  | CmdCheckConfig =>
      let '(l, r) := runCheckConfig env (fg_config f) in (l, Exited (match r with inl c | inr c => c end))
  | CmdPurge =>
      if se_windows env then
        match chdirToConfigDir env (fg_config f) with
        | inl _ => ([EvLog "working directory change failed"], Exited 1)
        | inr abs => ([EvChdir (Service.Dir abs); EvPurge abs], Exited (se_purge env abs))
        end
      else ([EvPurge (fg_config f)], Exited (se_purge env (fg_config f)))
  | CmdRun =>
      let '(l, r) := startup env (fg_config f) in (l, match r with inl c => Exited c | inr x => Serving x end)
  end.
End main.

(** ** A reload, as main wires it *)

Section reload.
Context `{HUL : UnicodeLower} `{HURL : UrlParse} `{HSHA : Sha256}.

(** The refresh of the lists that main gives to [reloadWork]; [fetch] is what
    each download meets. *)
Definition refresh_lists (fetch : string -> fetch_env) (cfg : Config) (store : Store) (d : Loader.disk)
    : Store * Loader.disk * list event :=
  let '(store, d, err) := Update store d (map (fun u => (u, fetch u)) (Lists (c_Blocking cfg))) DownloadFirst in
  (store, d, (EvLog "refreshing blocklists" ::
             match err with Some _ => [EvLog "blocklist refresh failed"] | None => [] end)%list).

(** One pass: what [reloadWork] does, with the refresh in its place. *)
Definition reload_do (fetch : string -> fetch_env) (cfg : Config) (acc : Store * Loader.disk * list event)
    (act : reload_act) : Store * Loader.disk * list event :=
  let '(store, d, evs) := acc in
  match act with
  | ActRefresh => let '(store, d, l) := refresh_lists fetch cfg store d in (store, d, evs ++ l)%list
  | ActCertFailed _ => (store, d, evs ++ [EvLog "DoT certificate reload failed; keeping the current certificate"])%list
  | ActCertLoaded _ warning =>
      (store, d, evs ++ EvLog "DoT certificate reloaded" ::
                 (if (fst warning =? "")%string then [] else [EvLog (fst warning)]))%list
  end.

Definition reload_pass (now : Z) (pair : error + Certificate) (fetch : string -> fetch_env) (cfg : Config)
    (certs : option CertReloader) (store : Store) (d : Loader.disk)
    : option CertReloader * (Store * Loader.disk * list event) :=
  let '(certs, acts) := reloadWork now pair certs in
  (certs, fold_left (reload_do fetch cfg) acts (store, d, [])).

Lemma reload_pass_refreshes now pair fetch cfg certs store d :
  let '(certs', (store', d', _)) := reload_pass now pair fetch cfg certs store d in
  certs' = fst (reloadWork now pair certs) /\ (store', d') = fst (refresh_lists fetch cfg store d).
Proof.
  unfold reload_pass, reloadWork. destruct certs as [r|].
  2: { cbn. by destruct (refresh_lists fetch cfg store d) as [[? ?] ?]. }
  by destruct (Dot.Reload now pair r) as [r' [e|]]; cbn; destruct (refresh_lists fetch cfg store d) as [[? ?] ?].
Qed.

(** A reload takes nothing away. Whatever the certificate file and the downloads
    do, the allowlist stays; the blocked names stay when every list fails, and
    are otherwise exactly the names of the lists that did not; a certificate in
    service stays when the new one does not load, and never stops the lists. *)
Theorem reload_takes_nothing now pair fetch cfg certs store d :
  let rs := fetch_results DownloadFirst d (map (fun u => (u, fetch u)) (Lists (c_Blocking cfg))) in
  let '(certs', (store', _, _)) := reload_pass now pair fetch cfg certs store d in
  allowlist store' = allowlist store /\ runtime store' = runtime store /\
  (Lists (c_Blocking cfg) <> [] -> Forall (fun r => result_failed r = true) rs -> blocked store' = blocked store) /\
  (Exists (fun r => result_failed r = false) rs -> forall x, x ∈ blocked store' <->
     exists r y, r ∈ rs /\ y ∈ result_domains r /\ x = normalize y) /\
  (forall r, certs = Some r -> GetCertificate r <> None -> good pair = None ->
     exists r', certs' = Some r' /\ GetCertificate r' = GetCertificate r).
Proof.
  intros rs. pose proof (reload_pass_refreshes now pair fetch cfg certs store d) as Hp.
  destruct (reload_pass _ _ _ _ _ _ _) as [certs' [[store' d'] evs]]. destruct Hp as [-> Hst].
  pose proof (update_spec store d (map (fun u => (u, fetch u)) (Lists (c_Blocking cfg))) DownloadFirst) as Hu.
  unfold refresh_lists in Hst. destruct (Update _ _ _ _) as [[store1 d1] err]. injection Hst as -> ->.
  destruct Hu as (Herr & Hkeep & Hnew & _ & Hal & Hrt). fold rs in Herr, Hnew. split_and!; [done | done | | |].
  - intros Hl Hf. apply Hkeep, Herr. split; [|done]. by destruct (Lists (c_Blocking cfg)).
  - intros Hex. apply Hnew. destruct err as [e|]; [|done]. exfalso.
    destruct (proj1 Herr) as [_ Hall]; [done |]. apply Exists_exists in Hex as (r & Hr & Hrf).
    rewrite Forall_forall in Hall. by rewrite (Hall r Hr) in Hrf.
  - intros r Hc Hget Hgood. destruct (reload_work_refreshes now pair certs) as (acts & _ & H).
    destruct (H r Hc Hget Hgood) as (r' & text & Hr & Hg & _). by exists r'.
Qed.
End reload.

(** ** The dashboard that main wires *)

(** The cache in the interface of the API server: main passes its pointer also
    when it is nil, so the interface is never nil. *)
Definition cache_iface (c : option Cache.Cache) : option (option (Z * Z * Z)) :=
  Some ((fun c => let '(_, misses, size) := Cache.Stats c in (misses, size, Cache.dropped c)) <$> c).

Section wiring.
Context `{HUL : UnicodeLower} `{HUQ : UnicodeQuote} `{HURL : UrlParse} `{HSHA : Sha256} `{HDNS : MiekgDNS} `{HDF : DateFormat}.

Definition dot_status (cfg : Config) (certs : CertReloader) (now : Z) : option DoTStatus :=
  (fun st => mkDoT (DoTListen (c_DNS cfg)) (cs_Names st) (cs_NotAfter st) (cs_State st) (Some (cs_LastReload st))
               (cs_LastReloadError st) (cs_ReloadFailures st)) <$> Dot.Status certs now.

(** [purgeTargets.purge] on what the server does not hold itself: the log file,
    the cache and the cache directory. *)
Definition purge_fn (fs_text : fs_error -> string) (penv : PurgeEnv) (file : option FileLogger)
    (cache : option Cache.Cache) (lists : Loader.disk) (a : ApiState) : ApiState * PurgeReport :=
  let '(st, rep) := Purge.purge fs_text penv (mkStores (a_db a) file (a_counter a) cache true lists) in
  (mkApi (a_store a) (st_counter st) (st_db st) (a_gate a) (a_exports a) (a_audit a), rep).

(** [api.New] and its setters, as the server answers at time [now]: [s] and the
    others are the state of the parts at that time, [failures] and [labels] the
    orders in which their maps are ranged over. *)
Definition api_server (env : StartEnv) (r : Running) (s : HState) (file : option FileLogger) (certs : option CertReloader)
    (report : privacyReport) (now : Z) (labels : list (string * string)) (failures : list (string * Z))
    (runtime : string -> option Z) (fs_text : fs_error -> string) (penv : PurgeEnv) : Api.Server :=
  let cfg := rn_cfg r in
  let ql := c_QueryLog cfg in
  let sv := Api.New (se_hostname env) (cache_iface (hs_cache s)) runtime in
  let sv := SetPrivacy (mkPrivacy (Config.Mode ql) (Clients ql) (bool_decide (rn_db r <> None)) (fileKind (File ql))
                          (RetentionDays ql)) sv in
  let sv := SetClientNames labels sv in
  let sv := SetUpstreamTransportFailures failures sv in
  let sv := SetPlaintextFallbacks (hs_fallbacks s) sv in
  let sv := SetRefusedQueries (hs_refused s) sv in
  let sv := SetForwardLimited (hs_limited s) sv in
  let sv := match file with Some f => SetFileLogDropped (fl_dropped f) sv | None => sv end in
  let sv := SetPurge (purge_fn fs_text penv file (hs_cache s) (rn_disk r)) sv in
  let sv := match certs with Some c => SetDoTStatus (dot_status cfg c now) sv | None => sv end in
  let sv := if Pprof (c_Admin cfg) then EnablePprof true sv else sv in
  SetWarnings (Report.current report (hs_fallbacks s) (hs_refused s)) sv.
End wiring.

(** ** The running system *)

(** The handler's state and the two loggers behind it. *)
Record Sys := mkSys { sy_state : HState; sy_file : option FileLogger; sy_db : option DBLogger }.

Definition sys_of (r : Running) : Sys := mkSys (rn_state r) (rn_file r) (rn_db r).

(** A query; a step of the database writer or the prune (a record enters its
    queue through the handler only); a line written to the log file; and a
    refresh of the lists or a change of the allowlist. *)
Inductive sys_op :=
  | OpQuery (w : Writer) (env : QueryEnv) (req : Msg) (now : Z) (now_text : string)
  | OpDB (op : db_op)
  | OpFileWrite
  | OpStore (store : Store).

Definition log_records (now : Z) (now_text : string) (recs : list QRecord) (fl : option FileLogger)
    (db : option DBLogger) : option FileLogger * option DBLogger :=
  (fold_left (fun l rec => FileLogger_Log l now_text rec) recs <$> fl,
   fold_left (fun d rec => DBLogger_Log d now rec) recs <$> db).

Section sys.
Context `{HUL : UnicodeLower} `{HURL : UrlParse} `{HDNS : MiekgDNS}.

Definition sys_step (h : HConfig) (s : Sys) (op : sys_op) : Sys :=
  match op with
  | OpQuery w env req now now_text =>
      let st := ServeDNS h w env req (sy_state s) in
      let '(fl, db) := log_records now now_text (drop (length (hs_log (sy_state s))) (hs_log st)) (sy_file s) (sy_db s) in
      mkSys st fl db
  | OpDB (DbLog _ _) => s
  | OpDB op => mkSys (sy_state s) (sy_file s) ((fun d => QueryLog.db_step d op) <$> sy_db s)
  | OpFileWrite => mkSys (sy_state s) (FileLogger_write <$> sy_file s) (sy_db s)
  | OpStore store =>
      let st := sy_state s in
      mkSys (mkState store (hs_counter st) (hs_cache st) (hs_failures st) (hs_replies st) (hs_lan st) (hs_tracker st)
               (hs_fallbacks st) (hs_slots st) (hs_limited st) (hs_refused st) (hs_log st) (hs_sent st) (hs_contacts st))
        (sy_file s) (sy_db s)
  end.

Definition sys_run (h : HConfig) (ops : list sys_op) (s : Sys) : Sys := fold_left (sys_step h) ops s.
End sys.

(** ** Which failures are fatal *)

Section start.
Context `{HUL : UnicodeLower} `{HUQ : UnicodeQuote} `{HURL : UrlParse} `{HSHA : Sha256} `{HDNS : MiekgDNS}.

(** The events after which something is stored, downloaded or served. *)
Definition after_binds (e : event) : bool :=
  match e with EvDownload | EvOpenFile | EvOpenDB | EvBindAdmin | EvBanner _ | EvServe => true | _ => false end.

Definition quiet (l : list event) : Prop := Forall (fun e => after_binds e = false) l.

Lemma quiet_app l l' : quiet l -> quiet l' -> quiet (l ++ l').
Proof. apply Forall_app_2. Qed.

Lemma quiet_map {A} (g : A -> event) l : (forall x, after_binds (g x) = false) -> quiet (map g l).
Proof. intros Hg. apply Forall_forall. intros e He. apply list_elem_of_fmap in He as (x & -> & _). auto. Qed.

Lemma bind_inl {A B} (m : Main A) (k : A -> Main B) code :
  snd m = inl code -> bind_ m k = (fst m, inl code).
Proof. intros E. unfold bind_. by rewrite E. Qed.

Lemma bind_inr {A B} (m : Main A) (k : A -> Main B) x :
  snd m = inr x -> bind_ m k = ((fst m ++ fst (k x))%list, snd (k x)).
Proof. intros E. unfold bind_. rewrite E. by destruct (k x). Qed.

Lemma log_eq {A} l (m : Main A) : bind_ (emit_ l) (fun _ => m) = ((l ++ fst m)%list, snd m).
Proof. unfold bind_, emit_. simpl. by destruct m. Qed.

Lemma newFileLogger_goes env ql : exists x, snd (newFileLogger env ql) = inr x.
Proof. unfold newFileLogger. repeat case_match; simpl; eauto. Qed.

Lemma newDBLogger_goes env ql : exists x, snd (newDBLogger env ql) = inr x.
Proof. unfold newDBLogger. repeat case_match; simpl; eauto. Qed.

Lemma bind_admin_goes env : exists up, snd (bind_admin env) = inr up.
Proof. unfold bind_admin. case_match; rewrite log_eq; eauto. Qed.

Lemma start_parts_goes env cfg certs :
  exists r store, snd (start_parts env cfg certs) = inr r /\ rn_cfg r = cfg /\ rn_certs r = certs /\
    rn_handler r = new_handler cfg /\ rn_state r = new_state env cfg store /\
    snd (newFileLogger env (c_QueryLog cfg)) = inr (rn_file r) /\
    snd (newDBLogger env (c_QueryLog cfg)) = inr (rn_db r).
Proof.
  unfold start_parts. destruct (Update _ _ _ _) as [[store d] err]. rewrite log_eq. cbn [snd].
  destruct (newFileLogger_goes env (c_QueryLog cfg)) as [fl Ef]. rewrite (bind_inr _ _ _ Ef). cbn [snd].
  destruct (newDBLogger_goes env (c_QueryLog cfg)) as [db Ed]. rewrite (bind_inr _ _ _ Ed). cbn [snd].
  rewrite !log_eq. cbn [snd]. destruct (bind_admin_goes env) as [up Eu]. rewrite (bind_inr _ _ _ Eu).
  eexists _, store. split; [reflexivity |]. done.
Qed.

Definition dot_ready (env : StartEnv) (cfg : Config) : Prop :=
  DoTListen (c_DNS cfg) <> "" -> good (se_pair env) <> None /\ se_dot env = None.

Lemma NewCertReloader_good now pair :
  (exists r, NewCertReloader now pair = inl r) <-> good pair <> None.
Proof.
  unfold NewCertReloader, Dot.Reload. pose proof (load_cert_good pair (mkReloader None 0 0 "")) as (_ & Hiff & _).
  destruct (load_cert pair _) as [r e]. simpl in *. rewrite <- Hiff. destruct e; [| split; [done | intros _; eauto]].
  split; [intros [? ?]; discriminate | done].
Qed.

Lemma warnCertExpiry_quiet r now : quiet (warnCertExpiry r now).
Proof. unfold warnCertExpiry. repeat case_match; repeat constructor. Qed.

Lemma start_dot_cases env cfg :
  quiet (fst (start_dot env cfg)) /\
  ((exists certs, snd (start_dot env cfg) = inr certs /\ dot_ready env cfg) \/
   (snd (start_dot env cfg) = inl 1%Z /\ ~ dot_ready env cfg)).
Proof.
  unfold start_dot, dot_ready. destruct (String.eqb_spec (DoTListen (c_DNS cfg)) "") as [-> | Hne].
  { split; [constructor |]. left. by exists None. }
  pose proof (NewCertReloader_good (se_now env) (se_pair env)) as Hg.
  destruct (NewCertReloader _ _) as [r | e].
  - assert (Hq : quiet ((EvBindDoT :: EvLog "DoT certificate loaded" :: warnCertExpiry r (se_now env)) ++ [])).
    { apply quiet_app; [apply List.Forall_cons; [done |]; apply List.Forall_cons; [done |] | constructor].
      apply warnCertExpiry_quiet. }
    unfold ListenDoT. destruct (se_dot env) as [e |]; rewrite log_eq;
      (split; [first [exact Hq | by repeat constructor] |]).
    + right. split; [done |]. intros H. by destruct (H Hne).
    + left. exists (Some r). split; [done |]. intros _. split; [| done]. apply Hg. by exists r.
  - rewrite log_eq. split; [repeat constructor |]. right. split; [done |]. intros H.
    destruct (H Hne) as [Hgood _]. apply Hg in Hgood as [? ?]. discriminate.
Qed.

(** The path that a start loads the configuration from: as a Windows service the
    absolute path, after a change to its directory. *)
Definition config_path (env : StartEnv) (cfgPath path : string) : Prop :=
  if se_service env then se_abs env cfgPath = inr path /\ se_chdir env (Service.Dir path) = None else path = cfgPath.

(** What a start needs. *)
Definition start_ready (env : StartEnv) (cfgPath : string) (cfg : Config) : Prop :=
  exists path, config_path env cfgPath path /\ snd (se_load env path) = inr cfg /\
  se_udp env = None /\ se_tcp env = None /\ dot_ready env cfg.

Lemma start_chdir_cases env cfgPath :
  quiet (fst (start_chdir env cfgPath)) /\
  ((exists path, snd (start_chdir env cfgPath) = inr path /\ forall p, config_path env cfgPath p <-> p = path) \/
   (snd (start_chdir env cfgPath) = inl 1%Z /\ forall p, ~ config_path env cfgPath p)).
Proof.
  unfold start_chdir, chdirToConfigDir, config_path. destruct (se_service env); [|split; [constructor |]; left; by exists cfgPath].
  destruct (se_abs env cfgPath) as [e|abs]; [split; [repeat constructor |]; right; split; [done | by intros p [? _]] |].
  destruct (se_chdir env (Service.Dir abs)) eqn:Ed; (split; [repeat constructor |]).
  - right. split; [done |]. intros p [[= <-] ?]. congruence.
  - left. exists abs. split; [done |]. intros p. split; [by intros [[= <-] _] | by intros ->].
Qed.

Lemma startup_cases env cfgPath :
  (quiet (fst (startup env cfgPath)) /\ snd (startup env cfgPath) = inl 1%Z /\ forall cfg, ~ start_ready env cfgPath cfg) \/
  (exists r store, snd (startup env cfgPath) = inr r /\ start_ready env cfgPath (rn_cfg r) /\
     rn_handler r = new_handler (rn_cfg r) /\ rn_state r = new_state env (rn_cfg r) store /\
     snd (newFileLogger env (c_QueryLog (rn_cfg r))) = inr (rn_file r) /\
     snd (newDBLogger env (c_QueryLog (rn_cfg r))) = inr (rn_db r)).
Proof.
  destruct (start_chdir_cases env cfgPath) as [Hq [(path & Ec & Hp) | [Ec Hno]]]; unfold startup.
  2: { rewrite (bind_inl _ _ _ Ec). left. split; [exact Hq |]. split; [done |]. intros cfg (p & Hc & _). by apply (Hno p). }
  rewrite (bind_inr _ _ _ Ec). cbv beta. rewrite log_eq. cbn [fst snd].
  assert (forall cfg, start_ready env cfgPath cfg <-> snd (se_load env path) = inr cfg /\ se_udp env = None /\
            se_tcp env = None /\ dot_ready env cfg) as Hready.
  { intros cfg. unfold start_ready. split; [by intros (p & ->%Hp & ?) | intros ?; exists path; split; [by apply Hp | done]]. }
  setoid_rewrite Hready. clear Hready.
  destruct (se_load env path) as [problems [e | cfg]]; rewrite !log_eq; cbn [fst snd].
  { left. split; [| split; [done | by intros cfg (? & _)]].
    repeat apply quiet_app; try done; try (by apply quiet_map); repeat constructor. }
  unfold Dot.Listen. destruct (se_udp env) as [e |]; cbv beta iota.
  { left. rewrite ?log_eq. cbn [fst snd]. split; [| split; [done | by intros cfg' (_ & ? & _)]].
    repeat apply quiet_app; try done; try (by apply quiet_map); repeat constructor. }
  destruct (se_tcp env) as [e |]; cbv beta iota.
  { left. rewrite ?log_eq. cbn [fst snd]. split; [| split; [done | by intros cfg' (_ & _ & ? & _)]].
    repeat apply quiet_app; try done; try (by apply quiet_map); repeat constructor. }
  destruct (start_dot_cases env cfg) as [Hd [(certs & Ed & Hr) | [Ed Hr]]]; rewrite ?log_eq; cbn [fst snd].
  - right. rewrite (bind_inr _ _ _ Ed). cbn [snd].
    destruct (start_parts_goes env cfg certs) as (r & store & -> & Hcfg & _ & Hh & Hs & Hf & Hdb).
    exists r, store. rewrite Hcfg. done.
  - left. rewrite (bind_inl _ _ _ Ed). cbn [fst snd].
    split; [| split; [done | by intros cfg' ([= <-] & _ & _ & ?)]].
    repeat apply quiet_app; try done; try (by apply quiet_map); repeat constructor.
Qed.

Lemma service_command_quiet env action cfgPath :
  exists l code, service_command env action cfgPath = (l, Exited code) /\ quiet l.
Proof. unfold service_command. case_match; (do 2 eexists; split; [done | repeat constructor]). Qed.

(** C8. DNS is served whenever it can be. A run of s-hole starts to serve if and
    only if the configuration loads and the DNS sockets, and those and the
    certificate of DNS over TLS when that is on, are there; the lists, the query
    log, the cache and the dashboard never stop it. As a Windows service it
    needs the change to the directory of the configuration too, and loads it
    from its absolute path. When it does not start, it exits with 1 before it
    downloads a list, opens a log or a database, or binds the dashboard. Every other command line ends without any of these. *)
Theorem starts_unless_fatal f env :
  let '(trace, result) := main_ f env in
  ((exists r, result = Serving r) <-> command_of f = CmdRun /\ exists cfg, start_ready env (fg_config f) cfg) /\
  (forall code, result = Exited code -> quiet trace) /\
  (command_of f = CmdRun -> forall code, result = Exited code -> code = 1%Z).
Proof.
  unfold main_. destruct (command_of f) eqn:E.
  all: try (split_and!; [split; [intros [r Hr] | intros [? _]]; discriminate | intros; repeat constructor | done]).
  - destruct (service_command_quiet env action (fg_config f)) as (l & c & -> & Hq).
    split_and!; [split; [intros [x Hx] | intros [? _]]; discriminate | done | done].
  - destruct (runCheckConfig env _) as [l r] eqn:Er.
    split_and!; [split; [intros [x Hx] | intros [? _]]; discriminate | intros _ _ | done].
    apply (f_equal fst) in Er. cbn [fst] in Er. subst l. unfold runCheckConfig.
    destruct (se_load env _) as [problems [e | cfg]]; rewrite !log_eq; cbn [fst].
    { repeat apply quiet_app; try (by apply quiet_map); repeat constructor. }
    repeat apply quiet_app; try (by apply quiet_map).
    + destruct (_ =? _)%string; [constructor |]. destruct (NewCertReloader _ _); [apply warnCertExpiry_quiet | constructor].
    + destruct problems; rewrite ?log_eq; repeat constructor.
  - destruct (se_windows env); [destruct (chdirToConfigDir env _)|];
      (split_and!; [split; [intros [x Hx] | intros [? _]]; discriminate | intros; repeat constructor | done]).
  - destruct (startup_cases env (fg_config f)) as [(Hq & Hs & Hno) | (r & store & Hs & Hr & _)];
      destruct (startup env (fg_config f)) as [l x]; cbn [fst snd] in *; subst x.
    + split_and!; [split; [intros [r Hr]; discriminate | intros [_ [cfg Hcfg]]; by destruct (Hno cfg)] | done |].
      intros _ code [= <-]. done.
    + split_and!; [split; [eauto | eauto] | discriminate | discriminate].
Qed.
End start.

(** ** What the running system records *)

Section recording.
Context `{HUL : UnicodeLower} `{HURL : UrlParse} `{HDNS : MiekgDNS} `{HLAWS : !MiekgLaws}.

(** A record that the settings let through: the mode records such a query, and
    its client is a source address masked as the setting says. *)
Definition fits (mode clients : string) (rec : QRecord) : Prop :=
  log_wanted mode (RBlocked rec) = true /\ exists ip, ClientIP rec = MaskClientIP (addr_String ip) clients.

(** A query leaves the counters and the log as they were, or is served. *)
Lemma ServeDNS_cases h w env req s :
  let s' := ServeDNS h w env req s in
  (hs_counter s' = hs_counter s /\ hs_log s' = hs_log s) \/
  exists ip q, served h w env req (MaskClientIP (addr_String ip) (queryPrivacy h)) (to_lower (QName q)) s s'.
Proof.
  cbv zeta. unfold ServeDNS. set (ip := WithoutZone _). destruct (IsValid ip); cbn [negb]; [| by left].
  destruct (allows _ _ _ _) as [ok lan]. destruct ok; cbn [negb]; [| by left].
  destruct (Questions req) as [| q [| q2 qs]] eqn:Hq; [by left | | by left].
  destruct (negb _); [by left |]. destruct (negb _); [by left |].
  right. exists ip, q. apply (served_from h w env _ _ _ (set_lan lan s)); [apply set_lan_frame |].
  by apply serve_query_served.
Qed.

Lemma prune_if_full_empty order : prune_if_full ∅ order = ∅.
Proof. unfold prune_if_full. by rewrite map_size_empty. Qed.

Lemma RecordQuery_no_client c d b now oc od :
  topClients c = ∅ -> topClients (RecordQuery c "" d b now oc od) = ∅.
Proof.
  intros H. unfold RecordQuery, graph_event. cbn [String.eqb topClients].
  repeat case_match; simpl; rewrite ?H; apply prune_if_full_empty.
Qed.

Lemma RecordQuery_no_domain c k b now oc od :
  topDomains c = ∅ -> topDomains (RecordQuery c k "" b now oc od) = ∅.
Proof.
  intros H. unfold RecordQuery, graph_event. rewrite andb_false_r.
  repeat case_match; simpl; rewrite ?H; apply prune_if_full_empty.
Qed.

(** What the counters keep of a query, for a handler under mode "none", or one
    that drops the clients. *)
Lemma query_tallies h w env req s :
  let s' := ServeDNS h w env req s in
  (logMode h = "none" -> topClients (hs_counter s) = ∅ -> topClients (hs_counter s') = ∅) /\
  (logMode h = "none" -> topDomains (hs_counter s) = ∅ -> topDomains (hs_counter s') = ∅) /\
  (queryPrivacy h = "drop" -> topClients (hs_counter s) = ∅ -> topClients (hs_counter s') = ∅) /\
  graph_kept (hs_counter s) (hs_counter s').
Proof.
  cbv zeta. destruct (ServeDNS_cases h w env req s) as [[-> _] | (ip & q & o & rec & r & Ha)].
  { split_and!; try done. }
  destruct Ha as (_ & (Hc & Hd & Hg) & _). unfold tally in *. split_and!; [| | | done].
  - intros Hm He. rewrite Hc. unfold records. rewrite Hm.
    exact (RecordQuery_no_client _ "" _ _ _ _ He).
  - intros Hm He. rewrite Hd. unfold records. rewrite Hm.
    exact (RecordQuery_no_domain _ "" _ _ _ _ He).
  - intros Hp He. rewrite Hc, Hp, mask_other by done.
    destruct (negb (records h (RBlocked rec))); exact (RecordQuery_no_client _ _ _ _ _ _ He).
Qed.

(** The records that a query adds to the log. *)
Lemma query_records h w env req s :
  Forall (fun rec => exists ip, ClientIP rec = MaskClientIP (addr_String ip) (queryPrivacy h))
    (drop (length (hs_log s)) (hs_log (ServeDNS h w env req s))).
Proof.
  destruct (ServeDNS_cases h w env req s) as [[_ ->] | (ip & q & o & rec & r & Ha)].
  { rewrite drop_all. constructor. }
  destruct Ha as (_ & _ & -> & (Hcl & _) & _). rewrite drop_app_length.
  apply Forall_singleton. by exists ip.
Qed.

Definition db_entries (d : DBLogger) : list db_entry := (db_ch d ++ db_batch d ++ db_rows d)%list.
Definition file_lines (l : FileLogger) : list string := (fl_ch l ++ fl_written l)%list.

Lemma db_step_entries d op e :
  match op with DbLog _ _ => False | _ => True end ->
  e ∈ db_entries (QueryLog.db_step d op) -> e ∈ db_entries d.
Proof.
  assert (Hf : forall rows batch res, e ∈ flush rows batch res -> e ∈ rows \/ e ∈ batch).
  { intros rows batch res He. apply elem_of_app. eapply elem_of_sublist; [exact He | apply flush_sublist]. }
  assert (Hp : forall days now rows, e ∈ prune days now rows -> e ∈ rows).
  { intros days now rows He. eapply elem_of_sublist; [exact He | apply list_filter_sublist]. }
  unfold db_entries. destruct op as [| res | res | b | days now | res]; intros Hop;
    cbn [QueryLog.db_step]; [done | | | | |].
  - unfold DBLogger_recv. destruct (db_ch d) as [| x ch] eqn:Ech; [by rewrite Ech |].
    destruct (_ <=? _)%Z; simpl; rewrite elem_of_cons, !elem_of_app.
    + intros [? | Hin]; [tauto |]. apply Hf in Hin.
      rewrite elem_of_app, list_elem_of_singleton in Hin. tauto.
    + rewrite list_elem_of_singleton. tauto.
  - unfold DBLogger_tick. destruct (0 <? _)%Z; simpl; rewrite !elem_of_app; [| tauto].
    intros [? | Hin]; [tauto |]. apply Hf in Hin. tauto.
  - simpl. destruct b; rewrite !elem_of_app, ?elem_of_nil; tauto.
  - simpl. rewrite !elem_of_app. intros [? | [? | Hin]]; [tauto | tauto |]. apply Hp in Hin. tauto.
  - unfold DBLogger_close. destruct (0 <? _)%Z; simpl; rewrite !elem_of_app; [| tauto].
    intros Hin. apply Hf in Hin. rewrite elem_of_app in Hin. tauto.
Qed.

Lemma db_step_mode d op : db_mode (QueryLog.db_step d op) = db_mode d.
Proof.
  destruct op; simpl; try done.
  - unfold DBLogger_Log. by repeat case_match.
  - unfold DBLogger_recv. by repeat case_match.
  - unfold DBLogger_tick. by case_match.
  - unfold DBLogger_close. by case_match.
Qed.

Lemma db_log_entries now recs d e :
  e ∈ db_entries (fold_left (fun d rec => DBLogger_Log d now rec) recs d) ->
  e ∈ db_entries d \/ (snd e ∈ recs /\ log_wanted (db_mode d) (RBlocked (snd e)) = true).
Proof.
  revert d. induction recs as [| rec recs IH]; intros d; [by left |]. cbn [fold_left]. intros He. apply IH in He.
  assert (Hm : db_mode (DBLogger_Log d now rec) = db_mode d) by apply (db_step_mode d (DbLog now rec)).
  rewrite Hm, elem_of_cons in *. destruct He as [He | [? ?]]; [| tauto].
  unfold DBLogger_Log in He. destruct (log_wanted (db_mode d) (RBlocked rec)) eqn:Ew; cbn [negb] in He; [| by left].
  destruct (_ <? _)%Z; [| by left]. unfold db_entries in *. simpl in He.
  rewrite !elem_of_app, list_elem_of_singleton in He. rewrite !elem_of_app.
  destruct He as [[? | ->] | [? | ?]]; simpl; tauto.
Qed.

Lemma file_log_lines now recs l line :
  line ∈ file_lines (fold_left (fun l rec => FileLogger_Log l now rec) recs l) ->
  line ∈ file_lines l \/
  exists rec, rec ∈ recs /\ line = log_line now rec /\ log_wanted (fl_mode l) (RBlocked rec) = true.
Proof.
  revert l. induction recs as [| rec recs IH]; intros l; [by left |]. cbn [fold_left]. intros He. apply IH in He.
  assert (Hm : fl_mode (FileLogger_Log l now rec) = fl_mode l).
  { unfold FileLogger_Log. by repeat case_match. }
  rewrite Hm in *. destruct He as [He | (x & ? & ? & ?)]; [| right; exists x; rewrite elem_of_cons; tauto].
  unfold FileLogger_Log in He. destruct (log_wanted (fl_mode l) (RBlocked rec)) eqn:Ew; cbn [negb] in He; [| by left].
  destruct (_ <? _)%Z; [| by left]. unfold file_lines in *. simpl in He.
  rewrite !elem_of_app, list_elem_of_singleton in He. rewrite !elem_of_app.
  destruct He as [[? | ->] | ?]; [tauto | | tauto]. right. exists rec. rewrite elem_of_cons. tauto.
Qed.

Lemma fold_modes now now_text recs l d :
  fl_mode (fold_left (fun l rec => FileLogger_Log l now_text rec) recs l) = fl_mode l /\
  db_mode (fold_left (fun d rec => DBLogger_Log d now rec) recs d) = db_mode d.
Proof.
  revert l d. induction recs as [| rec recs IH]; intros l d; [done |]. cbn [fold_left].
  destruct (IH (FileLogger_Log l now_text rec) (DBLogger_Log d now rec)) as [-> ->]. split.
  - unfold FileLogger_Log. by repeat case_match.
  - apply (db_step_mode d (DbLog now rec)).
Qed.

(** What holds of the system while it runs, for its settings and the rows that
    the database held before. *)
Record sys_inv (mode clients : string) (rows : list db_entry) (s : Sys) : Prop := {
  si_db : forall d, sy_db s = Some d -> db_mode d = mode /\
    Forall (fun e => e ∈ rows \/ fits mode clients (snd e)) (db_entries d);
  si_file : forall l, sy_file s = Some l -> fl_mode l = mode /\
    Forall (fun line => exists now rec, line = log_line now rec /\ fits mode clients rec) (file_lines l);
  si_clients : mode = "none" \/ clients = "drop" -> topClients (hs_counter (sy_state s)) = ∅;
  si_domains : mode = "none" -> topDomains (hs_counter (sy_state s)) = ∅ /\ graph (hs_counter (sy_state s)) = ∅;
  si_graph : mode = "none" -> graphMode (hs_counter (sy_state s)) = "none";
}.

Lemma inv_query h s w env req now now_text mode clients rows :
  logMode h = mode -> queryPrivacy h = clients ->
  sys_inv mode clients rows s -> sys_inv mode clients rows (sys_step h s (OpQuery w env req now now_text)).
Proof.
  intros Hm Hc [Idb Ifile Icl Idom Igr]. cbn [sys_step].
  pose proof (query_tallies h w env req (sy_state s)) as (T1 & T2 & T3 & Tg1 & Tg2). cbv zeta in *.
  pose proof (query_records h w env req (sy_state s)) as Hrec. rewrite Hc in Hrec, T3. rewrite Hm in T1, T2.
  set (st := ServeDNS h w env req (sy_state s)) in *. set (recs := drop _ _) in *.
  rewrite Forall_forall in Hrec. unfold log_records. split; cbn [sy_db sy_file sy_state].
  - intros d' Hd. apply fmap_Some in Hd as (d & Hd & ->). destruct (Idb d Hd) as [Hmode Hall].
    split; [rewrite (proj2 (fold_modes now "" recs (file_new "") d)); exact Hmode |].
    rewrite Forall_forall in Hall |- *. intros e He. apply db_log_entries in He as [He | [Hin Hw]]; [auto |].
    right. split; [by rewrite <- Hmode | by apply Hrec].
  - intros l' Hl. apply fmap_Some in Hl as (l & Hl & ->). destruct (Ifile l Hl) as [Hmode Hall].
    split; [rewrite (proj1 (fold_modes 0 now_text recs l (db_new ""))); exact Hmode |].
    rewrite Forall_forall in Hall |- *. intros line He. apply file_log_lines in He as [He | (rec & Hin & -> & Hw)]; [auto |].
    exists now_text, rec. split; [done |]. split; [by rewrite <- Hmode | by apply Hrec].
  - intros [-> | ->]; auto.
  - intros Hn. destruct (Idom Hn) as [Hd Hg]. split; [auto |]. rewrite Tg2; [done |].
    unfold graphs. by rewrite (Igr Hn).
  - intros Hn. rewrite Tg1. auto.
Qed.

Lemma inv_step h s op mode clients rows :
  logMode h = mode -> queryPrivacy h = clients -> sys_inv mode clients rows s -> sys_inv mode clients rows (sys_step h s op).
Proof.
  intros Hm Hc Hinv. destruct op as [w env req now now_text | op | | store]; [by apply inv_query | | |].
  - assert (Hop : forall op, match op with DbLog _ _ => False | _ => True end ->
      sys_inv mode clients rows (mkSys (sy_state s) (sy_file s) ((fun d => QueryLog.db_step d op) <$> sy_db s))).
    { clear op. intros op Hop. destruct Hinv as [Idb Ifile Icl Idom Igr]. split; cbn [sy_db sy_file sy_state]; try done.
      intros d' Hd. apply fmap_Some in Hd as (d & Hd & ->). destruct (Idb d Hd) as [Hmode Hall].
      split; [by rewrite db_step_mode |]. rewrite Forall_forall in Hall |- *. intros e He.
      by apply Hall, (db_step_entries d op). }
    cbn [sys_step]. destruct op; [done | by apply Hop ..].
  - destruct Hinv as [Idb Ifile Icl Idom Igr]. split; cbn [sys_step sy_db sy_file sy_state]; try done.
    intros l' Hl. apply fmap_Some in Hl as (l & Hl & ->). destruct (Ifile l Hl) as [Hmode Hall].
    unfold FileLogger_write, file_lines in *. destruct (fl_ch l) as [| line rest] eqn:E; [by rewrite E |].
    split; [done |]. simpl. rewrite Forall_forall in Hall |- *. intros x Hx. apply Hall.
    rewrite !elem_of_app, list_elem_of_singleton in Hx. rewrite elem_of_app, elem_of_cons. tauto.
  - destruct Hinv as [Idb Ifile Icl Idom Igr]. by split.
Qed.

Lemma inv_run h ops s mode clients rows :
  logMode h = mode -> queryPrivacy h = clients -> sys_inv mode clients rows s -> sys_inv mode clients rows (sys_run h ops s).
Proof.
  intros Hm Hc. unfold sys_run. revert s. induction ops as [| op ops IH]; intros s Hinv; [done |].
  cbn [fold_left]. by apply IH, inv_step.
Qed.
End recording.

Section privacy.
Context `{HUL : UnicodeLower} `{HUQ : UnicodeQuote} `{HURL : UrlParse} `{HSHA : Sha256} `{HDNS : MiekgDNS} `{HLAWS : !MiekgLaws}.

Lemma inv_start env cfg store fl db :
  snd (newFileLogger env (c_QueryLog cfg)) = inr fl -> snd (newDBLogger env (c_QueryLog cfg)) = inr db ->
  sys_inv (Config.Mode (c_QueryLog cfg)) (Clients (c_QueryLog cfg)) (se_rows env) (mkSys (new_state env cfg store) fl db).
Proof.
  intros Hf Hd. split; cbn [sy_db sy_file sy_state].
  - intros d ->. unfold newDBLogger in Hd. repeat case_match; simpl in Hd; try discriminate.
    injection Hd as <-. split; [done |]. apply Forall_forall. intros e He. by left.
  - intros l ->. unfold newFileLogger in Hf. repeat case_match; simpl in Hf; try discriminate;
      injection Hf as <-; (split; [done | constructor]).
  - done.
  - done.
  - intros E. unfold new_state. cbn [hs_counter]. by rewrite E.
Qed.

(** C3. The running s-hole records what its settings say and no more, from the
    configuration file to the disk. After any run of queries, list changes and
    steps of the writers: every row and every queued record in the database was
    there before the start or is one that the mode records, with its client
    masked as the setting says; the same holds of every line for the log file;
    under mode "none", nothing is added to either, and the top lists and the
    graph are empty; and when the clients are dropped, no client is kept
    anywhere. *)
Theorem recorded_within_settings f env r ops :
  snd (main_ f env) = Serving r ->
  let mode := Config.Mode (c_QueryLog (rn_cfg r)) in
  let clients := Clients (c_QueryLog (rn_cfg r)) in
  let s := sys_run (rn_handler r) ops (sys_of r) in
  (forall d e, sy_db s = Some d -> e ∈ db_entries d -> e ∈ se_rows env \/ fits mode clients (snd e)) /\
  (forall l line, sy_file s = Some l -> line ∈ file_lines l ->
     exists now rec, line = log_line now rec /\ fits mode clients rec) /\
  (mode = ModeNone ->
     (forall d e, sy_db s = Some d -> e ∈ db_entries d -> e ∈ se_rows env) /\
     (forall l, sy_file s = Some l -> file_lines l = []) /\
     topDomains (hs_counter (sy_state s)) = ∅ /\ topClients (hs_counter (sy_state s)) = ∅ /\
     graph (hs_counter (sy_state s)) = ∅) /\
  (clients = ClientsDrop ->
     topClients (hs_counter (sy_state s)) = ∅ /\ forall rec, fits mode clients rec -> ClientIP rec = "").
Proof.
  intros Hmain mode clients s.
  assert (Hinv : sys_inv mode clients (se_rows env) s).
  { unfold main_ in Hmain. destruct (command_of f); try discriminate;
      [unfold service_command in Hmain; by case_match | by destruct (runCheckConfig env _) | by repeat case_match |].
    destruct (startup_cases env (fg_config f)) as [(_ & E & _) | (r' & store & E & _ & Hh & Hs & Hf & Hd)];
      destruct (startup env (fg_config f)) as [l x]; cbn [snd] in *; subst x; [discriminate |]. injection Hmain as ->.
    subst s. rewrite Hh. apply inv_run; [done | done |]. unfold sys_of. rewrite Hs. by apply inv_start. }
  destruct Hinv as [Idb Ifile Icl Idom _].
  assert (Hdb : forall d e, sy_db s = Some d -> e ∈ db_entries d -> e ∈ se_rows env \/ fits mode clients (snd e)).
  { intros d e Hd He. destruct (Idb d Hd) as [_ Hall]. rewrite Forall_forall in Hall. auto. }
  assert (Hfile : forall l line, sy_file s = Some l -> line ∈ file_lines l ->
     exists now rec, line = log_line now rec /\ fits mode clients rec).
  { intros l line Hl Hline. destruct (Ifile l Hl) as [_ Hall]. rewrite Forall_forall in Hall. auto. }
  assert (Hnone : mode = ModeNone -> forall rec, ~ fits mode clients rec).
  { intros -> rec [Hw _]. discriminate. }
  split_and!; [done | done | |].
  - intros Hm. split_and!; [| | by apply Idom | by apply Icl; left | by apply Idom].
    + intros d e Hd He. destruct (Hdb d e Hd He) as [? | Hfit]; [done |]. by destruct (Hnone Hm (snd e)).
    + intros l Hl. destruct (file_lines l) as [| line rest] eqn:E; [done |].
      destruct (Hfile l line Hl) as (now & rec & _ & Hfit); [rewrite E; by left |]. by destruct (Hnone Hm rec).
  - intros Hc. split; [by apply Icl; right |]. intros rec [_ [ip Hip]]. rewrite Hc, mask_other in Hip; done.
Qed.
End privacy.

(** ** Examples *)

Module StartupExamples.
Import RefDns HandlerExamples.
#[local] Instance ascii_only : UnicodeLower := fun s => s.
#[local] Instance no_quote : UnicodeQuote := fun s => s.
#[local] Instance no_url : UrlParse := fun _ => None.
#[local] Instance toy_digest : Sha256 := fun s => itoa (N.of_nat (String.length s)).
#[local] Instance no_date : DateFormat := Itoa.

(** The cache is off; the log records blocked queries, with subnets. *)
Definition cfg : Config :=
  Config.mkConfig
    (mkDNS ":53" "" "" "" ["192.168.1.1:53"] 0 true [])
    (mkBlocking [] [] ReplyZeroIP 300 (24 * hour) "." true)
    (mkQueryLog ModeBlocked ClientsSubnet "q.db" "stdout" 7 (30 * second) ∅)
    (Config.mkAdmin "127.0.0.1:8080" false) (5 * Prelude.minute).

Definition old_row : db_entry := (1%Z, mkRecord "192.168.1.9" "old.example." false false 0 false BlockedByName).

Definition start : StartEnv :=
  mkStart false false inr (fun _ => None) (fun _ => None) (fun _ => 0%Z) (fun _ => 0%Z) (fun _ => ([], inr cfg)) 0 None None (inl (ErrText "no file")) None
    (fun _ => Loader.mkEnv 0 (Some "offline") (inl "offline") None None None false None) ∅ None None [old_row] (inl []) None (Some "pi").

Definition run_flags : Flags := mkFlags "config.yaml" false false "" false false.

Definition run0 : Running :=
  match snd (main_ run_flags start) with
  | Serving r => r
  | Exited _ => mkRunning cfg NewServer None newReloadFn (new_handler cfg) (new_state start cfg NewStore) None None
                  (mkReport [] true 0 true 0 no_stale) false ∅
  end.

Definition ops : list sys_op :=
  [OpStore (Replace NewStore ["ads.example"]);
   OpQuery w_lan (env_of (inr tracked)) (req_of "ads.example.") 5 "now";
   OpQuery w_lan (env_of (inr tracked)) (req_of "www.example.") 6 "now";
   OpDB (DbRecv None); OpDB (DbClose (Some (fun _ => true))); OpFileWrite].

Lemma recorded_within_settings_witness :
  snd (main_ run_flags start) = Serving run0 /\
  forall d e, sy_db (sys_run (rn_handler run0) ops (sys_of run0)) = Some d -> e ∈ db_entries d ->
    e ∈ [old_row] \/ fits ModeBlocked ClientsSubnet (snd e).
Proof.
  assert (Hrun : snd (main_ run_flags start) = Serving run0) by (vm_compute; reflexivity).
  split; [exact Hrun |]. exact (proj1 (recorded_within_settings run_flags start run0 ops Hrun)).
Defined.

(** The run itself: of the two queries only the blocked one reaches the
    database and the file, with its subnet. *)
Example what_is_stored :
  let s := sys_run (rn_handler run0) ops (sys_of run0) in
  db_entries <$> sy_db s =
    Some [old_row; (5%Z, mkRecord "192.168.1.0" "ads.example." true false 0 true BlockedByName)] /\
  file_lines <$> sy_file s = Some ["now BLOCK 192.168.1.0 ads.example." +:+ String "010"%char ""].
Proof. vm_compute. done. Qed.

(** With the cache off, a scrape of the metrics calls a method of a nil pointer:
    the handler panics, and the page breaks off after the first metrics. *)
Example metrics_page_breaks :
  let sv := api_server start run0 (rn_state run0) None None (rn_report run0) 0 [] [] (fun _ => None) (fun _ => "")
              (mkPurgeEnv CallClosed CallClosed [] (fun _ => None)) in
  exists text, rp_body (fst (handleMetrics sv ∅ (mkRequest "GET" "" "" "/metrics" (fun _ => "") (fun _ => "") "")
    (mkApi NewStore Stats.New None newReloadFn 0 []))) = inr (BAborted text).
Proof. eexists. vm_compute. reflexivity. Qed.
End StartupExamples.
