(* ===== verification/LintRules.v ===== *)
(** * The rules of the privacy lint (internal/privacylint/rule_*.go, privacylint.go)

    A Go syntax tree with what the type checker says of it: every node has an
    identity, the lines it is on, the type of an expression, its kind and its
    children in the order of go/ast. The kind of a name holds the object it
    refers to, the kind of a selector the selection. The parser and the type
    checker are the Go compiler's; the rules are functions on what they return. *)

From stdpp Require Import base numbers list gmap strings.
From Stdlib Require Import Ascii ZArith Lia.
From S2P Require Import Prelude.
From S2P Require Import GoStrings.
From S2P Require Import GoConv.
From S2P Require Import GoRegexp.
From S2P Require Import GoNet.
From S2P Require Import ErrorLog.

Open Scope string_scope.

(** ** Types and objects *)

(** A type without its aliases: a named type, with the path of its package when
    it has one, a pointer, or another. *)
Inductive ty := TNamed (pkg : option string) (name : string) | TPointer (t : ty) | TOther.

(** A function or method: its full name, its name, whether it has a receiver, the
    number of its parameters and its results. *)
Record func := mkFunc {
  fn_full : string; fn_name : string; fn_recv : bool; fn_params : nat; fn_results : list ty }.

Inductive object :=
  | OFunc (f : func)
  | OVar (pkg : option string) (name : string)
  | OBuiltin (name : string)
  | OOther.

Definition typeName (t : option ty) : string :=
  match t with Some (TNamed (Some path) name) => path +:+ "." +:+ name | _ => "" end.

Definition derefName (t : ty) : string :=
  match t with TPointer e => typeName (Some e) | _ => typeName (Some t) end.

(** ** Syntax trees *)

(** The kinds of node that the lint looks at. [KSimple] is every other node that
    [statementEnds] counts, [KOther] every other node. The number of names and
    whether there is a type say which child is which. *)
Inductive kind :=
  | KIdent (name : string) (uses : option object)
  | KSelector (selection : option (object * ty))    (* X, Sel *)
  | KCall                                           (* Fun, Args *)
  | KIndex                                          (* X, Index *)
  | KIndexList                                      (* X, Indices *)
  | KParen                                          (* X *)
  | KStar                                           (* X *)
  | KTypeAssert (typed : bool)                      (* X, Type *)
  | KCompositeLit (typed : bool)                    (* Type, Elts *)
  | KKeyValue                                       (* Key, Value *)
  | KBasicLit (unquoted : option string)            (* a string literal's text *)
  | KAssign (lhs : nat)                             (* Lhs, Rhs *)
  | KValueSpec (names : nat) (typed : bool)         (* Names, Type, Values *)
  | KExprStmt                                       (* X *)
  | KTypeSwitch (init : bool)                       (* Init, Assign, Body *)
  | KStructType                                     (* the fields of its list *)
  | KField (names : nat)                            (* Names, Type, Tag *)
  | KSimple
  | KOther.

Inductive node := Node (id line last : Z) (type : option ty) (k : kind) (children : list node).

Definition n_id (n : node) : Z := match n with Node i _ _ _ _ _ => i end.
Definition n_line (n : node) : Z := match n with Node _ l _ _ _ _ => l end.
Definition n_last (n : node) : Z := match n with Node _ _ e _ _ _ => e end.
Definition TypeOf (n : node) : option ty := match n with Node _ _ _ t _ _ => t end.
Definition n_kind (n : node) : kind := match n with Node _ _ _ _ k _ => k end.
Definition children (n : node) : list node := match n with Node _ _ _ _ _ cs => cs end.

(** The nodes in the order of [ast.Inspect]. *)
Fixpoint nodes (n : node) : list node :=
  match n with Node _ _ _ _ _ cs => n :: flat_map nodes cs end.

Fixpoint Unparen (n : node) : node :=
  match n with Node _ _ _ _ KParen [x] => Unparen x | _ => n end.

(** [funcOf]: the function that an expression names. *)
Fixpoint funcOf (n : node) : option func :=
  match n with
  | Node _ _ _ _ (KIdent _ (Some (OFunc f))) _ => Some f
  | Node _ _ _ _ (KSelector (Some (o, _))) _ => match o with OFunc f => Some f | _ => None end
  | Node _ _ _ _ (KSelector None) [_; sel] =>
      match n_kind sel with KIdent _ (Some (OFunc f)) => Some f | _ => None end
  | Node _ _ _ _ (KIndex | KIndexList) (x :: _) => funcOf x
  | _ => None
  end.

Definition calleeFunc (call : node) : option func :=
  match children call with f :: _ => funcOf (Unparen f) | [] => None end.

Definition calleeName (call : node) : string :=
  match calleeFunc call with Some f => fn_full f | None => "" end.

Definition is_call (n : node) : bool := match n_kind n with KCall => true | _ => false end.

Definition isBuiltinNew (call : node) : bool :=
  match children call with
  | f :: _ => match n_kind (Unparen f) with KIdent _ (Some (OBuiltin b)) => (b =? "new")%string | _ => false end
  | [] => false
  end.

Definition containsCall (e : node) (name : string) : bool :=
  existsb (fun n => is_call n && (calleeName n =? name)%string) (nodes e).

(** Membership in a set of names. *)
Definition one_of (names : list string) (s : string) : bool := existsb (fun x => (x =? s)%string) names.

(** [constructions]: the places that make a value of a type in the set, with the
    name of the type and how it is made. *)
Definition constructions (set : list string) (file : node) : list (node * string * string) :=
  let made n t how := if one_of set (typeName t) then [(n, typeName t, how)] else [] in
  flat_map (fun n =>
    match n_kind n, children n with
    | KCompositeLit _, _ => made n (TypeOf n) "a composite literal"
    | KCall, [_; a] => if isBuiltinNew n then made n (TypeOf a) "new" else []
    | KValueSpec names true, cs =>
        if (length cs =? S names)%nat then
          match cs !! names with Some t => made n (TypeOf t) "a var declaration" | None => [] end
        else []
    | KStructType, fields =>
        flat_map (fun f => match n_kind f with
                           | KField names => match children f !! names with
                                             | Some t => made f (TypeOf t) "a struct field" | None => [] end
                           | _ => []
                           end) fields
    | _, _ => []
    end) (nodes file).

(** ** Findings of a rule *)

Definition RuleClientAddress : string := "client-address".
Definition RuleOutbound : string := "outbound".
Definition RuleServerErrorLog : string := "server-errorlog".
Definition RuleMetricLabels : string := "metric-labels".
Definition RuleDirective : string := "directive".

Record rawFinding := mkRaw { rf_line : Z; rf_rule : string; rf_msg : string }.

(** [Rule]: the identifier, the policy and the check of a file, which gives for
    each finding the node and the text. [sources] are the full names of the
    functions that a source comment marks. *)
Record Rule := mkRule {
  r_ID : string;
  r_Policy : string;
  r_check : list string -> node -> list (node * string);
}.

(** [report]. *)
Definition report (r : Rule) (nm : node * string) : rawFinding :=
  mkRaw (n_line (fst nm)) (r_ID r) (snd nm +:+ " Policy: " +:+ r_Policy r +:+ ".").

(** ** Outbound connections (rule_outbound.go) *)

Definition outboundFuncs : list string := [
  "net.Dial"; "net.DialTimeout"; "net.DialIP"; "net.DialTCP"; "net.DialUDP"; "net.DialUnix";
  "net.LookupAddr"; "net.LookupCNAME"; "net.LookupHost"; "net.LookupIP"; "net.LookupMX";
  "net.LookupNS"; "net.LookupPort"; "net.LookupSRV"; "net.LookupTXT";
  "crypto/tls.Dial"; "crypto/tls.DialWithDialer";
  "net/http.Get"; "net/http.Head"; "net/http.Post"; "net/http.PostForm";
  "net/smtp.Dial"; "net/smtp.SendMail";
  "github.com/miekg/dns.Exchange"; "github.com/miekg/dns.ExchangeContext";
  "github.com/miekg/dns.ExchangeConn"; "github.com/miekg/dns.Dial";
  "github.com/miekg/dns.DialTimeout"; "github.com/miekg/dns.DialWithTLS";
  "github.com/miekg/dns.DialTimeoutWithTLS";
  "os/exec.Command"; "os/exec.CommandContext"].

Definition outboundTypes : list string := [
  "net/http.Client"; "net/http.Transport"; "net.Dialer"; "net.Resolver";
  "crypto/tls.Dialer"; "github.com/miekg/dns.Client"].

Definition outboundVars : list string := ["net/http.DefaultClient"; "net/http.DefaultTransport"; "net.DefaultResolver"].

Definition checkOutbound (sources : list string) (file : node) : list (node * string) :=
  (flat_map (fun n =>
     match n_kind n with
     | KCall => if one_of outboundFuncs (calleeName n)
                then [(n, calleeName n +:+ " can open an outbound connection.")] else []
     | KIdent _ (Some (OVar (Some path) name)) =>
         if one_of outboundVars (path +:+ "." +:+ name)
         then [(n, path +:+ "." +:+ name +:+ " can open an outbound connection.")] else []
     | _ => []
     end) (nodes file)
   ++ map (fun '(n, name, how) => (n, how +:+ " makes a " +:+ name +:+ ", which can open an outbound connection."))
        (constructions outboundTypes file))%list.

Definition outboundRule : Rule := mkRule RuleOutbound
  ("s-hole connects only to the configured upstreams and blocklist URLs; " +:+
   "a new outbound connection needs a ROADMAP decision first (CLAUDE.md, Privacy first)")
  checkOutbound.

(** ** The error log of an HTTP server (rule_server.go) *)

Definition errorLogFunc : string := "github.com/lcsabi/s-hole/internal/api.newErrorLog".

Definition serveFuncs : list string :=
  ["net/http.ListenAndServe"; "net/http.ListenAndServeTLS"; "net/http.Serve"; "net/http.ServeTLS"].

Definition fix_ : string := "Set ErrorLog: newErrorLog() (internal/api/errorlog.go).".

(** The value of the first [ErrorLog:] of a literal, with its pair. *)
Fixpoint error_log_value (elts : list node) : option (node * node) :=
  match elts with
  | [] => None
  | e :: elts' =>
      match n_kind e, children e with
      | KKeyValue, [key; value] =>
          match n_kind key with
          | KIdent "ErrorLog" _ => Some (e, value)
          | _ => error_log_value elts'
          end
      | _, _ => error_log_value elts'
      end
  end.

Definition check_server (c : node * string * string) : list (node * string) :=
  let '(n, _, how) := c in
  match n_kind n with
  | KCompositeLit typed =>
      match error_log_value (drop (if typed then 1 else 0)%nat (children n)) with
      | Some (kv, value) =>
          let v := Unparen value in
          if is_call v && (calleeName v =? errorLogFunc)%string then []
          else [(kv, "the http.Server ErrorLog is not newErrorLog(). " +:+ fix_)]
      | None => [(n, "the http.Server sets no ErrorLog, so net/http logs the client address. " +:+ fix_)]
      end
  | _ => [(n, how +:+ " makes an http.Server whose ErrorLog the lint cannot check. Use a composite literal. " +:+ fix_)]
  end.

Definition checkServerErrorLog (sources : list string) (file : node) : list (node * string) :=
  (flat_map (fun n =>
     if is_call n && one_of serveFuncs (calleeName n)
     then [(n, calleeName n +:+ " serves HTTP with a server that has no ErrorLog. Make an http.Server. " +:+ fix_)]
     else []) (nodes file)
   ++ flat_map check_server (constructions ["net/http.Server"] file))%list.

Definition serverErrorLogRule : Rule := mkRule RuleServerErrorLog
  ("every http.Server logs through newErrorLog, which replaces each IP address " +:+
   "in net/http's own lines with the word " +:+ String quote_char ("client" +:+ String quote_char
   " (CLAUDE.md, Privacy first; b/103)"))
  checkServerErrorLog.

(** ** The client address (rule_client.go) *)

Definition isBlank (e : node) : bool := match n_kind e with KIdent "_" _ => true | _ => false end.

(** [markCallee]: the function expression of a call. *)
Definition markCallee (e : node) : list Z :=
  let c := Unparen e in
  if is_call c then match children c with f :: _ => [n_id (Unparen f)] | [] => [] end else [].

(** The expression of a type assertion, with a type or of a type switch. *)
Definition asserted (typed_only : bool) (e : node) : list Z :=
  let t := Unparen e in
  match n_kind t, children t with
  | KTypeAssert typed, x :: _ => if negb typed_only || typed then markCallee x else []
  | _, _ => []
  end.

(** The function expressions whose result only a type assertion looks at. *)
Definition typeOnly (file : node) : list Z :=
  flat_map (fun n =>
    match n_kind n, children n with
    | KAssign lhs, l :: _ =>
        match drop lhs (children n) with
        | [rhs] => if isBlank l then asserted true rhs else []
        | _ => []
        end
    | KValueSpec names typed, l :: _ =>
        match drop (names + if typed then 1 else 0)%nat (children n) with
        | [value] => if isBlank l then asserted true value else []
        | _ => []
        end
    | KTypeSwitch init, cs =>
        match cs !! (if init then 1 else 0)%nat with
        | Some assign => match n_kind assign, children assign with
                         | KExprStmt, [x] => asserted false x
                         | _, _ => []
                         end
        | None => []
        end
    | _, _ => []
    end) (nodes file).

Definition isRemoteAddr (f : func) : bool :=
  (fn_name f =? "RemoteAddr")%string && fn_recv f && (fn_params f =? 0)%nat &&
  match fn_results f with [t] => (typeName (Some t) =? "net.Addr")%string | _ => false end.

Fixpoint render (e : node) : string :=
  match e with
  | Node _ _ _ _ (KIdent name _) _ => name
  | Node _ _ _ _ (KSelector _) [x; sel] =>
      render x +:+ "." +:+ match n_kind sel with KIdent name _ => name | _ => "" end
  | Node _ _ _ _ KCall (f :: _) => render f +:+ "()"
  | Node _ _ _ _ KParen [x] => render x
  | Node _ _ _ _ KStar [x] => "*" +:+ render x
  | Node _ _ _ _ KIndex (x :: _) => render x +:+ "[...]"
  | _ => "expression"
  end.

Definition reportFunc (sources : list string) (n : node) (f : func) : list (node * string) :=
  if isRemoteAddr f then [(n, render n +:+ " reads the client address (RemoteAddr). Use the masked address from ServeDNS.")]
  else if one_of sources (fn_full f)
  then [(n, render n +:+ " returns the raw client address (//privacy:source client-address). Use the masked address from ServeDNS.")]
  else [].

(** The names behind the dot of a selector: a selector is visited before them. *)
Definition selIdents (file : node) : list Z :=
  flat_map (fun n => match n_kind n, children n with KSelector _, [_; sel] => [n_id sel] | _, _ => [] end) (nodes file).

Definition in_ids (l : list Z) (i : Z) : bool := existsb (Z.eqb i) l.

(** The field [RemoteAddr] of a request. *)
Definition request_field (n : node) : bool :=
  match n_kind n with
  | KSelector (Some (OVar _ name, recv)) => (name =? "RemoteAddr")%string && (derefName recv =? "net/http.Request")%string
  | _ => false
  end.

Definition check_address (sources : list string) (type_only sel_idents : list Z) (n : node) : list (node * string) :=
  match n_kind n with
  | KSelector _ =>
      if in_ids type_only (n_id n) then []
      else if request_field n then [(n, render n +:+ " reads the client address (http.Request.RemoteAddr).")]
      else match funcOf n with Some f => reportFunc sources n f | None => [] end
  | KIdent _ uses =>
      if in_ids sel_idents (n_id n) || in_ids type_only (n_id n) then []
      else match uses with Some (OFunc f) => reportFunc sources n f | _ => [] end
  | _ => []
  end.

Definition checkClientAddress (sources : list string) (file : node) : list (node * string) :=
  flat_map (check_address sources (typeOnly file) (selIdents file)) (nodes file).

Definition clientAddressRule : Rule := mkRule RuleClientAddress
  ("s-hole reads the client address in one place and masks it at once with querylog.MaskClientIP; " +:+
   "no other code reads it to store, show, or log it (CLAUDE.md, Privacy first)")
  checkClientAddress.

(** ** Metric labels (rule_metrics.go) *)

Definition metricLabels : list (string * string) := [
  ("upstream", "github.com/lcsabi/s-hole/internal/redact.URL");
  ("url", "github.com/lcsabi/s-hole/internal/redact.URL")].

Definition printfFuncs : list (string * nat) := [("fmt.Fprintf", 1%nat); ("fmt.Sprintf", 0%nat); ("fmt.Printf", 0%nat)].

Definition assoc {A} (l : list (string * A)) (k : string) : option A :=
  snd <$> List.find (fun kv => (fst kv =? k)%string) l.

Fixpoint span (f : ascii -> bool) (s : string) : string * string :=
  match s with
  | "" => ("", "")
  | String c s' => if f c then let '(a, b) := span f s' in (String c a, b) else ("", s)
  end.

(** [metricLabelSetRe] at the start of [s]: the prefix, word bytes, a brace, and
    the group up to a closing brace or the end. How far the group starts, and its
    text. *)
Definition label_set_at (s : string) : option (nat * string) :=
  if has_prefix "shole_" s then
    let '(name, rest) := span is_word (drop_bytes 6 s) in
    match rest with
    | String "{" rest' => Some (String.length name + 7, fst (span (fun c => negb (Ascii.eqb c "}")) rest'))%nat
    | _ => None
    end
  else None.

(** Every match, left to right: the offset of the group and its text. [skip] is
    what is left of the match before. *)
Fixpoint label_sets (off skip : nat) (s : string) : list (nat * string) :=
  match s with
  | "" => []
  | String _ s' =>
      match skip with
      | S k => label_sets (S off) k s'
      | O =>
          match label_set_at s with
          | Some (d, inner) => (off + d, inner)%nat :: label_sets (S off) (d + String.length inner - 1)%nat s'
          | None => label_sets (S off) 0 s'
          end
      end
  end.

(** A key and an equals sign at the start of [s]: the key. *)
Definition label_key (s : string) : option string :=
  match s with
  | String c _ =>
      if is_word c && negb (is_digit c) then
        let '(key, rest) := span is_word s in
        match rest with String "=" _ => Some key | _ => None end
      else None
  | "" => None
  end.

Definition is_label_sep (c : ascii) : bool := Ascii.eqb c "," || is_blank c.

(** Every match of [metricLabelRe], which starts at the start of the text, at a
    comma or at white space: the key, and the offset behind the match. *)
Fixpoint label_keys (start : bool) (off skip : nat) (s : string) : list (string * nat) :=
  match s with
  | "" => []
  | String c s' =>
      match skip with
      | S k => label_keys false (S off) k s'
      | O =>
          match (if start then label_key s else None) with
          | Some key => (key, off + String.length key + 1)%nat :: label_keys false (S off) (String.length key) s'
          | None =>
              match (if is_label_sep c then label_key s' else None) with
              | Some key => (key, off + String.length key + 2)%nat :: label_keys false (S off) (S (String.length key)) s'
              | None => label_keys false (S off) 0 s'
              end
          end
      end
  end.

(** [labelValue] on the text from [start] to [end]: how far the value starts, and
    its text. *)
Definition labelValue (s : string) : nat * string :=
  match s with
  | String c s' =>
      if Ascii.eqb c quote_char then
        (1%nat, match cut_byte quote_char s' with Some (v, _) => v | None => s' end)
      else (0%nat, match cut_byte "," s with Some (v, _) => v | None => s end)
  | "" => (0%nat, "")
  end.

(** The bytes between the percent sign and the verb. *)
Definition is_verb_flag (c : ascii) : bool := has_byte c "+-# 0123456789.*[]".

(** Where [verbArgs] is: in the text, behind a percent sign, between it and the
    verb. *)
Inductive verb_mode := InText | AfterPercent (at_ : nat) | InFlags (at_ : nat) (explicit : bool).

(** The index of each verb that starts in [start, end), [None] for a verb with an
    explicit index; [arg] is the index of the next argument. *)
Fixpoint verb_loop (start end_ : nat) (m : verb_mode) (i arg : nat) (s : string) : list (option nat) :=
  let emit at_ (explicit : bool) arg rest :=
    if (start <=? at_)%nat && (at_ <? end_)%nat then (if explicit then None else Some arg) :: rest else rest in
  match s with
  | "" =>
      match m with
      | InText => []
      | AfterPercent at_ => emit at_ false arg []
      | InFlags at_ explicit => emit at_ explicit arg []
      end
  | String c s' =>
      let flags at_ (explicit : bool) :=
        if is_verb_flag c then
          verb_loop start end_ (InFlags at_ (explicit || Ascii.eqb c "[")) (S i) (if Ascii.eqb c "*" then S arg else arg) s'
        else emit at_ explicit arg (verb_loop start end_ InText (S i) (S arg) s') in
      match m with
      | InText => verb_loop start end_ (if Ascii.eqb c "%" then AfterPercent i else InText) (S i) arg s'
      | AfterPercent at_ => if Ascii.eqb c "%" then verb_loop start end_ InText (S i) arg s' else flags at_ false
      | InFlags at_ explicit => flags at_ explicit
      end
  end.

Definition verbArgs (format : string) (start end_ : nat) : list (option nat) := verb_loop start end_ InText 0 0 format.

Definition labelKeys : string := join ", " (sort_strings (map fst metricLabels)).

(** The printf call that a literal is the format of, and the index of the
    format. *)
Definition format_uses (file : node) : list (Z * (node * nat)) :=
  flat_map (fun n =>
    if is_call n then
      match assoc printfFuncs (calleeName n) with
      | Some idx =>
          match children n !! S idx with
          | Some a => let lit := Unparen a in
                      match n_kind lit with KBasicLit _ => [(n_id lit, (n, idx))] | _ => [] end
          | None => []
          end
      | None => []
      end
    else []) (nodes file).

(** The last entry wins, as in the map of the source. *)
Definition format_use (uses : list (Z * (node * nat))) (lit : Z) : option (node * nat) :=
  snd <$> List.find (fun u => (fst u =? lit)%Z) (rev uses).

(** The part of a path behind the last slash. *)
Definition base_name (s : string) : string := match cut_last "/" s with Some (_, b) => b | None => s end.

Section MetricLabels.
Context `{UnicodeQuote}.

(** One label of a set: [off] is where the value starts, [rest] the text from
    there to the end of the set. *)
Definition check_label (uses : list (Z * (node * nat))) (lit : node) (s : string) (key : string) (off : nat) (rest : string)
    : list (node * string) :=
  match assoc metricLabels key with
  | None => [(lit, "metric label " +:+ Quote key +:+ " is not on the label allowlist (" +:+ labelKeys +:+ ").")]
  | Some clean =>
      let '(d, value) := labelValue rest in
      if negb (contains value "%") then []
      else match format_use uses (n_id lit) with
      | None => [(lit, "metric label " +:+ Quote key +:+ " gets its value from a format string that is not the format of fmt.Fprintf, fmt.Sprintf, or fmt.Printf, so the lint cannot check the value.")]
      | Some (call, idx) =>
          flat_map (fun arg =>
            match arg with
            | None => [(lit, "metric label " +:+ Quote key +:+ " uses an explicit argument index (%[n]), which the lint cannot check.")]
            | Some arg =>
                match children call !! S (idx + 1 + arg) with
                | None => []
                | Some a =>
                    if containsCall a clean then []
                    else [(a, "the value of metric label " +:+ Quote key +:+ " does not go through " +:+ base_name clean +:+ ".")]
                end
            end) (verbArgs s (off + d) (off + d + String.length value))
      end
  end.

Definition check_literal (uses : list (Z * (node * nat))) (lit : node) : list (node * string) :=
  match n_kind lit with
  | KBasicLit (Some s) =>
      flat_map (fun '(off, inner) =>
        flat_map (fun '(key, d) => check_label uses lit s key (off + d) (drop_bytes d inner)) (label_keys true 0 0 inner))
        (label_sets 0 0 s)
  | _ => []
  end.

Definition checkMetricLabels (sources : list string) (file : node) : list (node * string) :=
  flat_map (check_literal (format_uses file)) (nodes file).

Definition metricLabelsRule : Rule := mkRule RuleMetricLabels
  ("metrics stay aggregate: no label for a client or a domain on /metrics, " +:+
   "and a URL goes through redact.URL (CLAUDE.md, Privacy first)")
  checkMetricLabels.

(** Every rule, in the order of the report. *)
Definition rules : list Rule := [clientAddressRule; outboundRule; serverErrorLogRule; metricLabelsRule].
End MetricLabels.

(** ** Examples *)

Example sets_and_keys :
  let q := String quote_char "" in
  let s := "shole_x{client=" +:+ q +:+ "%s" +:+ q +:+ ",url=%q} %d shole_y{a" in
  label_sets 0 0 s = [(8, "client=" +:+ q +:+ "%s" +:+ q +:+ ",url=%q"); (39, "a")]%nat /\
  label_keys true 0 0 ("client=" +:+ q +:+ "%s" +:+ q +:+ ",url=%q") = [("client", 7); ("url", 16)]%nat.
Proof. vm_compute. split; reflexivity. Qed.

Example verb_indices :
  verbArgs "%d 100%% %-*.2f %[1]s %q" 0 99 = [Some 0; Some 2; None; Some 4]%nat.
Proof. vm_compute. reflexivity. Qed.

(** ** The numbering of the arguments *)

(** The parts of a format: text, two percent signs, a verb with what is before
    it. *)
Inductive part := PText (t : string) | PPercent | PVerb (flags : string) (verb : ascii).

Definition part_ok (p : part) : Prop :=
  match p with
  | PText t => no_byte "%" t
  | PPercent => True
  | PVerb flags verb =>
      string_forallb is_verb_flag flags = true /\ no_byte "[" flags /\ is_verb_flag verb = false /\
      (flags = "" -> verb <> "%"%char)
  end.

Definition part_text (p : part) : string :=
  match p with PText t => t | PPercent => "%%" | PVerb flags verb => "%" +:+ flags +:+ String verb "" end.

Definition format_text (ps : list part) : string := fold_right (fun p s => part_text p +:+ s) "" ps.

(** What the printf functions print for each verb: where it starts, and the index
    of its argument, which comes after one argument for each star before it. *)
Fixpoint verb_places (i arg : nat) (ps : list part) : list (nat * nat) :=
  match ps with
  | [] => []
  | PVerb flags verb :: ps' =>
      let arg := (arg + count_byte "*" flags)%nat in
      (i, arg) :: verb_places (i + String.length flags + 2) (S arg) ps'
  | p :: ps' => verb_places (i + String.length (part_text p)) arg ps'
  end.

(** The arguments of the verbs that start in a span. *)
Definition in_span (start end_ : nat) (l : list (nat * nat)) : list (option nat) :=
  map (fun p => Some (snd p)) (List.filter (fun p => (start <=? fst p)%nat && (fst p <? end_)%nat) l).

Lemma verb_loop_text start end_ i arg t s :
  no_byte "%" t ->
  verb_loop start end_ InText i arg (t +:+ s) = verb_loop start end_ InText (i + String.length t) arg s.
Proof.
  revert i. induction t as [|c t IH]; intros i; cbn [String.append String.length].
  - by rewrite Nat.add_0_r.
  - rewrite no_byte_cons. intros [Hc Ht]. cbn [verb_loop]. apply Ascii.eqb_neq in Hc as ->.
    rewrite IH by done. f_equal. lia.
Qed.

Lemma verb_loop_flags start end_ at_ i arg flags verb s :
  string_forallb is_verb_flag flags = true -> no_byte "[" flags -> is_verb_flag verb = false ->
  verb_loop start end_ (InFlags at_ false) i arg (flags +:+ String verb s) =
    (in_span start end_ [(at_, (arg + count_byte "*" flags)%nat)]
     ++ verb_loop start end_ InText (i + String.length flags + 1) (S (arg + count_byte "*" flags)) s)%list.
Proof.
  intros Hf Hb Hv. revert i arg Hf Hb. induction flags as [|c flags IH]; intros i arg; cbn [String.append].
  - intros _ _. cbn [verb_loop count_byte String.length]. rewrite Hv, Nat.add_0_r. unfold in_span. simpl.
    replace (i + 0 + 1)%nat with (S i) by lia. by destruct (_ && _).
  - cbn [string_forallb]. rewrite andb_true_iff, no_byte_cons. intros [Hc Hf] [Hne Hb].
    cbn [verb_loop count_byte String.length]. rewrite Hc. apply Ascii.eqb_neq in Hne as ->. cbn [orb].
    rewrite IH, (Ascii.eqb_sym c) by done.
    destruct (Ascii.eqb "*" c); cbn [Nat.add]; repeat f_equal; lia.
Qed.

(** The lint numbers the arguments as the printf functions do: for every format
    of text, percent signs and verbs with flags, widths and stars, the indices
    for a span are those of the arguments that the verbs starting in it print. *)
Theorem verb_args_exact ps start end_ :
  Forall part_ok ps -> verbArgs (format_text ps) start end_ = in_span start end_ (verb_places 0 0 ps).
Proof.
  unfold verbArgs. generalize 0%nat at 2 4 as arg. generalize 0%nat as i.
  intros i arg Hps. revert i arg. induction Hps as [|p ps Hp Hps IH]; intros i arg; [done |].
  cbn [format_text fold_right verb_places]. fold (format_text ps). destruct p as [t| |flags verb].
  - cbn [part_text]. rewrite verb_loop_text by done. apply IH.
  - cbn [part_text]. change ("%%" +:+ format_text ps) with (String "%" (String "%" (format_text ps))).
    cbn [verb_loop]. rewrite !Ascii.eqb_refl, IH. do 2 f_equal. simpl. lia.
  - destruct Hp as (Hf & Hb & Hv & Hne).
    assert (part_text (PVerb flags verb) +:+ format_text ps = String "%" (flags +:+ String verb (format_text ps))) as ->.
    { cbn [part_text]. change ("%" +:+ (flags +:+ String verb "")) with (String "%" (flags +:+ String verb "")).
      cbn [String.append]. by rewrite string_app_assoc. }
    cbn [verb_loop]. rewrite Ascii.eqb_refl.
    assert (verb_loop start end_ (AfterPercent i) (S i) arg (flags +:+ String verb (format_text ps))
      = verb_loop start end_ (InFlags i false) (S i) arg (flags +:+ String verb (format_text ps))) as ->.
    { destruct flags as [|c flags]; cbn [String.append verb_loop].
      - destruct (Ascii.eqb_spec verb "%"); [by destruct Hne | done].
      - simpl in Hf. apply andb_true_iff in Hf as [Hc _].
        destruct (Ascii.eqb_spec c "%") as [->|]; [by vm_compute in Hc | done]. }
    rewrite verb_loop_flags, IH by done. unfold in_span. rewrite <- map_app, <- List.filter_app. cbn [app].
    replace (S i + String.length flags + 1)%nat with (i + String.length flags + 2)%nat by lia. done.
Qed.

Module LintRulesExamples.
(** A star takes an argument before the verb that it belongs to. *)
Definition parts0 : list part := [PVerb "" "d"; PText " of "; PVerb "-*.*" "f"; PPercent; PVerb "" "q"].

Lemma verb_args_exact_witness :
  format_text parts0 = "%d of %-*.*f%%%q" /\ verbArgs (format_text parts0) 3 99 = [Some 3; Some 4]%nat.
Proof.
  assert (Forall part_ok parts0) as Hok.
  { repeat (apply List.Forall_cons; [vm_compute; repeat split; try discriminate; try (intros (x & y & E); destruct x as [|? [|? [|? [|? [|? ?]]]]]; discriminate) |]). apply List.Forall_nil. }
  split; [reflexivity |]. rewrite (verb_args_exact parts0 3 99 Hok). vm_compute. reflexivity.
Defined.
End LintRulesExamples.
