(* ===== verification/LintDirective.v ===== *)
(** * The comments of the privacy lint (internal/privacylint/directive.go)

    A file as the parser returns it: its tree, its text, its comments in groups
    and its function declarations. [parse_comment] reads one comment,
    [parseDirectives] all of them; [FormatExceptions] writes the list of
    exceptions. *)

From stdpp Require Import base numbers list strings sorting.
From Stdlib Require Import Ascii ZArith Lia.
From S2P Require Import Prelude.
From S2P Require Import GoStrings.
From S2P Require Import GoConv.
From S2P Require Import GoRegexp.
From S2P Require Import GoNet.
From S2P Require Import ErrorLog.
From S2P Require Import LintRules.

Open Scope string_scope.

(** ** Files *)

Record comment := mkComment { c_text : string; c_line : Z; c_offset : nat }.

(** A function declaration: its name, the type of its receiver, its full name,
    the group that is its doc comment, its lines and its offsets. *)
Record funcDecl := mkFuncDecl {
  fd_name : string; fd_recv : option node; fd_full : option string; fd_doc : option nat;
  fd_line : Z; fd_last : Z; fd_pos : nat; fd_end : nat }.

Record fileInfo := mkFile {
  f_name : string; f_ast : node; f_src : string; f_groups : list (list comment); f_decls : list funcDecl }.

Record Finding := mkFinding { File : string; Line : Z; FRule : string; Message : string }.

#[export] Instance Finding_eq_dec : EqDecision Finding.
Proof. solve_decision. Defined.

Definition Finding_String (f : Finding) : string :=
  File f +:+ ":" +:+ Itoa (Line f) +:+ ": [" +:+ FRule f +:+ "] " +:+ Message f.

Record Exception := mkException { x_File : string; x_Func : string; x_Kind : string; x_Rule : string; x_ID : string }.

#[export] Instance Exception_eq_dec : EqDecision Exception.
Proof. solve_decision. Defined.

(** [directive]: [d_fn] is the full name of the function that a source comment
    marks, when the type checker knows it. *)
Record directive := mkDirective {
  d_file : string; d_line : Z; d_kind : string; d_rule : string; d_id : string; d_from : Z; d_to : Z;
  d_fn : option string; d_fnName : string; d_used : bool }.

(** ** Where a comment stands *)

Definition codeBefore (f : fileInfo) (c : comment) : bool :=
  let before := take_bytes (c_offset c) (f_src f) in
  let line := match cut_last newline before with Some (_, l) => l | None => before end in
  negb (trim_space line =? "")%string.

(** The nodes that [statementEnds] counts. *)
Definition counts (k : kind) : bool :=
  match k with KAssign _ | KExprStmt | KValueSpec _ _ | KField _ | KSimple => true | _ => false end.

(** [statementEnds]: the last line of the longest statement that starts on a
    line, 0 when none does. *)
Definition statementEnd (f : fileInfo) (line : Z) : Z :=
  fold_left (fun end_ n => if counts (n_kind n) && (n_line n =? line)%Z && (end_ <? n_last n)%Z then n_last n else end_)
    (nodes (f_ast f)) 0%Z.

Definition funcDeclName (fd : funcDecl) : string :=
  match fd_recv fd with
  | None => fd_name fd
  | Some t =>
      let '(star, t) := match n_kind t, children t with KStar, [x] => ("*", x) | _, _ => ("", t) end in
      let t := match n_kind t, children t with (KIndex | KIndexList), x :: _ => x | _, _ => t end in
      let name := match n_kind t with KIdent name _ => name | _ => "?" end in
      "(" +:+ star +:+ name +:+ ")." +:+ fd_name fd
  end.

Definition enclosingFunc (f : fileInfo) (pos : nat) : string :=
  match List.find (fun fd => (fd_pos fd <=? pos)%nat && (pos <? fd_end fd)%nat) (f_decls f) with
  | Some fd => funcDeclName fd
  | None => "-"
  end.

(** The declaration whose doc comment a group is. *)
Definition docOf (f : fileInfo) (g : nat) : option funcDecl :=
  List.find (fun fd => match fd_doc fd with Some d => (d =? g)%nat | None => false end) (rev (f_decls f)).

(** ** The text of a comment *)

Fixpoint RLit (s : string) (r : regexp) : regexp :=
  match s with "" => r | String c s' => RSeq (RByte c) (RLit s' r) end.

Definition spacedRe : regexp :=
  RSeq (RAlt (RLit "//" (RSome is_blank)) (RLit "/*" (RMany is_blank))) (RLit "privacy:" (RMany (fun _ => false))).

(** [MatchString] of a pattern that starts with [^]. *)
Definition match_start (r : regexp) (s : string) : bool := match first_end r (false, s) with Some _ => true | None => false end.

Definition not_blank (c : ascii) : bool := negb (is_blank c).

(** [directiveRe]: the word behind the prefix, and the rest of the comment. *)
Definition directive_text (s : string) : option (string * string) :=
  match CutPrefix s "//privacy:" with
  | None => None
  | Some r => let '(verb, rest) := span not_blank r in if has_byte newline rest then None else Some (verb, rest)
  end.

Definition id_prefixes : list string := ["PRIV-"; "SEC-"; "b/"; "CL "].

(** [idReasonRe]: the ID, when digits, a colon and a reason follow it. *)
Definition id_reason (s : string) : option string :=
  match List.find (fun p => has_prefix p s) id_prefixes with
  | None => None
  | Some p =>
      let '(digits, rest) := span is_digit (drop_bytes (String.length p) s) in
      match CutPrefix rest ": " with
      | Some reason =>
          if negb (digits =? "")%string && starts not_blank reason && negb (has_byte newline reason)
          then Some (p +:+ digits) else None
      | None => None
      end
  end.

Definition sourceKinds : list string := [RuleClientAddress].

Section Directives.
Context `{UnicodeQuote}.

Definition ruleIDs : string := join ", " (map r_ID rules).

(** One comment of group [g]: nothing, a finding, or a directive. *)
Definition parse_comment (f : fileInfo) (g : nat) (c : comment) : option (Finding + directive) :=
  let fail msg := Some (inl (mkFinding (f_name f) (c_line c) RuleDirective msg)) in
  if match_start spacedRe (c_text c) then
    fail "write a privacy comment as a line comment //privacy:..., with no space after //."
  else match directive_text (c_text c) with
  | None => None
  | Some (verb, rest) =>
      let rest := trim_prefix rest " " in
      if negb (verb =? "allow")%string && negb (verb =? "source")%string then
        fail ("unknown privacy comment //privacy:" +:+ verb +:+ ". Use //privacy:allow or //privacy:source.")
      else
        let '(name, idReason) := match cut_byte " " rest with Some (a, b) => (a, b) | None => (rest, "") end in
        if (verb =? "allow")%string && ((name =? RuleDirective)%string || negb (one_of (map r_ID rules) name)) then
          fail ("//privacy:allow names an unknown rule " +:+ Quote name +:+ ". The rules are " +:+ ruleIDs +:+ ".")
        else if (verb =? "source")%string && negb (one_of sourceKinds name) then
          fail ("//privacy:source names an unknown kind " +:+ Quote name +:+ ". The kind is client-address.")
        else match id_reason idReason with
        | None => fail ("//privacy:" +:+ verb +:+ " " +:+ name +:+ " needs an ID (PRIV-NN, SEC-NN, b/NNN, or CL NN), a colon, and a reason.")
        | Some id =>
            let line := c_line c in
            if (verb =? "source")%string then
              match docOf f g with
              | None => fail "put //privacy:source in the doc comment of a function."
              | Some fd =>
                  Some (inr (mkDirective (f_name f) line verb name id (fd_line fd) (fd_last fd) (fd_full fd)
                               (funcDeclName fd) false))
              end
            else
              let '(from, to) :=
                if codeBefore f c then (line, line)
                else let e := statementEnd f (line + 1) in (line + 1, if (0 <? e)%Z then e else line + 1)%Z in
              Some (inr (mkDirective (f_name f) line verb name id from to None (enclosingFunc f (c_offset c)) false))
        end
  end.

Definition comments_of (f : fileInfo) : list (nat * comment) :=
  concat (imap (fun g cs => map (fun c => (g, c)) cs) (f_groups f)).

Definition parsed (f : fileInfo) : list (Finding + directive) :=
  omap (fun gc => parse_comment f (fst gc) (snd gc)) (comments_of f).

(** [parseDirectives]: the findings and the directives. *)
Definition parseDirectives (f : fileInfo) : list Finding * list directive :=
  (omap (fun x => match x with inl b => Some b | inr _ => None end) (parsed f),
   omap (fun x => match x with inr d => Some d | inl _ => None end) (parsed f)).
End Directives.

(** [allowing] a raw finding. *)
Definition covers (rf : rawFinding) (d : directive) : bool :=
  (d_rule d =? rf_rule rf)%string && (d_from d <=? rf_line rf)%Z && (rf_line rf <=? d_to d)%Z.

Definition unusedFinding (d : directive) : Finding :=
  mkFinding (d_file d) (d_line d) RuleDirective
    (if (d_kind d =? "source")%string
     then "this //privacy:source " +:+ d_rule d +:+ " comment marks a function that reads no client address. Remove it."
     else "this //privacy:allow " +:+ d_rule d +:+ " comment allows no finding. Remove it.").

Definition exception (d : directive) : Exception :=
  mkException (d_file d) (d_fnName d) (d_kind d) (d_rule d) (d_id d).

(** ** The list of exceptions *)

(** The order of [sortExceptions]: the first field that differs decides. *)
Definition fields_of (x : Exception) : list string := [x_File x; x_Func x; x_Kind x; x_Rule x; x_ID x].

Fixpoint fields_le (a b : list string) : Prop :=
  match a, b with
  | x :: a', y :: b' => if decide (x = y) then fields_le a' b' else String.le x y
  | _, _ => True
  end.

Definition exception_le (a b : Exception) : Prop := fields_le (fields_of a) (fields_of b).

Fixpoint fields_le_dec a b : Decision (fields_le a b).
Proof.
  destruct a as [|x a]; [left; done |]. destruct b as [|y b]; [left; done |]. simpl.
  destruct (decide (x = y)); [apply fields_le_dec | apply _].
Defined.
#[export] Existing Instance fields_le_dec.

#[export] Instance exception_le_dec : RelDecision exception_le.
Proof. intros a b. unfold exception_le. apply _. Defined.

Definition sortExceptions (l : list Exception) : list Exception := merge_sort exception_le l.

Definition tab : ascii := "009"%char.

Definition exceptionsHeader : string :=
  join (String newline "") [
    "# Privacy lint exceptions: every //privacy:allow and //privacy:source comment";
    "# that the code needs. This file is generated. Do not edit it. When you add,";
    "# move, or remove such a comment, run:";
    "#";
    "#   go test ./internal/privacylint -run TestRepository -update";
    "#";
    "# Then review the change to this file like any other privacy change.";
    "# Columns (separated by tabs): file, function, kind, rule, ID.";
    ""].

Definition exception_line (x : Exception) : string := join (String tab "") (fields_of x) +:+ String newline "".

Definition FormatExceptions (l : list Exception) : string :=
  exceptionsHeader +:+ join "" (map exception_line (sortExceptions l)).

(** ** One order of the exceptions *)

Lemma fields_le_total a b : length a = length b -> fields_le a b \/ fields_le b a.
Proof.
  revert b. induction a as [|x a IH]; intros [|y b]; [by left | done | done |]. intros [= Hl]. simpl.
  destruct (decide (x = y)) as [->|Hne]; [rewrite decide_True by done; by apply IH |].
  rewrite decide_False by done. apply (total String.le).
Qed.

Lemma fields_le_antisymm a b : length a = length b -> fields_le a b -> fields_le b a -> a = b.
Proof.
  revert b. induction a as [|x a IH]; intros [|y b]; [done | done | done |]. intros [= Hl]. simpl.
  destruct (decide (x = y)) as [->|Hne].
  - rewrite decide_True by done. intros ??. f_equal. by apply IH.
  - rewrite decide_False by done. intros Hxy Hyx. by destruct Hne; apply (anti_symm String.le).
Qed.

Lemma fields_le_trans a b c :
  length a = length b -> length b = length c -> fields_le a b -> fields_le b c -> fields_le a c.
Proof.
  revert b c. induction a as [|x a IH]; intros [|y b] [|z c]; try done. intros [= H1] [= H2]. simpl.
  destruct (decide (x = y)) as [->|Hxy], (decide (y = z)) as [->|Hyz]; intros Hab Hbc.
  - by eapply IH.
  - done.
  - by rewrite decide_False.
  - destruct (decide (x = z)) as [->|]; [|by etrans]. destruct Hyz. by apply (anti_symm String.le).
Qed.

#[export] Instance exception_le_total : Total exception_le.
Proof. intros a b. by apply fields_le_total. Qed.

#[export] Instance exception_le_trans : Transitive exception_le.
Proof. intros a b c. by apply fields_le_trans. Qed.

#[export] Instance exception_le_antisymm : AntiSymm eq exception_le.
Proof.
  intros a b Hab Hba. assert (fields_of a = fields_of b) as E by by apply fields_le_antisymm.
  destruct a, b. unfold fields_of in E. simpl in E. by injection E as -> -> -> -> ->.
Qed.

(** The list of exceptions does not depend on the order in which the lint found
    them: the file that it writes is the same for every order, each exception
    is one line of it, and the lines come in the order of their columns. *)
Theorem exceptions_file_stable l l' :
  l ≡ₚ l' -> FormatExceptions l = FormatExceptions l' /\ sortExceptions l ≡ₚ l /\ Sorted exception_le (sortExceptions l).
Proof.
  intros Hl. split; [|split; [apply merge_sort_Permutation | apply Sorted_merge_sort, _]].
  unfold FormatExceptions. do 3 f_equal.
  apply (Sorted_unique exception_le); [apply Sorted_merge_sort, _.. |].
  unfold sortExceptions. by rewrite !merge_sort_Permutation.
Qed.

(** ** The text of a directive *)

Lemma span_spec f s u r : span f s = (u, r) -> s = u +:+ r /\ string_forallb f u = true /\ starts f r = false.
Proof.
  revert u r. induction s as [|c s IH]; intros u r; cbn [span]; [by intros [= <- <-] |].
  destruct (f c) eqn:Hc.
  - destruct (span f s) as [a b]. destruct (IH a b eq_refl) as (-> & Ha & Hb). intros [= <- <-].
    cbn [string_forallb]. by rewrite Hc.
  - intros [= <- <-]. done.
Qed.

Lemma span_app f u s : string_forallb f u = true -> starts f s = false -> span f (u +:+ s) = (u, s).
Proof.
  intros Hu Hs. induction u as [|c u IH]; cbn [String.append span].
  - destruct s as [|c s]; [done |]. cbn [starts] in Hs. cbn [span]. by rewrite Hs.
  - cbn [string_forallb] in Hu. apply andb_true_iff in Hu as [-> Hu]. by rewrite IH.
Qed.

Lemma has_byte_false c s : has_byte c s = false <-> no_byte c s.
Proof.
  unfold has_byte, no_byte. rewrite <- cut_byte_None. by destruct (cut_byte c s).
Qed.

Lemma CutPrefix_app p s : CutPrefix (p +:+ s) p = Some s.
Proof.
  unfold CutPrefix. assert (has_prefix p (p +:+ s) = true) as -> by (apply has_prefix_spec; by exists s).
  by rewrite drop_bytes_app.
Qed.

(** An ID: one of the prefixes and digits. *)
Definition id_ok (id : string) : Prop :=
  exists p digits, p ∈ id_prefixes /\ id = p +:+ digits /\ string_forallb is_digit digits = true /\ digits <> "".

(** A reason: it starts with something other than white space and is one line. *)
Definition reason_ok (r : string) : Prop := starts not_blank r = true /\ no_byte newline r.

Lemma id_reason_spec s id : id_reason s = Some id -> exists reason, s = id +:+ ": " +:+ reason /\ id_ok id /\ reason_ok reason.
Proof.
  unfold id_reason. destruct (List.find _ _) as [p|] eqn:Hp; [|done].
  apply List.find_some in Hp as [Hin Hp]. apply has_prefix_spec in Hp as [t ->]. rewrite drop_bytes_app.
  destruct (span is_digit t) as [digits rest] eqn:Hs. apply span_spec in Hs as (-> & Hd & _).
  destruct (CutPrefix rest ": ") as [reason|] eqn:Hr; [|done]. apply CutPrefix_spec in Hr as ->.
  destruct (String.eqb_spec digits ""); cbn [negb andb]; [done |].
  destruct (starts not_blank reason) eqn:Hb; cbn [andb]; [|done].
  destruct (has_byte newline reason) eqn:Hn; cbn [negb]; [done |]. intros [= <-].
  exists reason. split; [by rewrite string_app_assoc |]. split; [|split; [done | by apply has_byte_false]].
  exists p, digits. split_and!; [by apply list_elem_of_In | done..].
Qed.

Lemma id_reason_app id reason : id_ok id -> reason_ok reason -> id_reason (id +:+ ": " +:+ reason) = Some id.
Proof.
  intros (p & digits & Hp & -> & Hd & Hn) [Hr Hnl]. unfold id_reason. rewrite string_app_assoc.
  assert (List.find (fun p0 => has_prefix p0 (p +:+ digits +:+ ": " +:+ reason)) id_prefixes = Some p) as ->.
  { unfold id_prefixes in Hp. rewrite !elem_of_cons, elem_of_nil in Hp.
    destruct Hp as [-> | [-> | [-> | [-> | []]]]]; reflexivity. }
  rewrite drop_bytes_app, span_app by done. rewrite CutPrefix_app, Hr.
  apply String.eqb_neq in Hn as ->. apply has_byte_false in Hnl as ->. done.
Qed.

Section DirectiveText.
Context `{UnicodeQuote}.

(** The rules that a comment of the kind can name. *)
Definition names_rule (kind rule : string) : Prop :=
  (kind = "allow" /\ rule ∈ [RuleClientAddress; RuleOutbound; RuleServerErrorLog; RuleMetricLabels]) \/
  (kind = "source" /\ rule = RuleClientAddress).

Definition directive_form (kind rule id reason : string) : string :=
  "//privacy:" +:+ kind +:+ " " +:+ rule +:+ " " +:+ id +:+ ": " +:+ reason.

Lemma one_of_elem names s : one_of names s = true <-> s ∈ names.
Proof.
  unfold one_of. rewrite existsb_elem. split.
  - intros (x & Hx & ->%String.eqb_eq). done.
  - intros Hs. exists s. by rewrite String.eqb_refl.
Qed.

Lemma cut_space_name s a b :
  match cut_byte " " s with Some (u, v) => (u, v) | None => (s, "") end = (a, b) -> s = a +:+ " " +:+ b \/ (s = a /\ b = "").
Proof.
  destruct (cut_byte " " s) as [[u v]|] eqn:Hc; intros [= <- <-]; [left | by right].
  by apply cut_byte_Some in Hc as [-> _].
Qed.

(** The name and the identifier of a directive that is read are where the form
    has them. *)
Lemma read_form verb rest rule idReason id :
  trim_prefix rest " " = rule +:+ " " +:+ idReason \/ (trim_prefix rest " " = rule /\ idReason = "") ->
  names_rule verb rule -> starts not_blank rest = false -> id_reason idReason = Some id ->
  exists reason, verb +:+ rest = verb +:+ " " +:+ rule +:+ " " +:+ id +:+ ": " +:+ reason /\ id_ok id /\ reason_ok reason.
Proof.
  intros Hrest Hrule Hblank Hid. destruct (id_reason_spec _ _ Hid) as (reason & -> & Hok & Hre).
  exists reason. split; [|done]. f_equal.
  destruct Hrest as [Hrest | [_ Hempty]].
  2: { destruct Hok as (p & d & _ & -> & _). destruct p; [destruct d |]; discriminate. }
  unfold trim_prefix in Hrest. destruct (has_prefix " " rest) eqn:Hp.
  - apply has_prefix_spec in Hp as [t ->]. rewrite drop_bytes_app in Hrest. by rewrite Hrest.
  - exfalso. rewrite Hrest in Hblank. unfold names_rule in Hrule. rewrite !elem_of_cons, elem_of_nil in Hrule.
    destruct Hrule as [[_ [-> | [-> | [-> | [-> | []]]]]] | [_ ->]]; discriminate.
Qed.

(** What a directive says of its place. *)
Definition placed (f : fileInfo) (g : nat) (c : comment) (d : directive) : Prop :=
  d_file d = f_name f /\ d_line d = c_line c /\ d_used d = false /\
  ((d_kind d = "source" /\ exists fd, docOf f g = Some fd /\ d_from d = fd_line fd /\ d_to d = fd_last fd /\
      d_fn d = fd_full fd /\ d_fnName d = funcDeclName fd) \/
   (d_kind d = "allow" /\ d_fn d = None /\ d_fnName d = enclosingFunc f (c_offset c) /\
      d_from d = (if codeBefore f c then c_line c else c_line c + 1)%Z /\
      d_to d = (if codeBefore f c then c_line c
                else let e := statementEnd f (c_line c + 1) in if 0 <? e then e else c_line c + 1)%Z)).

Lemma directive_sound f g c d :
  parse_comment f g c = Some (inr d) ->
  exists reason, c_text c = directive_form (d_kind d) (d_rule d) (d_id d) reason /\
    names_rule (d_kind d) (d_rule d) /\ id_ok (d_id d) /\ reason_ok reason /\ placed f g c d.
Proof.
  unfold parse_comment. destruct (match_start _ _); [done |].
  destruct (directive_text (c_text c)) as [[verb rest]|] eqn:Ht; [|done].
  destruct (negb (verb =? "allow")%string && negb (verb =? "source")%string) eqn:Hverb; [done |].
  destruct (match cut_byte _ _ with Some _ => _ | None => _ end) as [name idReason] eqn:Hcut. apply cut_space_name in Hcut.
  destruct ((verb =? "allow")%string && _) eqn:Hallow; [done |].
  destruct ((verb =? "source")%string && _) eqn:Hsource; [done |].
  destruct (id_reason idReason) as [id|] eqn:Hid; [|done].
  assert (names_rule verb name) as Hrule.
  { destruct (String.eqb_spec verb "allow") as [->|]; cbn [andb negb orb] in *.
    - left. split; [done |]. apply orb_false_iff in Hallow as [_ Hr]. apply negb_false_iff, one_of_elem in Hr. exact Hr.
    - destruct (String.eqb_spec verb "source") as [->|]; [|done]. right. split; [done |]. cbn [andb] in Hsource.
      apply negb_false_iff, one_of_elem in Hsource. by apply list_elem_of_singleton in Hsource. }
  unfold directive_text in Ht. destruct (CutPrefix (c_text c) "//privacy:") as [r|] eqn:Hr; [|done].
  apply CutPrefix_spec in Hr. destruct (span not_blank r) as [v0 r0] eqn:Hs. destruct (has_byte newline r0); [done |].
  injection Ht as -> ->. apply span_spec in Hs as (-> & _ & Hblank).
  destruct (read_form _ _ _ _ _ Hcut Hrule Hblank Hid) as (reason & Hform & Hok & Hre).
  rewrite Hform in Hr. intros Hd. exists reason.
  assert (d_kind d = verb /\ d_rule d = name /\ d_id d = id /\ placed f g c d) as (-> & -> & -> & Hplace); [|done].
  unfold placed. destruct (String.eqb_spec verb "source") as [->|Hne].
  - destruct (docOf f g) as [fd|]; [|done]. injection Hd as <-. cbn. split_and!; try done. left. split; [done |]. by exists fd.
  - assert (verb = "allow") as -> by (destruct (String.eqb_spec verb "allow"); [done |]; destruct (String.eqb_spec verb "source"); done).
    destruct (codeBefore f c); injection Hd as <-; cbn; split_and!; try done; right; done.
Qed.

Lemma spaced_no_match t : match_start spacedRe ("//privacy:" +:+ t) = false.
Proof. reflexivity. Qed.

Lemma names_no_byte (c : ascii) kind rule :
  negb (has_byte c (RuleClientAddress +:+ RuleOutbound +:+ RuleServerErrorLog +:+ RuleMetricLabels)) = true ->
  names_rule kind rule -> no_byte c rule.
Proof.
  intros Hc%negb_true_iff%has_byte_false. rewrite !no_byte_app in Hc. unfold names_rule. rewrite !elem_of_cons, elem_of_nil.
  intros [[_ [-> | [-> | [-> | [-> | []]]]]] | [_ ->]]; tauto.
Qed.

Lemma directive_text_form kind rule id reason :
  names_rule kind rule -> id_ok id -> reason_ok reason ->
  directive_text (directive_form kind rule id reason) = Some (kind, " " +:+ rule +:+ " " +:+ id +:+ ": " +:+ reason).
Proof.
  intros Hrule (p & digits & Hp & -> & Hd & _) [_ Hr]. unfold directive_text, directive_form. rewrite CutPrefix_app.
  rewrite span_app; [| by destruct Hrule as [[-> _] | [-> _]] | done].
  assert (has_byte newline (" " +:+ rule +:+ " " +:+ (p +:+ digits) +:+ ": " +:+ reason) = false) as ->; [|done].
  apply has_byte_false. rewrite !no_byte_app.
  assert (no_byte newline digits) by by eapply (no_byte_class is_digit).
  assert (no_byte newline " " /\ no_byte newline ": ") as [? ?] by (split; by apply no_byte_bool).
  assert (no_byte newline rule) by by eapply names_no_byte.
  assert (no_byte newline p); [|by split_and!].
  unfold id_prefixes in Hp. rewrite !elem_of_cons, elem_of_nil in Hp.
  destruct Hp as [-> | [-> | [-> | [-> | []]]]]; by apply no_byte_bool.
Qed.

Lemma directive_complete f g c d reason :
  c_text c = directive_form (d_kind d) (d_rule d) (d_id d) reason ->
  names_rule (d_kind d) (d_rule d) -> id_ok (d_id d) -> reason_ok reason -> placed f g c d ->
  parse_comment f g c = Some (inr d).
Proof.
  intros Ht Hrule Hid Hre (Hfile & Hline & Hused & Hplace). unfold parse_comment.
  rewrite Ht, directive_text_form by done. unfold directive_form. rewrite spaced_no_match.
  set (tail := d_id d +:+ ": " +:+ reason).
  assert (trim_prefix (" " +:+ d_rule d +:+ " " +:+ tail) " " = d_rule d +:+ " " +:+ tail) as -> by apply trim_prefix_app.
  change (d_rule d +:+ " " +:+ tail) with (d_rule d +:+ String " " tail).
  rewrite cut_byte_app by by eapply names_no_byte.
  assert (((d_rule d =? RuleDirective)%string || negb (one_of (map r_ID rules) (d_rule d))) = false) as ->.
  { unfold names_rule in Hrule. rewrite !elem_of_cons, elem_of_nil in Hrule.
    by destruct Hrule as [[_ [-> | [-> | [-> | [-> | []]]]]] | [_ ->]]. }
  subst tail. rewrite id_reason_app, andb_false_r by done.
  destruct d as [dfile dline dkind drule did dfrom dto dfn dname dused]. cbn in *. subst dfile dline dused.
  destruct Hplace as [(-> & fd & -> & -> & -> & -> & ->) | (-> & -> & -> & -> & ->)]; cbn.
  - destruct Hrule as [[? _] | [_ ->]]; [done |]. reflexivity.
  - by destruct (codeBefore f c).
Qed.

End DirectiveText.
