(* ===== verification/Lint.v ===== *)
(** * The run of the privacy lint (internal/privacylint/privacylint.go)

    The analysis of a set of packages, in two passes over their files: the
    comments first, then the rules, whose findings a comment can allow. The
    merger joins the analyses for several systems. Loading and type-checking the
    packages is the work of the go command and of go/types: a unit is what they
    return. *)

From stdpp Require Import base numbers list gmap strings sorting.
From Stdlib Require Import Ascii ZArith Lia.
From S2P Require Import Prelude.
From S2P Require Import GoStrings.
From S2P Require Import GoConv.
From S2P Require Import GoNet.
From S2P Require Import LintRules.
From S2P Require Import LintDirective.

Open Scope string_scope.

(** The packages type-checked together for one system, as their files. *)
Definition unit_ : Type := list (list fileInfo).

Definition files (u : unit_) : list fileInfo := concat u.

Record analysis := mkAnalysis { a_findings : list Finding; a_directives : list directive }.

Definition set_used (d : directive) : directive :=
  mkDirective (d_file d) (d_line d) (d_kind d) (d_rule d) (d_id d) (d_from d) (d_to d) (d_fn d) (d_fnName d) true.

(** [allowing]: marks the first directive that allows the finding. *)
Fixpoint allow (rf : rawFinding) (ds : list directive) : option (list directive) :=
  match ds with
  | [] => None
  | d :: ds' => if covers rf d then Some (set_used d :: ds') else cons d <$> allow rf ds'
  end.

Definition finding_of (f : fileInfo) (rf : rawFinding) : Finding :=
  mkFinding (f_name f) (rf_line rf) (rf_rule rf) (rf_msg rf).

(** The findings of one file, in order: each marks a directive or stays. *)
Definition judge (f : fileInfo) (acc : list directive * list Finding) (rf : rawFinding) : list directive * list Finding :=
  match allow rf (fst acc) with
  | Some ds => (ds, snd acc)
  | None => (fst acc, snd acc ++ [finding_of f rf])%list
  end.

Section Run.
Context `{UnicodeQuote}.

(** The full names of the functions that the source comments of the unit mark. *)
Definition sources_of (u : unit_) : list string :=
  flat_map (fun f =>
    omap (fun d => if (d_kind d =? "source")%string && (d_rule d =? RuleClientAddress)%string then d_fn d else None)
      (snd (parseDirectives f))) (files u).

Definition raw_findings (sources : list string) (f : fileInfo) : list rawFinding :=
  flat_map (fun r => map (report r) (r_check r sources (f_ast f))) rules.

Definition judged (sources : list string) (f : fileInfo) : list directive * list Finding :=
  fold_left (judge f) (raw_findings sources f) (snd (parseDirectives f), []).

Definition analyze (u : unit_) : analysis :=
  let sources := sources_of u in
  mkAnalysis (flat_map (fun f => fst (parseDirectives f)) (files u) ++ flat_map (fun f => snd (judged sources f)) (files u))
    (flat_map (fun f => fst (judged sources f)) (files u)).
End Run.

(** ** The merger *)

Record merger := mkMerger {
  m_findings : gmap string Finding; m_directives : gmap string directive; m_order : list string }.

Definition newMerger : merger := mkMerger ∅ ∅ [].

Definition key (d : directive) : string := d_file d +:+ ":" +:+ Itoa (d_line d).

Definition add_directive (acc : gmap string directive * list string) (d : directive) : gmap string directive * list string :=
  let '(m, order) := acc in
  match m !! key d with
  | Some old => (<[key d := if d_used d then set_used old else old]> m, order)
  | None => (<[key d := d]> m, order ++ [key d])%list
  end.

Definition add_finding (m : gmap string Finding) (f : Finding) : gmap string Finding := <[Finding_String f := f]> m.

Definition merger_add (m : merger) (a : analysis) : merger :=
  let '(ds, order) := fold_left add_directive (a_directives a) (m_directives m, m_order m) in
  mkMerger (fold_left add_finding (a_findings a) (m_findings m)) ds order.

Record Result := mkResult { Findings : list Finding; Exceptions : list Exception }.

(** The order of the findings: file, line, rule, message. *)
Definition finding_le (a b : Finding) : Prop :=
  if decide (File a = File b) then
    if decide (Line a = Line b) then
      if decide (FRule a = FRule b) then String.le (Message a) (Message b) else String.le (FRule a) (FRule b)
    else (Line a <= Line b)%Z
  else String.le (File a) (File b).

#[export] Instance finding_le_dec : RelDecision finding_le.
Proof. intros a b. unfold finding_le. repeat case_decide; apply _. Defined.

(** One key of the merger: an unused comment is a finding, a used one an
    exception. *)
Definition settle (ds : gmap string directive) (acc : gmap string Finding * list Exception) (k : string)
    : gmap string Finding * list Exception :=
  match ds !! k with
  | None => acc
  | Some d =>
      if d_used d then (fst acc, snd acc ++ [exception d])%list
      else (<[k +:+ ":unused" := unusedFinding d]> (fst acc), snd acc)
  end.

Definition result (m : merger) : Result :=
  let '(fs, xs) := fold_left (settle (m_directives m)) (m_order m) (m_findings m, []) in
  mkResult (merge_sort finding_le (map snd (map_to_list fs))) (sortExceptions xs).

(** [Run] on the units of the systems it checks. *)
Definition Run `{UnicodeQuote} (us : list unit_) : Result :=
  result (fold_left merger_add (map analyze us) newMerger).

(** ** One file: every finding stays or marks a directive *)

(** Two directives that differ at most in whether they are used. *)
Definition same_place (d d' : directive) : Prop := set_used d = set_used d'.

Lemma covers_same rf d d' : same_place d d' -> covers rf d = covers rf d'.
Proof. destruct d, d'. unfold same_place, set_used, covers. simpl. by intros [= -> -> -> -> -> -> -> -> ->]. Qed.

Lemma key_same d d' : same_place d d' -> key d = key d'.
Proof. destruct d, d'. unfold same_place, set_used, key. simpl. by intros [= -> -> -> -> -> -> -> -> ->]. Qed.

Lemma same_place_refl d : same_place d d.
Proof. done. Qed.

#[local] Hint Resolve same_place_refl : core.

Lemma same_place_sym d d' : same_place d d' -> same_place d' d.
Proof. unfold same_place. done. Qed.

Lemma same_place_trans a b c : same_place a b -> same_place b c -> same_place a c.
Proof. unfold same_place. congruence. Qed.

Lemma same_place_used d : same_place (set_used d) d.
Proof. done. Qed.

Lemma Forall2_same_refl l : Forall2 same_place l l.
Proof. induction l; constructor; [apply same_place_refl | done]. Qed.

(** What [allow] does: nothing covers the finding, or one directive is marked. *)
Lemma allow_spec rf ds :
  match allow rf ds with
  | Some ds' => exists l d r, ds = (l ++ d :: r)%list /\ ds' = (l ++ set_used d :: r)%list /\ covers rf d = true
  | None => forall d, d ∈ ds -> covers rf d = false
  end.
Proof.
  induction ds as [|d ds IH]; cbn [allow]; [by intros d ?%elem_of_nil |].
  destruct (covers rf d) eqn:Hc; [by exists [], d, ds |].
  destruct (allow rf ds) as [ds'|]; cbn.
  - destruct IH as (l & d0 & r & -> & -> & H). by exists (d :: l), d0, r.
  - intros d' [-> | Hd]%elem_of_cons; auto.
Qed.

(** The state while the findings of a file are judged: [ds0] are its directives,
    [done] the findings so far. *)
Definition judge_inv (f : fileInfo) (ds0 : list directive) (done_ : list rawFinding) (acc : list directive * list Finding) : Prop :=
  Forall2 same_place ds0 (fst acc) /\
  (forall rf, rf ∈ done_ -> finding_of f rf ∈ snd acc \/ exists d, d ∈ fst acc /\ d_used d = true /\ covers rf d = true) /\
  (forall d, d ∈ fst acc -> d_used d = true -> exists rf, rf ∈ done_ /\ covers rf d = true) /\
  (forall x, x ∈ snd acc -> exists rf, rf ∈ done_ /\ x = finding_of f rf).

Lemma mark_same l d r : Forall2 same_place (l ++ d :: r) (l ++ set_used d :: r).
Proof.
  apply Forall2_app; [apply Forall2_same_refl |]. constructor; [apply same_place_sym, same_place_used | apply Forall2_same_refl].
Qed.

Lemma Forall2_same_trans a b c : Forall2 same_place a b -> Forall2 same_place b c -> Forall2 same_place a c.
Proof.
  intros Hab. revert c. induction Hab as [|x y a b Hxy Hab IH]; intros c Hbc; [done |].
  inversion Hbc as [|? z ? c' Hyz Hbc']; subst. constructor; [by eapply same_place_trans | by apply IH].
Qed.

Lemma judge_step f ds0 done_ acc rf :
  judge_inv f ds0 done_ acc -> judge_inv f ds0 (done_ ++ [rf]) (judge f acc rf).
Proof.
  destruct acc as [ds fs]. unfold judge, judge_inv. cbn [fst snd]. intros (Hs & Hd & Hu & Hf).
  pose proof (allow_spec rf ds) as Ha. destruct (allow rf ds) as [ds'|]; cbn [fst snd].
  - destruct Ha as (l & d & r & -> & -> & Hc). split_and!.
    + eapply Forall2_same_trans; [done | apply mark_same].
    + intros rf' [Hin | ->%list_elem_of_singleton]%elem_of_app.
      * destruct (Hd rf' Hin) as [? | (d' & Hd' & Hud & Hcd)]; [by left | right].
        apply elem_of_app in Hd' as [Hl | [-> | Hr]%elem_of_cons].
        -- exists d'. rewrite elem_of_app. auto.
        -- exists (set_used d). rewrite elem_of_app, elem_of_cons. rewrite (covers_same _ _ d) by apply same_place_used. auto.
        -- exists d'. rewrite elem_of_app, elem_of_cons. auto.
      * right. exists (set_used d). rewrite elem_of_app, elem_of_cons, (covers_same _ _ d) by apply same_place_used. auto.
    + intros d' Hd' Hud. assert (d' ∈ (l ++ d :: r)%list /\ d_used d' = true \/ d' = set_used d) as [[Hold Hold'] | ->].
      { apply elem_of_app in Hd' as [Hl | [-> | Hr]%elem_of_cons]; [| by right |];
          left; rewrite elem_of_app, elem_of_cons; auto. }
      * destruct (Hu d' Hold Hold') as (rf' & Hrf & Hcov). exists rf'. rewrite elem_of_app. auto.
      * exists rf. rewrite elem_of_app, list_elem_of_singleton, (covers_same _ _ d) by apply same_place_used. auto.
    + intros x (rf' & Hrf & ->)%Hf. exists rf'. rewrite elem_of_app. auto.
  - split_and!; [done | | |].
    + intros rf' [Hin | ->%list_elem_of_singleton]%elem_of_app.
      * destruct (Hd rf' Hin) as [? | ?]; [left | by right]. rewrite elem_of_app. auto.
      * left. rewrite elem_of_app, list_elem_of_singleton. auto.
    + intros d Hin Hud. destruct (Hu d Hin Hud) as (rf' & Hrf & Hcov). exists rf'. rewrite elem_of_app. auto.
    + intros x [(rf' & Hrf & ->)%Hf | ->%list_elem_of_singleton]%elem_of_app;
        [exists rf' | exists rf]; rewrite elem_of_app, list_elem_of_singleton; auto.
Qed.

Lemma judge_all f ds0 rfs :
  Forall (fun d => d_used d = false) ds0 ->
  judge_inv f ds0 rfs (fold_left (judge f) rfs (ds0, [])).
Proof.
  intros Hu. induction rfs as [|rf rfs IH] using rev_ind.
  - simpl. unfold judge_inv. cbn [fst snd]. split_and!.
    + apply Forall2_same_refl.
    + by intros rf ?%elem_of_nil.
    + intros d Hd Hud. rewrite Forall_forall in Hu. rewrite (Hu d Hd) in Hud. done.
    + by intros x ?%elem_of_nil.
  - rewrite fold_left_app. cbn [fold_left]. by apply judge_step.
Qed.

(** ** The merger keeps every finding and one directive of each place *)

Definition merge_inv (added : list directive) (acc : gmap string directive * list string) : Prop :=
  (forall d, d ∈ added -> exists d', fst acc !! key d = Some d' /\ (d_used d = true -> d_used d' = true)) /\
  (forall k d', fst acc !! k = Some d' -> key d' = k /\ (exists d, d ∈ added /\ same_place d' d) /\
     (d_used d' = true -> exists d, d ∈ added /\ key d = k /\ d_used d = true)) /\
  (forall k, k ∈ snd acc <-> is_Some (fst acc !! k)) /\ NoDup (snd acc).

Lemma merge_kept (added : list directive) d k d' :
  key d' = k /\ (exists d, d ∈ added /\ same_place d' d) /\
    (d_used d' = true -> exists d, d ∈ added /\ key d = k /\ d_used d = true) ->
  key d' = k /\ (exists d0, d0 ∈ (added ++ [d])%list /\ same_place d' d0) /\
    (d_used d' = true -> exists d0, d0 ∈ (added ++ [d])%list /\ key d0 = k /\ d_used d0 = true).
Proof.
  intros (H1 & (d1 & H2 & H3) & H4). split_and!; [done | |].
  - exists d1. rewrite elem_of_app. auto.
  - intros (d2 & H5 & H6 & H7)%H4. exists d2. rewrite elem_of_app. auto.
Qed.

Lemma merge_known added m order d old :
  merge_inv added (m, order) -> m !! key d = Some old ->
  merge_inv (added ++ [d])%list (<[key d := if d_used d then set_used old else old]> m, order).
Proof.
  unfold merge_inv. cbn [fst snd]. intros (Ha & Hm & Ho & Hn) Hold.
  destruct (Hm _ _ Hold) as (Hk & (d0 & Hd0 & Hs0) & Hu0).
  set (new := if d_used d then set_used old else old).
  assert (same_place new old) as Hnew by (unfold new; by destruct (d_used d)).
  assert (d_used old = true -> d_used new = true) as Hused by (unfold new; by destruct (d_used d)). split_and!.
  - intros d' [Hin | ->%list_elem_of_singleton]%elem_of_app.
    + destruct (Ha d' Hin) as (x & Hx & Hxu). destruct (decide (key d' = key d)) as [He|He].
      * exists new. rewrite He, lookup_insert_eq. rewrite He, Hold in Hx. injection Hx as <-. auto.
      * exists x. by rewrite lookup_insert_ne.
    + exists new. rewrite lookup_insert_eq. split; [done |]. unfold new. by intros ->.
  - intros k d'. rewrite lookup_insert_Some. intros [[<- <-] | [Hne Hd']].
    + split_and!; [by rewrite (key_same _ _ Hnew) | |].
      * exists d0. rewrite elem_of_app. split; [by left | by eapply same_place_trans].
      * unfold new. destruct (d_used d) eqn:Hud.
        -- intros _. exists d. rewrite elem_of_app, list_elem_of_singleton. auto.
        -- intros (d1 & H1 & H2 & H3)%Hu0. exists d1. rewrite elem_of_app. auto.
    + by apply merge_kept, Hm.
  - intros k. rewrite Ho. destruct (decide (k = key d)) as [->|Hne].
    + rewrite lookup_insert_eq, Hold. split; intros; by eexists.
    + by rewrite lookup_insert_ne.
  - done.
Qed.

Lemma merge_new added m order d :
  merge_inv added (m, order) -> m !! key d = None ->
  merge_inv (added ++ [d])%list (<[key d := d]> m, (order ++ [key d])%list).
Proof.
  unfold merge_inv. cbn [fst snd]. intros (Ha & Hm & Ho & Hn) Hold. split_and!.
  - intros d' [Hin | ->%list_elem_of_singleton]%elem_of_app.
    + destruct (Ha d' Hin) as (x & Hx & Hxu). exists x. rewrite lookup_insert_ne; [done | congruence].
    + exists d. by rewrite lookup_insert_eq.
  - intros k d'. rewrite lookup_insert_Some. intros [[<- <-] | [Hne Hd']]; [|by apply merge_kept, Hm].
    split_and!; [done | |]; [|intros Hud]; exists d; rewrite elem_of_app, list_elem_of_singleton; auto.
  - intros k. rewrite elem_of_app, list_elem_of_singleton, Ho. destruct (decide (k = key d)) as [->|Hne].
    + rewrite lookup_insert_eq. split; [by eexists | auto].
    + rewrite lookup_insert_ne by done. naive_solver.
  - apply NoDup_app. split_and!; [done | | apply NoDup_singleton].
    intros k Hk ->%list_elem_of_singleton. apply Ho in Hk. rewrite Hold in Hk. by destruct Hk.
Qed.

Lemma add_directive_inv added acc d : merge_inv added acc -> merge_inv (added ++ [d]) (add_directive acc d).
Proof.
  destruct acc as [m order]. intros Hi. unfold add_directive.
  destruct (m !! key d) as [old|] eqn:Hold; [by apply merge_known | by apply merge_new].
Qed.

Lemma add_directives_inv added acc ds : merge_inv added acc -> merge_inv (added ++ ds) (fold_left add_directive ds acc).
Proof.
  revert added acc. induction ds as [|d ds IH]; intros added acc Hi; cbn [fold_left]; [by rewrite app_nil_r |].
  replace (added ++ d :: ds)%list with ((added ++ [d]) ++ ds)%list by (by rewrite <- app_assoc).
  by apply IH, add_directive_inv.
Qed.

(** Every finding has its text in the map, and every finding of the map is under
    its text and was added. *)
Definition texts_inv (added : list Finding) (m : gmap string Finding) : Prop :=
  (forall f, f ∈ added -> is_Some (m !! Finding_String f)) /\
  (forall s f, m !! s = Some f -> Finding_String f = s /\ f ∈ added).

Lemma add_findings_inv added m fs : texts_inv added m -> texts_inv (added ++ fs) (fold_left add_finding fs m).
Proof.
  revert added m. induction fs as [|f fs IH]; intros added m Hi; cbn [fold_left]; [by rewrite app_nil_r |].
  replace (added ++ f :: fs)%list with ((added ++ [f]) ++ fs)%list by (by rewrite <- app_assoc). apply IH.
  destruct Hi as [H1 H2]. unfold add_finding. split.
  - intros f' [Hin | ->%list_elem_of_singleton]%elem_of_app; [|rewrite lookup_insert_eq; by eexists].
    destruct (decide (Finding_String f = Finding_String f')) as [->|Hne];
      [rewrite lookup_insert_eq; by eexists | rewrite lookup_insert_ne by done; by apply H1].
  - intros s f'. rewrite lookup_insert_Some. intros [[<- <-] | [_ Hs]].
    + split; [done |]. rewrite elem_of_app, list_elem_of_singleton. auto.
    + destruct (H2 _ _ Hs). split; [done |]. rewrite elem_of_app. auto.
Qed.

Definition merger_inv (as_ : list analysis) (m : merger) : Prop :=
  texts_inv (flat_map a_findings as_) (m_findings m) /\
  merge_inv (flat_map a_directives as_) (m_directives m, m_order m).

Lemma merger_all as_ : merger_inv as_ (fold_left merger_add as_ newMerger).
Proof.
  induction as_ as [|a as_ IH] using rev_ind.
  - split; [split | split_and!]; cbn.
    + by intros f ?%elem_of_nil.
    + intros s f. by rewrite lookup_empty.
    + by intros d ?%elem_of_nil.
    + intros k d. by rewrite lookup_empty.
    + intros k. rewrite lookup_empty. split; [by intros ?%elem_of_nil | by intros [? ?]].
    + apply NoDup_nil_2.
  - rewrite fold_left_app. cbn [fold_left]. destruct IH as [Hf Hd]. unfold merger_add.
    pose proof (add_directives_inv _ _ (a_directives a) Hd) as Hd'.
    destruct (fold_left add_directive (a_directives a) _) as [ds order].
    split; rewrite flat_map_app; cbn [flat_map m_findings m_directives m_order]; rewrite app_nil_r;
      [by apply add_findings_inv | done].
Qed.

(** ** The result *)

Lemma dir_key_inj d d' : key d = key d' -> d_file d = d_file d' /\ d_line d = d_line d'.
Proof.
  unfold key. intros Hk. apply (f_equal (cut_last ":")) in Hk.
  change (":" +:+ ?x) with (String ":" x) in Hk.
  rewrite !(cut_last_app ":") in Hk by apply Itoa_no_colon. injection Hk as Hf Hl. split; [done | by apply Itoa_inj].
Qed.

Lemma suffix_inj (a b s : string) : a +:+ s = b +:+ s -> a = b.
Proof. intros E. apply (f_equal (fun x => trim_suffix x s)) in E. by rewrite !trim_suffix_app in E. Qed.

(** The findings and exceptions after the keys of [l]. *)
Definition settle_inv (ds : gmap string directive) (fs0 : gmap string Finding) (l : list string)
    (acc : gmap string Finding * list Exception) : Prop :=
  (forall s f, fs0 !! s = Some f -> (forall k, s <> k +:+ ":unused") -> fst acc !! s = Some f) /\
  (forall k d, k ∈ l -> ds !! k = Some d ->
     if d_used d then exception d ∈ snd acc else fst acc !! (k +:+ ":unused") = Some (unusedFinding d)) /\
  (forall x, x ∈ snd acc -> exists k d, ds !! k = Some d /\ d_used d = true /\ x = exception d).

Lemma settle_step ds fs0 l acc k : settle_inv ds fs0 l acc -> settle_inv ds fs0 (l ++ [k]) (settle ds acc k).
Proof.
  destruct acc as [fs xs]. unfold settle_inv, settle. cbn [fst snd]. intros (H1 & H2 & H3).
  destruct (ds !! k) as [d|] eqn:Hd.
  2: { split_and!; [done | | done]. intros k' d' [Hin | ->%list_elem_of_singleton]%elem_of_app Hk'; [by apply H2 | congruence]. }
  destruct (d_used d) eqn:Hu; cbn [fst snd].
  - split_and!; [done | |].
    + intros k' d' [Hin | ->%list_elem_of_singleton]%elem_of_app Hk'.
      * specialize (H2 k' d' Hin Hk'). destruct (d_used d'); [|done]. rewrite elem_of_app. by left.
      * assert (d' = d) as -> by congruence. rewrite Hu, elem_of_app, list_elem_of_singleton. by right.
    + intros x [Hin | ->%list_elem_of_singleton]%elem_of_app; [by apply H3 | by exists k, d].
  - split_and!; [| | done].
    + intros s f Hs Hne. rewrite lookup_insert_ne; [by apply H1 | by apply not_eq_sym].
    + intros k' d' Hin Hk'. destruct (decide (k' = k)) as [->|Hne].
      * assert (d' = d) as -> by congruence. by rewrite Hu, lookup_insert_eq.
      * apply elem_of_app in Hin as [Hin | ->%list_elem_of_singleton]; [|done].
        specialize (H2 k' d' Hin Hk'). destruct (d_used d'); [done |].
        rewrite lookup_insert_ne; [done |]. intros E%suffix_inj. congruence.
Qed.

Lemma settle_all ds fs0 l : settle_inv ds fs0 l (fold_left (settle ds) l (fs0, [])).
Proof.
  induction l as [|k l IH] using rev_ind.
  - split_and!; [done | by intros ?? ?%elem_of_nil | by intros ? ?%elem_of_nil].
  - rewrite fold_left_app. by apply settle_step.
Qed.

Lemma result_spec m :
  let r := result m in
  (forall s f, m_findings m !! s = Some f -> (forall k, s <> k +:+ ":unused") -> f ∈ Findings r) /\
  (forall k d, k ∈ m_order m -> m_directives m !! k = Some d ->
     if d_used d then exception d ∈ Exceptions r else unusedFinding d ∈ Findings r) /\
  (forall x, x ∈ Exceptions r -> exists k d, m_directives m !! k = Some d /\ d_used d = true /\ x = exception d).
Proof.
  unfold result. pose proof (settle_all (m_directives m) (m_findings m) (m_order m)) as Hs.
  destruct (fold_left _ _ _) as [fs xs]. destruct Hs as (H1 & H2 & H3). cbn [fst snd Findings Exceptions] in *.
  assert (forall s f, fs !! s = Some f -> f ∈ merge_sort finding_le (map snd (map_to_list fs))) as Hin.
  { intros s f Hf. rewrite merge_sort_Permutation. apply list_elem_of_fmap. exists (s, f).
    split; [done | by apply elem_of_map_to_list]. }
  assert (forall x, x ∈ sortExceptions xs <-> x ∈ xs) as Hx by (intros x; unfold sortExceptions; by rewrite merge_sort_Permutation).
  split_and!.
  - intros s f Hf Hne. by eapply Hin, H1.
  - intros k d Hk Hd. specialize (H2 k d Hk Hd). destruct (d_used d); [by apply Hx | by eapply Hin].
  - intros x Hxin. by apply H3, Hx.
Qed.

(** ** Nothing that the rules find is lost *)

Section Accounting.
Context `{UnicodeQuote}.

(** A text that ends with a full stop, as every message does; the key of an
    unused comment does not. *)
Definition ends_dot (s : string) : Prop := exists t, s = t +:+ ".".

Lemma ends_dot_app a b : ends_dot b -> ends_dot (a +:+ b).
Proof. intros [t ->]. exists (a +:+ t). by rewrite string_app_assoc. Qed.

Lemma ends_dot_not_key s k : ends_dot s -> s <> k +:+ ":unused".
Proof.
  intros [t ->] E. change (":unused") with (":unuse" +:+ "d") in E. rewrite <- string_app_assoc in E.
  assert (forall a b c d, a +:+ String c "" = b +:+ String d "" -> c = d) as Hlast.
  { intros a. induction a as [|x a IH]; intros [|y b] c d; cbn [String.append]; [congruence | | | ].
    - destruct b; discriminate.
    - destruct a; discriminate.
    - intros E'. injection E' as _ E'. by eapply IH. }
  by apply Hlast in E.
Qed.

Lemma finding_text_dot f rf sources : rf ∈ raw_findings sources f -> ends_dot (Finding_String (finding_of f rf)).
Proof.
  unfold raw_findings. intros Hin. apply list_elem_of_In, in_flat_map in Hin as (r & _ & Hin).
  apply in_map_iff in Hin as (nm & <- & _). unfold Finding_String, finding_of, report. cbn [Message rf_msg].
  do 8 apply ends_dot_app. by exists (r_Policy r).
Qed.

(** What a comment gives: a finding whose message ends with a full stop, or a
    directive of the file that is not used yet. *)
Lemma parse_comment_spec f g c :
  match parse_comment f g c with
  | Some (inl b) => ends_dot (Finding_String b)
  | Some (inr d) => d_used d = false /\ d_file d = f_name f
  | None => True
  end.
Proof.
  assert (forall msg, ends_dot msg -> ends_dot (Finding_String (mkFinding (f_name f) (c_line c) RuleDirective msg))) as Hm.
  { intros msg Hd. unfold Finding_String. by do 6 apply ends_dot_app. }
  unfold parse_comment. destruct (match_start _ _); [apply Hm; by eexists "write a privacy comment as a line comment //privacy:..., with no space after //" |].
  destruct (directive_text _) as [[verb rest]|]; [|done].
  destruct (negb _ && negb _); [apply Hm; do 2 apply ends_dot_app; by eexists ". Use //privacy:allow or //privacy:source" |].
  destruct (match cut_byte _ _ with Some _ => _ | None => _ end) as [name idReason].
  destruct ((verb =? "allow")%string && _); [apply Hm; do 4 apply ends_dot_app; by exists "" |].
  destruct ((verb =? "source")%string && _); [apply Hm; do 2 apply ends_dot_app; by eexists ". The kind is client-address" |].
  destruct (id_reason idReason) as [id|];
    [|apply Hm; do 4 apply ends_dot_app; by eexists " needs an ID (PRIV-NN, SEC-NN, b/NNN, or CL NN), a colon, and a reason"].
  destruct (verb =? "source")%string.
  - destruct (docOf f g); [done |]. apply Hm. by eexists "put //privacy:source in the doc comment of a function".
  - by destruct (codeBefore f c).
Qed.

Lemma directives_spec f d : d ∈ snd (parseDirectives f) -> d_used d = false /\ d_file d = f_name f.
Proof.
  unfold parseDirectives, parsed. cbn [snd]. intros (x & Hx & Hd)%list_elem_of_omap.
  apply list_elem_of_omap in Hx as ([g c] & _ & Hp). pose proof (parse_comment_spec f g c) as Hs. cbn [fst snd] in Hp.
  rewrite Hp in Hs. destruct x; [done |]. by injection Hd as ->.
Qed.

Lemma bad_comment_dot f b : b ∈ fst (parseDirectives f) -> ends_dot (Finding_String b).
Proof.
  unfold parseDirectives, parsed. cbn [fst]. intros (x & Hx & Hb)%list_elem_of_omap.
  apply list_elem_of_omap in Hx as ([g c] & _ & Hp). pose proof (parse_comment_spec f g c) as Hs. cbn [fst snd] in Hp.
  rewrite Hp in Hs. destruct x; [|done]. by injection Hb as ->.
Qed.

Lemma judged_inv sources f :
  judge_inv f (snd (parseDirectives f)) (raw_findings sources f) (judged sources f).
Proof. apply judge_all, Forall_forall. intros d Hd. by apply directives_spec in Hd as [? _]. Qed.

(** The directives of a file of the units. *)
Definition in_units (us : list unit_) (u : unit_) (f : fileInfo) (d : directive) : Prop :=
  u ∈ us /\ f ∈ files u /\ d ∈ snd (parseDirectives f).

Lemma Forall2_same_elem l l' d : Forall2 same_place l l' -> d ∈ l' -> exists d0, d0 ∈ l /\ same_place d d0.
Proof.
  intros Hs Hd. induction Hs as [|x y l l' Hxy Hs IH]; [by apply elem_of_nil in Hd |].
  apply elem_of_cons in Hd as [-> | Hd]; [exists x; split; [left | by apply same_place_sym] |].
  destruct (IH Hd) as (d0 & H0 & Hs0). exists d0. split; [by right | done].
Qed.

Lemma Forall2_same_elem_l l l' d : Forall2 same_place l l' -> d ∈ l -> exists d0, d0 ∈ l' /\ same_place d d0.
Proof.
  intros Hs Hd. induction Hs as [|x y l l' Hxy Hs IH]; [by apply elem_of_nil in Hd |].
  apply elem_of_cons in Hd as [-> | Hd]; [exists y; by split; [left |] |].
  destruct (IH Hd) as (d0 & H0 & Hs0). exists d0. split; [by right | done].
Qed.

Lemma elem_of_flat {A B} (g : A -> list B) l y : y ∈ flat_map g l <-> exists x, x ∈ l /\ y ∈ g x.
Proof. rewrite list_elem_of_In, in_flat_map. split; intros (x & Hx & Hy); exists x; by rewrite ?list_elem_of_In in *. Qed.

(** A directive that an analysis returns is one that was parsed, and it is used
    only when it covers a finding of its file. *)
Lemma analyzed_directive u d :
  d ∈ a_directives (analyze u) -> exists f d0, f ∈ files u /\ d0 ∈ snd (parseDirectives f) /\ same_place d d0 /\
    (d_used d = true -> exists rf, rf ∈ raw_findings (sources_of u) f /\ covers rf d0 = true).
Proof.
  unfold analyze. cbn [a_directives]. intros (f & Hf & Hd)%elem_of_flat.
  destruct (judged_inv (sources_of u) f) as (Hs & _ & Hu & _).
  destruct (Forall2_same_elem _ _ _ Hs Hd) as (d0 & Hd0 & Hsd). exists f, d0. split_and!; [done.. |].
  intros (rf & Hrf & Hc)%Hu; [|done]. exists rf. by rewrite <- (covers_same rf d d0).
Qed.

(** Where the result has the comment at the place of [d]: the merger keeps one
    directive of each place. *)
Definition listed (us : list unit_) (d d' : directive) : Prop :=
  d_file d' = d_file d /\ d_line d' = d_line d /\ exists u f d0, in_units us u f d0 /\ same_place d' d0.

Lemma merged_listed us d :
  d ∈ flat_map a_directives (map analyze us) ->
  exists k d', k ∈ m_order (fold_left merger_add (map analyze us) newMerger) /\
    m_directives (fold_left merger_add (map analyze us) newMerger) !! k = Some d' /\
    listed us d d' /\ (d_used d = true -> d_used d' = true).
Proof.
  intros Hd. destruct (merger_all (map analyze us)) as [_ (Ha & Hm & Ho & _)]. cbn [fst snd] in *.
  destruct (Ha d Hd) as (d' & Hl & Hu). exists (key d), d'. split_and!; [by apply Ho; eexists | done | | done].
  destruct (Hm _ _ Hl) as (Hk & (d1 & Hd1 & Hs1) & _). apply dir_key_inj in Hk as [Hfile Hline]. split_and!; [done.. |].
  apply elem_of_flat in Hd1 as (a & Ha1 & Hd1). apply list_elem_of_fmap in Ha1 as (u & -> & Hu1).
  destruct (analyzed_directive u d1 Hd1) as (f & d0 & Hf & Hd0 & Hs0 & _).
  exists u, f, d0. split; [done |]. by eapply same_place_trans.
Qed.

(** What the merger holds after the analyses of the units, and what the result
    makes of it. *)
Definition merged (us : list unit_) : merger := fold_left merger_add (map analyze us) newMerger.

Lemma finding_kept us u x :
  u ∈ us -> x ∈ a_findings (analyze u) -> ends_dot (Finding_String x) ->
  exists y, y ∈ Findings (result (merged us)) /\ Finding_String y = Finding_String x.
Proof.
  intros Hu Hx Hdot. destruct (merger_all (map analyze us)) as [[Ht Hk] _]. fold (merged us) in Ht, Hk.
  destruct (result_spec (merged us)) as (Hrf & _).
  destruct (Ht x) as [y Hy]; [apply elem_of_flat; exists (analyze u); split; [by apply list_elem_of_fmap_2 | done] |].
  exists y. split; [eapply Hrf; [done |]; intros k; by apply ends_dot_not_key | by apply Hk in Hy as [-> _]].
Qed.

Lemma judged_added us u f d :
  u ∈ us -> f ∈ files u -> d ∈ fst (judged (sources_of u) f) -> d ∈ flat_map a_directives (map analyze us).
Proof.
  intros Hu Hf Hd. apply elem_of_flat. exists (analyze u). split; [by apply list_elem_of_fmap_2 |].
  apply elem_of_flat. by exists f.
Qed.

Lemma raw_accounted us u f rf :
  u ∈ us -> f ∈ files u -> rf ∈ raw_findings (sources_of u) f ->
  (exists x, x ∈ Findings (result (merged us)) /\ Finding_String x = Finding_String (finding_of f rf)) \/
  (exists d d', d ∈ snd (parseDirectives f) /\ covers rf d = true /\ listed us d d' /\
     exception d' ∈ Exceptions (result (merged us))).
Proof.
  intros Hu Hf Hin. destruct (judged_inv (sources_of u) f) as (Hs & Hd & _ & _).
  destruct (result_spec (merged us)) as (_ & Hrd & _).
  destruct (Hd rf Hin) as [Hstay | (d & Hdj & Hused & Hc)].
  - left. apply (finding_kept us u); [done | | by eapply finding_text_dot].
    unfold analyze. cbn [a_findings]. rewrite elem_of_app. right. apply elem_of_flat. by exists f.
  - right. destruct (merged_listed us d) as (k & d' & Hko & Hkd & Hl & Hu'); [by eapply judged_added |].
    destruct (Forall2_same_elem _ _ _ Hs Hdj) as (d0 & Hd0 & Hsd). exists d0, d'.
    split_and!; [done | by rewrite <- (covers_same rf d d0) | |].
    + destruct (dir_key_inj _ _ (key_same _ _ Hsd)) as [Hf0 Hl0]. unfold listed in *. by rewrite <- Hf0, <- Hl0.
    + specialize (Hrd k d' Hko Hkd). by rewrite Hu' in Hrd.
Qed.

Lemma exception_earned us x :
  x ∈ Exceptions (result (merged us)) -> exists u f d rf d',
    in_units us u f d /\ rf ∈ raw_findings (sources_of u) f /\ covers rf d = true /\ listed us d d' /\ x = exception d'.
Proof.
  destruct (merger_all (map analyze us)) as [_ (_ & Hm & _ & _)]. fold (merged us) in Hm. cbn [fst snd] in *.
  intros Hx. destruct (result_spec (merged us)) as (_ & _ & Hrx). destruct (Hrx x Hx) as (k & d' & Hkd & Hused & ->).
  destruct (Hm k d' Hkd) as (Hkey & (d1 & Hd1 & Hs1) & Hd). destruct (Hd Hused) as (d & Hdin & Hdk & Hdu).
  apply elem_of_flat in Hdin as (a & Hain & Hda). apply list_elem_of_fmap in Hain as (u & -> & Hu).
  destruct (analyzed_directive u d Hda) as (f & d0 & Hf & Hd0 & Hsd & Hcov). destruct (Hcov Hdu) as (rf & Hrfin & Hc).
  exists u, f, d0, rf, d'. split_and!; [by split_and! | done | done | | done].
  apply elem_of_flat in Hd1 as (a1 & Ha1 & Hd1). apply list_elem_of_fmap in Ha1 as (u1 & -> & Hu1).
  destruct (analyzed_directive u1 d1 Hd1) as (f1 & d2 & Hf1 & Hd2 & Hs2 & _).
  destruct (dir_key_inj d' d0) as [Hf0 Hl0]; [by rewrite Hkey, <- Hdk; apply key_same |]. split_and!; [done.. |].
  exists u1, f1, d2. split; [by split_and! | by eapply same_place_trans].
Qed.

Lemma comment_settled us u f d :
  in_units us u f d -> exists d', listed us d d' /\
    (exception d' ∈ Exceptions (result (merged us)) \/ unusedFinding d' ∈ Findings (result (merged us))).
Proof.
  intros (Hu & Hf & Hd). destruct (judged_inv (sources_of u) f) as (Hs & _).
  destruct (result_spec (merged us)) as (_ & Hrd & _).
  destruct (Forall2_same_elem_l _ _ _ Hs Hd) as (d1 & Hd1 & Hsd).
  destruct (merged_listed us d1) as (k & d' & Hko & Hkd & (Hf1 & Hl1 & Hin1) & _); [by eapply judged_added |].
  exists d'. destruct (dir_key_inj _ _ (key_same _ _ Hsd)) as [Hf0 Hl0]. split; [split_and!; [congruence.. | done] |].
  specialize (Hrd k d' Hko Hkd). destruct (d_used d'); [by left | by right].
Qed.

(** C27. The lint loses nothing. Whatever a rule finds in any file for any system is
    a finding of the result, or a comment of that file whose rule and lines
    cover it is in the list of exceptions; every entry of the list is a comment
    that allowed something; every comment is in the list or reported as
    unneeded; and every comment that is not valid is reported. So a run without
    findings means that every break of a rule has a listed comment. *)
Theorem lint_accounts_all us :
  (forall u f rf, u ∈ us -> f ∈ files u -> rf ∈ raw_findings (sources_of u) f ->
     (exists x, x ∈ Findings (Run us) /\ Finding_String x = Finding_String (finding_of f rf)) \/
     (exists d d', d ∈ snd (parseDirectives f) /\ covers rf d = true /\ listed us d d' /\
        exception d' ∈ Exceptions (Run us))) /\
  (forall x, x ∈ Exceptions (Run us) -> exists u f d rf d',
     in_units us u f d /\ rf ∈ raw_findings (sources_of u) f /\ covers rf d = true /\
     listed us d d' /\ x = exception d') /\
  (forall u f d, in_units us u f d -> exists d', listed us d d' /\
     (exception d' ∈ Exceptions (Run us) \/ unusedFinding d' ∈ Findings (Run us))) /\
  (forall u f b, u ∈ us -> f ∈ files u -> b ∈ fst (parseDirectives f) ->
     exists x, x ∈ Findings (Run us) /\ Finding_String x = Finding_String b).
Proof.
  change (Run us) with (result (merged us)).
  split; [apply raw_accounted |]. split; [apply exception_earned |]. split; [apply comment_settled |].
  intros u f b Hu Hf Hb. apply (finding_kept us u); [done | | by eapply bad_comment_dot].
  unfold analyze. cbn [a_findings]. rewrite elem_of_app. left. apply elem_of_flat. by exists f.
Qed.
End Accounting.

(** ** Examples *)

Module LintExamples.
#[local] Instance no_quote : UnicodeQuote := fun s => s.

(** A function whose line 3 calls http.Get, with a comment on line 2. *)
Definition http_get : node :=
  Node 4 3 3 None KCall
    [Node 5 3 3 None (KSelector None)
       [Node 6 3 3 None (KIdent "http" None) [];
        Node 7 3 3 None (KIdent "Get" (Some (OFunc (mkFunc "net/http.Get" "Get" false 1 [])))) []];
     Node 8 3 3 None (KBasicLit (Some "https://example.com")) []].

Definition file0 (comment_text : string) : fileInfo :=
  mkFile "a.go" (Node 1 1 4 None KOther [Node 3 3 3 None KExprStmt [http_get]])
    (String newline (comment_text +:+ String newline "")) [[mkComment comment_text 2 1]]
    [mkFuncDecl "f" None (Some "m.f") None 1 4 0 99].

(** Without a comment the call is a finding; with one that allows it, an
    exception; a comment for another rule leaves the finding and is unneeded; a
    comment without a reason is a finding of its own. *)
Example one_call :
  let found c := map (fun x => (Line x, FRule x)) (Findings (Run [[[file0 c]]])) in
  let allowed c := map x_Rule (Exceptions (Run [[[file0 c]]])) in
  found "// plain" = [(3, "outbound")]%Z /\ allowed "// plain" = [] /\
  found "//privacy:allow outbound CL 1: the update check" = [] /\
  allowed "//privacy:allow outbound CL 1: the update check" = ["outbound"] /\
  found "//privacy:allow client-address CL 1: no" = [(2, "directive"); (3, "outbound")]%Z /\
  found "//privacy:allow outbound CL 1:" = [(2, "directive"); (3, "outbound")]%Z.
Proof. vm_compute. split_and!; reflexivity. Qed.

(** One system's pass uses the comment, the other does not see the call: the
    comment counts as used. *)
Example two_systems :
  let quiet := mkFile "a.go" (Node 1 1 4 None KOther []) (f_src (file0 "")) [[mkComment "//privacy:allow outbound CL 1: x" 2 1]] [] in
  let r := Run [[[file0 "//privacy:allow outbound CL 1: x"]]; [[quiet]]] in
  Findings r = [] /\ map x_ID (Exceptions r) = ["CL 1"].
Proof. vm_compute. split; reflexivity. Qed.
End LintExamples.
