(* ===== verification/LintLoad.v ===== *)
(** * Loading for the privacy lint (internal/privacylint/load.go, Run in privacylint.go)

    From the go command to the units that [Lint] analyses: the list of packages,
    the directory of the module, the index of export data with its cache, and
    the loading of every package of the module. What the go command, the file
    system, the parser and the type checker answer is the record [LoadEnv]. *)

From stdpp Require Import base numbers list gmap strings.
From Stdlib Require Import Ascii ZArith Lia.
From S2P Require Import Prelude.
From S2P Require Import GoStrings.
From S2P Require Import GoConv.
From S2P Require Import GoNet.
From S2P Require Import LintRules.
From S2P Require Import LintDirective.
From S2P Require Import Lint.

Open Scope string_scope.

(** ** What the go command answers *)

(** [listedPackage]: the module as its directory and whether it is the main
    one. *)
Record listedPackage := mkListed {
  ImportPath : string;
  Dir : string;
  GoFiles : list string;
  Export : string;
  DepOnly : bool;
  Module_ : option (string * bool);
  Error : option string;
}.

(** A file that was parsed but not yet type-checked. *)
Record parsedFile := mkParsed { pf_name : string; pf_src : string }.

(** [le_list] is the go command: its error, or what the decoder reads from its
    output, each a package or an error. [le_check] is the type checker on the
    files of a package: its error, or the files with what it knows. *)
Record LoadEnv := mkLoadEnv {
  le_abs : string -> string + string;
  le_gomod : string -> bool;
  le_list : string -> string -> string -> string + list (string + listedPackage);
  le_read : string -> string + string;
  le_rel : string -> string -> string + string;
  le_parse : string -> string -> option string;
  le_check : string -> string -> list parsedFile -> string + list fileInfo;
}.

(** The loop over the decoder. *)
Fixpoint decode (l : list (string + listedPackage)) : string + list listedPackage :=
  match l with
  | [] => inr []
  | inl e :: _ => inl ("go list output: " +:+ e)
  | inr p :: l' =>
      match Error p with
      | Some e => inl ("go list: " +:+ ImportPath p +:+ ": " +:+ e)
      | None => match decode l' with inl e => inl e | inr ps => inr (p :: ps) end
      end
  end.

Definition goList (env : LoadEnv) (dir goos pattern : string) : string + list listedPackage :=
  match le_list env dir goos pattern with
  | inl e => inl ("go list (GOOS=" +:+ goos +:+ ") failed: " +:+ e)
  | inr out => decode out
  end.

(** ** The directory of the module *)

(** [filepath.Dir] of an absolute path in its shortest form. *)
Definition parent (d : string) : string :=
  match cut_last "/" d with Some (u, _) => if (u =? "")%string then "/" else u | None => "." end.

(** The loop of [findModuleRoot] from the directory [d]; [None] when the fuel
    runs out. *)
Fixpoint find_root (gomod : string -> bool) (fuel : nat) (abs d : string) : option (string + string) :=
  match fuel with
  | O => None
  | S fuel' =>
      if gomod d then Some (inr d)
      else if (parent d =? d)%string then Some (inl ("no go.mod in " +:+ abs +:+ " or a directory above it"))
      else find_root gomod fuel' abs (parent d)
  end.

Definition findModuleRoot (env : LoadEnv) (fuel : nat) (dir : string) : option (string + string) :=
  match le_abs env dir with
  | inl e => Some (inl e)
  | inr abs => find_root (le_gomod env) fuel abs abs
  end.

(** ** The index of export data *)

Record exportIndex := mkIndex { x_dir : string; x_goos : string; x_listed : list listedPackage; x_exports : gmap string string }.

Definition add_export (m : gmap string string) (p : listedPackage) : gmap string string :=
  if (Export p =? "")%string then m else <[ImportPath p := Export p]> m.

Definition index_add (pkgs : list listedPackage) (x : exportIndex) : exportIndex :=
  mkIndex (x_dir x) (x_goos x) (x_listed x) (fold_left add_export pkgs (x_exports x)).

(** [exportIndex.file]: the export data of a package, asked for once; the last
    value is whether the go command ran. *)
Definition index_file (env : LoadEnv) (path : string) (x : exportIndex) : exportIndex * (string + string) * bool :=
  match x_exports x !! path with
  | Some file => (x, inr file, false)
  | None =>
      match goList env (x_dir x) (x_goos x) path with
      | inl e => (x, inl e, true)
      | inr pkgs =>
          let x := index_add pkgs x in
          (x, match x_exports x !! path with Some file => inr file | None => inl ("no export data for " +:+ path) end, true)
      end
  end.

(** The indexes of the process, by directory and system. *)
Abbreviation indexes := (gmap (string * string) exportIndex).

(** [indexFor]; the last value is whether the go command ran. *)
Definition indexFor (env : LoadEnv) (fuel : nat) (dir goos : string) (m : indexes) : option (indexes * (string + exportIndex) * bool) :=
  match findModuleRoot env fuel dir with
  | None => None
  | Some (inl e) => Some (m, inl e, false)
  | Some (inr abs) =>
      match m !! (abs, goos) with
      | Some x => Some (m, inr x, false)
      | None =>
          match goList env abs goos "./..." with
          | inl e => Some (m, inl e, true)
          | inr listed =>
              let x := index_add listed (mkIndex abs goos listed ∅) in
              Some (<[(abs, goos) := x]> m, inr x, true)
          end
      end
  end.

(** ** Loading *)

Definition parseFile (env : LoadEnv) (name src : string) : string + parsedFile :=
  match le_parse env name src with Some e => inl e | None => inr (mkParsed name src) end.

Definition checkPackage (env : LoadEnv) (goos path : string) (fs : list parsedFile) : string + list fileInfo :=
  match le_check env goos path fs with inl e => inl ("type check " +:+ path +:+ " failed: " +:+ e) | inr l => inr l end.

(** The first error of a list of calls, or all their values. *)
Fixpoint all_or_error {A B} (f : A -> string + B) (l : list A) : string + list B :=
  match l with
  | [] => inr []
  | a :: l' =>
      match f a with
      | inl e => inl e
      | inr b => match all_or_error f l' with inl e => inl e | inr bs => inr (b :: bs) end
      end
  end.

Definition in_module (p : listedPackage) : bool :=
  negb (DepOnly p) && match Module_ p with Some (_, main) => main | None => false end.

Definition module_dir (p : listedPackage) : string := match Module_ p with Some (d, _) => d | None => "" end.

(** One file of a package: read, and parsed under its path from the root of the
    module. *)
Definition load_file (env : LoadEnv) (p : listedPackage) (name : string) : string + parsedFile :=
  let path := Dir p +:+ "/" +:+ name in
  match le_read env path with
  | inl e => inl e
  | inr src => match le_rel env (module_dir p) path with inl e => inl e | inr rel => parseFile env rel src end
  end.

Definition load_package (env : LoadEnv) (goos : string) (p : listedPackage) : string + list fileInfo :=
  match all_or_error (load_file env p) (GoFiles p) with
  | inl e => inl e
  | inr fs => checkPackage env goos (ImportPath p) fs
  end.

(** [loadModule]. *)
Definition loadModule (env : LoadEnv) (fuel : nat) (dir goos : string) (m : indexes) : option (indexes * (string + unit_)) :=
  match indexFor env fuel dir goos m with
  | None => None
  | Some (m, inl e, _) => Some (m, inl e)
  | Some (m, inr x, _) => Some (m, all_or_error (load_package env goos) (List.filter in_module (x_listed x)))
  end.

(** [loadFiles]: the given sources as one package, in the order of their
    names. *)
Definition loadFiles (env : LoadEnv) (fuel : nat) (dir goos pkgPath : string) (sources : gmap string string) (m : indexes)
    : option (indexes * (string + unit_)) :=
  match indexFor env fuel dir goos m with
  | None => None
  | Some (m, inl e, _) => Some (m, inl e)
  | Some (m, inr x, _) =>
      Some (m, match all_or_error (fun name => parseFile env name (default "" (sources !! name)))
                       (sort_strings (map fst (map_to_list sources))) with
               | inl e => inl e
               | inr fs => match checkPackage env goos pkgPath fs with inl e => inl e | inr p => inr [p] end
               end)
  end.

Definition DefaultGOOS (host : string) : list string := if (host =? "windows")%string then ["windows"] else [host; "windows"].

Section Run.
Context `{UnicodeQuote}.

(** The loop of [Run] over the systems, with the merger. *)
Fixpoint run_systems (env : LoadEnv) (fuel : nat) (dir : string) (goos : list string) (m : indexes) (acc : merger)
    : option (indexes * (string + merger)) :=
  match goos with
  | [] => Some (m, inr acc)
  | g :: goos' =>
      match loadModule env fuel dir g m with
      | None => None
      | Some (m, inl e) => Some (m, inl e)
      | Some (m, inr u) => run_systems env fuel dir goos' m (merger_add acc (analyze u))
      end
  end.

(** [Run] and [CheckFiles]. *)
Definition RunModule (env : LoadEnv) (fuel : nat) (host dir : string) (goos : list string) (m : indexes)
    : option (indexes * (string + Result)) :=
  match run_systems env fuel dir (match goos with [] => DefaultGOOS host | _ => goos end) m newMerger with
  | None => None
  | Some (m, inl e) => Some (m, inl e)
  | Some (m, inr acc) => Some (m, inr (result acc))
  end.

Definition CheckFiles (env : LoadEnv) (fuel : nat) (host dir pkgPath : string) (sources : gmap string string) (m : indexes)
    : option (indexes * (string + Result)) :=
  match loadFiles env fuel dir host pkgPath sources m with
  | None => None
  | Some (m, inl e) => Some (m, inl e)
  | Some (m, inr u) => Some (m, inr (result (merger_add newMerger (analyze u))))
  end.
End Run.

(** ** The root of the module *)

(** A directory and those above it, nearest first. *)
Fixpoint ancestors (n : nat) (d : string) : list string :=
  match n with
  | O => []
  | S n' => d :: (if (parent d =? d)%string then [] else ancestors n' (parent d))
  end.

Lemma parent_shorter d :
  has_prefix "/" d = true -> parent d <> d ->
  has_prefix "/" (parent d) = true /\ (String.length (parent d) < String.length d)%nat.
Proof.
  intros [t ->]%has_prefix_spec Hne. unfold parent in *.
  destruct (cut_last "/" ("/" +:+ t)) as [[u v]|] eqn:Hc.
  - apply cut_last_Some in Hc as [Hd _]. destruct (String.eqb_spec u "") as [->|Hu].
    + split; [done |]. cbn [String.append String.length]. destruct t; [done | simpl; lia].
    + destruct u as [|c u]; [done |]. cbn [String.append] in Hd. injection Hd as <- Hd. split; [done |].
      rewrite Hd. cbn [String.append String.length]. rewrite string_length_app. simpl. lia.
  - apply cut_last_None in Hc. by apply no_byte_cons in Hc as [? _].
Qed.

Lemma find_root_ancestors gomod n abs d :
  has_prefix "/" d = true -> (String.length d < n)%nat ->
  find_root gomod n abs d =
    Some match List.find gomod (ancestors n d) with
         | Some r => inr r
         | None => inl ("no go.mod in " +:+ abs +:+ " or a directory above it")
         end.
Proof.
  revert d. induction n as [|n IH]; intros d Hd Hlen; [lia |]. cbn [find_root ancestors List.find].
  destruct (gomod d); [done |]. destruct (String.eqb_spec (parent d) d) as [E|E]; [done |].
  destruct (parent_shorter d Hd E) as [Hp Hl]. rewrite IH by (done || lia). done.
Qed.

(** ** Everything is loaded *)

Lemma all_or_error_ok {A B} (f : A -> string + B) l bs :
  all_or_error f l = inr bs <-> Forall2 (fun a b => f a = inr b) l bs.
Proof.
  revert bs. induction l as [|a l IH]; intros bs; cbn [all_or_error].
  - split; [intros [= <-]; constructor | by intros ->%Forall2_nil_inv_l].
  - split.
    + destruct (f a) as [|b] eqn:Ha; [done |]. destruct (all_or_error f l) as [|bs'] eqn:Hl; [done |].
      intros [= <-]. constructor; [done | by apply IH].
    + intros (b & bs' & Ha & Hl & ->)%Forall2_cons_inv_l. rewrite Ha. apply IH in Hl. by rewrite Hl.
Qed.

(** The cached list of a module is the one that the go command gave. *)
Definition indexes_ok (env : LoadEnv) (m : indexes) : Prop :=
  forall abs goos x, m !! (abs, goos) = Some x -> goList env abs goos "./..." = inr (x_listed x).

Lemma indexFor_ok env fuel dir goos m m' r ran :
  indexes_ok env m -> indexFor env fuel dir goos m = Some (m', r, ran) ->
  indexes_ok env m' /\
  forall x, r = inr x -> exists abs, findModuleRoot env fuel dir = Some (inr abs) /\ goList env abs goos "./..." = inr (x_listed x) /\
    m' !! (abs, goos) = Some x.
Proof.
  intros Hm. unfold indexFor. destruct (findModuleRoot env fuel dir) as [[e|abs]|] eqn:Hr; [by intros [= <- <- <-] | |done].
  destruct (m !! (abs, goos)) as [x|] eqn:Hx.
  { intros [= <- <- <-]. split; [done |]. intros x' [= <-]. exists abs. split_and!; [done | by apply Hm | done]. }
  destruct (goList env abs goos "./...") as [e|listed] eqn:Hg; intros [= <- <- <-]; [done |]. split.
  - intros abs' goos' x'. destruct (decide ((abs', goos') = (abs, goos))) as [[= -> ->]|Hne].
    + rewrite lookup_insert_eq. by intros [= <-].
    + rewrite lookup_insert_ne by (by apply not_eq_sym). apply Hm.
  - intros x' [= <-]. exists abs. split_and!; [done | done | apply lookup_insert_eq].
Qed.

(** A file of a package as it was read, and a package with all its files as the
    type checker returns it. *)
Definition file_loaded (env : LoadEnv) (p : listedPackage) (name : string) (pf : parsedFile) : Prop :=
  let path := Dir p +:+ "/" +:+ name in
  le_read env path = inr (pf_src pf) /\ le_rel env (module_dir p) path = inr (pf_name pf) /\
  le_parse env (pf_name pf) (pf_src pf) = None.

Definition package_loaded (env : LoadEnv) (goos : string) (p : listedPackage) (fs : list fileInfo) : Prop :=
  exists parsed, Forall2 (file_loaded env p) (GoFiles p) parsed /\ le_check env goos (ImportPath p) parsed = inr fs.

Lemma load_package_ok env goos p fs : load_package env goos p = inr fs -> package_loaded env goos p fs.
Proof.
  unfold load_package, package_loaded, checkPackage. destruct (all_or_error (load_file env p) (GoFiles p)) as [|parsed] eqn:Hp; [done |].
  destruct (le_check env goos (ImportPath p) parsed) eqn:Hc; [done |]. intros [= <-]. exists parsed. split; [|done].
  apply all_or_error_ok in Hp. eapply Forall2_impl; [exact Hp |]. intros name pf. unfold load_file, file_loaded, parseFile.
  destruct (le_read env _); [done |]. destruct (le_rel env _ _) as [|rel]; [done |]. destruct (le_parse env rel _) eqn:Hpa; [done |].
  by intros [= <-].
Qed.

(** What a system's unit is: every package of the main module that the go command
    lists, with every one of its files. *)
Definition unit_loaded (env : LoadEnv) (abs goos : string) (u : unit_) : Prop :=
  exists listed, goList env abs goos "./..." = inr listed /\ Forall2 (package_loaded env goos) (List.filter in_module listed) u.

Lemma loadModule_ok env fuel dir goos m m' u :
  indexes_ok env m -> loadModule env fuel dir goos m = Some (m', inr u) ->
  indexes_ok env m' /\ exists abs, findModuleRoot env fuel dir = Some (inr abs) /\ unit_loaded env abs goos u.
Proof.
  intros Hm. unfold loadModule. destruct (indexFor env fuel dir goos m) as [[[m1 [e|x]] ran]|] eqn:Hi; [done | |done].
  destruct (indexFor_ok _ _ _ _ _ _ _ _ Hm Hi) as [Hm1 Hx]. destruct (Hx x eq_refl) as (abs & Hr & Hg & _).
  intros [= <- Hu]. split; [done |]. exists abs. split; [done |]. exists (x_listed x). split; [done |].
  apply all_or_error_ok in Hu. eapply Forall2_impl; [exact Hu |]. apply load_package_ok.
Qed.

Section Loaded.
Context `{UnicodeQuote}.

Lemma run_systems_ok env fuel dir goos m m' acc acc' :
  indexes_ok env m -> run_systems env fuel dir goos m acc = Some (m', inr acc') ->
  exists units, acc' = fold_left merger_add (map analyze units) acc /\
    Forall2 (fun g u => exists abs, findModuleRoot env fuel dir = Some (inr abs) /\ unit_loaded env abs g u) goos units.
Proof.
  revert m acc. induction goos as [|g goos IH]; intros m acc Hm; cbn [run_systems].
  - intros [= _ <-]. by exists [].
  - destruct (loadModule env fuel dir g m) as [[m1 [e|u]]|] eqn:Hl; [done | |done].
    destruct (loadModule_ok _ _ _ _ _ _ _ Hm Hl) as (Hm1 & Hu). intros Hrun.
    destruct (IH m1 _ Hm1 Hrun) as (units & -> & Hunits). exists (u :: units). split; [done |]. by constructor.
Qed.

(** The systems of a run. *)
Definition systems (host : string) (goos : list string) : list string := match goos with [] => DefaultGOOS host | _ => goos end.

(** No file of the module escapes the lint. A run that gives a result has, for
    each system, loaded every package of the main module that the go command
    lists for it, each with every one of its Go files, read from its directory,
    parsed under its path from the root of the module and type-checked; and the
    result is that of [Run] on exactly these units. Any file that cannot be
    read, parsed or type-checked makes the run fail. *)
Theorem lint_loads_all env fuel host dir goos m m' res :
  indexes_ok env m -> RunModule env fuel host dir goos m = Some (m', inr res) ->
  exists abs units, findModuleRoot env fuel dir = Some (inr abs) /\
    Forall2 (unit_loaded env abs) (systems host goos) units /\ res = Run units.
Proof.
  intros Hm. unfold RunModule. fold (systems host goos).
  destruct (run_systems env fuel dir (systems host goos) m newMerger) as [[m1 [e|acc]]|] eqn:Hr; [done | |done].
  intros [= <- <-]. destruct (run_systems_ok _ _ _ _ _ _ _ _ Hm Hr) as (units & -> & Hu).
  assert (exists g rest, systems host goos = g :: rest) as (g & rest & Hg).
  { unfold systems, DefaultGOOS. destruct goos; [destruct (host =? "windows")%string |]; eauto. }
  assert (exists abs, findModuleRoot env fuel dir = Some (inr abs)) as [abs Habs].
  { rewrite Hg in Hu. apply Forall2_cons_inv_l in Hu as (? & ? & (abs & ? & _) & _ & _). by exists abs. }
  exists abs, units. split; [done |]. split; [|done]. eapply Forall2_impl; [exact Hu |].
  intros g' u (abs' & Habs' & Hl). by replace abs with abs' by congruence.
Qed.

(** C15. The search for the root ends, and finds the nearest directory with a go.mod:
    on an absolute path its steps are at most as many as the path is long. *)
Theorem module_root_nearest env fuel dir abs :
  le_abs env dir = inr abs -> has_prefix "/" abs = true -> (String.length abs < fuel)%nat ->
  findModuleRoot env fuel dir = Some match List.find (le_gomod env) (ancestors fuel abs) with
                                     | Some r => inr r
                                     | None => inl ("no go.mod in " +:+ abs +:+ " or a directory above it")
                                     end /\
  (forall d, d ∈ ancestors fuel abs -> d <> "/" -> parent d ∈ ancestors fuel abs).
Proof.
  intros Ha Hp Hf. unfold findModuleRoot. rewrite Ha. split; [by apply find_root_ancestors |].
  clear Ha. revert abs Hp Hf. induction fuel as [|n IH]; intros abs Hp Hf d; [lia |]. cbn [ancestors].
  destruct (String.eqb_spec (parent abs) abs) as [E|E].
  - intros ->%list_elem_of_singleton _. rewrite E. by left.
  - destruct (parent_shorter abs Hp E) as [Hp' Hl]. intros [->|Hd]%elem_of_cons Hne.
    + right. destruct n as [|n]; [lia |]. by left.
    + right. apply IH; [done | lia | done | done].
Qed.
End Loaded.

(** ** Examples *)

Module LintLoadExamples.
#[local] Instance no_quote : UnicodeQuote := fun s => s.

(** A module with one package of two files in /src, and a dependency. *)
Definition pkg_main : listedPackage := mkListed "m/p" "/src/p" ["a.go"; "b.go"] "p.x" false (Some ("/src", true)) None.
Definition pkg_dep : listedPackage := mkListed "dep" "/cache/dep" ["d.go"] "d.x" true None None.

Definition env0 : LoadEnv :=
  mkLoadEnv (fun d => inr ("/src/" +:+ d)) (fun d => (d =? "/src")%string)
    (fun _ _ _ => inr [inr pkg_dep; inr pkg_main]) (fun p => inr ("text of " +:+ p))
    (fun root p => inr (drop_bytes (String.length root + 1) p)) (fun _ _ => None)
    (fun _ _ fs => inr (map (fun pf => mkFile (pf_name pf) (Node 0 1 1 None KOther []) (pf_src pf) [] []) fs)).

Lemma lint_loads_all_witness :
  exists m' res, RunModule env0 20 "linux" "p" [] ∅ = Some (m', inr res) /\
  exists abs units, findModuleRoot env0 20 "p" = Some (inr abs) /\ Forall2 (unit_loaded env0 abs) (systems "linux" []) units /\ res = Run units.
Proof.
  assert (indexes_ok env0 ∅) as Hm by (intros abs goos x Hx; by rewrite lookup_empty in Hx).
  assert (match RunModule env0 20 "linux" "p" [] ∅ with Some (_, inr _) => True | _ => False end) as Hrun by (vm_compute; exact I).
  destruct (RunModule env0 20 "linux" "p" [] ∅) as [[m' [e|res]]|] eqn:Hr; [destruct Hrun | | destruct Hrun].
  exists m', res. split; [reflexivity |]. exact (lint_loads_all env0 20 "linux" "p" [] ∅ m' res Hm Hr).
Defined.

Lemma module_root_nearest_witness : findModuleRoot env0 20 "p/q" = Some (inr "/src").
Proof.
  rewrite (proj1 (module_root_nearest env0 20 "p/q" "/src/p/q" eq_refl eq_refl ltac:(simpl; lia))). vm_compute. reflexivity.
Defined.
End LintLoadExamples.
